(* ===== verification/_CoqProject ===== *)
-Q . S2P
Prelude.v
GoStrings.v
GoPath.v
GoTime.v
Sha256.v
DMail.v
Router.v
Bloom.v
Provider.v
Breaker.v
Improvement.v
Prog.v
World.v
DeliveryStore.v
ErrorQueue.v
Deliver.v
Safety.v
StoreSafety.v
StoreSpec.v
DeliverSafety.v
Complete.v
Setup.v
SetupSafety.v
Race.v
Daemon.v
DaemonSafety.v
DaemonRun.v
RunSafety.v
RunLoop.v
RunIdle.v
FilterSafety.v
Events.v
Files.v
EventStore.v
Emitter.v
Cutover.v
StateDirs.v
ConfigFile.v
Insight.v
Policies.v
Skills.v
Metrics.v
Wiring.v
WiringSafety.v
Startup.v
Status.v
Report.v
Doctor.v
Unified.v
Shell.v
MCP.v
ArchiveIndex.v
Maintenance.v
CommandLine.v
InitCommand.v
Contract.v
Console.v
Telemetry.v
Commands.v
Printed.v
QueueSafety.v
Findings.v
