(* ===== verification/Prelude.v ===== *)
(** * phonewave: a verification development

    phonewave is a courier daemon.  Tools in a repository declare in
    [skills/dmail-sendable/SKILL.md] and [skills/dmail-readable/SKILL.md]
    which kinds of D-Mail they produce and consume; [phonewave init], [add],
    [remove] and [sync] scan these files and derive a routing table; [phonewave
    run] watches the outboxes and copies each D-Mail into the inboxes its
    route, its [targets] field and its correction metadata select, through a
    staging table, a dedup table and an error queue in SQLite.

    ** Layout

    Files are listed in dependency order.  Go names are kept.

    Language and library: [Prelude] (errors, results, machine integers,
    tactics, hint databases), [GoStrings], [GoPath], [GoTime] (the parts of
    [strings], [strconv], [path/filepath] and [time] the sources use, with
    their lemmas), [Sha256] (SHA-256 itself, for [ContentIdempotencyKey]).

    Pure components:
    - [DMail]: [domain/delivery.go], [domain/dmail_filter.go],
      [domain/idempotency_key.go] and [ParseSkillFrontmatter] of
      [session/scanner.go].  The YAML decoder and [%q] quoting are a class of
      parameters, [External].
    - [Router]: [domain/router.go] and [domain/config.go].
    - [Bloom]: [domain/bloom_filter.go], at 64-bit width, FNV-1a included;
      the floating-point sizing formulas are a parameter.
    - [Provider], [Breaker]: [domain/provider_state.go],
      [domain/retry_backoff.go], [domain/delivery_error.go],
      [session/classify_delivery_error.go], [platform/circuit_breaker.go].
    - [Improvement]: [domain/improvement.go], [domain/routing_policy.go],
      [harness/policy/delivery.go].
    - [Metrics]: [domain/metrics.go].

    The delivery pipeline is concurrent (an event worker, a pool of retry
    tasks, one scan per outbox) and crash-prone, so its programs are
    resumptions ([Prog]): a sequence of atomic actions, one per system call or
    SQL transaction, with pure code between.  [World] holds all the shared
    state, and an oracle for what the program does not control: which
    operation fails and how, the clock, the suffixes of temporary files, how
    much of a failing write reached the disk.
    - [DeliveryStore]: [session/delivery_store.go],
      [session/delivery_dedup_store.go], [atomicWrite]; the ports of
      [usecase/port/port.go] are the classes [DeliveryStore] and
      [DeliveryDedupStore], and the SQLite stores their instances.
    - [ErrorQueue]: [session/error_queue_store.go].
    - [Deliver]: [session/deliver.go], against the two classes.
    - [Daemon]: [session/daemon_deliver.go], [session/scan_deliver.go], the
      goroutine bodies of [session/daemon_runner.go], [session/daemon_session.go]
      and [session/delivery_log.go].
    - [DaemonRun]: [Daemon.Run] of [session/daemon_runner.go] from its first
      line to its return, with [session/delivery_filter.go]: one state for the
      main goroutine, the event worker behind its buffered channel, the tasks
      of the current pool group, the timers and the clock, and a function
      [step] whose label says who moves; [sessions] runs one daemon process
      after the other over what is left on disk.
    - [Setup]: [session/scanner.go], [session/setup.go],
      [session/daemon_setup.go], [session/crosscheck.go].
    - [Events]: [domain/event.go] and [usecase/policy.go].  [EventStore]:
      [eventsource/store_file.go], over the same file system; [Emitter]:
      [domain/delivery_aggregate.go], [usecase/emitter.go] and
      [eventsource/seq_counter.go], on the system calls of that store;
      [Cutover]: [store_snapshot.go], [cutover.go] and [lifecycle.go] of the
      same package.
    - [Files]: the further system calls of the components below, with a
      calculus for runs without failures.  [StateDirs]: [session/init_dirs.go],
      [session/init_gitignore.go], [session/state.go].  [ConfigFile]:
      [session/config.go] and the commands of [cmd/] that edit the
      configuration.
    - [Insight]: [domain/insight.go], [session/insight_writer.go];
      [Policies]: [usecase/policy_handlers.go], whose handlers are registered
      with the policy engine of [Events] and write to that ledger.
    - [Wiring]: [domain/primitives.go], [domain/command.go],
      [session/daemon_lock_unix.go], [session/store_factory.go],
      [session/daemon_runner_adapter.go], [usecase/daemon.go], [cmd/run.go] and
      the constructors of the SQLite stores: from flags and the configuration
      on disk to a running daemon, for any number of processes on one host.
    - [Skills]: [session/validate.go]; [Status]: [session/status.go]; [Report]:
      the printed rate of [domain/metrics.go] and [domain/status_report.go];
      [Doctor]: [domain/doctor.go], [session/doctor.go]; [Unified]:
      [session/tool_runner.go], [domain/unified_doctor.go], [cmd/doctor.go].
      They run on the host of [Wiring] and read what the daemon leaves there;
      what the machine and other tools answer is a class of parameters.
    - [Shell]: [session/shell_quote.go], [session/shell_unix.go] and the
      notification and approval adapters of [session/] that put a message into a
      command line; the shell is a parameter with the quoting laws of POSIX.
    - [MCP]: [session/mcp_server.go], the JSON-RPC server with its tools, on
      the file system of [Files].
    - [ArchiveIndex]: [session/archive_index.go] and [domain.IndexEntry];
      [Maintenance]: [cmd/clean.go], [cmd/archive_prune.go],
      [cmd/dead_letters.go] and [cmd/helpers.go], which delete things.
    - [CommandLine]: [cmd/phonewave/main.go], [cmd/default_run.go], the tables
      of [cmd/root.go], [cmd/init.go], [cmd/metrics.go], [cmd/update.go],
      [cmd/otelenv.go] and [platform/otel_env.go], with [os.ExpandEnv];
      [InitCommand]: the theorem about [init]; [Commands]: [cmd/status.go],
      [cmd/version.go], [cmd/mcp.go].
    - [Console]: [platform/logger.go]; [Telemetry]: [platform/sanitize.go], the
      counters of [platform/], [cmd/telemetry.go], [session/provider_telemetry.go],
      [session/span_event_store.go], and what [cmd/root.go] does before every
      command.  The OpenTelemetry SDK is a class of parameters.
    - [Printed]: the text of [cmd/doctor.go], [FormatDoctorJSON] of
      [session/doctor.go] and [PrintInitResult] of [session/init_dirs.go].
    - [Contract]: [tests/contract/parser.go], the parser the tests of all tools
      share.

    ** What is shown

    Delivery.  [Safety] states the invariant of the pipeline: whatever is
    recorded as flushed, deduplicated or reported was really renamed onto its
    target with the content of its D-Mail, temporary files belong to the
    goroutine that made them, and an outbox file disappears only when it is
    settled (delivered to every selected inbox, or stored in the error queue).
    [StoreSafety] and [DeliverSafety] prove each program against it by
    rely-guarantee reasoning; [concurrent_delivery_loses_nothing] follows for
    every interleaving, every pattern of failures and every crash point.
    [DaemonSafety] does the same for the goroutine bodies, and [RunSafety] for
    whole runs: [run_loses_nothing] is about any sequence of sessions, each
    ended or killed anywhere, with producers adding D-Mails all the time.
    [RunLoop] shows that a run hands every event it receives to its worker, in
    order, that its goroutines always come to rest, and that rest after a
    shutdown is the return of [Run]; [RunIdle] what the idle timer does, and
    that retry cycles can keep it from ever firing; [FilterSafety] that the
    delivery filter survives restarts and crashes.  [Complete] is the other
    half: without failures a delivery ends with everything delivered, and
    delivering the same content again changes nothing.  [StoreSpec] and
    [QueueSafety] give the contracts of the stores: staging is atomic and
    local, purging is exact, claims are exclusive for the length of the lease
    and stop at the retry limit.

    The safety theorems assume that a path stands for one content and that
    the clock readings naming queue entries are distinct.  Both assumptions
    are needed: [Race] and [Findings] run the program where they fail, and it
    loses a D-Mail.  [Findings] also has the branches in which the daemon
    reports as delivered what was not.

    Routing.  [Router]: the map-based derivation equals a reference table, has
    no self-delivery, and the orphan report is its complement.  [Setup] and
    [SetupSafety]: the routes the daemon resolves start at outboxes it watches
    and never end in one (which discharges the hypothesis of the safety
    theorems), the commands keep the configuration consistent and change
    nothing when they fail, syncing twice reports nothing.

    The rest.  Frontmatter and skill parsing are sound and complete for
    their formats; metadata and histories round trip; the Bloom filter has no
    false negatives and survives a restart; backoff, retry budget and breaker
    have closed forms; [Allow] returns; the events one goroutine emits form
    one causal chain whatever fails, and are what the event store holds while
    its files do not fail; the stored chain forks when a sync fails after its
    write or when two goroutines emit; the health series counts
    every event once; the event store refines an append-only log, and loses an
    event after a torn write; snapshots are replaced atomically, the cutover
    happens once, and an interrupted one is not repeated; pruning removes
    exactly the expired event files.  The configuration file round trips, the
    commands that edit it refine the operations of [Setup], a failed migration
    loses it; the state directory is completed idempotently.  The insight
    ledger survives its own format and is replaced atomically; the policies
    only observe, record each failed delivery, and drop one that falls into
    the second of another.

    Processes.  [WiringSafety]: whatever processes are started and killed, at
    most one is inside [Daemon.Run] on a state directory, and a process that
    ends holds no lock.  [Startup]: from a consistent configuration the runner
    has the daemon that the delivery theorems are about; removing the lock
    file breaks the exclusion.

    Diagnosis.  [Status] reads back the log the daemon writes and counts it
    exactly, and sees a running daemon; [Doctor]: the verdict is the absence
    of failures, without [--repair] nothing but directories is made, with it
    a living daemon is left alone; [Unified]: the verdict over all tools is the
    number of failures printed, and one of the formats it reads is never used.
    [Skills]: the search for the validator ends at the nearest one, and its
    warnings are those [Setup] takes as given.

    The outer commands.  [Shell]: a message substituted for a placeholder that
    stands outside quotes, comments, here-documents and backquotes is read by a
    POSIX shell as literal characters, whatever it contains; inside quotes it
    is not.  [MCP]: requests are answered in their order, notifications and
    mistyped messages not at all, and the queue tools count the files of the
    directories they name without changing them.  [ArchiveIndex]: a rebuilt
    index has exactly one line for each Markdown file of the archive, and is
    replaced atomically.  [Maintenance]: without [--yes], [--execute] or an
    answer of the user nothing is deleted; with it, [clean] removes the runtime
    state of the directory and nothing outside it.  [CommandLine]: a line
    without a command is one of [run], for every reading of the line; [metrics]
    counts the event log; the variables [init] writes for an exporter are those
    later commands start with. [InitCommand]: [init] leaves the disk that the
    commands of [ConfigFile] and [Startup] begin with, for every telemetry
    backend, and [Commands] that [status] then counts this configuration.
    [Console]: the log file has the plain line of every call; [Telemetry]: sent
    texts are valid UTF-8, and the span store returns what the event store
    returns.  [Printed]: the last line of the doctor's text counts the lines
    marked as failed, and the doctor of all tools reads the JSON of this one
    without its daemon status.  [Contract]: the shared parser splits what it
    writes where it was put together, but for the end of the last line, and
    panics on one class of texts.

    ** Bounds

    Loops over finite data are structural.  [os.CreateTemp] tries 10000 names,
    as Go does.  [Allow] waits in a loop without a bound of its own: it takes
    the script of its iterations, and [Allow_returns] shows that three are
    enough when nobody disturbs it.  A run has no fuel: [steps] takes the list
    of moves, and [run_comes_to_rest] shows by well-founded induction that the
    moves of the goroutines cannot go on for ever.  Integers that can wrap
    ([uint64] of the filter and counters, [int64] durations) are [Z] with the
    wrap written out; counters that only count rows are [nat] or unbounded [Z].

    ** Not modelled

    The OpenTelemetry SDK, and the spans around deliveries and commands, which
    have no effect on the state; the parsing of flags by cobra and the usage
    texts; printed output but for the log lines, the status, the doctor, the
    rate, the version and the MCP answers; the library that downloads an
    update; the lock on Windows; the insight lock's mutual exclusion (taking it
    is an operation that can fail); the lint rules' fixtures, the generator of
    the documentation and the stand-in for another tool in the scenario tests.*)
From stdpp Require Export base gmap strings list fin_maps sorting.
From Stdlib Require Export ZArith Lia Ascii String.

(** Lists keep their short names although [String] is loaded. *)
Abbreviation length := Datatypes.length.
Abbreviation slen := String.length.

Declare Scope go_scope.
Delimit Scope go_scope with go.
#[global] Open Scope string_scope.
#[global] Open Scope list_scope.
#[global] Open Scope nat_scope.
#[global] Open Scope go_scope.

(** ** Hint databases of the development *)

(** [go] holds the facts that close side conditions (bounds, membership). *)
Create HintDb go discriminated.
(** [go_rw] holds the left-to-right rewrite rules of the Go library model. *)
Create Rewrite HintDb go_rw.
#[export] Hint Rewrite app_nil_r : go_rw.

(** ** Errors: Go's [error] interface

    A Go error is its message together with the sentinels that [errors.Is]
    finds on its [%w] chain. *)
Inductive sentinel :=
  | ErrNotExist | ErrPermission | ErrDMailKindInvalid | ErrContext.

#[export] Instance sentinel_eq_dec : EqDecision sentinel.
Proof. solve_decision. Defined.

Record error := mkErr { err_msg : string; err_chain : list sentinel }.

#[export] Instance error_eq_dec : EqDecision error.
Proof. solve_decision. Defined.

(** [errors.New]. *)
Definition errors_New (m : string) : error := mkErr m [].
(** [fmt.Errorf(p + "%w", e)]: the message is prefixed and the chain kept. *)
Definition errorf_w (p : string) (e : error) : error :=
  mkErr (p +:+ err_msg e) (err_chain e).
(** [errors.Is]. *)
Definition errors_Is (e : error) (s : sentinel) : bool := bool_decide (s ∈ err_chain e).

Inductive result (A : Type) :=
  | Ok (a : A)
  | Err (e : error).
Arguments Ok {A} a.
Arguments Err {A} e.

Definition is_ok {A} (r : result A) : bool := match r with Ok _ => true | Err _ => false end.

Definition rbind {A B} (r : result A) (f : A → result B) : result B :=
  match r with Ok a => f a | Err e => Err e end.
Notation "'let!' x := r 'in' k" := (rbind r (λ x, k))
  (at level 10, x pattern, r at level 100, k at level 200) : go_scope.

(** ** Machine integers *)

Definition two64 : Z := 18446744073709551616.
Definition two63 : Z := 9223372036854775808.

(** [uint64]/[uint] arithmetic wraps modulo 2^64. *)
Definition u64 (z : Z) : Z := Z.land z (Z.ones 64).
(** [int64]/[int]/[time.Duration] arithmetic wraps into [-2^63, 2^63). *)
Definition i64 (z : Z) : Z := ((z + two63) mod two64 - two63)%Z.

Lemma u64_mod z : u64 z = (z mod two64)%Z.
Proof. unfold u64. rewrite Z.land_ones by lia. reflexivity. Qed.

Lemma u64_range z : (0 ≤ u64 z < two64)%Z.
Proof. rewrite u64_mod. apply Z.mod_pos_bound. reflexivity. Qed.

Lemma u64_id z : (0 ≤ z < two64)%Z → u64 z = z.
Proof. intros. rewrite u64_mod. by apply Z.mod_small. Qed.

Lemma i64_id z : (- two63 ≤ z < two63)%Z → i64 z = z.
Proof. unfold i64, two63, two64. intros. rewrite Z.mod_small; lia. Qed.

Lemma i64_range z : (- two63 ≤ i64 z < two63)%Z.
Proof.
  unfold i64. pose proof (Z.mod_pos_bound (z + two63) two64 eq_refl).
  unfold two63, two64 in *. lia.
Qed.
#[export] Hint Resolve u64_range i64_range : go.

(** ** Generic lemmas on lists *)

Lemma filter_nil_iff {A} (P : A → Prop) `{!∀ x, Decision (P x)} (l : list A) :
  filter P l = [] ↔ ∀ x, x ∈ l → ¬ P x.
Proof.
  induction l as [|a l IH]; [set_solver|].
  rewrite filter_cons. case_decide.
  - split; [done|]. intros H'. exfalso. eapply H'; [by left|done].
  - rewrite IH. split; intros H' x Hx; [apply elem_of_cons in Hx as [->|]; auto|].
    apply H'. by right.
Qed.

Lemma elem_of_bfilter {A} (f : A → bool) l x : x ∈ List.filter f l ↔ x ∈ l ∧ f x = true.
Proof. by rewrite list_elem_of_In, filter_In, <- list_elem_of_In. Qed.

#[export] Instance bfilter_perm {A} (f : A → bool) : Proper (Permutation ==> Permutation) (List.filter f).
Proof.
  intros l k H. induction H as [|x l k _ IH|x y l|l k m _ IH1 _ IH2]; cbn; [done| | |by rewrite IH1].
  - destruct (f x); by rewrite IH.
  - destruct (f x), (f y); try done. constructor.
Qed.

Lemma forallb_False_ex {A} (f : A → bool) l :
  forallb f l = false → ∃ x, x ∈ l ∧ f x = false.
Proof.
  induction l as [|a l IH]; [done|]. cbn.
  destruct (f a) eqn:E; cbn.
  - intros (x & Hx & Hf)%IH. exists x. split; [by right|done].
  - intros _. exists a. split; [by left|done].
Qed.

(** ** Byte-wise string order ([<] on Go strings) and [sort.Strings] *)

Definition string_le (a b : string) : Prop := String.leb a b = true.
#[export] Instance string_le_dec a b : Decision (string_le a b).
Proof. unfold string_le. apply _. Defined.

Lemma string_leb_cons a s b t :
  String.leb (String a s) (String b t) =
  match Ascii.compare a b with Lt => true | Gt => false | Eq => String.leb s t end.
Proof. unfold String.leb; cbn. by destruct (Ascii.compare a b). Qed.

Lemma ascii_compare_eq a b : Ascii.compare a b = Eq ↔ a = b.
Proof.
  split; [apply Ascii.compare_eq_iff|]. intros ->. unfold Ascii.compare. apply N.compare_refl.
Qed.

#[export] Instance string_le_total : Total string_le.
Proof. intros a b. apply String.leb_total. Qed.
#[export] Instance string_le_antisymm : AntiSymm (=) string_le.
Proof. intros a b. apply String.leb_antisym. Qed.
#[export] Instance string_le_trans : Transitive string_le.
Proof.
  unfold string_le. intros x. induction x as [|a x IH]; intros [|b y] [|c z];
    try (cbn; done); try (unfold String.leb; cbn; done).
  rewrite !string_leb_cons. unfold Ascii.compare.
  repeat match goal with |- context [N.compare ?p ?q] =>
    destruct (N.compare_spec p q) end; intros; try done; try lia; eauto.
Qed.
#[export] Instance string_le_refl : Reflexive string_le.
Proof. intros a. by destruct (string_le_total a a). Qed.

Definition sort_Strings (l : list string) : list string := merge_sort string_le l.

Lemma sort_Strings_perm l : sort_Strings l ≡ₚ l.
Proof. apply merge_sort_Permutation. Qed.
Lemma sort_Strings_sorted l : StronglySorted string_le (sort_Strings l).
Proof. apply StronglySorted_merge_sort; apply _. Qed.
Lemma elem_of_sort_Strings x l : x ∈ sort_Strings l ↔ x ∈ l.
Proof. by rewrite sort_Strings_perm. Qed.
#[export] Hint Resolve sort_Strings_sorted : go.

(** Sorting is canonical: it only depends on the multiset of its input.  This
    is what makes a Go [range] over a map followed by [sort.Strings]
    deterministic. *)
Lemma sort_Strings_canonical l k : l ≡ₚ k → sort_Strings l = sort_Strings k.
Proof.
  intros H. apply (StronglySorted_unique string_le); auto with go.
  by rewrite !sort_Strings_perm.
Qed.

(** ** [sort.SliceStable] *)

Section StableSort.
Context {A : Type}.

(** Insertion keeps the new element before its equals, and the elements are
    inserted from the last to the first. *)
Fixpoint stable_insert (less : A → A → bool) (x : A) (l : list A) : list A :=
  match l with
  | [] => [x]
  | y :: r => if less y x then y :: stable_insert less x r else x :: l
  end.
Definition stable_sort (less : A → A → bool) (l : list A) : list A := foldr (stable_insert less) [] l.

Lemma stable_insert_perm less x l : stable_insert less x l ≡ₚ x :: l.
Proof.
  induction l as [|y l IH]; cbn; [done|]. destruct (less y x); [|done]. rewrite IH. constructor.
Qed.
Lemma stable_sort_perm less l : stable_sort less l ≡ₚ l.
Proof. induction l as [|x l IH]; cbn; [done|]. by rewrite stable_insert_perm, IH. Qed.

(** By an integer key. *)
Context (key : A → Z).
#[local] Abbreviation less := (λ a b, (key a <? key b)%Z).

Lemma stable_insert_sorted x l :
  StronglySorted (λ a b, (key a ≤ key b)%Z) l → StronglySorted (λ a b, (key a ≤ key b)%Z) (stable_insert less x l).
Proof.
  induction 1 as [|y l Hs IH Hy]; cbn; [by repeat constructor|]. destruct (key y <? key x)%Z eqn:E.
  - constructor; [done|]. rewrite stable_insert_perm. constructor; [lia|done].
  - constructor; [by constructor|]. constructor; [lia|]. eapply Forall_impl; [done|]. cbn. lia.
Qed.
Lemma stable_sort_sorted l : StronglySorted (λ a b, (key a ≤ key b)%Z) (stable_sort less l).
Proof. induction l as [|x l IH]; cbn; [constructor|]. by apply stable_insert_sorted. Qed.

(** Elements of one key keep their order. *)
Lemma stable_insert_stable k x l :
  List.filter (λ a, (key a =? k)%Z) (stable_insert less x l) = List.filter (λ a, (key a =? k)%Z) (x :: l).
Proof.
  induction l as [|y l IH]; cbn [stable_insert]; [done|]. destruct (key y <? key x)%Z eqn:E; [|done].
  cbn [List.filter] in *. rewrite IH. destruct (key y =? k)%Z eqn:Ey, (key x =? k)%Z eqn:Ex; try done. lia.
Qed.
Lemma stable_sort_stable k l :
  List.filter (λ a, (key a =? k)%Z) (stable_sort less l) = List.filter (λ a, (key a =? k)%Z) l.
Proof.
  induction l as [|x l IH]; [done|]. cbn [stable_sort foldr]. rewrite stable_insert_stable. cbn [List.filter]. fold (stable_sort less l). by rewrite IH.
Qed.
End StableSort.

(** ** A sample codec: the number of a countable value, in binary *)

Fixpoint bits (p : positive) : list ascii :=
  match p with xH => [] | xO p => ("0"%char : ascii) :: bits p | xI p => ("1"%char : ascii) :: bits p end.
Fixpoint unbits (b : list ascii) : positive :=
  match b with [] => xH | c :: r => if bool_decide (c = "0"%char) then xO (unbits r) else xI (unbits r) end.
Lemma bits_dash p : "-"%char ∉ bits p.
Proof. induction p as [p IH|p IH|]; cbn; rewrite ?not_elem_of_cons, ?elem_of_nil; [by split|by split|tauto]. Qed.
Lemma unbits_bits p : unbits (bits p) = p.
Proof. induction p as [p IH|p IH|]; cbn; by rewrite ?IH. Qed.

