(* ===== verification/GoStrings.v ===== *)
(** * The Go string library, as far as phonewave uses it

    Go strings are byte sequences: [string] (a list of 8-bit [ascii]).  This
    file models the functions of packages [strings], [strconv] and [slices]
    the sources call, with the lemmas the component files share. *)
From S2P Require Import Prelude.
From Stdlib Require Import DecimalString DecimalZ DecimalFacts DecimalPos DecimalN.

Abbreviation bytes := (list ascii).
(** The conversions [string(data)] and [[]byte(s)]. *)
Abbreviation str := string_of_list_ascii.
Abbreviation raw := list_ascii_of_string.

Definition byte_val (c : ascii) : Z := Z.of_N (N_of_ascii c).

(** ** Concatenation *)

Lemma app_str_nil_r s : s +:+ "" = s.
Proof. induction s as [|c s IH]; [done|]. cbn. change (String c (s +:+ "") = String c s). by rewrite IH. Qed.

Lemma app_str_cons c s t : String c s +:+ t = String c (s +:+ t).
Proof. done. Qed.

Lemma app_str_assoc s t u : s +:+ (t +:+ u) = (s +:+ t) +:+ u.
Proof. induction s as [|c s IH]; [done|]. rewrite !app_str_cons. by rewrite IH. Qed.

Lemma raw_app s t : raw (s +:+ t) = raw s ++ raw t.
Proof. induction s as [|c s IH]; [done|]. rewrite app_str_cons. cbn. by rewrite IH. Qed.

Lemma str_app s t : str (s ++ t) = str s +:+ str t.
Proof. induction s as [|c s IH]; [done|]. cbn. rewrite app_str_cons. by rewrite IH. Qed.

Lemma raw_inj s t : raw s = raw t → s = t.
Proof.
  intros H. rewrite <- (string_of_list_ascii_of_string s), <- (string_of_list_ascii_of_string t).
  by rewrite H.
Qed.

Lemma slen_app s t : slen (s +:+ t) = slen s + slen t.
Proof. induction s as [|c s IH]; [done|]. rewrite app_str_cons. cbn. by rewrite IH. Qed.

Lemma length_raw s : length (raw s) = slen s.
Proof. induction s; cbn; congruence. Qed.
#[export] Hint Rewrite app_str_nil_r raw_app str_app slen_app length_raw
  string_of_list_ascii_of_string list_ascii_of_string_of_list_ascii : go_rw.

(** ** [strings.HasPrefix], [strings.HasSuffix], [strings.Contains], [strings.Index] *)

Definition HasPrefix (s p : string) : bool := String.prefix p s.

Fixpoint HasSuffix (s p : string) : bool :=
  if bool_decide (s = p) then true
  else match s with EmptyString => false | String _ r => HasSuffix r p end.

Definition TrimPrefix (s p : string) : string :=
  if HasPrefix s p then String.substring (slen p) (slen s - slen p) s else s.

Fixpoint Contains (s sub : string) : bool :=
  if String.prefix sub s then true
  else match s with EmptyString => false | String _ r => Contains r sub end.

(** [strings.Index]: [None] is Go's -1. *)
Fixpoint Index (s sub : string) : option nat :=
  if String.prefix sub s then Some 0
  else match s with EmptyString => None | String _ r => S <$> Index r sub end.

(** [strings.IndexByte] and [strings.LastIndex] of a one-byte string. *)
Fixpoint IndexByte (s : string) (c : ascii) : option nat :=
  match s with
  | EmptyString => None
  | String d r => if bool_decide (c = d) then Some 0 else S <$> IndexByte r c
  end.

Lemma prefix_spec p s : String.prefix p s = true ↔ ∃ r, s = p +:+ r.
Proof.
  revert s. induction p as [|c p IH]; intros s.
  - split; [by exists s|]. by destruct s.
  - destruct s as [|d s].
    + split; [done|]. by intros [r ?].
    + cbn. destruct (ascii_dec c d) as [->|Hne].
      * rewrite IH. split; intros [r Hr]; exists r.
        -- by rewrite app_str_cons, Hr.
        -- rewrite app_str_cons in Hr. by simplify_eq.
      * split; [done|]. intros [r Hr]. rewrite app_str_cons in Hr. congruence.
Qed.

Lemma prefix_refl_app p r : String.prefix p (p +:+ r) = true.
Proof. apply prefix_spec. by exists r. Qed.

Lemma Contains_spec s sub : Contains s sub = true ↔ ∃ a b, s = a +:+ sub +:+ b.
Proof.
  induction s as [|c s IH]; cbn [Contains].
  - destruct (String.prefix sub "") eqn:E.
    + apply prefix_spec in E as [r Hr]. split; [|done]. intros _. by exists "", r.
    + split; [done|]. intros (a & b & H). destruct a; [|done].
      change ("" = sub +:+ b) in H. rewrite H in E. by rewrite prefix_refl_app in E.
  - destruct (String.prefix sub (String c s)) eqn:E.
    + apply prefix_spec in E as [r Hr]. split; [|done]. intros _. by exists "", r.
    + rewrite IH. split.
      * intros (a & b & ->). exists (String c a), b. done.
      * intros (a & b & H). destruct a as [|d a].
        -- change (String c s = sub +:+ b) in H. rewrite H in E. by rewrite prefix_refl_app in E.
        -- rewrite app_str_cons in H. simplify_eq. by exists a, b.
Qed.

Lemma Contains_app_l p s sub : Contains s sub = true → Contains (p +:+ s) sub = true.
Proof.
  rewrite !Contains_spec. intros (a & b & ->). exists (p +:+ a), b.
  by rewrite !app_str_assoc.
Qed.
Lemma Contains_app_r p s sub : Contains p sub = true → Contains (p +:+ s) sub = true.
Proof.
  rewrite !Contains_spec. intros (a & b & ->). exists a, (b +:+ s).
  by rewrite !app_str_assoc.
Qed.

(** [Index] finds the first occurrence. *)
Lemma Index_Some s sub n :
  Index s sub = Some n →
  ∃ a b, s = a +:+ sub +:+ b ∧ slen a = n ∧
    ∀ m a' b', s = a' +:+ sub +:+ b' → slen a' = m → n ≤ m.
Proof.
  revert n. induction s as [|c s IH]; intros n; cbn [Index].
  - destruct (String.prefix sub "") eqn:E; [|done]. intros [= <-].
    apply prefix_spec in E as [r Hr]. exists "", r. split_and!; [done|done|]. lia.
  - destruct (String.prefix sub (String c s)) eqn:E.
    + intros [= <-]. apply prefix_spec in E as [r Hr]. exists "", r. split_and!; [done|done|]. lia.
    + destruct (Index s sub) as [k|] eqn:Ek; [|done]. cbn. intros [= <-].
      destruct (IH k eq_refl) as (a & b & -> & Hk & Hmin).
      exists (String c a), b. split_and!; [done|cbn; lia|].
      intros m a' b' Heq Hm. destruct a' as [|d a'].
      * exfalso. change (String c (a +:+ sub +:+ b) = sub +:+ b') in Heq.
        rewrite Heq, prefix_refl_app in E. done.
      * rewrite app_str_cons in Heq. simplify_eq. cbn.
        specialize (Hmin (slen a') a' b' ltac:(done) eq_refl). lia.
Qed.

Lemma Index_None s sub : Index s sub = None ↔ Contains s sub = false.
Proof.
  induction s as [|c s IH]; cbn [Index Contains]; destruct (String.prefix _ _); try done.
  rewrite <- IH. by destruct (Index s sub).
Qed.

(** ** Slices [s[i:j]] *)

Lemma substring_skip a b n m : String.substring (slen a + n) m (a +:+ b) = String.substring n m b.
Proof. induction a as [|c a IH]; [done|]. rewrite app_str_cons. cbn. apply IH. Qed.

Lemma substring_take a b : String.substring 0 (slen a) (a +:+ b) = a.
Proof. induction a as [|c a IH]; [by destruct b|]. rewrite app_str_cons. cbn. by rewrite IH. Qed.

Lemma substring_all s n : slen s ≤ n → String.substring 0 n s = s.
Proof.
  revert n. induction s as [|c s IH]; intros [|n]; cbn; intros; [done|done|lia|].
  rewrite IH; [done|lia].
Qed.

Lemma substring_prefix p s :
  String.substring 0 (slen p) s = p ↔ String.prefix p s = true.
Proof. split; intros H; [by apply prefix_correct|by apply prefix_correct in H]. Qed.

Lemma get_app s c r : String.get (slen s) (s +:+ String c r) = Some c.
Proof. induction s as [|d s IH]; [done|]. rewrite app_str_cons. cbn. done. Qed.

(** ** [strings.Split] on a one-byte separator, and [strings.Join] *)

Fixpoint Split (s : string) (sep : ascii) : list string :=
  match s with
  | EmptyString => [""]
  | String c r =>
      if bool_decide (c = sep) then "" :: Split r sep
      else match Split r sep with
           | [] => [String c ""]
           | p :: ps => String c p :: ps
           end
  end.

Definition Join (ps : list string) (sep : string) : string := String.concat sep ps.

Fixpoint has_byte (c : ascii) (s : string) : bool :=
  match s with EmptyString => false | String d r => bool_decide (d = c) || has_byte c r end.

Lemma has_byte_app c s t : has_byte c (s +:+ t) = has_byte c s || has_byte c t.
Proof.
  induction s as [|d s IH]; [done|]. rewrite app_str_cons. cbn. rewrite IH. by rewrite orb_assoc.
Qed.

Lemma has_byte_Contains c s : has_byte c s = Contains s (String c "").
Proof.
  induction s as [|d s IH]; [done|]. cbn -[Contains].
  cbn [Contains]. cbn [String.prefix]. destruct (ascii_dec c d) as [->|Hne].
  - rewrite bool_decide_true by done. by destruct s.
  - rewrite bool_decide_false by congruence. done.
Qed.

Lemma Split_nonempty s sep : Split s sep ≠ [].
Proof. destruct s as [|c s]; cbn; [done|]. case_bool_decide; [done|]. by destruct (Split s sep). Qed.

Lemma Split_no_sep s sep : has_byte sep s = false → Split s sep = [s].
Proof.
  induction s as [|c s IH]; [done|]. cbn. intros [H1 H2]%orb_false_iff.
  rewrite H1. by rewrite IH.
Qed.

Lemma Split_app s sep t :
  has_byte sep s = false → Split (s +:+ String sep t) sep = s :: Split t sep.
Proof.
  induction s as [|c s IH]; intros H.
  - change (Split (String sep t) sep = "" :: Split t sep). cbn. by rewrite bool_decide_true.
  - rewrite app_str_cons. cbn in H |- *. apply orb_false_iff in H as [H1 H2].
    rewrite H1. by rewrite IH.
Qed.

Lemma Split_app_gen s sep t : Split (s +:+ String sep t) sep = Split s sep ++ Split t sep.
Proof.
  induction s as [|c s IH].
  - change (Split (String sep t) sep = "" :: Split t sep). cbn. by rewrite bool_decide_true.
  - rewrite app_str_cons. cbn [Split]. rewrite IH. case_bool_decide; [done|].
    pose proof (Split_nonempty s sep). by destruct (Split s sep).
Qed.

Lemma Join_cons p q ps sep : Join (p :: q :: ps) sep = p +:+ sep +:+ Join (q :: ps) sep.
Proof. done. Qed.

(** Splitting what was joined gives the parts back, when no part contains the separator. *)
Lemma Split_Join ps sep :
  ps ≠ [] → Forall (λ p, has_byte sep p = false) ps →
  Split (Join ps (String sep "")) sep = ps.
Proof.
  intros Hne Hps. induction Hps as [|p ps Hp Hps IH]; [done|].
  destruct ps as [|q ps].
  - change (Join [p] (String sep "")) with p. by apply Split_no_sep.
  - rewrite Join_cons.
    change (String sep "" +:+ Join (q :: ps) (String sep ""))
      with (String sep (Join (q :: ps) (String sep ""))).
    rewrite Split_app by done. by rewrite IH.
Qed.

Lemma Join_snoc ps p sep :
  ps ≠ [] → Join (ps ++ [p]) sep = Join ps sep +:+ sep +:+ p.
Proof.
  induction ps as [|q ps IH]; [done|]. intros _. destruct ps as [|r ps]; [done|].
  change ((q :: r :: ps) ++ [p]) with (q :: r :: (ps ++ [p])).
  rewrite !Join_cons. change (r :: ps ++ [p]) with ((r :: ps) ++ [p]).
  rewrite IH by done. by rewrite !app_str_assoc.
Qed.

Lemma Join_Split s sep : Join (Split s sep) (String sep "") = s.
Proof.
  induction s as [|c s IH]; [done|]. cbn [Split].
  pose proof (Split_nonempty s sep) as Hne. case_bool_decide as Hc.
  - subst c. destruct (Split s sep) as [|p ps] eqn:E; [done|].
    rewrite Join_cons. rewrite IH. done.
  - destruct (Split s sep) as [|p [|q ps]] eqn:E; [done| |].
    + change (Join [p] (String sep "")) with p in IH. by subst p.
    + rewrite Join_cons in IH |- *. by rewrite app_str_cons, IH.
Qed.

Lemma Split_parts_no_sep s sep : Forall (λ p, has_byte sep p = false) (Split s sep).
Proof.
  induction s as [|c s IH]; cbn [Split]; [by repeat constructor|].
  case_bool_decide as Hc; [by constructor|].
  destruct (Split s sep) as [|p ps]; inversion IH; subst; constructor; cbn;
    by rewrite ?bool_decide_false, ?orb_false_l.
Qed.

(** ** [strings.TrimSpace]

    Trims the runes of [unicode.IsSpace] at both ends.  Their UTF-8 encodings
    have one, two or three bytes; a trailing occurrence of such an encoding is
    always decoded as that rune, since its first byte starts a rune. *)

Definition space1 (c : ascii) : bool :=
  let v := byte_val c in ((9 <=? v) && (v <=? 13) || (v =? 32))%Z.
Definition space2 (c d : ascii) : bool :=
  ((byte_val c =? 0xC2) && ((byte_val d =? 0x85) || (byte_val d =? 0xA0)))%Z.
Definition space3 (c d e : ascii) : bool :=
  let '(c, d, e) := (byte_val c, byte_val d, byte_val e) in
  ((c =? 0xE1) && (d =? 0x9A) && (e =? 0x80)
   || (c =? 0xE2) && (d =? 0x80) &&
        ((0x80 <=? e) && (e <=? 0x8A) || (e =? 0xA8) || (e =? 0xA9) || (e =? 0xAF))
   || (c =? 0xE2) && (d =? 0x81) && (e =? 0x9F)
   || (c =? 0xE3) && (d =? 0x80) && (e =? 0x80))%Z.

Section trim.
Context (p1 : ascii → bool) (p2 : ascii → ascii → bool) (p3 : ascii → ascii → ascii → bool).

Fixpoint trim_with (l : bytes) : bytes :=
  match l with
  | [] => []
  | c :: r =>
      if p1 c then trim_with r else
      match r with
      | [] => l
      | d :: r' =>
          if p2 c d then trim_with r' else
          match r' with
          | [] => l
          | e :: r'' => if p3 c d e then trim_with r'' else l
          end
      end
  end.

(** No rune to strip at the head. *)
Definition trimmed_with (l : bytes) : Prop := trim_with l = l.
End trim.

Definition trim_left : bytes → bytes := trim_with space1 space2 space3.
Definition trim_right (l : bytes) : bytes :=
  reverse (trim_with space1 (λ d c, space2 c d) (λ e d c, space3 c d e) (reverse l)).
Definition TrimSpace (s : string) : string := str (trim_right (trim_left (raw s))).

(** [strings.ToLower].  ASCII letters are lowered; of the other runes only
    U+0130 (whose lower case is i) and U+212A (k) become ASCII, and every other
    rune is sent to a non-ASCII rune: here it is kept, which no comparison with
    an ASCII constant and no search for an ASCII substring can tell apart. *)
Definition lower_byte (c : ascii) : ascii :=
  let v := byte_val c in
  if ((65 <=? v) && (v <=? 90))%Z then ascii_of_N (Z.to_N (v + 32)) else c.

Fixpoint ToLower (s : string) : string :=
  match s with
  | EmptyString => EmptyString
  | String c r =>
      match r with
      | String d r' =>
          if ((byte_val c =? 0xC4) && (byte_val d =? 0xB0))%Z then String "i" (ToLower r')
          else match r' with
               | String e r'' =>
                   if ((byte_val c =? 0xE2) && (byte_val d =? 0x84) && (byte_val e =? 0xAA))%Z
                   then String "k" (ToLower r'')
                   else String (lower_byte c) (ToLower r)
               | EmptyString => String (lower_byte c) (ToLower r)
               end
      | EmptyString => String (lower_byte c) ""
      end
  end.

Section trim_lemmas.
Context (p1 : ascii → bool) (p2 : ascii → ascii → bool) (p3 : ascii → ascii → ascii → bool).
Abbreviation tw := (trim_with p1 p2 p3).

Definition head_ok (l : bytes) : bool :=
  match l with
  | [] => true
  | c :: r => negb (p1 c) &&
      match r with
      | [] => true
      | d :: r' => negb (p2 c d) &&
          match r' with [] => true | e :: _ => negb (p3 c d e) end
      end
  end.

Lemma trim_with_ind (P : bytes → Prop) :
  P [] →
  (∀ l, head_ok l = true → l ≠ [] → tw l = l → P l) →
  (∀ c r, p1 c = true → P r → P (c :: r)) →
  (∀ c d r, p1 c = false → p2 c d = true → P r → P (c :: d :: r)) →
  (∀ c d e r, p1 c = false → p2 c d = false → p3 c d e = true → P r → P (c :: d :: e :: r)) →
  ∀ l, P l.
Proof.
  intros H0 Hs H1 H2 H3 l.
  induction l as [l IH] using (induction_ltof1 _ (@length ascii)). unfold ltof in IH.
  destruct l as [|c r]; [done|].
  destruct (p1 c) eqn:E1; [apply H1; [done|]; apply IH; cbn; lia|].
  destruct r as [|d r]; [apply Hs; cbn; by rewrite ?E1|].
  destruct (p2 c d) eqn:E2; [apply H2; [done..|]; apply IH; cbn; lia|].
  destruct r as [|e r]; [apply Hs; cbn; by rewrite ?E1, ?E2|].
  destruct (p3 c d e) eqn:E3; [apply H3; [done..|]; apply IH; cbn; lia|].
  apply Hs; cbn; by rewrite ?E1, ?E2, ?E3.
Qed.

Ltac trim_cases l :=
  induction l as [|l Hok Hne Hid|c r E1 IH|c d r E1 E2 IH|c d e r E1 E2 E3 IH]
    using trim_with_ind; cbn [trim_with]; rewrite ?E1, ?E2, ?E3.

Lemma trim_with_suffix l : ∃ p, l = p ++ tw l.
Proof.
  trim_cases l.
  - by exists [].
  - exists []. by rewrite Hid.
  - destruct IH as [p Hp]. exists (c :: p). cbn. congruence.
  - destruct IH as [p Hp]. exists (c :: d :: p). cbn. congruence.
  - destruct IH as [p Hp]. exists (c :: d :: e :: p). cbn. congruence.
Qed.

Lemma trim_with_head_ok l : head_ok (tw l) = true.
Proof. trim_cases l; try done. by rewrite Hid. Qed.

Lemma head_ok_trim l : head_ok l = true → tw l = l.
Proof.
  trim_cases l; try done; cbn; rewrite ?E1, ?E2, ?E3; done.
Qed.

Lemma head_ok_prefix l k : head_ok (l ++ k) = true → head_ok l = true.
Proof.
  destruct l as [|c [|d [|e l]]]; cbn; try done.
  - by intros [-> _]%andb_true_iff.
  - intros [-> [-> _]%andb_true_iff]%andb_true_iff. done.
Qed.

(** A non-empty trimmed text stays trimmed when it is continued by a byte
    that ends every multi-byte space. *)
Lemma head_ok_extend l a k :
  (∀ c, p2 c a = false) → (∀ c d, p3 c d a = false) → (∀ c e, p3 c a e = false) →
  l ≠ [] → head_ok l = true → head_ok (l ++ a :: k) = true.
Proof.
  intros H2 H3 H3' Hne. destruct l as [|c [|d [|e l]]]; cbn; try done.
  - rewrite H2. intros [-> _]%andb_true_iff. destruct k; [done|]. by rewrite H3'.
  - intros [-> [-> _]%andb_true_iff]%andb_true_iff. by rewrite H3.
Qed.
End trim_lemmas.

Abbreviation lead_ok := (head_ok space1 space2 space3).
Abbreviation trail_ok := (head_ok space1 (λ d c, space2 c d) (λ e d c, space3 c d e)).

Lemma TrimSpace_spec s :
  lead_ok (raw (TrimSpace s)) = true ∧ trail_ok (reverse (raw (TrimSpace s))) = true.
Proof.
  unfold TrimSpace. autorewrite with go_rw. unfold trim_right.
  rewrite reverse_involutive. split; [|apply trim_with_head_ok].
  set (l := trim_left (raw s)).
  destruct (trim_with_suffix space1 (λ d c, space2 c d) (λ e d c, space3 c d e) (reverse l)) as [p Hp].
  apply (head_ok_prefix _ _ _ _ (reverse p)).
  rewrite <- reverse_app, <- Hp, reverse_involutive. apply trim_with_head_ok.
Qed.

Lemma TrimSpace_id s :
  lead_ok (raw s) = true → trail_ok (reverse (raw s)) = true → TrimSpace s = s.
Proof.
  intros Hl Hr. unfold TrimSpace, trim_left, trim_right.
  rewrite (head_ok_trim space1 space2 space3) by done.
  rewrite head_ok_trim by done. rewrite reverse_involutive. by autorewrite with go_rw.
Qed.

Lemma TrimSpace_idem s : TrimSpace (TrimSpace s) = TrimSpace s.
Proof. apply TrimSpace_id; apply TrimSpace_spec. Qed.

(** A byte below 0x80 that no space contains: it separates trimmed texts. *)
Definition sep_byte (a : ascii) : Prop := (byte_val a < 0x80)%Z.

Lemma space2_sep c a : sep_byte a → space2 c a = false.
Proof. unfold sep_byte, space2. intros. lia. Qed.
Lemma space2_sep' c a : sep_byte a → space2 a c = false.
Proof. unfold sep_byte, space2. intros. lia. Qed.
Lemma space3_sep c d a : sep_byte a → space3 c d a = false.
Proof. unfold sep_byte, space3. intros. lia. Qed.
Lemma space3_sep' c d a : sep_byte a → space3 c a d = false.
Proof. unfold sep_byte, space3. intros. lia. Qed.
Lemma space3_sep'' c d a : sep_byte a → space3 a c d = false.
Proof. unfold sep_byte, space3. intros. lia. Qed.

(** Joining trimmed non-empty texts with such a byte gives a trimmed text. *)
Lemma lead_ok_join s a t :
  sep_byte a → s ≠ "" → lead_ok (raw s) = true → lead_ok (raw (s +:+ String a t)) = true.
Proof.
  intros Ha Hs H. rewrite raw_app. cbn.
  apply head_ok_extend; auto using space2_sep, space3_sep, space3_sep'.
  by destruct s.
Qed.

Lemma trail_ok_join s a t :
  sep_byte a → t ≠ "" → trail_ok (reverse (raw t)) = true →
  trail_ok (reverse (raw (s +:+ String a t))) = true.
Proof.
  intros Ha Ht H. rewrite raw_app. change (raw (String a t)) with (a :: raw t).
  rewrite reverse_app, reverse_cons, <- app_assoc. cbn [app].
  apply head_ok_extend; auto using space2_sep', space3_sep', space3_sep''.
  destruct t as [|c t]; [done|]. change (raw (String c t)) with (c :: raw t).
  rewrite reverse_cons. by intros [_ ?]%app_nil.
Qed.

(** ** [strconv] *)

(** [strconv.Itoa]. *)
Definition Itoa (z : Z) : string := NilZero.string_of_int (Z.to_int z).

(** [strconv.Atoi]: an optional sign and decimal digits, inside the int64 range. *)
Definition Atoi (s : string) : option Z :=
  let digits (t : string) : option Z := Z.of_uint <$> NilZero.uint_of_string t in
  let in_range (z : Z) : option Z :=
    if bool_decide (- two63 ≤ z < two63)%Z then Some z else None in
  match s with
  | EmptyString => None
  | String c r =>
      if bool_decide (c = "-"%char) then z ← digits r; in_range (- z)%Z
      else if bool_decide (c = "+"%char) then z ← digits r; in_range z
      else z ← digits s; in_range z
  end.

(** [strconv.ParseBool] and [strconv.FormatBool]. *)
Definition ParseBool (s : string) : option bool :=
  if bool_decide (s ∈ ["1"; "t"; "T"; "true"; "TRUE"; "True"]) then Some true
  else if bool_decide (s ∈ ["0"; "f"; "F"; "false"; "FALSE"; "False"]) then Some false
  else None.
Definition FormatBool (b : bool) : string := if b then "true" else "false".

Lemma ParseBool_FormatBool b : ParseBool (FormatBool b) = Some b.
Proof. by destruct b. Qed.

Lemma string_of_uint_head d : d ≠ Decimal.Nil →
  ∃ c r, NilZero.string_of_uint d = String c r ∧ c ≠ "-"%char ∧ c ≠ "+"%char.
Proof. destruct d; intros H; try done; cbn; eauto. Qed.

Lemma Itoa_nonempty z : Itoa z ≠ "".
Proof. unfold Itoa. destruct (Z.to_int z) as [[]|[]]; cbn; done. Qed.

Lemma Atoi_Itoa z : (- two63 ≤ z < two63)%Z → Atoi (Itoa z) = Some z.
Proof.
  intros Hz. unfold Itoa. pose proof (DecimalZ.of_to z) as Hof.
  destruct (Z.to_int z) as [d|d] eqn:E; cbn [NilZero.string_of_int].
  - assert (d ≠ Decimal.Nil) as Hd.
    { intros ->. destruct z; cbn in E; inversion E as [E'].
      by apply DecimalPos.Unsigned.to_uint_nonnil in E'. }
    destruct (string_of_uint_head d Hd) as (c & r & Hs & Hm & Hp).
    unfold Atoi. rewrite Hs, !bool_decide_false, <- Hs by done.
    rewrite NilZero.usu by done. cbn in Hof |- *. rewrite Hof. by rewrite bool_decide_true.
  - assert (d ≠ Decimal.Nil) as Hd.
    { intros ->. destruct z; cbn in E; inversion E as [E'].
      by apply DecimalPos.Unsigned.to_uint_nonnil in E'. }
    unfold Atoi. rewrite bool_decide_true by done.
    rewrite NilZero.usu by done. cbn in Hof |- *. rewrite Hof. by rewrite bool_decide_true.
Qed.

Example Atoi_ex : Atoi "007" = Some 7%Z ∧ Atoi "+5" = Some 5%Z ∧ Atoi "-12" = Some (-12)%Z
  ∧ Atoi "" = None ∧ Atoi "1x" = None ∧ Atoi "9223372036854775808" = None ∧ Itoa (-40) = "-40".
Proof. by vm_compute. Qed.
Example TrimSpace_ex : TrimSpace "  a b	" = "a b".
Proof. reflexivity. Qed.
Example ToLower_ex : ToLower "HIGH" = "high".
Proof. reflexivity. Qed.
