(* ===== verification/GoPath.v ===== *)
(** * Package path/filepath on Unix, as far as phonewave uses it

    Paths are byte strings.  [Clean] is the documented element-wise
    normalisation; [Join], [Dir], [Base], [Ext], [IsAbs] follow the package.
    The lemmas relate them on the paths the router and the delivery pipeline
    build: a clean directory joined with a plain file name. *)
From S2P Require Import Prelude GoStrings.

Abbreviation slash := "/"%char.
Abbreviation dot := "."%char.

(** ** Elements *)

(** One path element read by [Clean]; the stack is in reverse order. *)
Definition clean_step (rooted : bool) (stk : list string) (e : string) : list string :=
  if bool_decide (e = "" ∨ e = ".") then stk
  else if bool_decide (e = "..") then
    match stk with
    | t :: stk' => if bool_decide (t = "..") then e :: stk else stk'
    | [] => if rooted then [] else [e]
    end
  else e :: stk.

Definition clean_stack (rooted : bool) (es : list string) : list string :=
  fold_left (clean_step rooted) es [].

Definition render (rooted : bool) (out : list string) : string :=
  if rooted then "/" +:+ Join out "/"
  else match out with [] => "." | _ => Join out "/" end.

Definition IsAbs (s : string) : bool := HasPrefix s "/".

(** [filepath.Clean]. *)
Definition Clean (s : string) : string :=
  render (IsAbs s) (reverse (clean_stack (IsAbs s) (Split s slash))).

(** [filepath.Join]: leading empty elements are dropped. *)
Fixpoint path_Join (es : list string) : string :=
  match es with
  | [] => ""
  | e :: r => if bool_decide (e = "") then path_Join r else Clean (Join es "/")
  end.

(** The text before and after the last occurrence of a byte. *)
Fixpoint cut_last (c : ascii) (s : string) : option (string * string) :=
  match s with
  | EmptyString => None
  | String d r =>
      match cut_last c r with
      | Some (a, b) => Some (String d a, b)
      | None => if bool_decide (d = c) then Some ("", r) else None
      end
  end.

Fixpoint strip_slashes (s : string) : string :=
  match s with
  | EmptyString => ""
  | String d r =>
      match strip_slashes r with
      | EmptyString => if bool_decide (d = slash) then "" else String d ""
      | r' => String d r'
      end
  end.

(** [filepath.Dir], [filepath.Base], [filepath.Ext]. *)
Definition Dir (s : string) : string :=
  Clean match cut_last slash s with Some (a, _) => a +:+ "/" | None => "" end.

Definition Base (s : string) : string :=
  if bool_decide (s = "") then "." else
  let t := strip_slashes s in
  if bool_decide (t = "") then "/"
  else match cut_last slash t with Some (_, b) => b | None => t end.

Definition Ext (s : string) : string :=
  let seg := match cut_last slash s with Some (_, b) => b | None => s end in
  match cut_last dot seg with Some (_, b) => "." +:+ b | None => "" end.

(** ** A plain file name: what [os.ReadDir] yields *)
Definition plain (f : string) : Prop :=
  f ≠ "" ∧ f ≠ "." ∧ f ≠ ".." ∧ has_byte slash f = false.
#[export] Instance plain_dec f : Decision (plain f).
Proof. unfold plain. apply _. Defined.

(** A path is clean when [Clean] leaves it as it is. *)
Definition clean (s : string) : Prop := Clean s = s.
#[export] Instance clean_dec s : Decision (clean s).
Proof. unfold clean. apply _. Defined.

(** ** [cut_last] *)

Lemma cut_last_None c s : has_byte c s = false → cut_last c s = None.
Proof.
  induction s as [|d s IH]; [done|]. cbn. intros [H1 H2]%orb_false_iff.
  rewrite (IH H2). by rewrite H1.
Qed.

Lemma cut_last_app c s t : has_byte c t = false → cut_last c (s +:+ String c t) = Some (s, t).
Proof.
  intros Ht. induction s as [|d s IH].
  - change (cut_last c (String c t) = Some ("", t)). cbn. rewrite cut_last_None by done.
    by rewrite bool_decide_true.
  - rewrite app_str_cons. cbn. by rewrite IH.
Qed.

Lemma strip_slashes_id s : has_byte slash s = false → strip_slashes s = s.
Proof.
  induction s as [|d s IH]; [done|]. cbn. intros [H1 H2]%orb_false_iff.
  rewrite (IH H2). destruct s; [|done]. by rewrite H1.
Qed.

Lemma strip_slashes_app s t :
  t ≠ "" → strip_slashes t = t → strip_slashes (s +:+ t) = s +:+ t.
Proof.
  intros Hne Ht. induction s as [|d s IH]; [done|]. rewrite app_str_cons. cbn. rewrite IH.
  destruct (s +:+ t) as [|x y] eqn:E; [|done]. exfalso. apply Hne.
  by destruct s.
Qed.

(** ** Normal forms of element stacks *)

(** The stack [Clean] leaves: real elements above the leading ".." of a
    relative path (none in a rooted one). *)
Inductive stack_nf (rooted : bool) : list string → Prop :=
  | nf_nil : stack_nf rooted []
  | nf_dotdot stk : rooted = false → Forall (.= "..") stk → stack_nf rooted (".." :: stk)
  | nf_plain f stk : plain f → stack_nf rooted stk → stack_nf rooted (f :: stk).

Lemma stack_nf_tail rooted e stk : stack_nf rooted (e :: stk) → stack_nf rooted stk.
Proof.
  inversion 1 as [|? Hr Hall|]; subst; [|done].
  destruct stk as [|x stk]; [constructor|]. inversion Hall; subst. by constructor.
Qed.

Lemma clean_step_nf rooted stk e :
  has_byte slash e = false → stack_nf rooted stk → stack_nf rooted (clean_step rooted stk e).
Proof.
  intros He H. unfold clean_step. case_bool_decide as H1; [done|].
  case_bool_decide as H2.
  - subst e. destruct stk as [|t stk].
    + destruct rooted; [constructor|by constructor].
    + case_bool_decide as H3; [|by eapply stack_nf_tail].
      subst t. inversion H as [|? Hr Hall|? ? Hp]; subst.
      * constructor; [done|]. by constructor.
      * by destruct Hp as (_ & _ & ? & _).
  - apply nf_plain; [|done]. unfold plain. naive_solver.
Qed.

Lemma clean_stack_nf rooted es stk :
  Forall (λ e, has_byte slash e = false) es → stack_nf rooted stk →
  stack_nf rooted (fold_left (clean_step rooted) es stk).
Proof.
  intros Hes. revert stk. induction Hes as [|e es He Hes IH]; intros stk H; [done|].
  cbn. apply IH. by apply clean_step_nf.
Qed.

Lemma clean_step_plain rooted stk f : plain f → clean_step rooted stk f = f :: stk.
Proof.
  intros (H1 & H2 & H3 & _). unfold clean_step.
  rewrite bool_decide_false by (by intros [?|?]). by rewrite bool_decide_false.
Qed.

Lemma clean_stack_snoc rooted es f :
  plain f → clean_stack rooted (es ++ [f]) = f :: clean_stack rooted es.
Proof. intros Hf. unfold clean_stack. rewrite fold_left_app. by apply clean_step_plain. Qed.

(** Reading a normal form back pushes every element. *)
Lemma clean_stack_reverse rooted stk :
  stack_nf rooted stk → clean_stack rooted (reverse stk) = stk.
Proof.
  unfold clean_stack. induction 1 as [|stk Hr Hall|f stk Hf H IH].
  - done.
  - subst rooted. induction Hall as [|x stk -> Hall IH]; [done|].
    rewrite reverse_cons, fold_left_app, IH. by cbn.
  - rewrite reverse_cons, fold_left_app, IH. cbn. by apply clean_step_plain.
Qed.

(** ** Reading a rendered path back *)

Lemma stack_nf_no_slash rooted stk :
  stack_nf rooted stk → Forall (λ e, has_byte slash e = false) (reverse stk).
Proof.
  intros H. apply Forall_reverse. induction H as [|stk Hr Hall|f stk Hf H IH].
  - done.
  - constructor; [done|]. eapply Forall_impl; [done|]. by intros ? ->.
  - constructor; [by apply Hf|done].
Qed.

Lemma stack_nf_nonempty rooted stk : stack_nf rooted stk → Forall (λ e, e ≠ "") (reverse stk).
Proof.
  intros H. apply Forall_reverse. induction H as [|stk Hr Hall|f stk Hf H IH].
  - done.
  - constructor; [done|]. eapply Forall_impl; [done|]. by intros ? ->.
  - constructor; [by apply Hf|done].
Qed.

Lemma IsAbs_cons c s : IsAbs (String c s) = bool_decide (c = slash).
Proof.
  unfold IsAbs, HasPrefix. cbn [String.prefix]. destruct (ascii_dec slash c) as [->|Hne].
  - rewrite bool_decide_true by done. by destruct s.
  - by rewrite bool_decide_false.
Qed.

Lemma IsAbs_no_slash_head s t : s ≠ "" → has_byte slash s = false → IsAbs (s +:+ t) = false.
Proof.
  intros Hne H. destruct s as [|c s]; [done|]. cbn in H. apply orb_false_iff in H as [H _].
  by rewrite app_str_cons, IsAbs_cons.
Qed.

Lemma IsAbs_render rooted stk : stack_nf rooted stk → IsAbs (render rooted (reverse stk)) = rooted.
Proof.
  intros H. destruct rooted; [apply prefix_refl_app|]. unfold render.
  pose proof (stack_nf_no_slash _ _ H) as Hs. pose proof (stack_nf_nonempty _ _ H) as Hn.
  destruct (reverse stk) as [|e [|e' es]]; [done| |].
  - inversion Hs; inversion Hn; subst. change (Join [e] "/") with e.
    rewrite <- (app_str_nil_r e). by apply IsAbs_no_slash_head.
  - inversion Hs; inversion Hn; subst. rewrite Join_cons. by apply IsAbs_no_slash_head.
Qed.

(** Empty elements and "." are skipped. *)
Lemma clean_stack_cons_skip rooted es : clean_stack rooted ("" :: es) = clean_stack rooted es.
Proof. done. Qed.
Lemma clean_stack_snoc_skip rooted es : clean_stack rooted (es ++ [""]) = clean_stack rooted es.
Proof. unfold clean_stack. by rewrite fold_left_app. Qed.

Lemma Split_Join_out out :
  Forall (λ e, has_byte slash e = false) out →
  ∀ rooted, clean_stack rooted (Split (Join out "/") slash) = clean_stack rooted out.
Proof.
  intros H rooted. destruct out as [|e es]; [done|]. by rewrite Split_Join.
Qed.

Lemma clean_stack_render rooted stk :
  stack_nf rooted stk → clean_stack rooted (Split (render rooted (reverse stk)) slash) = stk.
Proof.
  intros H. pose proof (stack_nf_no_slash _ _ H) as Hs. unfold render. destruct rooted.
  - change ("/" +:+ Join (reverse stk) "/") with (String slash (Join (reverse stk) "/")).
    cbn [Split]. rewrite bool_decide_true by done.
    rewrite clean_stack_cons_skip, Split_Join_out by done. by apply clean_stack_reverse.
  - destruct (reverse stk) as [|e es] eqn:E.
    + apply (f_equal reverse) in E. rewrite reverse_involutive in E. by subst stk.
    + rewrite <- E in *. rewrite Split_Join_out by done. by apply clean_stack_reverse.
Qed.

Lemma Clean_render rooted stk :
  stack_nf rooted stk → Clean (render rooted (reverse stk)) = render rooted (reverse stk).
Proof.
  intros H. unfold Clean. rewrite IsAbs_render by done. by rewrite clean_stack_render.
Qed.

(** The normalised elements of a path. *)
Definition elems (s : string) : list string := reverse (clean_stack (IsAbs s) (Split s slash)).

Lemma elems_nf s : stack_nf (IsAbs s) (clean_stack (IsAbs s) (Split s slash)).
Proof. apply clean_stack_nf; [apply Split_parts_no_sep|constructor]. Qed.
#[export] Hint Resolve elems_nf : go.

Lemma Clean_elems s : Clean s = render (IsAbs s) (elems s).
Proof. done. Qed.

Lemma Clean_idem s : Clean (Clean s) = Clean s.
Proof. rewrite Clean_elems. apply Clean_render, elems_nf. Qed.

Lemma Clean_clean s : clean (Clean s).
Proof. apply Clean_idem. Qed.

Lemma elems_Clean s : elems (Clean s) = elems s ∧ IsAbs (Clean s) = IsAbs s.
Proof.
  rewrite Clean_elems. pose proof (elems_nf s) as H.
  assert (IsAbs (render (IsAbs s) (elems s)) = IsAbs s) as Ha by by apply IsAbs_render.
  split; [|done]. unfold elems at 1. rewrite Ha. unfold elems at 1. by rewrite clean_stack_render.
Qed.

Lemma path_Join_clean es : path_Join es = "" ∨ clean (path_Join es).
Proof.
  induction es as [|e es IH]; [by left|]. cbn [path_Join]. case_bool_decide; [done|].
  right. apply Clean_clean.
Qed.

(** ** A directory joined with a plain name *)

Lemma elems_snoc_nf d f :
  plain f → stack_nf (IsAbs d) (f :: clean_stack (IsAbs d) (Split d slash)).
Proof. intros. apply nf_plain; [done|apply elems_nf]. Qed.

Lemma path_Join_plain d f :
  plain f → path_Join [d; f] = render (IsAbs d) (elems d ++ [f]).
Proof.
  intros Hf. cbn [path_Join]. case_bool_decide as Hd.
  - subst d. case_bool_decide as Hf'; [by destruct Hf|]. change (Join [f] "/") with f.
    unfold Clean. replace (IsAbs f) with false
      by (symmetry; rewrite <- (app_str_nil_r f); apply IsAbs_no_slash_head; apply Hf).
    rewrite Split_no_sep by apply Hf. unfold clean_stack. cbn [fold_left].
    by rewrite clean_step_plain.
  - rewrite Join_cons. change (Join [f] "/") with f.
    change ("/" +:+ f) with (String slash f). unfold Clean, elems.
    replace (IsAbs (d +:+ String slash f)) with (IsAbs d); last first.
    { destruct d as [|c d]; [done|]. by rewrite app_str_cons, !IsAbs_cons. }
    rewrite Split_app_gen, (Split_no_sep f) by apply Hf.
    rewrite clean_stack_snoc by done. by rewrite reverse_cons.
Qed.

Lemma render_snoc rooted out f :
  render rooted (out ++ [f]) =
  match out with
  | [] => if rooted then String slash f else f
  | _ => (if rooted then "/" +:+ Join out "/" else Join out "/") +:+ String slash f
  end.
Proof.
  destruct out as [|e es].
  - by destruct rooted.
  - unfold render. rewrite Join_snoc by done. change ("/" +:+ f) with (String slash f).
    destruct rooted; [|done]. by rewrite app_str_assoc.
Qed.

Lemma Clean_trailing_slash rooted stk :
  stack_nf rooted stk → stk ≠ [] →
  Clean ((if rooted then "/" +:+ Join (reverse stk) "/" else Join (reverse stk) "/") +:+ "/")
  = render rooted (reverse stk).
Proof.
  intros H Hne.
  assert (reverse stk ≠ []) as Hne'.
  { intros E. apply (f_equal reverse) in E. rewrite reverse_involutive in E. by subst. }
  set (body := if rooted then _ else _).
  assert (body = render rooted (reverse stk)) as Hb.
  { subst body. unfold render. destruct rooted; [done|]. by destruct (reverse stk). }
  rewrite Hb. change "/" with (String slash ""). unfold Clean at 1.
  assert (render rooted (reverse stk) ≠ "") as Hr.
  { unfold render. pose proof (stack_nf_nonempty _ _ H) as Hn. destruct rooted; [done|].
    destruct (reverse stk) as [|e [|e' es]]; [done| |]; inversion Hn; subst; [done|].
    rewrite Join_cons. by destruct e. }
  replace (IsAbs (render rooted (reverse stk) +:+ String slash "")) with rooted.
  - rewrite Split_app_gen. change (Split "" slash) with [""].
    rewrite clean_stack_snoc_skip. by rewrite clean_stack_render.
  - rewrite <- (IsAbs_render rooted stk) at 1 by done.
    destruct (render rooted (reverse stk)) as [|c d]; [done|].
    by rewrite app_str_cons, !IsAbs_cons.
Qed.

Lemma reverse_nil_iff {A} (l : list A) : reverse l = [] ↔ l = [].
Proof.
  split; [|by intros ->]. intros E. apply (f_equal reverse) in E.
  by rewrite reverse_involutive in E.
Qed.

(** The directory of a file delivered into [d] is [d], cleaned. *)
Lemma Dir_Join d f : plain f → Dir (path_Join [d; f]) = Clean d.
Proof.
  intros Hf. rewrite path_Join_plain by done. unfold Dir. rewrite render_snoc.
  pose proof (elems_nf d) as Hnf. rewrite (Clean_elems d).
  destruct (elems d) as [|e es] eqn:E.
  - destruct (IsAbs d).
    + change (String slash f) with ("" +:+ String slash f). by rewrite cut_last_app by apply Hf.
    + by rewrite cut_last_None by apply Hf.
  - rewrite cut_last_app by apply Hf. rewrite <- E. apply Clean_trailing_slash; [done|].
    unfold elems in E. intros E'. by rewrite E' in E.
Qed.

Lemma Base_plain f : plain f → Base f = f.
Proof.
  intros (H1 & _ & _ & H4). unfold Base. rewrite strip_slashes_id by done.
  by rewrite bool_decide_false, cut_last_None by done.
Qed.

Lemma Base_slash p f : plain f → Base (p +:+ String slash f) = f.
Proof.
  intros (H1 & _ & _ & H4). unfold Base.
  rewrite bool_decide_false by (by destruct p).
  change (String slash f) with ("/" +:+ f). rewrite app_str_assoc.
  rewrite strip_slashes_app by (done || by apply strip_slashes_id).
  rewrite <- app_str_assoc. change ("/" +:+ f) with (String slash f). cbn zeta.
  rewrite bool_decide_false by (by destruct p). by rewrite cut_last_app.
Qed.

Lemma Base_Join d f : plain f → Base (path_Join [d; f]) = f.
Proof.
  intros Hf. rewrite path_Join_plain, render_snoc by done.
  destruct (elems d) as [|e es]; [|by apply Base_slash].
  destruct (IsAbs d); [by apply (Base_slash "")|by apply Base_plain].
Qed.

Lemma Clean_Join d f : plain f → clean (path_Join [d; f]).
Proof.
  intros Hf. rewrite path_Join_plain by done. unfold clean.
  pose proof (elems_snoc_nf d f Hf) as H. apply Clean_render in H.
  by rewrite reverse_cons in H.
Qed.

Lemma path_Join_inj d1 f1 d2 f2 :
  plain f1 → plain f2 → path_Join [d1; f1] = path_Join [d2; f2] → f1 = f2 ∧ Clean d1 = Clean d2.
Proof.
  intros H1 H2 E. split.
  - rewrite <- (Base_Join d1 f1), <- (Base_Join d2 f2) by done. by rewrite E.
  - rewrite <- (Dir_Join d1 f1), <- (Dir_Join d2 f2) by done. by rewrite E.
Qed.

Lemma path_Join_ne d f : plain f → path_Join [d; f] ≠ Clean d.
Proof.
  intros Hf E. rewrite path_Join_plain, Clean_elems in E by done.
  pose proof (clean_stack_render _ _ (elems_snoc_nf d f Hf)) as E1.
  pose proof (clean_stack_render _ _ (elems_nf d)) as E2.
  rewrite reverse_cons in E1. unfold elems in E. rewrite E, E2 in E1.
  apply (f_equal length) in E1. cbn in E1. lia.
Qed.

Lemma path_Join_nonempty d f : plain f → path_Join [d; f] ≠ "".
Proof.
  intros Hf E. pose proof (Base_Join d f Hf) as Hb. rewrite E in Hb.
  change (Base "") with "." in Hb. destruct Hf as (_ & ? & _). congruence.
Qed.
#[export] Hint Resolve Clean_clean Clean_Join : go.

Lemma Base_slash_gen p f : f ≠ "" → has_byte slash f = false → Base (p +:+ String slash f) = f.
Proof.
  intros H1 H4. unfold Base. rewrite bool_decide_false by (by destruct p).
  change (String slash f) with ("/" +:+ f). rewrite app_str_assoc.
  rewrite strip_slashes_app by (done || by apply strip_slashes_id).
  rewrite <- app_str_assoc. change ("/" +:+ f) with (String slash f). cbn zeta.
  rewrite bool_decide_false by (by destruct p). by rewrite cut_last_app.
Qed.

Lemma cut_last_Some c s a b : cut_last c s = Some (a, b) → has_byte c b = false.
Proof.
  revert a b. induction s as [|d s IH]; intros a b; [done|]. cbn.
  destruct (cut_last c s) as [[a' b']|] eqn:E; [intros [= <- <-]; by eapply IH|].
  case_bool_decide; [|done]. intros [= <- <-]. clear IH. revert E.
  induction s as [|e s IH]; [done|]. cbn. destruct (cut_last c s) as [[??]|]; [done|].
  case_bool_decide; [done|]. intros _. by apply IH.
Qed.

Lemma cut_last_None_iff c s : cut_last c s = None → has_byte c s = false.
Proof.
  induction s as [|d s IH]; [done|]. cbn. destruct (cut_last c s) as [[??]|]; [done|].
  case_bool_decide; [done|]. intros _. by apply IH.
Qed.

(** [Base] yields one path element. *)
Lemma Base_no_slash k : Base k = "/" ∨ has_byte slash (Base k) = false.
Proof.
  unfold Base. case_bool_decide; [by right|]. cbv zeta. case_bool_decide; [by left|]. right.
  destruct (cut_last slash (strip_slashes k)) as [[a b]|] eqn:E;
    [by eapply cut_last_Some|by apply cut_last_None_iff].
Qed.

(** A clean path to a plain file name is its directory and its base. *)
Lemma Join_Dir_Base p : clean p → plain (Base p) → path_Join [Dir p; Base p] = p.
Proof.
  intros Hc Hb. set (rooted := IsAbs p). set (stk := clean_stack rooted (Split p slash)).
  assert (stack_nf rooted stk) as Hnf by apply elems_nf.
  assert (p = render rooted (reverse stk)) as Hp by (symmetry; exact Hc).
  destruct Hnf as [|stk' Hr Hall|f stk' Hf Hnf].
  - exfalso. rewrite Hp in Hb. destruct rooted; cbn in Hb; destruct Hb as (_ & ? & _ & ?); done.
  - exfalso. rewrite reverse_cons, render_snoc, Hr in Hp. rewrite Hp in Hb.
    destruct (reverse stk') as [|e es]; [by destruct Hb as (_ & _ & ? & _)|].
    rewrite Base_slash_gen in Hb by done. by destruct Hb as (_ & _ & ? & _).
  - rewrite reverse_cons in Hp. set (dd := render rooted (reverse stk')).
    assert (p = path_Join [dd; f]) as Hj.
    { rewrite path_Join_plain by done. unfold elems. subst dd. rewrite IsAbs_render by done.
      by rewrite clean_stack_render. }
    rewrite Hj, Dir_Join, Base_Join by done. rewrite !path_Join_plain by done.
    by destruct (elems_Clean dd) as [-> ->].
Qed.

(** Joining step by step. *)
Lemma path_Join_Clean d f : plain f → path_Join [Clean d; f] = path_Join [d; f].
Proof.
  intros Hf. rewrite !path_Join_plain by done. by destruct (elems_Clean d) as [-> ->].
Qed.

Lemma path_Join_3 r d f :
  plain d → plain f → path_Join [r; d; f] = path_Join [path_Join [r; d]; f].
Proof.
  intros Hd Hf. cbn [path_Join]. case_bool_decide as Hr.
  - assert (d ≠ "") as Hd' by apply Hd. rewrite !(bool_decide_false (d = "")) by done.
    change (Join [d] "/") with d. fold (path_Join [Clean d; f]).
    rewrite path_Join_Clean by done. cbn [path_Join]. by rewrite bool_decide_false.
  - assert (Join [r; d] "/" ≠ "") as Hs by (by destruct r).
    fold (path_Join [Clean (Join [r; d] "/"); f]). rewrite path_Join_Clean by done. cbn [path_Join].
    rewrite bool_decide_false by done. f_equal. rewrite !Join_cons.
    change (Join [d] "/") with d. change (Join [f] "/") with f. by rewrite <- !app_str_assoc.
Qed.

Lemma path_Join_nested r d f :
  plain d → plain f → path_Join [r; path_Join [d; f]] = path_Join [path_Join [r; d]; f].
Proof.
  intros Hd Hf. rewrite <- path_Join_3 by done. assert (d ≠ "") as Hd' by apply Hd.
  assert (path_Join [d; f] = d +:+ "/" +:+ f) as E.
  { rewrite path_Join_plain by done. replace (IsAbs d) with false
      by (symmetry; rewrite <- (app_str_nil_r d); apply IsAbs_no_slash_head; apply Hd).
    unfold elems, clean_stack. rewrite Split_no_sep by apply Hd. cbn [fold_left].
    rewrite clean_step_plain by done. done. }
  cbn [path_Join] in E |- *. rewrite (bool_decide_false (d = "")) in * by done. rewrite E.
  case_bool_decide as Hr.
  - rewrite bool_decide_false by (by destruct d). change (Join [d +:+ "/" +:+ f] "/") with (d +:+ "/" +:+ f).
    rewrite <- E. by rewrite Clean_idem.
  - done.
Qed.

(** ** [filepath.Rel] *)

(** The elements of a cleaned path behind its leading slash. *)
Definition parts (s : string) : list string :=
  match s with
  | "" => []
  | String c r => if bool_decide (c = slash) then (if bool_decide (r = "") then [] else Split r slash)
                  else Split s slash
  end.

(** What is left of both behind their common elements. *)
Fixpoint strip_common (b t : list string) : list string * list string :=
  match b, t with
  | x :: b', y :: t' => if bool_decide (x = y) then strip_common b' t' else (b, t)
  | _, _ => (b, t)
  end.

Definition Rel (basepath targpath : string) : result string :=
  let base := Clean basepath in
  let targ := Clean targpath in
  if bool_decide (targ = base) then Ok "." else
  let base := if bool_decide (base = ".") then "" else base in
  let no_way := Err (errors_New ("Rel: can't make " +:+ targpath +:+ " relative to " +:+ basepath)) in
  if negb (bool_decide (IsAbs base = IsAbs targ)) then no_way else
  let '(up, down) := strip_common (parts base) (parts targ) in
  if bool_decide (head up = Some "..") then no_way
  else Ok (Join (repeat ".." (length up) ++ down) "/").


Lemma strip_common_spec b t :
  ∃ c, b = c ++ fst (strip_common b t) ∧ t = c ++ snd (strip_common b t).
Proof.
  revert t. induction b as [|x b IH]; intros [|y t]; try by exists []. cbn [strip_common].
  case_bool_decide as E; [|by exists []]. subst y. destruct (IH t) as (c & Eb & Et).
  exists (x :: c). cbn [app]. by rewrite <- Eb, <- Et.
Qed.

Lemma nf_true_plain stk : stack_nf true stk → Forall plain stk.
Proof. induction 1; [constructor|done|by constructor]. Qed.
Lemma elems_plain s : IsAbs s = true → Forall plain (elems s).
Proof. intros Ha. pose proof (elems_nf s) as H. unfold elems. rewrite Ha in *. by apply Forall_reverse, nf_true_plain. Qed.

Lemma parts_Clean s : IsAbs s = true → parts (Clean s) = elems s.
Proof.
  intros Ha. rewrite Clean_elems, Ha. pose proof (elems_plain s Ha) as Hp. unfold render.
  change ("/" +:+ Join (elems s) "/") with (String slash (Join (elems s) "/")). cbn [parts].
  rewrite bool_decide_true by done. destruct (elems s) as [|e es]; [done|].
  rewrite bool_decide_false.
  - apply Split_Join; [done|]. eapply Forall_impl; [exact Hp|]. intros x Hx. apply Hx.
  - apply Forall_cons in Hp as [[He _] _]. intros E. apply He. destruct es; [done|]. rewrite Join_cons in E. by destruct e.
Qed.


Lemma clean_up bs s : Forall plain bs → fold_left (clean_step true) (repeat ".." (length bs)) (bs ++ s) = s.
Proof.
  induction 1 as [|b bs Hb Hbs IH]; [done|]. cbn [length repeat fold_left app].
  unfold clean_step at 2. rewrite bool_decide_false by naive_solver. rewrite bool_decide_true by done.
  rewrite bool_decide_false; [done|]. apply Hb.
Qed.
Lemma clean_down ts s : Forall plain ts → fold_left (clean_step true) ts s = reverse ts ++ s.
Proof.
  intros H. revert s. induction H as [|t ts Ht Hts IH]; intros s; [done|]. cbn [fold_left].
  rewrite clean_step_plain by done. rewrite IH, reverse_cons, <- app_assoc. done.
Qed.

(** A path made relative to a base and joined with it again is the path. *)
Lemma Join_Rel base targ :
  IsAbs base = true → IsAbs targ = true →
  ∃ r, Rel base targ = Ok r ∧ r ≠ "" ∧ IsAbs r = false ∧ path_Join [base; r] = Clean targ.
Proof.
  intros Hb Ht. assert (base ≠ "") as Hne by (by destruct base).
  assert (∀ r, path_Join [base; r] = Clean (base +:+ String slash r)) as HJ.
  { intros r. cbn [path_Join]. by rewrite bool_decide_false. }
  assert (∀ r, IsAbs (base +:+ r) = true) as Hba.
  { intros r. destruct base as [|c b]; [done|]. rewrite IsAbs_cons in Hb. by rewrite app_str_cons, IsAbs_cons. }
  unfold Rel. case_bool_decide as E.
  { exists ".". split_and!; [done..|]. rewrite HJ, E. unfold Clean. rewrite Hba, Split_app_gen, Hb.
    unfold clean_stack. rewrite fold_left_app. done. }
  assert (IsAbs (Clean base) = true ∧ IsAbs (Clean targ) = true) as [Hcb Hct]
    by by rewrite (proj2 (elems_Clean base)), (proj2 (elems_Clean targ)).
  rewrite (bool_decide_false (Clean base = ".")) by (intros Ec; by rewrite Ec in Hcb).
  rewrite Hcb, Hct, bool_decide_true by done. cbn [negb]. rewrite !parts_Clean by done.
  pose proof (elems_plain _ Hb) as Pb. pose proof (elems_plain _ Ht) as Pt.
  destruct (strip_common_spec (elems base) (elems targ)) as (c & Eb & Et).
  destruct (strip_common (elems base) (elems targ)) as [up down]. cbn [fst snd] in *.
  rewrite Eb, Forall_app in Pb. rewrite Et, Forall_app in Pt. destruct Pb as [_ Pu], Pt as [Pc Pd].
  rewrite bool_decide_false; cycle 1.
  { destruct up as [|u up]; [done|]. intros [= ->]. apply Forall_cons in Pu as [Hu _]. by apply Hu. }
  set (l := repeat ".." (length up) ++ down).
  assert (Forall (λ e, has_byte slash e = false ∧ e ≠ "") l) as Hl.
  { apply Forall_app. split; [apply Forall_forall; intros x Hx%list_elem_of_In%repeat_spec; by subst x|].
    eapply Forall_impl; [exact Pd|]. intros x Hx. split; apply Hx. }
  assert (l ≠ []) as Hln.
  { intros Enil. apply E. unfold l in Enil. apply app_eq_nil in Enil as [Hu ->]. destruct up; [|done].
    rewrite !app_nil_r in *. by rewrite !Clean_elems, Hb, Ht, Eb, Et. }
  assert (Join l "/" ≠ "" ∧ IsAbs (Join l "/") = false) as [Hj1 Hj2].
  { destruct l as [|e es]; [done|]. apply Forall_cons in Hl as [[He1 He2] _].
    assert (∃ t, Join (e :: es) "/" = e +:+ t) as [t ->].
    { destruct es; [exists ""; by rewrite app_str_nil_r|]. eexists. by rewrite Join_cons. }
    split; [by destruct e|]. by apply IsAbs_no_slash_head. }
  eexists. split_and!; [done|done|done|]. rewrite HJ. unfold Clean. rewrite Hba, Split_app_gen.
  rewrite Split_Join; [|done|eapply Forall_impl; [exact Hl|]; by intros x []].
  rewrite Ht. f_equal. unfold clean_stack. rewrite fold_left_app.
  assert (fold_left (clean_step true) (Split base slash) [] = reverse up ++ reverse c) as ->.
  { rewrite <- reverse_app, <- Eb. unfold elems. rewrite Hb. by rewrite reverse_involutive. }
  unfold l. rewrite fold_left_app.
  rewrite <- (length_reverse up), clean_up by (by apply Forall_reverse). rewrite clean_down by done.
  rewrite <- reverse_app, <- Et. rewrite reverse_involutive. unfold elems. by rewrite Ht.
Qed.

(** The elements of a joined path. *)
Lemma elems_Join d f : plain f → elems (path_Join [d; f]) = elems d ++ [f].
Proof.
  intros Hf. rewrite path_Join_plain by done. pose proof (elems_snoc_nf d f Hf) as H.
  pose proof (IsAbs_render _ _ H) as Ha. pose proof (clean_stack_render _ _ H) as Hs. rewrite reverse_cons in Ha, Hs.
  fold (elems d) in Ha, Hs. unfold elems at 1. by rewrite Ha, Hs, reverse_cons.
Qed.
