(* ===== verification/GoTime.v ===== *)
(** * Time values and their layouts

    [time.Time] in UTC as nanoseconds since year 1, so that Go's zero time is
    [0] and [IsZero] is a comparison; [time.Duration] as its int64 count of
    nanoseconds.  [format_rfc3339] is [t.UTC().Format(time.RFC3339)],
    [Parse_RFC3339] is [time.Parse(time.RFC3339, s)], which undoes it up to
    the fraction of the second, and [format_queue] is the layout of the
    error-queue entry names. *)
From Stdlib Require Import Decimal DecimalPos DecimalString.
From S2P Require Import Prelude GoStrings.

#[local] Open Scope Z_scope.

Abbreviation Time := Z (only parsing).
Abbreviation Duration := Z (only parsing).

Definition Millisecond : Duration := 1000000.
Definition Second : Duration := 1000000000.
Definition Minute : Duration := 60 * Second.
Definition Hour : Duration := 60 * Minute.

Definition IsZero (t : Time) : bool := t =? 0.

(** Proleptic Gregorian date of a day count from 0001-01-01. *)
Definition civil (days : Z) : Z * Z * Z :=
  let z := days + 306 in
  let era := z / 146097 in
  let doe := z mod 146097 in
  let yoe := (doe - doe / 1460 + doe / 36524 - doe / 146096) / 365 in
  let doy := doe - (365 * yoe + yoe / 4 - yoe / 100) in
  let mp := (5 * doy + 2) / 153 in
  let d := doy - (153 * mp + 2) / 5 + 1 in
  let m := if mp <? 10 then mp + 3 else mp - 9 in
  (yoe + era * 400 + (if m <=? 2 then 1 else 0), m, d).

(** Decimal with at least [w] digits. *)
Definition pad (w : nat) (z : Z) : string :=
  let s := Itoa z in String.concat "" (replicate (w - slen s) "0") +:+ s.

Definition format_date (t : Time) : string :=
  let '(y, m, d) := civil (t / (24 * Hour)) in
  pad 4 y +:+ "-" +:+ pad 2 m +:+ "-" +:+ pad 2 d.

Definition clock (t : Time) : Z * Z * Z :=
  let s := (t mod (24 * Hour)) / Second in (s / 3600, (s / 60) mod 60, s mod 60).

(** ["2006-01-02T15:04:05Z07:00"] on a UTC time. *)
Definition format_rfc3339 (t : Time) : string :=
  let '(h, mi, s) := clock t in
  format_date t +:+ "T" +:+ pad 2 h +:+ ":" +:+ pad 2 mi +:+ ":" +:+ pad 2 s +:+ "Z".

(** ["2006-01-02T150405.000000000"] *)
Definition format_queue (t : Time) : string :=
  let '(h, mi, s) := clock t in
  format_date t +:+ "T" +:+ pad 2 h +:+ pad 2 mi +:+ pad 2 s +:+ "." +:+ pad 9 (t mod Second).

(** 2024-02-29 is day 738944 and 2000-01-01 is day 730119. *)
Example civil_leap : civil 738944 = (2024, 2, 29). Proof. reflexivity. Qed.
Example civil_2000 : civil 730119 = (2000, 1, 1). Proof. reflexivity. Qed.
Example civil_first : civil 0 = (1, 1, 1). Proof. reflexivity. Qed.
Example format_example :
  format_rfc3339 (738944 * (24 * Hour) + 3 * Hour + 4 * Minute + 5 * Second) = "2024-02-29T03:04:05Z".
Proof. reflexivity. Qed.
Example format_queue_example :
  format_queue (730119 * (24 * Hour) + 23 * Hour + 59 * Second + 7) = "2000-01-01T230059.000000007".
Proof. reflexivity. Qed.

(** ** Years print apart *)
Lemma uint_string_inj d e : NilEmpty.string_of_uint d = NilEmpty.string_of_uint e → d = e.
Proof. intros E. apply (f_equal NilEmpty.uint_of_string) in E. rewrite !NilEmpty.usu in E. by simplify_eq. Qed.

Lemma zeros_uint k d : ∃ d', String.concat "" (replicate k "0") +:+ NilEmpty.string_of_uint d =
  NilEmpty.string_of_uint d' ∧ Pos.of_uint d' = Pos.of_uint d.
Proof.
  induction k as [|[|k] IH]; [by exists d|by exists (D0 d)|].
  destruct IH as (d' & E & <-). exists (D0 d'). split; [|done].
  change (String "0" (String.concat "" (replicate (S k) "0") +:+ NilEmpty.string_of_uint d) =
          String "0" (NilEmpty.string_of_uint d')). by rewrite E.
Qed.

Lemma Itoa_pos p : Itoa (Zpos p) = NilEmpty.string_of_uint (Pos.to_uint p).
Proof.
  unfold Itoa. cbn. unfold NilZero.string_of_uint. pose proof (DecimalPos.Unsigned.to_uint_nonnil p).
  by destruct (Pos.to_uint p).
Qed.

Lemma pad_pos_inj w p q : pad w (Zpos p) = pad w (Zpos q) → p = q.
Proof.
  unfold pad. cbv zeta. rewrite !Itoa_pos.
  destruct (zeros_uint (w - slen (NilEmpty.string_of_uint (Pos.to_uint p))) (Pos.to_uint p)) as (d & -> & Ed).
  destruct (zeros_uint (w - slen (NilEmpty.string_of_uint (Pos.to_uint q))) (Pos.to_uint q)) as (e & -> & Ee).
  intros E%uint_string_inj. subst e. rewrite Ed, !DecimalPos.Unsigned.of_to in Ee. congruence.
Qed.

Lemma pad_pos_no_dash w p : has_byte "-" (pad w (Zpos p)) = false.
Proof.
  unfold pad. cbv zeta. rewrite Itoa_pos.
  destruct (zeros_uint (w - slen (NilEmpty.string_of_uint (Pos.to_uint p))) (Pos.to_uint p)) as (d & -> & _).
  induction d; cbn; done.
Qed.

(** Numbers consist of digits and a sign, dates of them too. *)
Definition no_digit (c : ascii) : bool := negb (has_byte c "0123456789-").
Lemma uint_no_byte c d : no_digit c = true → has_byte c (NilEmpty.string_of_uint d) = false.
Proof.
  intros Hc. assert (∀ x, has_byte x "0123456789-" = true → bool_decide (x = c) = false) as Hx.
  { intros x Hx. rewrite bool_decide_false; [done|]. intros ->. unfold no_digit in Hc. by rewrite Hx in Hc. }
  induction d; cbn; [done|..]; by rewrite Hx, IHd.
Qed.
Lemma zeros_no_byte c k : no_digit c = true → has_byte c (String.concat "" (replicate k "0")) = false.
Proof.
  intros Hc. destruct (zeros_uint k Nil) as (d & E & _). change (NilEmpty.string_of_uint Nil) with "" in E.
  rewrite app_str_nil_r in E. rewrite E. by apply uint_no_byte.
Qed.
Lemma Itoa_no_byte c z : no_digit c = true → has_byte c (Itoa z) = false.
Proof.
  intros Hc. assert (∀ d, has_byte c (NilZero.string_of_uint d) = false) as Hd.
  { intros d. pose proof (uint_no_byte c d Hc). by destruct d; [apply (uint_no_byte c (D0 Nil))|..]. }
  unfold Itoa. destruct (Z.to_int z); cbn; [apply Hd|]. rewrite Hd, bool_decide_false; [done|].
  intros <-. done.
Qed.
Lemma pad_no_byte c w z : no_digit c = true → has_byte c (pad w z) = false.
Proof. intros Hc. unfold pad. by rewrite has_byte_app, zeros_no_byte, Itoa_no_byte. Qed.
Lemma format_date_no_slash t : has_byte "/" (format_date t) = false.
Proof. unfold format_date. destruct (civil _) as [[y m] d]. by rewrite !has_byte_app, !pad_no_byte. Qed.
Lemma format_no_byte c t : has_byte c "0123456789-TZ:" = false → has_byte c (format_rfc3339 t) = false.
Proof.
  intros Hc. assert (no_digit c = true ∧ has_byte c "-" = false ∧ has_byte c "T" = false ∧ has_byte c "Z" = false ∧ has_byte c ":" = false)
    as (Hd & Hm & HT & HZ & Hs).
  { unfold no_digit. change "0123456789-TZ:" with ("0123456789-" +:+ "T" +:+ "Z" +:+ ":") in Hc.
    rewrite !has_byte_app, !orb_false_iff in Hc. destruct Hc as (H1 & ? & ? & ?). rewrite H1. split_and!; try done.
    change "0123456789-" with ("0123456789" +:+ "-") in H1. rewrite has_byte_app, orb_false_iff in H1. tauto. }
  unfold format_rfc3339, format_date. destruct (clock t) as [[h mi] s], (civil _) as [[y m] d].
  by rewrite !has_byte_app, !pad_no_byte, Hm, HT, HZ, Hs.
Qed.
Lemma slen_zeros k : slen (String.concat "" (replicate k "0")) = k.
Proof. induction k as [|[|k] IH]; [done..|]. cbn [replicate String.concat] in *. rewrite slen_app. cbn. by f_equal. Qed.
Lemma slen_pad w z : (w <= slen (pad w z))%nat.
Proof. unfold pad. rewrite slen_app, slen_zeros. lia. Qed.
Lemma slen_format t : (20 <= slen (format_rfc3339 t))%nat.
Proof.
  unfold format_rfc3339, format_date. destruct (clock t) as [[h mi] s], (civil _) as [[y m] d]. rewrite !slen_app. cbn [slen String.length].
  pose proof (slen_pad 4 y). pose proof (slen_pad 2 m). pose proof (slen_pad 2 d). pose proof (slen_pad 2 h).
  pose proof (slen_pad 2 mi). pose proof (slen_pad 2 s). lia.
Qed.

(** Every 400 years the calendar repeats. *)
Lemma format_queue_era n : 0 <= n →
  format_queue (n * (146097 * (24 * Hour))) = pad 4 (400 * n + 1) +:+ "-01-01T000000.000000000".
Proof.
  intros Hn. unfold format_queue, clock, format_date.
  replace (n * (146097 * (24 * Hour))) with ((n * 146097) * (24 * Hour)) by lia.
  rewrite Z.div_mul, Z.mod_mul by done.
  replace (n * 146097 * (24 * Hour)) with ((n * 146097 * 86400) * Second)%Z by (unfold Hour, Minute; lia).
  rewrite Z.mod_mul by done. unfold civil.
  replace (n * 146097 + 306) with (306 + n * 146097) by lia.
  rewrite Z.div_add, Z.mod_add by done. 
  change (306 / 146097) with 0. change (306 mod 146097) with 306.
  match goal with |- context [pad 4 (?y)] => replace y with (400 * n + 1) end.
  2:{ match goal with |- _ = _ + ?c + ?b => change (400 * n + 1 = 0 + (0 + n) * 400 + 1) end. lia. }
  generalize (pad 4 (400 * n + 1)). intros y. rewrite <- app_str_assoc. reflexivity.
Qed.

(** ** Parsing [time.RFC3339]

    [time.Parse] with this layout: the date and the time of day with fixed
    digits, except that the hour may have one; a fraction of the second behind
    a point or a comma; [Z] or a numeric offset.  The result is the instant. *)

Definition digit (c : ascii) : option Z :=
  let n := byte_val c - 48 in if (0 <=? n) && (n <=? 9) then Some n else None.
Fixpoint digits (n : nat) (acc : Z) (s : bytes) : option (Z * bytes) :=
  match n with
  | O => Some (acc, s)
  | S n => match s with
           | c :: r => d ← digit c; digits n (10 * acc + d) r
           | [] => None
           end
  end.
Definition lit (c : ascii) (s : bytes) : option bytes :=
  match s with d :: r => if bool_decide (d = c) then Some r else None | [] => None end.
(** [getnum(value, false)] *)
Definition one_or_two (s : bytes) : option (Z * bytes) :=
  match digits 2 0 s with Some r => Some r | None => digits 1 0 s end.

(** All leading digits: [parseNanoseconds] looks at nine of them. *)
Fixpoint nanos (w : Z) (acc : Z) (s : bytes) : Z * bytes :=
  match s with
  | c :: r => match digit c with Some d => nanos (w / 10) (acc + d * w) r | None => (acc, s) end
  | [] => (acc, s)
  end.
Definition fraction (s : bytes) : Z * bytes :=
  match s with
  | c :: d :: r =>
      if (bool_decide (c = "."%char) || bool_decide (c = ","%char)) && bool_decide (is_Some (digit d))
      then nanos 100000000 0 (d :: r) else (0, s)
  | _ => (0, s)
  end.
Definition offset (s : bytes) : option (Z * bytes) :=
  match s with
  | c :: r =>
      if bool_decide (c = "Z"%char) then Some (0, r) else
      sg ← (if bool_decide (c = "+"%char) then Some 1 else if bool_decide (c = "-"%char) then Some (-1) else None);
      '(hh, r) ← digits 2 0 r; r ← lit ":" r; '(mm, r) ← digits 2 0 r;
      if (hh <=? 24) && (mm <=? 60) then Some (sg * (hh * 60 + mm) * 60, r) else None
  | [] => None
  end.

Definition is_leap (y : Z) : bool := (y mod 4 =? 0) && (negb (y mod 100 =? 0) || (y mod 400 =? 0)).
Definition days_in (m y : Z) : Z :=
  if m =? 2 then (if is_leap y then 29 else 28)
  else if (m =? 4) || (m =? 6) || (m =? 9) || (m =? 11) then 30 else 31.

(** The day count of a date; the inverse of [civil]. *)
Definition days_of (y m d : Z) : Z :=
  let y := if m <=? 2 then y - 1 else y in
  let mp := if m <=? 2 then m + 9 else m - 3 in
  let yoe := y mod 400 in
  y / 400 * 146097 + (365 * yoe + yoe / 4 - yoe / 100) + ((153 * mp + 2) / 5 + d - 1) - 306.

Definition Parse_RFC3339 (s : string) : option Time :=
  '(y, r) ← digits 4 0 (raw s); r ← lit "-" r; '(m, r) ← digits 2 0 r; r ← lit "-" r; '(d, r) ← digits 2 0 r; r ← lit "T" r;
  '(h, r) ← one_or_two r; r ← lit ":" r; '(mi, r) ← digits 2 0 r; r ← lit ":" r; '(sec, r) ← digits 2 0 r;
  let '(ns, r) := fraction r in
  '(off, r) ← offset r;
  if bool_decide (r = []) && (1 <=? m) && (m <=? 12) && (1 <=? d) && (d <=? days_in m y) && (h <? 24) && (mi <? 60) && (sec <? 60)
  then Some (days_of y m d * (24 * Hour) + (h * 3600 + mi * 60 + sec - off) * Second + ns) else None.

Example parse_zone : Parse_RFC3339 "2024-02-29T05:04:05.25+02:00" =
  Some (738944 * (24 * Hour) + 3 * Hour + 4 * Minute + 5 * Second + 250 * Millisecond). Proof. reflexivity. Qed.
Example parse_no_leap : Parse_RFC3339 "2023-02-29T05:04:05Z" = None. Proof. reflexivity. Qed.

(** Linear arithmetic with divisions by constants. *)
Ltac dlia := Z.div_mod_to_equations; lia.

(** The year of a day of a 400-year era: the first and the last day of each year decide, since the quotient only
    grows. *)
Definition year_days (doe : Z) : Z := doe - doe / 1460 + doe / 36524 - doe / 146096.
Definition year_start (y : Z) : Z := 365 * y + y / 4 - y / 100.

Lemma year_days_step a : year_days a <= year_days (a + 1).
Proof.
  unfold year_days. destruct (decide ((a + 1) / 146096 = a / 146096)) as [E|E]; [rewrite E; dlia|].
  assert (a + 1 = 146096 * ((a + 1) / 146096)) as E' by dlia. set (q := (a + 1) / 146096) in *. clearbody q.
  assert ((a + 1) / 36524 = 4 * q ∧ a / 36524 = 4 * q - 1) as [-> ->] by dlia. dlia.
Qed.
Lemma year_days_mono a b : a <= b → year_days a <= year_days b.
Proof.
  intros H. replace b with (a + Z.of_nat (Z.to_nat (b - a))) by lia. generalize (Z.to_nat (b - a)). clear b H. intros n.
  induction n as [|n IH]; [by rewrite Z.add_0_r|]. etransitivity; [exact IH|].
  replace (a + Z.of_nat (S n)) with (a + Z.of_nat n + 1) by lia. apply year_days_step.
Qed.

Definition upto (n : Z) : list Z := Z.of_nat <$> seq 0 (Z.to_nat n).
Lemma forallb_upto (P : Z → bool) n z : forallb P (upto n) = true → 0 <= z < n → P z = true.
Proof.
  rewrite forallb_forall. intros H Hz. apply H, in_map_iff. exists (Z.to_nat z). rewrite in_seq. lia.
Qed.

Lemma year_bounds_all : forallb (λ y, (365 * y <=? year_days (year_start y)) &&
    ((year_days (year_start (y + 1) - 1 + (if y =? 399 then 1 else 0)) <? 365 * (y + 1)) &&
     (year_start (y + 1) + (if y =? 399 then 1 else 0) - year_start y =? (if is_leap (y + 1) then 366 else 365)))) (upto 400) = true.
Proof. vm_compute. reflexivity. Qed.

Definition year_end (y : Z) : Z := year_start (y + 1) + (if y =? 399 then 1 else 0).
Lemma year_bounds y : 0 <= y < 400 →
  365 * y <= year_days (year_start y) ∧ year_days (year_end y - 1) < 365 * (y + 1) ∧
  year_end y - year_start y = (if is_leap (y + 1) then 366 else 365).
Proof.
  intros Hy. pose proof (forallb_upto _ 400 y year_bounds_all ltac:(lia)) as H. cbv beta in H.
  rewrite !andb_true_iff, Z.leb_le, Z.ltb_lt, Z.eqb_eq in H. unfold year_end.
  replace (year_start (y + 1) + (if y =? 399 then 1 else 0) - 1) with (year_start (y + 1) - 1 + (if y =? 399 then 1 else 0)) by lia.
  tauto.
Qed.

(** Every day of the era is in the year the quotient names. *)
Lemma year_found doe : 0 <= doe < 146097 →
  0 <= year_days doe / 365 < 400 ∧ year_start (year_days doe / 365) <= doe < year_end (year_days doe / 365).
Proof.
  intros Hd. assert (0 <= year_days doe / 365 < 400) as Hy.
  { pose proof (year_days_mono 0 doe ltac:(lia)) as H0. pose proof (year_days_mono doe 146096 ltac:(lia)) as H1.
    change (year_days 0) with 0 in H0. change (year_days 146096) with 145999 in H1. dlia. }
  split; [done|]. set (y := year_days doe / 365) in *. split.
  - destruct (Z_lt_ge_dec doe (year_start y)) as [Hlt|]; [|lia].
    destruct (decide (y = 0)) as [E|Hne]; [rewrite E in Hlt; change (year_start 0) with 0 in Hlt; lia|].
    pose proof (year_bounds (y - 1) ltac:(lia)) as (_ & H & _). unfold year_end in H.
    replace (y - 1 + 1) with y in H by lia. destruct (y - 1 =? 399) eqn:E9; [lia|].
    pose proof (year_days_mono doe (year_start y + 0 - 1) ltac:(lia)). unfold y in *. dlia.
  - destruct (Z_lt_ge_dec doe (year_end y)) as [|Hge]; [done|].
    assert (y ≠ 399) as Hne by (intros E; rewrite E in Hge; change (year_end 399) with 146097 in Hge; lia).
    pose proof (year_bounds (y + 1) ltac:(lia)) as (H & _).
    assert (year_end y = year_start (y + 1)) as E by (unfold year_end; destruct (y =? 399) eqn:?; lia).
    pose proof (year_days_mono (year_start (y + 1)) doe ltac:(lia)). unfold y in *. dlia.
Qed.

(** Months of a year that starts in March. *)
Definition month_of (doy : Z) : Z := (5 * doy + 2) / 153.
Definition civil_month (mp : Z) : Z := if mp <? 10 then mp + 3 else mp - 9.
Lemma months_all : forallb (λ doy,
    let mp := month_of doy in let d := doy - (153 * mp + 2) / 5 + 1 in let m := civil_month mp in
    (1 <=? m) && (m <=? 12) && (1 <=? d) && (mp =? (if m <=? 2 then m + 9 else m - 3)) &&
    (d <=? (if m =? 2 then (if doy =? 365 then 29 else 28) else days_in m 1))) (upto 366) = true.
Proof. vm_compute. reflexivity. Qed.

Lemma months doy y : 0 <= doy < (if is_leap y then 366 else 365) →
  let mp := month_of doy in let d := doy - (153 * mp + 2) / 5 + 1 in let m := civil_month mp in
  1 <= m <= 12 ∧ 1 <= d <= days_in m y ∧ mp = if m <=? 2 then m + 9 else m - 3.
Proof.
  intros Hd mp d m. assert (0 <= doy < 366) as Hd' by (destruct (is_leap y); lia).
  pose proof (forallb_upto _ 366 doy months_all ltac:(lia)) as H. cbv beta zeta in H. fold mp in H. fold m in H. fold d in H.
  rewrite !andb_true_iff, !Z.leb_le, Z.eqb_eq in H. destruct H as [[[[H1 H2] H3] H4] H5].
  split; [lia|]. split; [|done]. split; [done|]. revert H5. unfold days_in.
  destruct (m =? 2); [|done]. destruct (doy =? 365) eqn:E; destruct (is_leap y); lia.
Qed.

Lemma civil_shift z k : civil (z + k * 146097) = let '(y, m, d) := civil z in (y + k * 400, m, d).
Proof.
  unfold civil. replace (z + k * 146097 + 306) with (z + 306 + k * 146097) by lia. rewrite Z.div_add, Z.mod_add by done.
  cbv zeta. f_equal. f_equal. lia.
Qed.
Lemma is_leap_shift y k : is_leap (y + k * 400) = is_leap y.
Proof.
  unfold is_leap. replace (y + k * 400) with (y + (k * 100) * 4) at 1 by lia.
  replace (y + k * 400) with (y + (k * 4) * 100) at 1 by lia. by rewrite !Z.mod_add.
Qed.

(** [days_of] undoes [civil], and the date is one of the calendar. *)
Lemma civil_spec z :
  let '(y, m, d) := civil z in days_of y m d = z ∧ 1 <= m <= 12 ∧ 1 <= d <= days_in m y.
Proof.
  set (k := (z + 306) / 146097). set (doe := (z + 306) mod 146097).
  assert (z + 306 = 146097 * k + doe) as Hz by apply (Z.div_mod (z + 306) 146097 ltac:(done)).
  assert (0 <= doe < 146097) as Hdoe by (apply Z.mod_pos_bound; done).
  destruct (year_found doe Hdoe) as (Hy & Hs). set (yoe := year_days doe / 365) in *.
  destruct (year_bounds yoe Hy) as (_ & _ & Hlen).
  assert (civil z = let doy := doe - year_start yoe in let mp := month_of doy in let m := civil_month mp in
    (yoe + k * 400 + (if m <=? 2 then 1 else 0), m, doy - (153 * mp + 2) / 5 + 1)) as -> by reflexivity.
  cbv zeta. set (doy := doe - year_start yoe).
  pose proof (months doy (yoe + 1) ltac:(unfold doy; lia)) as (Hm & Hd & Emp). set (mp := month_of doy) in *.
  set (m := civil_month mp) in *. split; [|split; [lia|]].
  - unfold days_of. rewrite <- Emp.
    replace (if m <=? 2 then yoe + k * 400 + (if m <=? 2 then 1 else 0) - 1 else yoe + k * 400 + (if m <=? 2 then 1 else 0))
      with (yoe + k * 400) by (destruct (m <=? 2); lia).
    rewrite Z.div_add, Z.mod_add by done. rewrite (Z.div_small yoe 400), (Z.mod_small yoe 400) by lia.
    unfold doy, year_start. lia.
  - split; [lia|]. destruct Hd as [_ Hd]. etransitivity; [exact Hd|]. unfold days_in.
    destruct (m =? 2) eqn:E2; [|done]. apply Z.eqb_eq in E2. rewrite E2. change (2 <=? 2) with true. cbv iota.
    replace (yoe + k * 400 + 1) with (yoe + 1 + k * 400) by lia. by rewrite is_leap_shift.
Qed.

(** Numbers of fixed width. *)
Lemma pad_digits2 : ∀ z r, 0 <= z < 100 → digits 2 0 (raw (pad 2 z) ++ r) = Some (z, r).
Proof.
  intros z r Hz. assert (∃ a b, raw (pad 2 z) = [a; b] ∧ ∀ r, digits 2 0 ([a; b] ++ r) = Some (z, r)) as (a & b & -> & Hd); [|apply Hd].
  assert (forallb (λ z, match raw (pad 2 z) with
                        | [a; b] => match digit a, digit b with Some x, Some y => 10 * x + y =? z | _, _ => false end
                        | _ => false end) (seqZ 0 100) = true) as He by (vm_compute; reflexivity).
  rewrite forallb_forall in He. specialize (He z). rewrite <- list_elem_of_In, elem_of_seqZ in He. specialize (He ltac:(lia)).
  destruct (raw (pad 2 z)) as [|a [|b []]]; try done. exists a, b. split; [done|]. intros r'. cbn.
  destruct (digit a) as [x|]; [|done]. destruct (digit b) as [y|]; [|done]. apply Z.eqb_eq in He. cbn. by f_equal; f_equal.
Qed.
Lemma pad_digits4 : ∀ z r, 0 <= z < 10000 → digits 4 0 (raw (pad 4 z) ++ r) = Some (z, r).
Proof.
  intros z r Hz.
  assert (forallb (λ z, match raw (pad 4 z) with
                        | [a; b; c; d] => match digit a, digit b, digit c, digit d with
                                          | Some x, Some y, Some v, Some w => 10 * (10 * (10 * x + y) + v) + w =? z
                                          | _, _, _, _ => false end
                        | _ => false end) (upto 10000) = true) as He by (vm_compute; reflexivity).
  pose proof (forallb_upto _ 10000 z He ltac:(lia)) as Hp. cbv beta in Hp. clear He.
  destruct (raw (pad 4 z)) as [|a [|b [|c [|d []]]]]; try done. cbn.
  destruct (digit a) as [x|]; [|done]. destruct (digit b) as [y|]; [|done].
  destruct (digit c) as [v|]; [|done]. destruct (digit d) as [w|]; [|done]. apply Z.eqb_eq in Hp. cbn. by f_equal; f_equal.
Qed.

Definition year_of (t : Time) : Z := let '(y, _, _) := civil (t / (24 * Hour)) in y.

Lemma clock_spec t : let '(h, mi, s) := clock t in
  0 <= h < 24 ∧ 0 <= mi < 60 ∧ 0 <= s < 60 ∧
  t / (24 * Hour) * (24 * Hour) + (h * 3600 + mi * 60 + s) * Second = t / Second * Second.
Proof.
  unfold clock. change (24 * Hour) with (86400 * Second).
  set (q := t / Second). assert (t / (86400 * Second) = q / 86400) as -> by (unfold q; rewrite Z.div_div by done; f_equal; lia).
  assert (t mod (86400 * Second) / Second = q mod 86400) as -> by (unfold q; rewrite Z.mul_comm, Z.rem_mul_r by done; rewrite Z.mul_comm, Z.div_add by done; rewrite (Z.div_small (t mod Second)) by (apply Z.mod_pos_bound; done); lia).
  clearbody q. unfold Second. dlia.
Qed.

Lemma days_in_bound m y : days_in m y <= 31.
Proof. unfold days_in. destruct (m =? 2), (is_leap y), ((m =? 4) || (m =? 6) || (m =? 9) || (m =? 11)); lia. Qed.

Lemma one_or_two_pad z r : 0 <= z < 100 → one_or_two (raw (pad 2 z) ++ r) = Some (z, r).
Proof. intros Hz. unfold one_or_two. by rewrite pad_digits2. Qed.

(** [time.Parse] undoes [Format] for the years of four digits: the instant is cut to the second. *)
Lemma Parse_format t : 0 <= year_of t < 10000 → Parse_RFC3339 (format_rfc3339 t) = Some (t / Second * Second).
Proof.
  unfold year_of, format_rfc3339, format_date. intros Hy. pose proof (clock_spec t) as Hc.
  pose proof (civil_spec (t / (24 * Hour))) as Hd.
  destruct (clock t) as [[h mi] s]. destruct (civil _) as [[y m] d]. destruct Hd as (Ed & Hm & Hdd).
  destruct Hc as (Hh & Hmi & Hs & <-).
  pose proof (days_in_bound m y) as Hd2.
  unfold Parse_RFC3339. rewrite !raw_app, <- !app_assoc.
  rewrite pad_digits4 by lia. cbn [mbind option_bind].
  assert (∀ c r, lit c (raw (String c "") ++ r) = Some r) as Hlit by (intros c r; cbn; by rewrite bool_decide_true).
  rewrite Hlit. cbn [mbind option_bind]. rewrite pad_digits2 by lia. cbn [mbind option_bind].
  rewrite Hlit. cbn [mbind option_bind]. rewrite pad_digits2 by lia. cbn [mbind option_bind].
  rewrite Hlit. cbn [mbind option_bind]. rewrite one_or_two_pad by lia. cbn [mbind option_bind].
  rewrite Hlit. cbn [mbind option_bind]. rewrite pad_digits2 by lia. cbn [mbind option_bind].
  rewrite Hlit. cbn [mbind option_bind]. rewrite pad_digits2 by lia. cbn [mbind option_bind].
  cbn [raw fraction offset]. rewrite !bool_decide_true, Ed by done.
  rewrite (proj2 (Z.leb_le 1 m)), (proj2 (Z.leb_le m 12)), (proj2 (Z.leb_le 1 d)), (proj2 (Z.leb_le d _)) by (done || lia).
  rewrite (proj2 (Z.ltb_lt h 24)), (proj2 (Z.ltb_lt mi 60)), (proj2 (Z.ltb_lt s 60)) by lia. cbn. f_equal. lia.
Qed.
