(* ===== verification/Sha256.v ===== *)
(** * SHA-256 and hex encoding

    [domain.ContentIdempotencyKey] (idempotency_key.go) is
    [hex.EncodeToString] of [sha256.Sum256]; this file gives both, executable,
    on 32-bit words kept as [Z]. *)
From S2P Require Import Prelude GoStrings.

#[local] Open Scope Z_scope.

Definition w32 (z : Z) : Z := Z.land z (Z.ones 32).
Definition rotr (n x : Z) : Z := Z.lor (Z.shiftr x n) (w32 (Z.shiftl x (32 - n))).
Definition Sigma0 x := Z.lxor (Z.lxor (rotr 2 x) (rotr 13 x)) (rotr 22 x).
Definition Sigma1 x := Z.lxor (Z.lxor (rotr 6 x) (rotr 11 x)) (rotr 25 x).
Definition sigma0 x := Z.lxor (Z.lxor (rotr 7 x) (rotr 18 x)) (Z.shiftr x 3).
Definition sigma1 x := Z.lxor (Z.lxor (rotr 17 x) (rotr 19 x)) (Z.shiftr x 10).
Definition Ch x y z := Z.lxor (Z.land x y) (Z.land (Z.lxor x (Z.ones 32)) z).
Definition Maj x y z := Z.lxor (Z.lxor (Z.land x y) (Z.land x z)) (Z.land y z).

(** The constants of FIPS 180-4, from their definition: the first 32 bits of
    the fractional parts of the cube roots of the first 64 primes, and of the
    square roots of the first eight. *)
Definition is_prime (n : Z) : bool :=
  (1 <? n) && forallb (λ d, negb (Z.rem n d =? 0)) (seqZ 2 (n - 2)).
Definition primes : list Z := List.filter is_prime (seqZ 2 310).

(** The largest [r] below [lo + 2^bits] with [r ^ k <= n], bit by bit. *)
Fixpoint root_bits (k n : Z) (bits : nat) (lo : Z) : Z :=
  match bits with
  | O => lo
  | S b => let mid := lo + 2 ^ Z.of_nat b in
           root_bits k n b (if mid ^ k <=? n then mid else lo)
  end.
Definition frac_root (k p : Z) : Z := w32 (root_bits k (p * 2 ^ (32 * k)) 40 0).

Definition round_k : list Z := Eval vm_compute in map (frac_root 3) primes.
Definition init_h : list Z := Eval vm_compute in map (frac_root 2) (take 8 primes).

(** Big-endian words of a byte list, four bytes at a time. *)
Fixpoint be_words (l : list Z) : list Z :=
  match l with
  | a :: b :: c :: d :: r =>
      Z.lor (Z.shiftl a 24) (Z.lor (Z.shiftl b 16) (Z.lor (Z.shiftl c 8) d)) :: be_words r
  | _ => []
  end.

(** The message schedule: the sixteen latest words, newest first, are extended. *)
Fixpoint schedule (n : nat) (ws : list Z) : list Z :=
  match n with
  | O => ws
  | S n' =>
      let at_ i := nth i ws 0 in
      schedule n' (w32 (sigma1 (at_ 1%nat) + at_ 6%nat + sigma0 (at_ 14%nat) + at_ 15%nat) :: ws)
  end.

Definition round (st : list Z) (kw : Z * Z) : list Z :=
  match st with
  | [a; b; c; d; e; f; g; h] =>
      let t1 := w32 (h + Sigma1 e + Ch e f g + fst kw + snd kw) in
      let t2 := w32 (Sigma0 a + Maj a b c) in
      [w32 (t1 + t2); a; b; c; w32 (d + t1); e; f; g]
  | _ => st
  end.

Definition compress (h : list Z) (block : list Z) : list Z :=
  let ws := reverse (schedule 48 (reverse (be_words block))) in
  zip_with (λ x y, w32 (x + y)) h (fold_left round (zip round_k ws) h).

Fixpoint blocks (fuel : nat) (h : list Z) (l : list Z) : list Z :=
  match fuel, l with
  | S f, _ :: _ => blocks f (compress h (take 64 l)) (drop 64 l)
  | _, _ => h
  end.

Definition be_bytes (n : nat) (z : Z) : list Z :=
  map (λ i, Z.land (Z.shiftr z (8 * Z.of_nat i)) 255) (reverse (seq 0 n)).

(** The padding: a one bit, zeros, and the bit length in eight bytes. *)
Definition pad (l : list Z) : list Z :=
  let n := length l in
  let zeros := Nat.modulo (119 - Nat.modulo n 64) 64 in
  l ++ [128] ++ replicate zeros 0 ++ be_bytes 8 (8 * Z.of_nat n).

(** [sha256.Sum256]. *)
Definition Sum256 (data : bytes) : list Z :=
  let p := pad (map byte_val data) in
  mjoin (map (be_bytes 4) (blocks (length p) init_h p)).

Definition hex_digit (z : Z) : ascii :=
  match String.get (Z.to_nat z) "0123456789abcdef" with Some c => c | None => "0"%char end.

(** [hex.EncodeToString]. *)
Fixpoint EncodeToString (l : list Z) : string :=
  match l with
  | [] => ""
  | b :: r => String (hex_digit (Z.shiftr b 4)) (String (hex_digit (Z.land b 15)) (EncodeToString r))
  end.

(** [domain.ContentIdempotencyKey] *)
Definition ContentIdempotencyKey (data : bytes) : string :=
  let h := Sum256 data in EncodeToString h.

Example sha256_abc : ContentIdempotencyKey (raw "abc") =
  "ba7816bf8f01cfea414140de5dae2223b00361a396177a9cb410ff61f20015ad".
Proof. by vm_compute. Qed.
Example sha256_empty : ContentIdempotencyKey [] =
  "e3b0c44298fc1c149afbf4c8996fb92427ae41e4649b934ca495991b7852b855".
Proof. by vm_compute. Qed.
Example sha256_two_blocks :
  ContentIdempotencyKey (raw "abcdbcdecdefdefgefghfghighijhijkijkljklmklmnlmnomnopnopq") =
  "248d6a61d20638b8e5c026930c3e6039a33ce45964ff2167f6ecedd419db06c1".
Proof. by vm_compute. Qed.
