(* ===== verification/DMail.v ===== *)
(** * D-Mail data and frontmatter (internal/domain/delivery.go, dmail_filter.go)

    The D-Mail kinds, the records of the delivery family, the frontmatter
    scanner and the kind extraction, and the file-name filter of the outbox
    watchers.  The YAML decoder (gopkg.in/yaml.v3) and the text of [%q] are
    the interface [External]. *)
From S2P Require Import Prelude GoStrings GoPath.

(** ** Data *)

(** [type DMailKind string] *)
Abbreviation DMailKind := string (only parsing).

Definition KindSpecification : DMailKind := "specification".
Definition KindReport : DMailKind := "report".
Definition KindDesignFeedback : DMailKind := "design-feedback".
Definition KindImplFeedback : DMailKind := "implementation-feedback".
Definition KindConvergence : DMailKind := "convergence".
Definition KindCIResult : DMailKind := "ci-result".
Definition KindStallEscalation : DMailKind := "stall-escalation".

Definition validDMailKinds : list DMailKind :=
  [KindSpecification; KindReport; KindDesignFeedback; KindImplFeedback;
   KindConvergence; KindCIResult; KindStallEscalation].

Definition SupportedDMailSchemaVersion : string := "1".
Definition UnknownKind : string := "unknown".

Record DMailFrontmatter := mkFM {
  fm_SchemaVersion : string;
  fm_Name : string;
  fm_Kind : DMailKind;
  fm_Description : string;
  fm_Action : string;
  fm_Priority : Z;
  fm_Targets : list string;
  fm_Metadata : gmap string string;
}.

Record ResolvedRoute := mkRoute {
  rr_Kind : DMailKind;
  rr_FromOutbox : string;
  rr_ToInboxes : list string;
}.

Record DeliveryResult := mkResult {
  dr_SourcePath : string;
  dr_Kind : DMailKind;
  dr_DeliveredTo : list string;
}.

Record DeliveryFlushed := mkFlushed { df_DMailPath : string; df_Target : string }.
Record StagedDelivery := mkStagedD { sd_DMailPath : string; sd_Target : string; sd_Data : bytes }.

Record ErrorMetadata := mkMeta {
  em_SourceOutbox : string;
  em_Kind : DMailKind;
  em_OriginalName : string;
  em_Attempts : Z;
  em_Error : string;
  em_Timestamp : Z;
}.

#[export] Instance DeliveryFlushed_eq_dec : EqDecision DeliveryFlushed.
Proof. solve_decision. Defined.
#[export] Instance ResolvedRoute_eq_dec : EqDecision ResolvedRoute.
Proof. solve_decision. Defined.

(** SKILL.md data (internal/session/scanner.go). *)
Record DMailCapability := mkCap { cap_Kind : string; cap_Description : string }.
Record SkillMetadata := mkSkillMeta {
  sm_SchemaVersion : string;
  sm_Produces : list DMailCapability;
  sm_Consumes : list DMailCapability;
}.
Record SkillFrontmatter := mkSkill {
  sk_Name : string;
  sk_Description : string;
  sk_Produces : list DMailCapability;
  sk_Consumes : list DMailCapability;
  sk_Metadata : SkillMetadata;
}.

(** ** Code outside the repository *)
Class External := {
  (** [yaml.Unmarshal] into a [DMailFrontmatter]. *)
  yaml_DMail : string → result DMailFrontmatter;
  (** [yaml.NewDecoder(..).Decode] into a [SkillFrontmatter]. *)
  yaml_Skill : string → result SkillFrontmatter;
  (** the text [fmt] prints for the verb [%q]. *)
  quote : string → string;
}.

(** ** Kinds *)

(** [IsValidDMailKind] *)
Definition IsValidDMailKind (kind : DMailKind) : bool := bool_decide (kind ∈ validDMailKinds).

(** A double quote in a message. *)
Definition dq : string := String "034" "".

Section dmail.
Context `{External}.

(** [ParseDMailKind] *)
Definition ParseDMailKind (raw : string) : result DMailKind :=
  if negb (IsValidDMailKind raw)
  then Err (mkErr ("invalid D-Mail kind " +:+ quote raw +:+ ": dmail: invalid kind")
                  [ErrDMailKindInvalid])
  else Ok raw.

(** ** Frontmatter *)

(** The loop of [findFrontmatterEnd]: [n] iterations are left and [i] is the index. *)
Fixpoint fence_loop (rest : string) (n i : nat) : option nat :=
  match n with
  | O => None
  | S n' =>
      if bool_decide (String.get i rest = Some "010"%char)
         && (i + 3 <? slen rest)%nat
         && bool_decide (String.substring (i + 1) 3 rest = "---")
      then Some (3 + i + 1)
      else fence_loop rest n' (S i)
  end.

(** [findFrontmatterEnd]: [None] is Go's -1. *)
Definition findFrontmatterEnd (content : string) : option nat :=
  if (slen content <? 4)%nat || negb (bool_decide (String.substring 0 3 content = "---")) then None
  else let rest := String.substring 3 (slen content - 3) content in
       fence_loop rest (slen rest) 0.

(** [ParseDMailFrontmatter] *)
Definition ParseDMailFrontmatter (data : bytes) : result DMailFrontmatter :=
  let content := str data in
  match findFrontmatterEnd content with
  | None => Err (errors_New "no YAML frontmatter found: file must start with ---")
  | Some idx => yaml_DMail (String.substring 3 (idx - 3) content)
  end.

(** [ExtractDMailKind] *)
Definition ExtractDMailKind (data : bytes) : result DMailKind :=
  let! fm := ParseDMailFrontmatter data in
  if bool_decide (fm_SchemaVersion fm = "") then
    Err (errors_New "D-Mail missing required 'dmail-schema-version' field")
  else if negb (bool_decide (fm_SchemaVersion fm = SupportedDMailSchemaVersion)) then
    Err (errors_New ("unsupported dmail-schema-version " +:+ quote (fm_SchemaVersion fm)
                     +:+ ": only " +:+ dq +:+ "1" +:+ dq +:+ " is supported"))
  else if bool_decide (fm_Kind fm = "") then
    Err (errors_New "D-Mail missing required 'kind' field")
  else ParseDMailKind (fm_Kind fm).

(** ** SKILL.md frontmatter (scanner.go, [ParseSkillFrontmatter]) *)
Definition check_kinds (what : string) (caps : list DMailCapability) : result unit :=
  fold_left (λ acc c, let! _ := acc in
    match ParseDMailKind (cap_Kind c) with
    | Err e => Err (errorf_w (what +:+ ": ") e)
    | Ok _ => Ok tt
    end) caps (Ok tt).

Definition ParseSkillFrontmatter (data : bytes) : result SkillFrontmatter :=
  let content := str data in
  if negb (HasPrefix content "---") then
    Err (errors_New "no YAML frontmatter found: file must start with ---")
  else
  let rest := String.substring 3 (slen content - 3) content in
  match Index rest (String "010" "---") with
  | None => Err (errors_New "no closing --- found for YAML frontmatter")
  | Some idx =>
      let frontmatter := String.substring 0 idx rest in
      let! skill := yaml_Skill frontmatter in
      if negb (bool_decide (sk_Produces skill = [])) || negb (bool_decide (sk_Consumes skill = []))
      then Err (errors_New ("top-level produces/consumes is not supported; use metadata with dmail-schema-version: "
                            +:+ dq +:+ "1" +:+ dq))
      else
      let meta := sk_Metadata skill in
      let! skill' :=
        (if bool_decide (sm_SchemaVersion meta = "") then
           if negb (bool_decide (sm_Produces meta = [])) || negb (bool_decide (sm_Consumes meta = []))
           then Err (errors_New "metadata contains produces/consumes but missing required dmail-schema-version")
           else Ok skill
         else if negb (bool_decide (sm_SchemaVersion meta = SupportedDMailSchemaVersion)) then
           Err (errors_New ("unsupported dmail-schema-version " +:+ quote (sm_SchemaVersion meta)
                            +:+ ": only " +:+ dq +:+ "1" +:+ dq +:+ " is supported"))
         else Ok (mkSkill (sk_Name skill) (sk_Description skill)
                          (sm_Produces meta) (sm_Consumes meta) meta)) in
      let! _ := check_kinds "produces" (sk_Produces skill') in
      let! _ := check_kinds "consumes" (sk_Consumes skill') in
      Ok skill'
  end.
End dmail.

(** ** [IsDMailFile] (dmail_filter.go) *)
Definition tmp_prefix : string := ".phonewave-tmp-".

Definition IsDMailFile (name : string) : bool :=
  let base := Base name in
  if bool_decide (base = "" ∨ base = ".") then false
  else bool_decide (Ext base = ".md") && negb (HasPrefix base tmp_prefix).

(** ** The frontmatter scanner is [strings.Index] *)

Definition fence : string := String "010" "---".

Lemma prefix_fence c s :
  String.prefix fence (String c s) = bool_decide (c = "010"%char) && String.prefix "---" s.
Proof.
  unfold fence. cbn [String.prefix]. destruct (ascii_dec "010" c) as [<-|Hne].
  - by rewrite bool_decide_true.
  - by rewrite bool_decide_false.
Qed.

Lemma prefix_three s : String.prefix "---" s = true → 3 ≤ slen s.
Proof.
  rewrite prefix_spec. intros [r ->]. rewrite slen_app. cbn. lia.
Qed.

Lemma fence_loop_Index a s :
  fence_loop (a +:+ s) (slen s) (slen a) = (λ k, 3 + (slen a + k) + 1) <$> Index s fence.
Proof.
  revert a. induction s as [|c s IH]; intros a; [done|].
  cbn [slen fence_loop Index]. rewrite get_app, prefix_fence.
  replace (String.substring (slen a + 1) 3 (a +:+ String c s)) with (String.substring 0 3 s)
    by (by rewrite substring_skip).
  rewrite slen_app. cbn [slen].
  specialize (IH (a +:+ String c "")). rewrite <- app_str_assoc in IH.
  change (String c "" +:+ s) with (String c s) in IH. rewrite slen_app in IH. cbn [slen] in IH.
  replace (slen a + 1) with (S (slen a)) in IH by lia. rewrite IH.
  assert (bool_decide (Some c = Some "010"%char) = bool_decide (c = "010"%char)) as ->
    by (apply bool_decide_ext; naive_solver).
  destruct (bool_decide (c = _)); cbn [andb].
  - destruct (String.prefix "---" s) eqn:E.
    + pose proof (prefix_three s E). apply substring_prefix in E. change (slen "---") with 3 in E.
      rewrite E, (bool_decide_true ("---" = "---")) by done.
      assert ((slen a + 3 <? slen a + S (slen s)) = true) as -> by (apply Nat.ltb_lt; lia).
      cbn. f_equal. lia.
    + rewrite (bool_decide_false (_ = "---")).
      * rewrite andb_false_r. destruct (Index s fence); [|done]. cbn. f_equal. lia.
      * intros E'. change 3 with (slen "---") in E'. apply substring_prefix in E'. congruence.
  - destruct (Index s fence); [|done]. cbn. f_equal. lia.
Qed.

Lemma findFrontmatterEnd_Index content :
  findFrontmatterEnd content =
  if HasPrefix content "---"
  then (λ k, 3 + k + 1) <$> Index (String.substring 3 (slen content - 3) content) fence
  else None.
Proof.
  unfold findFrontmatterEnd, HasPrefix.
  destruct (String.prefix "---" content) eqn:E.
  - pose proof E as E'. apply substring_prefix in E'. change (slen "---") with 3 in E'.
    rewrite E', (bool_decide_true ("---" = "---")) by done. cbn [negb].
    set (rest := String.substring 3 _ content). rewrite orb_false_r.
    destruct (slen content <? 4) eqn:Hlt.
    + apply Nat.ltb_lt in Hlt. apply prefix_spec in E as [r Hr]. subst rest.
      rewrite Hr in *. rewrite slen_app in *. change (slen "---") with 3 in *.
      destruct r; [done|]. cbn in Hlt. lia.
    + apply (fence_loop_Index "").
  - rewrite bool_decide_false; [by rewrite orb_true_r|].
    intros E'. change 3 with (slen "---") in E'. apply substring_prefix in E'. congruence.
Qed.

(** Where the fence is found, the text splits there. *)
Lemma findFrontmatterEnd_split content idx :
  findFrontmatterEnd content = Some idx →
  ∃ fm tail, content = "---" +:+ fm +:+ fence +:+ tail ∧ idx = slen fm + 4 ∧
    Index (fm +:+ fence +:+ tail) fence = Some (slen fm) ∧
    String.substring 3 (idx - 3) content = fm +:+ String "010" "".
Proof.
  rewrite findFrontmatterEnd_Index. unfold HasPrefix.
  destruct (String.prefix "---" content) eqn:E; [|done].
  apply prefix_spec in E as [r ->].
  replace (String.substring 3 (slen ("---" +:+ r) - 3) ("---" +:+ r)) with r; last first.
  { rewrite slen_app. change (slen "---") with 3. replace (3 + slen r - 3) with (slen r) by lia.
    change 3 with (slen "---" + 0). rewrite substring_skip. by rewrite substring_all. }
  destruct (Index r fence) as [k|] eqn:Ek; [|done]. cbn. intros [= <-].
  pose proof Ek as Ek'. apply Index_Some in Ek' as (fm & tail & -> & <- & _).
  exists fm, tail. split_and!; [done|lia|done|].
  replace (S (S (S (slen fm + 1))) - 3) with (slen (fm +:+ String "010" ""))
    by (rewrite slen_app; cbn; lia).
  change 3 with (slen "---" + 0). rewrite substring_skip.
  change fence with (String "010" "" +:+ "---"). rewrite <- app_str_assoc, app_str_assoc.
  apply substring_take.
Qed.

(** ** Properties *)

Lemma occurrence_Index a b :
  (∀ a' b', a +:+ fence +:+ b = a' +:+ fence +:+ b' → slen a ≤ slen a') →
  Index (a +:+ fence +:+ b) fence = Some (slen a).
Proof.
  intros Hmin. destruct (Index (a +:+ fence +:+ b) fence) as [k|] eqn:E.
  - apply Index_Some in E as (a' & b' & Heq & <- & Hmin'). f_equal.
    specialize (Hmin a' b' Heq). specialize (Hmin' (slen a) a b eq_refl eq_refl). lia.
  - apply Index_None in E. exfalso. enough (Contains (a +:+ fence +:+ b) fence = true) by congruence.
    apply Contains_spec. by exists a, b.
Qed.

Lemma app_str_inj p s t : p +:+ s = p +:+ t → s = t.
Proof. apply (inj (String.append p)). Qed.

(**  [findFrontmatterEnd] finds exactly the first line that starts with
    [---] after the opening fence: it returns an offset if and only if the
    content splits as [---], a frontmatter text, a newline-[---] fence and a
    rest, with no earlier fence; the offset is that of the closing fence, so
    the slice [content[3:idx]] is inside the content and is the frontmatter
    with its final newline. *)
Theorem findFrontmatterEnd_correct (content : string) (idx : nat) :
  findFrontmatterEnd content = Some idx ↔
  ∃ fm tail, content = "---" +:+ fm +:+ fence +:+ tail ∧ idx = slen fm + 4 ∧
    idx ≤ slen content ∧
    String.substring 3 (idx - 3) content = fm +:+ String "010" "" ∧
    ∀ fm' tail', content = "---" +:+ fm' +:+ fence +:+ tail' → slen fm ≤ slen fm'.
Proof.
  split.
  - intros H. destruct (findFrontmatterEnd_split _ _ H) as (fm & tail & -> & -> & HI & Hsub).
    exists fm, tail. split_and!; [done|done| |done|].
    + rewrite !slen_app. cbn. lia.
    + intros fm' tail' Heq%app_str_inj. apply Index_Some in HI as (? & ? & _ & Hn & Hmin).
      eapply Hmin; done.
  - intros (fm & tail & -> & -> & _ & _ & Hmin). rewrite findFrontmatterEnd_Index.
    unfold HasPrefix. rewrite prefix_refl_app.
    replace (String.substring 3 _ _) with (fm +:+ fence +:+ tail); last first.
    { rewrite slen_app. change (slen "---") with 3. rewrite Nat.add_comm, Nat.add_sub.
      change 3 with (slen "---" + 0). rewrite substring_skip. by rewrite substring_all. }
    rewrite occurrence_Index.
    + cbn. f_equal. lia.
    + intros a' b' Heq. apply (Hmin a' b'). by rewrite Heq.
Qed.

Lemma IsValidDMailKind_true k : IsValidDMailKind k = true ↔ k ∈ validDMailKinds.
Proof. apply bool_decide_eq_true. Qed.

Section dmail_props.
Context `{External}.

Lemma ParseDMailKind_ok r k : ParseDMailKind r = Ok k ↔ k = r ∧ k ∈ validDMailKinds.
Proof.
  unfold ParseDMailKind. rewrite <- IsValidDMailKind_true.
  destruct (IsValidDMailKind r) eqn:E; cbn; naive_solver congruence.
Qed.

(**  [ExtractDMailKind] returns a kind exactly when the frontmatter
    parses, declares schema version 1 and one of the seven canonical kinds;
    the kind returned is the declared one.  Every other content is an
    error, never an empty or unknown kind. *)
Theorem ExtractDMailKind_iff (data : bytes) (k : DMailKind) :
  ExtractDMailKind data = Ok k ↔
  ∃ fm, ParseDMailFrontmatter data = Ok fm ∧
    fm_SchemaVersion fm = SupportedDMailSchemaVersion ∧ fm_Kind fm = k ∧ k ∈ validDMailKinds.
Proof.
  unfold ExtractDMailKind. destruct (ParseDMailFrontmatter data) as [fm|e]; cbn; [|naive_solver].
  split.
  - intros Hk. repeat case_bool_decide; cbn in Hk; try done.
    apply ParseDMailKind_ok in Hk as [-> Hv]. by exists fm.
  - intros (fm' & [= <-] & Hv & <- & Hk).
    rewrite Hv, (bool_decide_false (SupportedDMailSchemaVersion = "")) by done.
    rewrite bool_decide_true by done. cbn.
    rewrite bool_decide_false; [by apply ParseDMailKind_ok|].
    intros E. rewrite E in Hk. by vm_compute in Hk; set_solver.
Qed.

Lemma check_kinds_err what caps e :
  fold_left (λ acc c, let! _ := acc in
    match ParseDMailKind (cap_Kind c) with
    | Err e => Err (errorf_w (what +:+ ": ") e)
    | Ok _ => Ok tt
    end) caps (Err e) = Err e.
Proof. by induction caps. Qed.

Lemma check_kinds_ok what caps :
  check_kinds what caps = Ok tt ↔ Forall (λ c, cap_Kind c ∈ validDMailKinds) caps.
Proof.
  unfold check_kinds. induction caps as [|c caps IH]; cbn [fold_left].
  - split; [by constructor|done].
  - cbn [rbind]. destruct (ParseDMailKind (cap_Kind c)) as [k|e] eqn:E.
    + rewrite IH. apply ParseDMailKind_ok in E as [-> E]. rewrite Forall_cons. naive_solver.
    + rewrite check_kinds_err. split; [done|]. rewrite Forall_cons. intros [Hc _].
      assert (ParseDMailKind (cap_Kind c) = Ok (cap_Kind c)) by (by apply ParseDMailKind_ok).
      congruence.
Qed.

(**  what a SKILL.md parse may hand to the router.  If
    [ParseSkillFrontmatter] succeeds, every produced and consumed kind is
    canonical, the capabilities are exactly those declared under
    [metadata], and any capability at all implies schema version 1. *)
Theorem ParseSkillFrontmatter_sound (data : bytes) (skill : SkillFrontmatter) :
  ParseSkillFrontmatter data = Ok skill →
  Forall (λ c, cap_Kind c ∈ validDMailKinds) (sk_Produces skill ++ sk_Consumes skill) ∧
  sk_Produces skill = sm_Produces (sk_Metadata skill) ∧
  sk_Consumes skill = sm_Consumes (sk_Metadata skill) ∧
  (sk_Produces skill ++ sk_Consumes skill ≠ [] →
   sm_SchemaVersion (sk_Metadata skill) = SupportedDMailSchemaVersion).
Proof.
  unfold ParseSkillFrontmatter. destruct (HasPrefix _ _); [|done]. cbn [negb].
  destruct (Index _ _) as [idx|]; [|done].
  destruct (yaml_Skill _) as [sk|]; [|done]. cbn [rbind].
  destruct (decide (sk_Produces sk = [] ∧ sk_Consumes sk = [])) as [[Hp Hc]|Hn]; last first.
  { intros Hok. exfalso. repeat case_bool_decide; cbn in Hok; naive_solver. }
  rewrite Hp, Hc, bool_decide_true by done. cbn [negb orb].
  case_bool_decide as Hv.
  - destruct (decide (sm_Produces (sk_Metadata sk) = [] ∧ sm_Consumes (sk_Metadata sk) = []))
      as [[Hp' Hc']|Hn]; last first.
    { intros Hok. exfalso. repeat case_bool_decide; cbn in Hok; naive_solver. }
    rewrite Hp', Hc', !bool_decide_true by done. cbn. rewrite Hp, Hc. cbn. intros [= <-].
    rewrite Hp, Hc, Hp', Hc'. cbn. split_and!; [constructor|done..].
  - case_bool_decide as Hv'; cbn [negb rbind sk_Produces sk_Consumes]; [|done].
    destruct (check_kinds "produces" (sm_Produces (sk_Metadata sk))) as [[]|] eqn:E1; [|done].
    destruct (check_kinds "consumes" (sm_Consumes (sk_Metadata sk))) as [[]|] eqn:E2; [|done].
    cbn. intros [= <-]. cbn.
    apply check_kinds_ok in E1, E2. split_and!; [by apply Forall_app|done..].
Qed.
End dmail_props.

(** A concrete decoder for witnesses: it reads every SKILL.md as a producer of
    [specification] and every D-Mail as a schema-1 specification. *)
Definition sample_meta : SkillMetadata := mkSkillMeta "1" [mkCap "specification" "spec"] [].
Definition sample_fm : DMailFrontmatter :=
  mkFM "1" "spec-1" "specification" "a spec" "" 0 [] ∅.
Definition sample_external : External := {|
  yaml_DMail := λ _, Ok sample_fm;
  yaml_Skill := λ _, Ok (mkSkill "dmail-sendable" "" [] [] sample_meta);
  quote := λ s, dq +:+ s +:+ dq;
|}.
Definition sample_dmail : bytes := raw ("---" +:+ String "010" "kind: specification" +:+ fence +:+ String "010" "body").

Lemma ParseSkillFrontmatter_sound_witness :
  ∃ skill, @ParseSkillFrontmatter sample_external sample_dmail = Ok skill ∧
    (sk_Produces skill ++ sk_Consumes skill ≠ [] →
     sm_SchemaVersion (sk_Metadata skill) = SupportedDMailSchemaVersion).
Proof.
  eexists. split; [vm_compute; reflexivity|].
  apply (@ParseSkillFrontmatter_sound sample_external sample_dmail). by vm_compute.
Defined.

Lemma IsDMailFile_tmp d x :
  has_byte slash x = false → IsDMailFile (path_Join [d; tmp_prefix +:+ x]) = false.
Proof.
  intros Hx. unfold IsDMailFile.
  assert (plain (tmp_prefix +:+ x)).
  { by split_and!. }
  rewrite Base_Join by done. unfold HasPrefix. rewrite prefix_refl_app.
  rewrite andb_false_r. by case_bool_decide.
Qed.

(**  the outbox filter looks at the file name only and never picks up a
    file that is still being written: for a plain name the filter gives the
    same answer on the full path (as for a watcher event) and on the bare name
    (as in a directory scan), it accepts only the extension [.md], and it
    rejects every temporary file of [atomicWrite] in every directory. *)
Theorem IsDMailFile_paths (d f x : string) :
  plain f → has_byte slash x = false →
  IsDMailFile (path_Join [d; f]) = IsDMailFile f ∧
  (IsDMailFile f = true → Ext f = ".md") ∧
  IsDMailFile (path_Join [d; tmp_prefix +:+ x]) = false.
Proof.
  intros Hf Hx. split_and!; [| |by apply IsDMailFile_tmp]; unfold IsDMailFile.
  - by rewrite Base_Join, Base_plain.
  - rewrite Base_plain by done. case_bool_decide; [done|].
    by intros [?%bool_decide_eq_true _]%andb_true_iff.
Qed.

Lemma IsDMailFile_paths_witness :
  IsDMailFile (path_Join ["/r/.siren/outbox"; "spec.md"]) = IsDMailFile "spec.md" ∧
  (IsDMailFile "spec.md" = true → Ext "spec.md" = ".md") ∧
  IsDMailFile (path_Join ["/r/.siren/outbox"; tmp_prefix +:+ "7.md"]) = false.
Proof. apply (IsDMailFile_paths "/r/.siren/outbox" "spec.md" "7.md"); [split_and!; done|done]. Defined.
