(* ===== verification/Router.v ===== *)
(** * Routing (internal/domain/router.go, internal/domain/config.go)

    Endpoints, route derivation, orphan detection and the configuration
    aggregate.  Go maps are [gmap]s; a [range] over a map visits its entries
    in some order ([map_to_list]), and the code sorts what it collects. *)
From S2P Require Import Prelude GoStrings GoPath.

(** ** Data *)

Record Endpoint := mkEndpoint {
  ep_Dir : string; ep_Produces : list string; ep_Consumes : list string }.
Record EndpointConfig := mkEndpointConfig {
  epc_Dir : string; epc_Produces : list string; epc_Consumes : list string }.
Record RepoConfig := mkRepo { rc_Path : string; rc_Endpoints : list EndpointConfig }.
Record RouteConfig := mkRouteConfig {
  rtc_Kind : string; rtc_From : string; rtc_To : list string;
  rtc_Scope : string; rtc_RepoPath : string }.
Record Config := mkConfig {
  cfg_LastSynced : Z; cfg_Repositories : list RepoConfig; cfg_Routes : list RouteConfig }.

Record Route := mkRt {
  rt_Kind : string; rt_From : string; rt_To : list string; rt_Scope : string }.
Record OrphanReport := mkOrphans {
  UnconsumedKinds : list string; UnproducedKinds : list string }.

(** The conversions [EndpointConfig(ep)] and [Endpoint(ep)]. *)
Definition to_EndpointConfig (ep : Endpoint) : EndpointConfig :=
  mkEndpointConfig (ep_Dir ep) (ep_Produces ep) (ep_Consumes ep).
Definition to_Endpoint (ep : EndpointConfig) : Endpoint :=
  mkEndpoint (epc_Dir ep) (epc_Produces ep) (epc_Consumes ep).

Lemma to_Endpoint_EndpointConfig ep : to_Endpoint (to_EndpointConfig ep) = ep.
Proof. by destruct ep. Qed.

(** ** [DeriveRoutes] *)

(** The consumer index: kind to the dirs of the endpoints that consume it. *)
Definition add_consumer (dir : string) (m : gmap string (list string)) (kind : string)
    : gmap string (list string) :=
  <[kind := default [] (m !! kind) ++ [dir]]> m.
Definition consumer_index (eps : list Endpoint) : gmap string (list string) :=
  fold_left (λ m ep, fold_left (add_consumer (ep_Dir ep)) (ep_Consumes ep) m) eps ∅.

(** The body of the inner loop: [None] is [continue]. *)
Definition route_for (consumers : gmap string (list string)) (ep : Endpoint) (kind : string)
    : option Route :=
  match consumers !! kind with
  | None | Some [] => None
  | Some targets =>
      let to := fold_left (λ to targetDir,
        if bool_decide (targetDir = ep_Dir ep) then to
        else to ++ [path_Join [targetDir; "inbox"]]) targets [] in
      match to with
      | [] => None
      | _ => Some (mkRt kind (path_Join [ep_Dir ep; "outbox"]) to "same_repository")
      end
  end.

Definition DeriveRoutes (endpoints : list Endpoint) : list Route :=
  let consumers := consumer_index endpoints in
  fold_left (λ routes ep,
    fold_left (λ routes kind,
      match route_for consumers ep kind with
      | Some r => routes ++ [r]
      | None => routes
      end) (ep_Produces ep) routes) endpoints [].

(** ** [DetectOrphans], [DetectOrphansPerRepo] *)

(** [m[kind][dir] = true] on a lazily created inner set. *)
Definition add_dir (dir : string) (m : gmap string (gset string)) (kind : string)
    : gmap string (gset string) :=
  <[kind := {[dir]} ∪ default ∅ (m !! kind)]> m.

Definition producer_dirs (eps : list Endpoint) : gmap string (gset string) :=
  fold_left (λ m ep, fold_left (add_dir (ep_Dir ep)) (ep_Produces ep) m) eps ∅.
Definition consumer_dirs (eps : list Endpoint) : gmap string (gset string) :=
  fold_left (λ m ep, fold_left (add_dir (ep_Dir ep)) (ep_Consumes ep) m) eps ∅.

Definition hasExternalRoute (ps cs : gset string) : bool :=
  existsb (λ pDir, existsb (λ cDir, negb (bool_decide (pDir = cDir))) (elements cs)) (elements ps).

Definition DetectOrphans (endpoints : list Endpoint) : OrphanReport :=
  let producers := producer_dirs endpoints in
  let consumers := consumer_dirs endpoints in
  let unconsumed := fold_left (λ acc '(kind, producerDirs),
    match consumers !! kind with
    | None => acc ++ [kind]
    | Some consumerDirs =>
        if hasExternalRoute producerDirs consumerDirs then acc else acc ++ [kind]
    end) (map_to_list producers) [] in
  let unproduced := fold_left (λ acc '(kind, _),
    match producers !! kind with
    | None => acc ++ [kind]
    | Some _ => acc
    end) (map_to_list consumers) [] in
  mkOrphans (sort_Strings unconsumed) (sort_Strings unproduced).

Definition repo_endpoints (repo : RepoConfig) : list Endpoint := map to_Endpoint (rc_Endpoints repo).

Definition DetectOrphansPerRepo (cfg : Config) : OrphanReport :=
  let '(unconsumedSet, unproducedSet) :=
    fold_left (λ '(u, v) repo,
      let report := DetectOrphans (repo_endpoints repo) in
      (fold_left (λ s kind, {[kind]} ∪ s) (UnconsumedKinds report) u,
       fold_left (λ s kind, {[kind]} ∪ s) (UnproducedKinds report) v))
      (cfg_Repositories cfg) (∅ : gset string, ∅ : gset string) in
  mkOrphans (sort_Strings (elements unconsumedSet)) (sort_Strings (elements unproducedSet)).

(** ** The configuration aggregate *)

Definition AddRepository (c : Config) (path : string) (endpoints : list Endpoint) : Config :=
  let repo := mkRepo path (map to_EndpointConfig endpoints) in
  mkConfig (cfg_LastSynced c) (cfg_Repositories c ++ [repo]) (cfg_Routes c).

Fixpoint remove_repo (path : string) (repos : list RepoConfig) : option (list RepoConfig) :=
  match repos with
  | [] => None
  | repo :: rest =>
      if bool_decide (rc_Path repo = path) then Some rest
      else (repo ::.) <$> remove_repo path rest
  end.

Definition RemoveRepository (c : Config) (path : string) : bool * Config :=
  match remove_repo path (cfg_Repositories c) with
  | Some repos => (true, mkConfig (cfg_LastSynced c) repos (cfg_Routes c))
  | None => (false, c)
  end.

Definition to_RouteConfig (repo : RepoConfig) (r : Route) : RouteConfig :=
  mkRouteConfig (rt_Kind r) (rt_From r) (rt_To r) (rt_Scope r) (rc_Path repo).

Definition UpdateRoutes (c : Config) : Config :=
  let allRoutes := fold_left (λ all repo,
    fold_left (λ all r, all ++ [to_RouteConfig repo r]) (DeriveRoutes (repo_endpoints repo)) all)
    (cfg_Repositories c) [] in
  mkConfig (cfg_LastSynced c) (cfg_Repositories c) allRoutes.

(** ** Loops as comprehensions *)

Lemma fold_left_snoc_map {A B} (f : A → B) l acc :
  fold_left (λ acc a, acc ++ [f a]) l acc = acc ++ map f l.
Proof.
  revert acc. induction l as [|a l IH]; intros acc; cbn; [by rewrite app_nil_r|].
  rewrite IH. by rewrite <- app_assoc.
Qed.

Lemma fold_left_snoc_omap {A B} (f : A → option B) l acc :
  fold_left (λ acc a, match f a with Some b => acc ++ [b] | None => acc end) l acc
  = acc ++ omap f l.
Proof.
  revert acc. induction l as [|a l IH]; intros acc; cbn; [by rewrite app_nil_r|].
  rewrite IH. destruct (f a); [|done]. by rewrite <- app_assoc.
Qed.

Lemma fold_left_app_join {A B} (f : A → list B) l acc :
  fold_left (λ acc a, acc ++ f a) l acc = acc ++ mjoin (map f l).
Proof.
  revert acc. induction l as [|a l IH]; intros acc; cbn; [by rewrite app_nil_r|].
  rewrite IH. by rewrite <- app_assoc.
Qed.

Lemma fold_left_ext {A B} (f g : A → B → A) l acc :
  (∀ a b, f a b = g a b) → fold_left f l acc = fold_left g l acc.
Proof. intros E. revert acc. induction l as [|b l IH]; intros acc; cbn; [done|]. by rewrite E. Qed.

Lemma fold_left_union (l : list string) (s : gset string) :
  fold_left (λ s k, {[k]} ∪ s) l s = list_to_set l ∪ s.
Proof.
  revert s. induction l as [|k l IH]; intros s; cbn; [set_solver|]. rewrite IH. set_solver.
Qed.

(** ** The reference definition of routing

    The dirs consuming [k], in endpoint order, once per declaration. *)
Definition consumers_of (eps : list Endpoint) (k : string) : list string :=
  mjoin (map (λ ep, omap (λ k', if bool_decide (k' = k) then Some (ep_Dir ep) else None)
                         (ep_Consumes ep)) eps).

(** The route a producer of [k] owes: to every other consumer's inbox. *)
Definition owed_route (eps : list Endpoint) (ep : Endpoint) (k : string) : option Route :=
  match filter (λ d, d ≠ ep_Dir ep) (consumers_of eps k) with
  | [] => None
  | ds => Some (mkRt k (path_Join [ep_Dir ep; "outbox"])
                       (map (λ d, path_Join [d; "inbox"]) ds) "same_repository")
  end.

Definition routes_spec (eps : list Endpoint) : list Route :=
  mjoin (map (λ ep, omap (owed_route eps ep) (ep_Produces ep)) eps).

Lemma add_consumer_lookup dir ks m k :
  default [] (fold_left (add_consumer dir) ks m !! k) =
  default [] (m !! k) ++ omap (λ k', if bool_decide (k' = k) then Some dir else None) ks.
Proof.
  revert m. induction ks as [|k' ks IH]; intros m; cbn; [by rewrite app_nil_r|].
  rewrite IH. unfold add_consumer. rewrite lookup_insert. case_decide as E.
  - subst k'. rewrite bool_decide_true by done. cbn. by rewrite <- app_assoc.
  - by rewrite bool_decide_false.
Qed.

Lemma consumer_index_lookup eps k :
  default [] (consumer_index eps !! k) = consumers_of eps k.
Proof.
  unfold consumer_index, consumers_of.
  enough (∀ m, default [] (fold_left (λ m ep, fold_left (add_consumer (ep_Dir ep)) (ep_Consumes ep) m)
                             eps m !! k)
    = default [] (m !! k) ++ mjoin (map (λ ep, omap (λ k', if bool_decide (k' = k)
        then Some (ep_Dir ep) else None) (ep_Consumes ep)) eps)) as H by (by rewrite H, lookup_empty).
  induction eps as [|ep eps IH]; intros m; cbn; [by rewrite app_nil_r|].
  rewrite IH, add_consumer_lookup. by rewrite <- app_assoc.
Qed.

Lemma targets_filter dir targets :
  fold_left (λ to targetDir, if bool_decide (targetDir = dir) then to
                             else to ++ [path_Join [targetDir; "inbox"]]) targets []
  = map (λ d, path_Join [d; "inbox"]) (filter (λ d, d ≠ dir) targets).
Proof.
  enough (∀ acc, fold_left (λ to targetDir, if bool_decide (targetDir = dir) then to
      else to ++ [path_Join [targetDir; "inbox"]]) targets acc
    = acc ++ map (λ d, path_Join [d; "inbox"]) (filter (λ d, d ≠ dir) targets)) as H by apply H.
  induction targets as [|t ts IH]; intros acc; cbn [fold_left]; [by rewrite app_nil_r|].
  rewrite IH, filter_cons. case_bool_decide; case_decide; try done.
  cbn. by rewrite <- app_assoc.
Qed.

Lemma route_for_owed eps ep k : route_for (consumer_index eps) ep k = owed_route eps ep k.
Proof.
  unfold route_for, owed_route. rewrite <- consumer_index_lookup.
  destruct (consumer_index eps !! k) as [[|t ts]|]; [done| |done].
  change (default [] (Some (t :: ts))) with (t :: ts). rewrite targets_filter.
  by destruct (filter (λ d, d ≠ ep_Dir ep) (t :: ts)).
Qed.

Lemma DeriveRoutes_routes_spec eps : DeriveRoutes eps = routes_spec eps.
Proof.
  unfold DeriveRoutes, routes_spec.
  rewrite (fold_left_ext _ (λ routes ep, routes ++ omap (owed_route eps ep) (ep_Produces ep))).
  - by rewrite fold_left_app_join.
  - intros routes ep. rewrite <- fold_left_snoc_omap. apply fold_left_ext. intros acc k.
    by rewrite route_for_owed.
Qed.

Lemma elem_of_consumers_of eps k d :
  d ∈ consumers_of eps k ↔ ∃ ep, ep ∈ eps ∧ k ∈ ep_Consumes ep ∧ d = ep_Dir ep.
Proof.
  unfold consumers_of. rewrite list_elem_of_join. setoid_rewrite list_elem_of_fmap. split.
  - intros (ds & Hd & ep & -> & Hep). apply list_elem_of_omap in Hd as (k' & Hk' & E).
    case_bool_decide; simplify_eq. eauto.
  - intros (ep & Hep & Hk & ->). eexists. split; [|eauto]. apply list_elem_of_omap.
    exists k. by rewrite bool_decide_true.
Qed.

Lemma elem_of_DeriveRoutes eps r :
  r ∈ DeriveRoutes eps ↔ ∃ ep k, ep ∈ eps ∧ k ∈ ep_Produces ep ∧ owed_route eps ep k = Some r.
Proof.
  rewrite DeriveRoutes_routes_spec. unfold routes_spec. rewrite list_elem_of_join.
  setoid_rewrite list_elem_of_fmap. split.
  - intros (rs & Hr & ep & -> & Hep). apply list_elem_of_omap in Hr as (k & Hk & E). eauto.
  - intros (ep & k & Hep & Hk & E). eexists. split; [|eauto]. apply list_elem_of_omap. eauto.
Qed.

(** ** Orphan detection *)

Section dirs.
Context (f : Endpoint → list string).
Definition dirs_by (eps : list Endpoint) (m : gmap string (gset string)) :=
  fold_left (λ m ep, fold_left (add_dir (ep_Dir ep)) (f ep) m) eps m.

Lemma add_dir_elem dir ks m k d :
  d ∈ (default ∅ (fold_left (add_dir dir) ks m !! k) : gset string) ↔
  d ∈ (default ∅ (m !! k) : gset string) ∨ (k ∈ ks ∧ d = dir).
Proof.
  revert m. induction ks as [|k' ks IH]; intros m; cbn [fold_left]; [set_solver|].
  rewrite IH. unfold add_dir. rewrite lookup_insert. case_decide.
  - subst. cbn. set_solver.
  - set_solver.
Qed.

Lemma add_dir_some dir ks m k :
  is_Some (fold_left (add_dir dir) ks m !! k) ↔ is_Some (m !! k) ∨ k ∈ ks.
Proof.
  revert m. induction ks as [|k' ks IH]; intros m; cbn [fold_left]; [set_solver|].
  rewrite IH. unfold add_dir. rewrite lookup_insert. case_decide.
  - subst. split; [intros; right; by left|intros _; left; by eexists].
  - set_solver.
Qed.

Lemma dirs_by_elem eps m k d :
  d ∈ (default ∅ (dirs_by eps m !! k) : gset string) ↔
  d ∈ (default ∅ (m !! k) : gset string) ∨ ∃ ep, ep ∈ eps ∧ k ∈ f ep ∧ d = ep_Dir ep.
Proof.
  unfold dirs_by. revert m. induction eps as [|ep eps IH]; intros m; cbn [fold_left]; [set_solver|].
  rewrite IH, add_dir_elem. set_solver.
Qed.

Lemma dirs_by_some eps m k :
  is_Some (dirs_by eps m !! k) ↔ is_Some (m !! k) ∨ ∃ ep, ep ∈ eps ∧ k ∈ f ep.
Proof.
  unfold dirs_by. revert m. induction eps as [|ep eps IH]; intros m; cbn [fold_left]; [set_solver|].
  rewrite IH, add_dir_some. set_solver.
Qed.
End dirs.

Definition produced (eps : list Endpoint) (k : string) : Prop := ∃ ep, ep ∈ eps ∧ k ∈ ep_Produces ep.
Definition consumed (eps : list Endpoint) (k : string) : Prop := ∃ ep, ep ∈ eps ∧ k ∈ ep_Consumes ep.

Lemma producer_dirs_Some eps k : is_Some (producer_dirs eps !! k) ↔ produced eps k.
Proof.
  change (producer_dirs eps) with (dirs_by ep_Produces eps ∅). rewrite dirs_by_some, lookup_empty.
  unfold produced. split; [intros [[? ?]|]; done|eauto].
Qed.
Lemma consumer_dirs_Some eps k : is_Some (consumer_dirs eps !! k) ↔ consumed eps k.
Proof.
  change (consumer_dirs eps) with (dirs_by ep_Consumes eps ∅). rewrite dirs_by_some, lookup_empty.
  unfold consumed. split; [intros [[? ?]|]; done|eauto].
Qed.

Lemma producer_dirs_elem eps k s d :
  producer_dirs eps !! k = Some s → d ∈ s ↔ ∃ ep, ep ∈ eps ∧ k ∈ ep_Produces ep ∧ d = ep_Dir ep.
Proof.
  intros E. pose proof (dirs_by_elem ep_Produces eps ∅ k d) as H.
  unfold dirs_by in H. unfold producer_dirs in E. rewrite E, lookup_empty in H. cbn in H. set_solver.
Qed.
Lemma consumer_dirs_elem eps k s d :
  consumer_dirs eps !! k = Some s → d ∈ s ↔ ∃ ep, ep ∈ eps ∧ k ∈ ep_Consumes ep ∧ d = ep_Dir ep.
Proof.
  intros E. pose proof (dirs_by_elem ep_Consumes eps ∅ k d) as H.
  unfold dirs_by in H. unfold consumer_dirs in E. rewrite E, lookup_empty in H. cbn in H. set_solver.
Qed.

Lemma hasExternalRoute_true ps cs :
  hasExternalRoute ps cs = true ↔ ∃ p c, p ∈ ps ∧ c ∈ cs ∧ p ≠ c.
Proof.
  unfold hasExternalRoute. rewrite existsb_exists. setoid_rewrite existsb_exists.
  setoid_rewrite <- list_elem_of_In. setoid_rewrite elem_of_elements.
  setoid_rewrite negb_true_iff. setoid_rewrite bool_decide_eq_false. naive_solver.
Qed.

(** A kind has a route exactly when some producer and some consumer differ. *)
Definition routed (eps : list Endpoint) (k : string) : Prop :=
  ∃ r, r ∈ DeriveRoutes eps ∧ rt_Kind r = k.

Lemma routed_iff eps k :
  routed eps k ↔ ∃ p c, p ∈ eps ∧ c ∈ eps ∧ k ∈ ep_Produces p ∧ k ∈ ep_Consumes c ∧ ep_Dir p ≠ ep_Dir c.
Proof.
  unfold routed. setoid_rewrite elem_of_DeriveRoutes. unfold owed_route. split.
  - intros (r & (p & k' & Hp & Hk & E) & Hr).
    destruct (filter _ _) as [|d ds] eqn:F; [done|]. simplify_eq. cbn in *.
    assert (d ∈ filter (λ d, d ≠ ep_Dir p) (consumers_of eps k')) as Hd by (rewrite F; by left).
    apply list_elem_of_filter in Hd as [Hne Hd].
    apply elem_of_consumers_of in Hd as (c & Hc & Hk' & ->). exists p, c. naive_solver.
  - intros (p & c & Hp & Hc & Hkp & Hkc & Hne).
    destruct (filter (λ d, d ≠ ep_Dir p) (consumers_of eps k)) as [|d ds] eqn:F.
    + exfalso. eapply filter_nil_iff in F; [apply F|].
      * by intros E.
      * apply elem_of_consumers_of. eauto.
    + eexists. split; [exists p, k; split_and!; [done..|]; rewrite F; done|]. done.
Qed.

Definition unconsumed_step (eps : list Endpoint) (x : string * gset string) : option string :=
  match consumer_dirs eps !! x.1 with
  | None => Some x.1
  | Some cs => if hasExternalRoute x.2 cs then None else Some x.1
  end.
Definition unproduced_step (eps : list Endpoint) (x : string * gset string) : option string :=
  match producer_dirs eps !! x.1 with None => Some x.1 | Some _ => None end.

Lemma DetectOrphans_omap eps :
  DetectOrphans eps =
  mkOrphans (sort_Strings (omap (unconsumed_step eps) (map_to_list (producer_dirs eps))))
            (sort_Strings (omap (unproduced_step eps) (map_to_list (consumer_dirs eps)))).
Proof.
  unfold DetectOrphans. f_equal; f_equal.
  - rewrite <- (app_nil_l (omap _ _)), <- fold_left_snoc_omap. apply fold_left_ext.
    intros acc [k s]. unfold unconsumed_step. cbn. destruct (consumer_dirs eps !! k); [|done].
    by destruct (hasExternalRoute _ _).
  - rewrite <- (app_nil_l (omap _ _)), <- fold_left_snoc_omap. apply fold_left_ext.
    intros acc [k s]. unfold unproduced_step. cbn. by destruct (producer_dirs eps !! k).
Qed.

Lemma elem_of_unconsumed eps k :
  k ∈ UnconsumedKinds (DetectOrphans eps) ↔ produced eps k ∧ ¬ routed eps k.
Proof.
  rewrite DetectOrphans_omap. cbn. rewrite elem_of_sort_Strings, list_elem_of_omap, routed_iff. split.
  - intros ([k' ps] & Hin & E). apply elem_of_map_to_list in Hin. unfold unconsumed_step in E. cbn in E.
    assert (k' = k) as -> by (repeat case_match; congruence).
    split; [apply producer_dirs_Some; eauto|]. intros (p & c & Hp & Hc & Hkp & Hkc & Hne).
    assert (consumed eps k) as [cs Hcs]%consumer_dirs_Some by (eexists; eauto).
    rewrite Hcs in E. destruct (hasExternalRoute ps cs) eqn:X; [done|].
    apply not_true_iff_false in X. apply X, hasExternalRoute_true. exists (ep_Dir p), (ep_Dir c).
    split_and!; [| |done]; [eapply producer_dirs_elem; eauto|eapply consumer_dirs_elem; eauto].
  - intros [[ps Hps]%producer_dirs_Some Hno]. exists (k, ps).
    rewrite elem_of_map_to_list. split; [done|]. unfold unconsumed_step. cbn.
    destruct (consumer_dirs eps !! k) as [cs|] eqn:Hcs; [|done].
    destruct (hasExternalRoute ps cs) eqn:X; [|done]. exfalso. apply Hno.
    apply hasExternalRoute_true in X as (p & c & Hp & Hc & Hne).
    eapply producer_dirs_elem in Hp as (ep & ? & ? & ->); [|done].
    eapply consumer_dirs_elem in Hc as (ec & ? & ? & ->); [|done]. exists ep, ec. done.
Qed.

Lemma elem_of_unproduced eps k :
  k ∈ UnproducedKinds (DetectOrphans eps) ↔ consumed eps k ∧ ¬ produced eps k.
Proof.
  rewrite DetectOrphans_omap. cbn. rewrite elem_of_sort_Strings, list_elem_of_omap,
    <- producer_dirs_Some, <- consumer_dirs_Some. unfold unproduced_step. split.
  - intros ([k' cs] & Hin & E). apply elem_of_map_to_list in Hin. cbn in E.
    destruct (producer_dirs eps !! k') eqn:P; simplify_eq. split; [eauto|].
    rewrite P. by intros [? ?].
  - intros [[cs Hcs] Hno]. exists (k, cs). rewrite elem_of_map_to_list. split; [done|]. cbn.
    destruct (producer_dirs eps !! k) eqn:P; [|done]. exfalso. apply Hno. eauto.
Qed.

Lemma omap_keys_NoDup {V : Type} (g : string * V → option string) (l : list (string * V)) :
  (∀ x y, g x = Some y → y = x.1) → NoDup l.*1 → NoDup (omap g l).
Proof.
  intros Hg. induction l as [|x l IH]; cbn; [constructor|].
  rewrite NoDup_cons. intros [Hx Hl]. destruct (g x) as [y|] eqn:E; [|by apply IH].
  constructor; [|by apply IH]. intros (z & Hz & Ez)%list_elem_of_omap. apply Hx.
  apply list_elem_of_fmap. exists z. split; [|done]. apply Hg in Ez, E. congruence.
Qed.

Lemma DetectOrphans_NoDup eps :
  NoDup (UnconsumedKinds (DetectOrphans eps)) ∧ NoDup (UnproducedKinds (DetectOrphans eps)).
Proof.
  rewrite DetectOrphans_omap. cbn. rewrite !sort_Strings_perm.
  split; apply omap_keys_NoDup; try apply NoDup_fst_map_to_list.
  - intros [k s] y. unfold unconsumed_step. cbn. repeat case_match; naive_solver.
  - intros [k s] y. unfold unproduced_step. cbn. repeat case_match; naive_solver.
Qed.

(** C21: [DeriveRoutes], which walks a consumer index built in a map, computes
    the reference routing table: for each endpoint and each kind it produces,
    in order, the route to the inboxes of all the other endpoints that consume
    the kind, and nothing when there is none. *)
Theorem DeriveRoutes_refines_spec (eps : list Endpoint) : DeriveRoutes eps = routes_spec eps.
Proof. apply DeriveRoutes_routes_spec. Qed.

Lemma derived_route (eps : list Endpoint) (r : Route) :
  r ∈ DeriveRoutes eps →
  ∃ ep, ep ∈ eps ∧ rt_Kind r ∈ ep_Produces ep ∧ rt_From r = path_Join [ep_Dir ep; "outbox"] ∧
    rt_To r ≠ [] ∧
    ∀ t, t ∈ rt_To r ↔ ∃ ec, ec ∈ eps ∧ rt_Kind r ∈ ep_Consumes ec ∧ ep_Dir ec ≠ ep_Dir ep ∧
                              t = path_Join [ep_Dir ec; "inbox"].
Proof.
  intros (ep & k & Hep & Hk & E)%elem_of_DeriveRoutes. unfold owed_route in E.
  destruct (filter _ _) as [|d ds] eqn:F; [done|]. simplify_eq. cbn [rt_Kind rt_From rt_To].
  exists ep. split_and!; [done..|]. rewrite <- F. intros t. rewrite list_elem_of_fmap.
  setoid_rewrite list_elem_of_filter. setoid_rewrite elem_of_consumers_of. naive_solver.
Qed.

(**  no self-delivery and no empty fan-out.  Every derived route leaves the
    outbox of an endpoint that produces its kind, has at least one target,
    and targets exactly the inboxes of the endpoints that consume the kind and
    are not the producer. *)
Theorem DeriveRoutes_sound (eps : list Endpoint) (r : Route) :
  r ∈ DeriveRoutes eps →
  ∃ ep, ep ∈ eps ∧ rt_Kind r ∈ ep_Produces ep ∧ rt_From r = path_Join [ep_Dir ep; "outbox"] ∧
    rt_To r ≠ [] ∧
    ∀ t, t ∈ rt_To r ↔ ∃ ec, ec ∈ eps ∧ rt_Kind r ∈ ep_Consumes ec ∧ ep_Dir ec ≠ ep_Dir ep ∧
                              t = path_Join [ep_Dir ec; "inbox"].
Proof. apply derived_route. Qed.

Definition sample_eps : list Endpoint :=
  [mkEndpoint ".siren" ["specification"] ["design-feedback"];
   mkEndpoint ".expedition" ["report"] ["specification"];
   mkEndpoint ".gate" ["design-feedback"; "convergence"] ["report"; "ci-result"]].

Lemma DeriveRoutes_sound_witness :
  ∃ ep, ep ∈ sample_eps ∧ "specification" ∈ ep_Produces ep.
Proof.
  destruct (DeriveRoutes_sound sample_eps
    (mkRt "specification" ".siren/outbox" [".expedition/inbox"] "same_repository"))
    as (ep & H1 & H2 & _).
  - rewrite list_elem_of_In. vm_compute. auto.
  - exists ep. by split.
Defined.

(**  the orphan report is the complement of the routing table.  Within a
    repository a kind is reported as unconsumed exactly when some endpoint
    produces it and [DeriveRoutes] gives it no route, and as unproduced
    exactly when it is consumed and nothing produces it; both lists are
    sorted and free of duplicates, so the report does not depend on the
    iteration order of the maps. *)
Theorem DetectOrphans_complements_routes (eps : list Endpoint) :
  let report := DetectOrphans eps in
  (∀ k, k ∈ UnconsumedKinds report ↔
     (∃ ep, ep ∈ eps ∧ k ∈ ep_Produces ep) ∧ ¬ ∃ r, r ∈ DeriveRoutes eps ∧ rt_Kind r = k) ∧
  (∀ k, k ∈ UnproducedKinds report ↔
     (∃ ep, ep ∈ eps ∧ k ∈ ep_Consumes ep) ∧ ¬ ∃ ep, ep ∈ eps ∧ k ∈ ep_Produces ep) ∧
  StronglySorted string_le (UnconsumedKinds report) ∧ NoDup (UnconsumedKinds report) ∧
  StronglySorted string_le (UnproducedKinds report) ∧ NoDup (UnproducedKinds report).
Proof.
  intros report. subst report.
  split_and!; [apply elem_of_unconsumed|apply elem_of_unproduced|..];
    try (apply DetectOrphans_NoDup); rewrite DetectOrphans_omap; apply sort_Strings_sorted.
Qed.

Lemma mjoin_cons {A} (x : list A) (xs : list (list A)) : mjoin (x :: xs) = x ++ mjoin xs.
Proof. reflexivity. Qed.

Lemma orphans_fold repos u v :
  fold_left (λ '(u, v) repo,
      let report := DetectOrphans (repo_endpoints repo) in
      (fold_left (λ s kind, {[kind]} ∪ s) (UnconsumedKinds report) u,
       fold_left (λ s kind, {[kind]} ∪ s) (UnproducedKinds report) v))
      repos (u : gset string, v : gset string)
  = (list_to_set (mjoin (map (UnconsumedKinds ∘ DetectOrphans ∘ repo_endpoints) repos)) ∪ u,
     list_to_set (mjoin (map (UnproducedKinds ∘ DetectOrphans ∘ repo_endpoints) repos)) ∪ v).
Proof.
  revert u v. induction repos as [|r repos IH]; intros u v; cbn [fold_left map].
  - f_equal; set_solver.
  - rewrite !fold_left_union, IH. unfold compose.
    rewrite !mjoin_cons, !list_to_set_app_L. f_equal; set_solver.
Qed.

(**  across repositories the report is the union of the per-repository
    reports, because routing never leaves a repository: a kind is reported
    exactly when some repository reports it. *)
Theorem DetectOrphansPerRepo_union (cfg : Config) (k : string) :
  (k ∈ UnconsumedKinds (DetectOrphansPerRepo cfg) ↔
     ∃ repo, repo ∈ cfg_Repositories cfg ∧ k ∈ UnconsumedKinds (DetectOrphans (repo_endpoints repo))) ∧
  (k ∈ UnproducedKinds (DetectOrphansPerRepo cfg) ↔
     ∃ repo, repo ∈ cfg_Repositories cfg ∧ k ∈ UnproducedKinds (DetectOrphans (repo_endpoints repo))) ∧
  NoDup (UnconsumedKinds (DetectOrphansPerRepo cfg)) ∧
  NoDup (UnproducedKinds (DetectOrphansPerRepo cfg)).
Proof.
  unfold DetectOrphansPerRepo. rewrite orphans_fold. cbn [UnconsumedKinds UnproducedKinds].
  rewrite !elem_of_sort_Strings, !elem_of_elements, !sort_Strings_perm.
  rewrite !elem_of_union, !elem_of_list_to_set, !list_elem_of_join.
  setoid_rewrite list_elem_of_fmap. unfold compose.
  split_and!; [set_solver|set_solver|apply NoDup_elements..].
Qed.

(** ** The configuration aggregate *)

Lemma remove_repo_spec path repos :
  match remove_repo path repos with
  | Some rest => ∃ a r b, repos = a ++ r :: b ∧ rest = a ++ b ∧ rc_Path r = path ∧
                   ∀ r', r' ∈ a → rc_Path r' ≠ path
  | None => ∀ r, r ∈ repos → rc_Path r ≠ path
  end.
Proof.
  induction repos as [|r repos IH]; cbn [remove_repo]; [set_solver|].
  case_bool_decide as E.
  - exists [], r, repos. set_solver.
  - destruct (remove_repo path repos) as [rest|]; cbn.
    + destruct IH as (a & r0 & b & -> & -> & Hr & Ha). exists (r :: a), r0, b. set_solver.
    + set_solver.
Qed.

Lemma UpdateRoutes_routes c :
  cfg_Routes (UpdateRoutes c) =
  mjoin (map (λ repo, map (to_RouteConfig repo) (DeriveRoutes (repo_endpoints repo))) (cfg_Repositories c)).
Proof.
  unfold UpdateRoutes. cbn [cfg_Routes].
  rewrite (fold_left_ext _ (λ all repo, all ++ map (to_RouteConfig repo) (DeriveRoutes (repo_endpoints repo)))).
  - by rewrite fold_left_app_join.
  - intros all repo. by rewrite fold_left_snoc_map.
Qed.

Lemma elem_of_UpdateRoutes c rt :
  rt ∈ cfg_Routes (UpdateRoutes c) ↔
  ∃ repo r, repo ∈ cfg_Repositories c ∧ r ∈ DeriveRoutes (repo_endpoints repo) ∧ rt = to_RouteConfig repo r.
Proof.
  rewrite UpdateRoutes_routes, list_elem_of_join. setoid_rewrite list_elem_of_fmap. split.
  - intros (l & Hl & repo & -> & Hrepo). apply list_elem_of_fmap in Hl as (r & -> & Hr). eauto.
  - intros (repo & r & H1 & H2 & ->). eexists. split; [|eauto]. apply list_elem_of_fmap. eauto.
Qed.

Lemma remove_repo_app path a b :
  (∀ r, r ∈ a → rc_Path r ≠ path) → remove_repo path (a ++ b) = (a ++.) <$> remove_repo path b.
Proof.
  induction a as [|r a IH]; intros Ha; cbn; [by destruct (remove_repo path b)|].
  rewrite bool_decide_false by set_solver. rewrite IH by set_solver.
  by destruct (remove_repo path b).
Qed.

(**  adding and removing a repository are inverse up to the routes, which
    [UpdateRoutes] re-derives.  Removing a repository just added under a fresh
    path gives the configuration back; removing an absent path changes
    nothing and reports false; and the routes after an update are exactly the
    derived routes of the registered repositories, each tagged with its path. *)
Theorem Config_add_remove (c : Config) (path : string) (eps : list Endpoint) :
  (∀ r, r ∈ cfg_Repositories c → rc_Path r ≠ path) →
  RemoveRepository (AddRepository c path eps) path = (true, c) ∧
  RemoveRepository c path = (false, c) ∧
  cfg_Routes (UpdateRoutes (AddRepository c path eps)) =
    cfg_Routes (UpdateRoutes c) ++
    map (λ r, mkRouteConfig (rt_Kind r) (rt_From r) (rt_To r) (rt_Scope r) path) (DeriveRoutes eps).
Proof.
  intros Hfresh. unfold RemoveRepository, AddRepository. cbn [cfg_Repositories cfg_LastSynced cfg_Routes].
  split_and!.
  - rewrite remove_repo_app by done. cbn. rewrite bool_decide_true by done. cbn.
    rewrite app_nil_r. by destruct c.
  - pose proof (remove_repo_spec path (cfg_Repositories c)) as H.
    destruct (remove_repo _ _); [|done]. destruct H as (a & r & b & E & _ & Hr & _).
    exfalso. apply (Hfresh r); [|done]. rewrite E. set_solver.
  - rewrite !UpdateRoutes_routes. cbn [cfg_Repositories]. rewrite map_app, join_app. f_equal.
    cbn. rewrite app_nil_r. unfold repo_endpoints. cbn [rc_Endpoints].
    rewrite map_map. rewrite (map_ext _ id to_Endpoint_EndpointConfig). by rewrite map_id.
Qed.

Lemma Config_add_remove_witness :
  RemoveRepository (AddRepository (mkConfig 0 [mkRepo "/a" []] []) "/b" sample_eps) "/b"
  = (true, mkConfig 0 [mkRepo "/a" []] []).
Proof.
  apply (Config_add_remove (mkConfig 0 [mkRepo "/a" []] []) "/b" sample_eps).
  intros r Hr. apply list_elem_of_In in Hr. cbn in Hr. destruct Hr as [<-|[]]. cbn. discriminate.
Defined.
