(* ===== verification/Bloom.v ===== *)
(** * The delivery Bloom filter

    Models [domain/bloom_filter.go]: [BloomFilter], [NewBloomFilter], [Add],
    [MayContain], [hash], [MarshalBinary] and [UnmarshalBloomFilter].  A
    run-time panic (modulo by zero, index out of range) is [None]; [uint] is
    64 bits wide.  [optimalM] and [optimalK] are floating-point formulas: they
    are the fields of the class [Sizing], and what the filter needs of them is
    the hypothesis [sizing_ok]. *)
From S2P Require Import Prelude GoStrings.
From Stdlib Require Import QArith.

#[local] Open Scope Z_scope.
#[local] Open Scope go_scope.

Record BloomFilter := mkBloom {
  bf_bits : list Z;      (* []uint64 *)
  bf_numHash : Z;        (* uint *)
  bf_m : Z }.            (* uint, total bits *)

#[export] Instance BloomFilter_eq_dec : EqDecision BloomFilter.
Proof. solve_decision. Defined.

(** ** Hashing *)

Definition offset64 : Z := 14695981039346656037.
Definition prime64 : Z := 1099511628211.

Definition fnv1a (data : bytes) : Z :=
  fold_left (λ h1 b, u64 (Z.lxor h1 (byte_val b) * prime64)) data offset64.

(** [hash]: FNV-1a, then the 64-bit finalizer for the second value. *)
Definition hash (data : bytes) : Z * Z :=
  let h1 := fnv1a data in
  let h2 := Z.lxor (Z.shiftr h1 33) h1 in
  let h2 := u64 (h2 * 0xff51afd7ed558ccd) in
  let h2 := Z.lxor (Z.shiftr h2 33) h2 in
  let h2 := u64 (h2 * 0xc4ceb9fe1a85ec53) in
  let h2 := Z.lxor (Z.shiftr h2 33) h2 in
  (h1, h2).

(** [(h1 + i*h2) % bf.m]; a zero modulus panics. *)
Definition probe (h1 h2 m i : Z) : option Z :=
  if m =? 0 then None else Some (u64 (h1 + u64 (i * h2)) mod m).

(** ** Construction *)

Class Sizing := {
  optimalM : Z → Q → Z;
  optimalK : Z → Z → Z }.

Definition words_for (m : Z) : Z := u64 (m + 63) / 64.

Definition NewBloomFilter `{Sizing} (expectedN : Z) (fpRate : Q) : BloomFilter :=
  let expectedN := if expectedN <? 1 then 1 else expectedN in
  let fpRate := if Qle_bool fpRate 0 || Qle_bool 1 fpRate then (1 # 100)%Q else fpRate in
  let m := optimalM expectedN fpRate in
  let k := optimalK m expectedN in
  mkBloom (replicate (Z.to_nat (words_for m)) 0) k m.

(** ** Add and MayContain *)

Fixpoint add_loop (n : nat) (i h1 h2 m : Z) (bits : list Z) : option (list Z) :=
  match n with
  | O => Some bits
  | S n' =>
      pos ← probe h1 h2 m i;
      w ← bits !! Z.to_nat (pos / 64);
      add_loop n' (i + 1) h1 h2 m
        (<[Z.to_nat (pos / 64) := Z.lor w (Z.shiftl 1 (pos mod 64))]> bits)
  end.

Definition Add (bf : BloomFilter) (key : string) : option BloomFilter :=
  let '(h1, h2) := hash (raw key) in
  bits ← add_loop (Z.to_nat (bf_numHash bf)) 0 h1 h2 (bf_m bf) (bf_bits bf);
  Some (mkBloom bits (bf_numHash bf) (bf_m bf)).

Fixpoint may_loop (n : nat) (i h1 h2 m : Z) (bits : list Z) : option bool :=
  match n with
  | O => Some true
  | S n' =>
      pos ← probe h1 h2 m i;
      w ← bits !! Z.to_nat (pos / 64);
      if Z.land w (Z.shiftl 1 (pos mod 64)) =? 0 then Some false
      else may_loop n' (i + 1) h1 h2 m bits
  end.

Definition MayContain (bf : BloomFilter) (key : string) : option bool :=
  let '(h1, h2) := hash (raw key) in
  may_loop (Z.to_nat (bf_numHash bf)) 0 h1 h2 (bf_m bf) (bf_bits bf).

(** ** Persistence *)

(** [binary.LittleEndian.PutUint64]/[Uint64] on eight bytes. *)
Fixpoint le_split (n : nat) (z : Z) : bytes :=
  match n with
  | O => []
  | S n' => ascii_of_N (Z.to_N (z mod 256)) :: le_split n' (z / 256)
  end.
Fixpoint le_combine (l : bytes) : Z :=
  match l with
  | [] => 0
  | b :: r => byte_val b + 256 * le_combine r
  end.
Definition PutUint64 (z : Z) : bytes := le_split 8 z.
(** Reading past the end of the slice panics. *)
Definition Uint64 (b : bytes) : option Z :=
  if (length b <? 8)%nat then None else Some (le_combine (take 8 b)).

Definition MarshalBinary (bf : BloomFilter) : bytes :=
  PutUint64 (bf_m bf) ++ PutUint64 (bf_numHash bf) ++ mjoin (PutUint64 <$> bf_bits bf).

Definition errBloomCorrupt : error := errors_New "bloom filter: corrupt data".

Fixpoint read_words (n : nat) (data : bytes) : option (list Z) :=
  match n with
  | O => Some []
  | S n' => w ← Uint64 data; ws ← read_words n' (drop 8 data); Some (w :: ws)
  end.

Definition UnmarshalBloomFilter (data : bytes) : option (result BloomFilter) :=
  if (length data <? 16)%nat then Some (Err errBloomCorrupt) else
  m ← Uint64 (take 8 data);
  k ← Uint64 (take 8 (drop 8 data));
  let words := words_for m in
  if Z.of_nat (length data) <? u64 (16 + u64 (words * 8)) then Some (Err errBloomCorrupt) else
  bits ← read_words (Z.to_nat words) (drop 16 data);
  Some (Ok (mkBloom bits k m)).

(** ** Invariant *)

(** A filter has at least one bit, its word count covers its bit count, and
    its words fit in 64 bits. *)
Record wf (bf : BloomFilter) : Prop := {
  wf_m : 0 < bf_m bf ≤ two64 - 64;
  wf_k : 0 ≤ bf_numHash bf < two64;
  wf_len : Z.of_nat (length (bf_bits bf)) = (bf_m bf + 63) / 64;
  wf_words : Forall (λ w, 0 ≤ w < two64) (bf_bits bf) }.

Lemma words_for_eq m : 0 < m ≤ two64 - 64 → words_for m = (m + 63) / 64.
Proof. intros. unfold words_for. rewrite u64_id; [done|unfold two64 in *; lia]. Qed.

Lemma probe_Some h1 h2 m i :
  0 < m → ∃ pos, probe h1 h2 m i = Some pos ∧ 0 ≤ pos < m.
Proof.
  intros Hm. unfold probe. rewrite (proj2 (Z.eqb_neq m 0)) by lia.
  eexists; split; [done|]. by apply Z.mod_pos_bound.
Qed.

Lemma word_index (bits : list Z) m pos :
  Z.of_nat (length bits) = (m + 63) / 64 → 0 ≤ pos < m →
  ∃ w, bits !! Z.to_nat (pos / 64) = Some w.
Proof.
  intros Hl Hp. apply lookup_lt_is_Some.
  assert (pos / 64 < (m + 63) / 64) by (apply Z.div_lt_upper_bound; [lia|];
    pose proof (Z.mod_pos_bound (m + 63) 64 eq_refl); pose proof (Z.div_mod (m + 63) 64); lia).
  assert (0 ≤ pos / 64) by (apply Z.div_pos; lia). lia.
Qed.

Lemma bit_range pos : 0 ≤ Z.shiftl 1 (pos mod 64) < two64.
Proof.
  pose proof (Z.mod_pos_bound pos 64 eq_refl). rewrite Z.shiftl_1_l.
  split; [apply Z.pow_nonneg; lia|]. change two64 with (2 ^ 64). apply Z.pow_lt_mono_r; lia.
Qed.

Lemma lor_range x y : 0 ≤ x < two64 → 0 ≤ y < two64 → 0 ≤ Z.lor x y < two64.
Proof.
  intros Hx Hy. split; [apply Z.lor_nonneg; lia|].
  rewrite <- (u64_id x), <- (u64_id y) by done. unfold u64.
  rewrite <- Z.land_lor_distr_l. fold (u64 (Z.lor x y)). apply u64_range.
Qed.

(** ** The set of bits that are on *)

Definition bit_on (bits : list Z) (pos : Z) : bool :=
  match bits !! Z.to_nat (pos / 64) with
  | Some w => Z.testbit w (pos mod 64)
  | None => false
  end.

Lemma test_bit w pos : (Z.land w (Z.shiftl 1 (pos mod 64)) =? 0) = negb (Z.testbit w (pos mod 64)).
Proof.
  pose proof (Z.mod_pos_bound pos 64 eq_refl) as Hb. set (n := pos mod 64) in *.
  rewrite Z.shiftl_1_l. destruct (Z.testbit w n) eqn:E; cbn.
  - apply Z.eqb_neq. intros H. apply (f_equal (λ x, Z.testbit x n)) in H.
    rewrite Z.land_spec, E, Z.pow2_bits_true, Z.bits_0 in H by lia. done.
  - apply Z.eqb_eq. apply Z.bits_inj_0. intros k. rewrite Z.land_spec.
    destruct (decide (k = n)) as [->|]; [by rewrite E|].
    rewrite Z.pow2_bits_false by lia. apply andb_false_r.
Qed.

Lemma bit_on_insert (bits : list Z) (i : nat) w pos p :
  bits !! i = Some w → i = Z.to_nat (pos / 64) → 0 ≤ pos → 0 ≤ p →
  bit_on (<[i := Z.lor w (Z.shiftl 1 (pos mod 64))]> bits) p = bit_on bits p || (p =? pos).
Proof.
  intros Hw -> Hpos Hp. unfold bit_on.
  pose proof (Z.mod_pos_bound pos 64 eq_refl). pose proof (Z.mod_pos_bound p 64 eq_refl).
  pose proof (Z.div_mod p 64 ltac:(lia)). pose proof (Z.div_mod pos 64 ltac:(lia)).
  pose proof (Z.div_pos p 64 Hp ltac:(lia)). pose proof (Z.div_pos pos 64 Hpos ltac:(lia)).
  destruct (decide (p / 64 = pos / 64)) as [E|E].
  - rewrite E, list_lookup_insert_eq by (by eapply lookup_lt_Some). rewrite Hw, Z.lor_spec. f_equal.
    rewrite Z.shiftl_1_l. destruct (Z.eqb_spec p pos) as [->|Hne].
    + apply Z.pow2_bits_true; lia.
    + apply Z.pow2_bits_false. lia.
  - rewrite list_lookup_insert_ne by lia.
    rewrite (proj2 (Z.eqb_neq p pos)) by congruence. by rewrite orb_false_r.
Qed.

(** The probes of a key, as a list of positions. *)
Definition probes (bf : BloomFilter) (key : string) : list Z :=
  let '(h1, h2) := hash (raw key) in
  (λ i, u64 (h1 + u64 (Z.of_nat i * h2)) mod bf_m bf) <$> seq 0 (Z.to_nat (bf_numHash bf)).

Lemma add_loop_spec n i h1 h2 m bits :
  0 < m → Z.of_nat (length bits) = (m + 63) / 64 → Forall (λ w, 0 ≤ w < two64) bits →
  ∃ bits', add_loop n (Z.of_nat i) h1 h2 m bits = Some bits' ∧
    length bits' = length bits ∧ Forall (λ w, 0 ≤ w < two64) bits' ∧
    ∀ p, 0 ≤ p →
      bit_on bits' p = true ↔
      bit_on bits p = true ∨ p ∈ ((λ j, u64 (h1 + u64 (Z.of_nat j * h2)) mod m) <$> seq i n).
Proof.
  intros Hm. revert i bits. induction n as [|n IH]; intros i bits Hl Hw; cbn [add_loop].
  { exists bits. split_and!; try done. intros p _. cbn. set_solver. }
  destruct (probe_Some h1 h2 m (Z.of_nat i) Hm) as (pos & Ep & Hpos). rewrite Ep. cbn [mbind option_bind].
  destruct (word_index bits m pos Hl Hpos) as [w Ew]. rewrite Ew. cbn [mbind option_bind].
  replace (Z.of_nat i + 1) with (Z.of_nat (S i)) by lia.
  destruct (IH (S i) (<[Z.to_nat (pos / 64) := Z.lor w (Z.shiftl 1 (pos mod 64))]> bits))
    as (bits' & E & Hl' & Hw' & Hb).
  - by rewrite length_insert.
  - apply Forall_insert; [done|]. apply lor_range; [|apply bit_range].
    by eapply (Forall_lookup_1 _ _ _ _ Hw).
  - exists bits'. split_and!; [done|by rewrite Hl', length_insert|done|].
    intros p Hp. rewrite Hb by done. rewrite (bit_on_insert _ _ w) by (done || lia).
    cbn [seq fmap list_fmap]. rewrite elem_of_cons, orb_true_iff, Z.eqb_eq.
    assert (u64 (h1 + u64 (Z.of_nat i * h2)) mod m = pos) as ->.
    { unfold probe in Ep. rewrite (proj2 (Z.eqb_neq m 0)) in Ep by lia. by simplify_eq. }
    tauto.
Qed.

Lemma may_loop_spec n i h1 h2 m bits :
  0 < m → Z.of_nat (length bits) = (m + 63) / 64 →
  ∃ b, may_loop n (Z.of_nat i) h1 h2 m bits = Some b ∧
    (b = true ↔ ∀ p, p ∈ ((λ j, u64 (h1 + u64 (Z.of_nat j * h2)) mod m) <$> seq i n) →
                    bit_on bits p = true).
Proof.
  intros Hm Hl. revert i. induction n as [|n IH]; intros i; cbn [may_loop].
  { exists true. split; [done|]. set_solver. }
  destruct (probe_Some h1 h2 m (Z.of_nat i) Hm) as (pos & Ep & Hpos). rewrite Ep. cbn [mbind option_bind].
  destruct (word_index bits m pos Hl Hpos) as [w Ew]. rewrite Ew. cbn [mbind option_bind].
  assert (u64 (h1 + u64 (Z.of_nat i * h2)) mod m = pos) as Epos.
  { unfold probe in Ep. rewrite (proj2 (Z.eqb_neq m 0)) in Ep by lia. by simplify_eq. }
  assert (bit_on bits pos = Z.testbit w (pos mod 64)) as Eb by (unfold bit_on; by rewrite Ew).
  rewrite test_bit. cbn [seq fmap list_fmap]. setoid_rewrite elem_of_cons. rewrite Epos.
  destruct (Z.testbit w (pos mod 64)) eqn:Et; cbn [negb].
  - replace (Z.of_nat i + 1) with (Z.of_nat (S i)) by lia.
    destruct (IH (S i)) as (b & -> & Hb). exists b. split; [done|]. rewrite Hb. naive_solver.
  - exists false. split; [done|]. split; [done|]. intros H. specialize (H pos (or_introl eq_refl)).
    congruence.
Qed.

Lemma Add_spec bf key :
  wf bf →
  ∃ bf', Add bf key = Some bf' ∧ wf bf' ∧ bf_m bf' = bf_m bf ∧ bf_numHash bf' = bf_numHash bf ∧
    ∀ p, 0 ≤ p → bit_on (bf_bits bf') p = true ↔ bit_on (bf_bits bf) p = true ∨ p ∈ probes bf key.
Proof.
  intros [Hm Hk Hl Hw]. unfold Add, probes. destruct (hash (raw key)) as [h1 h2].
  destruct (add_loop_spec (Z.to_nat (bf_numHash bf)) 0 h1 h2 (bf_m bf) (bf_bits bf))
    as (bits' & E & Hl' & Hw' & Hb); [lia|done..|].
  change (Z.of_nat 0) with 0 in E. rewrite E. cbn [mbind option_bind].
  eexists; split_and!; [done|constructor; cbn; [lia|lia|lia|done]|done|done|done].
Qed.

Lemma MayContain_spec bf key :
  wf bf →
  ∃ b, MayContain bf key = Some b ∧
       (b = true ↔ ∀ p, p ∈ probes bf key → bit_on (bf_bits bf) p = true).
Proof.
  intros [Hm Hk Hl Hw]. unfold MayContain, probes. destruct (hash (raw key)) as [h1 h2].
  apply (may_loop_spec _ 0); [lia|done].
Qed.

Lemma probes_nonneg bf key p : wf bf → p ∈ probes bf key → 0 ≤ p.
Proof.
  intros [Hm _ _ _]. unfold probes. destruct (hash _) as [h1 h2].
  intros (j & -> & _)%list_elem_of_fmap. apply Z.mod_pos_bound. lia.
Qed.

(** Adding a sequence of keys, as the daemon does over its lifetime. *)
Definition AddAll (bf : BloomFilter) (keys : list string) : option BloomFilter :=
  foldl (λ acc key, b ← acc; Add b key) (Some bf) keys.

Lemma probes_same bf bf' key :
  bf_m bf' = bf_m bf → bf_numHash bf' = bf_numHash bf → probes bf' key = probes bf key.
Proof. unfold probes. intros -> ->. done. Qed.

Lemma AddAll_spec keys : ∀ bf, wf bf →
  ∃ bf', AddAll bf keys = Some bf' ∧ wf bf' ∧ bf_m bf' = bf_m bf ∧ bf_numHash bf' = bf_numHash bf ∧
    ∀ p, 0 ≤ p → bit_on (bf_bits bf') p = true ↔
                 bit_on (bf_bits bf) p = true ∨ ∃ key, key ∈ keys ∧ p ∈ probes bf key.
Proof.
  unfold AddAll. induction keys as [|key keys IH]; intros bf Hwf; cbn [foldl].
  { exists bf. split_and!; try done. set_solver. }
  destruct (Add_spec bf key Hwf) as (b1 & E & Hwf1 & Em & Ek & Hb). cbn [mbind option_bind]. rewrite E.
  destruct (IH b1 Hwf1) as (b2 & E2 & Hwf2 & Em2 & Ek2 & Hb2).
  exists b2. split_and!; [done|done|congruence|congruence|].
  intros p Hp. rewrite Hb2, Hb by done. setoid_rewrite elem_of_cons.
  setoid_rewrite (probes_same bf b1); [|done..]. naive_solver.
Qed.

(** ** Serialization lemmas *)

Lemma byte_val_ascii z : 0 ≤ z < 256 → byte_val (ascii_of_N (Z.to_N z)) = z.
Proof. intros. unfold byte_val. rewrite N_ascii_embedding by lia. lia. Qed.

Lemma le_split_length n z : length (le_split n z) = n.
Proof. revert z. induction n as [|n IH]; intros z; cbn; [done|]. by rewrite IH. Qed.

Lemma le_combine_split n z : le_combine (le_split n z) = z mod 256 ^ Z.of_nat n.
Proof.
  revert z. induction n as [|n IH]; intros z; cbn [le_split le_combine].
  { by rewrite Z.mod_1_r. }
  rewrite byte_val_ascii by (apply Z.mod_pos_bound; lia). rewrite IH.
  rewrite Nat2Z.inj_succ, Z.pow_succ_r by lia.
  rewrite (Z.rem_mul_r z 256) by (try apply Z.pow_pos_nonneg; lia). lia.
Qed.

Lemma Uint64_PutUint64 z rest : 0 ≤ z < two64 → Uint64 (PutUint64 z ++ rest) = Some z.
Proof.
  intros Hz. unfold Uint64, PutUint64. rewrite length_app, le_split_length.
  destruct (Nat.ltb_spec (8 + length rest) 8); [lia|].
  rewrite take_app_length' by (by rewrite le_split_length).
  rewrite le_combine_split. f_equal. apply Z.mod_small. exact Hz.
Qed.

Lemma read_words_Put ws :
  Forall (λ w, 0 ≤ w < two64) ws →
  read_words (length ws) (mjoin (PutUint64 <$> ws)) = Some ws.
Proof.
  induction 1 as [|w ws Hw _ IH]; [done|]. cbn [length fmap list_fmap read_words].
  change (mjoin (PutUint64 w :: (PutUint64 <$> ws))) with (PutUint64 w ++ mjoin (PutUint64 <$> ws)).
  rewrite Uint64_PutUint64 by done. cbn [mbind option_bind].
  rewrite drop_app_length' by (symmetry; apply le_split_length). by rewrite IH.
Qed.

Lemma marshal_words_length ws : length (mjoin (PutUint64 <$> ws)) = (8 * length ws)%nat.
Proof.
  induction ws as [|w ws IH]; [done|]. cbn [fmap list_fmap].
  change (mjoin (PutUint64 w :: (PutUint64 <$> ws))) with (PutUint64 w ++ mjoin (PutUint64 <$> ws)).
  rewrite length_app, IH. unfold PutUint64. rewrite le_split_length. cbn. lia.
Qed.

Lemma Uint64_total b : (8 ≤ length b)%nat → ∃ z, Uint64 b = Some z.
Proof. intros Hl. unfold Uint64. destruct (Nat.ltb_spec (length b) 8); [lia|]. by eexists. Qed.

Lemma read_words_total n data : (8 * n ≤ length data)%nat → ∃ ws, read_words n data = Some ws.
Proof.
  revert data. induction n as [|n IH]; intros data Hl; [by exists []|]. cbn [read_words].
  destruct (Uint64_total data) as [z ->]; [lia|]. cbn [mbind option_bind].
  destruct (IH (drop 8 data)) as [ws ->]; [rewrite length_drop; lia|]. by eexists.
Qed.

Lemma words_for_bound m : 0 ≤ words_for m < 288230376151711744.
Proof.
  unfold words_for. pose proof (u64_range (m + 63)) as H. unfold two64 in H.
  split; [apply Z.div_pos; lia|]. apply Z.div_lt_upper_bound; lia.
Qed.

(** The two header words and the rest of a marshalled filter. *)
Lemma header_words a b rest :
  0 ≤ a < two64 → 0 ≤ b < two64 →
  let data := PutUint64 a ++ PutUint64 b ++ rest in
  Uint64 (take 8 data) = Some a ∧ Uint64 (take 8 (drop 8 data)) = Some b ∧ drop 16 data = rest.
Proof.
  intros Ha Hb data. subst data.
  assert (∀ z, length (PutUint64 z) = 8%nat) as HL by (intros; apply le_split_length).
  rewrite (take_app_length' (PutUint64 a)) by done. rewrite (drop_app_length' (PutUint64 a)) by done.
  rewrite (take_app_length' (PutUint64 b)) by done.
  rewrite <- (app_nil_r (PutUint64 a)) at 1. rewrite <- (app_nil_r (PutUint64 b)) at 1.
  rewrite !Uint64_PutUint64 by done. split_and!; [done..|].
  rewrite app_assoc. apply drop_app_length'. by rewrite length_app, !HL.
Qed.

(** ** Properties *)

Section Sized.
Context `{Sizing}.
(** What [NewBloomFilter] needs of the sizing formulas: a positive bit
    count that the word computation can round up without wrapping. *)
Hypothesis sizing_ok : ∀ n fp, 1 ≤ n → (0 < fp < 1)%Q →
  0 < optimalM n fp ≤ two64 - 64 ∧ 0 ≤ optimalK (optimalM n fp) n < two64.

Lemma NewBloomFilter_wf n fp : wf (NewBloomFilter n fp).
Proof using sizing_ok.
  unfold NewBloomFilter.
  set (n' := if n <? 1 then 1 else n).
  set (fp' := if Qle_bool fp 0 || Qle_bool 1 fp then (1 # 100)%Q else fp).
  assert (1 ≤ n') by (subst n'; destruct (Z.ltb_spec n 1); lia).
  assert (0 < fp' < 1)%Q as Hfp.
  { subst fp'. destruct (Qle_bool fp 0) eqn:E0; [cbn; split; reflexivity|].
    destruct (Qle_bool 1 fp) eqn:E1; [cbn; split; reflexivity|]. cbn [orb].
    split; apply Qnot_le_lt; intros Hle%Qle_bool_iff; congruence. }
  destruct (sizing_ok n' fp') as [Hm Hk]; [done..|].
  assert (0 ≤ (optimalM n' fp' + 63) / 64) by (apply Z.div_pos; lia).
  constructor; cbn; [done|done| |].
  - rewrite length_replicate, words_for_eq by done. lia.
  - apply Forall_replicate. unfold two64. lia.
Qed.

(**  the filter never forgets.  Whatever the size asked for, and after
    adding any sequence of keys to a new filter, no operation panics and
    [MayContain] answers true for every key that was added. *)
Theorem BloomFilter_no_false_negatives (n : Z) (fp : Q) (keys : list string) (key : string) :
  key ∈ keys →
  ∃ bf, AddAll (NewBloomFilter n fp) keys = Some bf ∧ MayContain bf key = Some true.
Proof using sizing_ok.
  intros Hk. pose proof (NewBloomFilter_wf n fp) as Hwf0.
  destruct (AddAll_spec keys _ Hwf0) as (bf & E & Hwf & Em & Ek & Hb).
  exists bf. split; [done|]. destruct (MayContain_spec bf key Hwf) as (b & -> & Hb').
  f_equal. apply Hb'. intros p Hp. pose proof (probes_nonneg _ _ _ Hwf Hp).
  apply Hb; [done|]. right. exists key. split; [done|]. by rewrite <- (probes_same _ bf).
Qed.
End Sized.

Definition daemon_sizing : Sizing := {| optimalM := λ _ _, 95851; optimalK := λ _ _, 7 |}.

Lemma BloomFilter_no_false_negatives_witness :
  ∃ bf, AddAll (@NewBloomFilter daemon_sizing 10000 (1 # 100)) ["/r/.siren/outbox/a.md"; "b"] = Some bf ∧
        MayContain bf "b" = Some true.
Proof.
  apply (@BloomFilter_no_false_negatives daemon_sizing).
  - intros n fp _ _. unfold two64. cbn. lia.
  - right. left.
Defined.

Lemma marshal_length bf : length (MarshalBinary bf) = (16 + 8 * length (bf_bits bf))%nat.
Proof. unfold MarshalBinary. rewrite !length_app, marshal_words_length. unfold PutUint64. rewrite !le_split_length. lia. Qed.

Lemma unmarshal_marshal bf :
  wf bf → Z.of_nat (length (MarshalBinary bf)) < two64 → UnmarshalBloomFilter (MarshalBinary bf) = Some (Ok bf).
Proof.
  intros [Hm Hk Hl Hw] Hlen. unfold UnmarshalBloomFilter.
  destruct (header_words (bf_m bf) (bf_numHash bf) (mjoin (PutUint64 <$> bf_bits bf)))
    as (E1 & E2 & E3); [unfold two64 in *; lia|done|].
  fold (MarshalBinary bf) in E1, E2, E3. rewrite E1, E2, E3. pose proof (marshal_length bf) as HL.
  destruct (Nat.ltb_spec (length (MarshalBinary bf)) 16); [lia|]. cbn [mbind option_bind].
  rewrite words_for_eq, <- Hl by done.
  rewrite (u64_id (_ * 8)) by (unfold two64 in *; lia). rewrite u64_id by lia.
  destruct (Z.ltb_spec (Z.of_nat (length (MarshalBinary bf)))
    (16 + Z.of_nat (length (bf_bits bf)) * 8)); [lia|].
  rewrite Nat2Z.id, read_words_Put by done. cbn [mbind option_bind]. by destruct bf.
Qed.

(** A file that was cut short is refused. *)
Lemma unmarshal_cut bf n :
  wf bf → Z.of_nat (length (MarshalBinary bf)) < two64 → (n < length (MarshalBinary bf))%nat →
  UnmarshalBloomFilter (take n (MarshalBinary bf)) = Some (Err errBloomCorrupt).
Proof.
  intros [Hm Hk Hl Hw] Hlen Hn. unfold UnmarshalBloomFilter. rewrite length_take.
  destruct (Nat.ltb_spec (n `min` length (MarshalBinary bf)) 16) as [|H16]; [done|].
  destruct (header_words (bf_m bf) (bf_numHash bf) (mjoin (PutUint64 <$> bf_bits bf)))
    as (E1 & E2 & E3); [unfold two64 in *; lia|done|].
  fold (MarshalBinary bf) in E1, E2, E3. pose proof (marshal_length bf) as HL.
  rewrite take_take, (Nat.min_l 8 n) by lia. rewrite (skipn_firstn_comm 8 n), take_take, (Nat.min_l 8 (n - 8)) by lia.
  rewrite E1, E2. cbn [mbind option_bind].
  rewrite words_for_eq, <- Hl by done.
  rewrite (u64_id (_ * 8)) by (unfold two64 in *; lia). rewrite u64_id by lia.
  destruct (Z.ltb_spec (Z.of_nat (n `min` length (MarshalBinary bf)))
    (16 + Z.of_nat (length (bf_bits bf)) * 8)); [done|lia].
Qed.

(**  [UnmarshalBloomFilter] undoes [MarshalBinary] on every well-formed
    filter, so the answers a daemon gives after a restart are those it gave
    before; and it is total: on no input does reading the words panic. *)
Theorem BloomFilter_roundtrip (bf : BloomFilter) (data : bytes) :
  wf bf → Z.of_nat (length (MarshalBinary bf)) < two64 → Z.of_nat (length data) < two63 →
  UnmarshalBloomFilter (MarshalBinary bf) = Some (Ok bf) ∧
  is_Some (UnmarshalBloomFilter data).
Proof.
  intros Hbf Hlen Hdata. split; [by apply unmarshal_marshal|].
  unfold UnmarshalBloomFilter. destruct (Nat.ltb_spec (length data) 16); [by eexists|].
    destruct (Uint64_total (take 8 data)) as [m ->]; [rewrite length_take; lia|].
    destruct (Uint64_total (take 8 (drop 8 data))) as [k ->]; [rewrite length_take, length_drop; lia|].
    cbn [mbind option_bind].
    pose proof (words_for_bound m). cbv zeta.
    rewrite (u64_id (words_for m * 8)), u64_id by (unfold two64; lia).
    destruct (Z.ltb_spec (Z.of_nat (length data)) (16 + words_for m * 8)); [by eexists|].
    destruct (read_words_total (Z.to_nat (words_for m)) (drop 16 data)) as [ws ->];
      [rewrite length_drop; lia|]. by eexists.
Qed.

Lemma BloomFilter_roundtrip_witness :
  UnmarshalBloomFilter (MarshalBinary (mkBloom [5; 7] 3 100)) = Some (Ok (mkBloom [5; 7] 3 100)) ∧
  is_Some (UnmarshalBloomFilter []).
Proof.
  apply BloomFilter_roundtrip; [|vm_compute; reflexivity|vm_compute; reflexivity].
  constructor; cbn; [unfold two64; lia|unfold two64; lia|reflexivity|].
  repeat constructor; unfold two64; lia.
Defined.

(**  [UnmarshalBloomFilter] does not validate the bit count.  A 16-byte
    file whose bit count is zero, or one whose bit count wraps the word
    computation to zero, is accepted, and the first [MayContain] or [Add] on
    the loaded filter panics. *)
Theorem UnmarshalBloomFilter_accepts_unusable (k : Z) (m : Z) (key : string) :
  m = 0 ∨ two64 - 63 ≤ m < two64 → 0 < k < two64 →
  ∃ bf, UnmarshalBloomFilter (PutUint64 m ++ PutUint64 k) = Some (Ok bf) ∧
        MayContain bf key = None ∧ Add bf key = None.
Proof.
  intros Hm Hk. assert (words_for m = 0) as Hwords.
  { unfold words_for. destruct Hm as [->|Hm]; [done|].
    rewrite u64_mod. unfold two64 in *.
    rewrite <- (Z.mod_unique (m + 63) 18446744073709551616 1 (m + 63 - 18446744073709551616)) by lia.
    apply Z.div_small. lia. }
  exists (mkBloom [] k m). split.
  - unfold UnmarshalBloomFilter.
    destruct (header_words m k []) as (E1 & E2 & E3); [unfold two64 in *; lia|lia|].
    rewrite app_nil_r in E1, E2, E3. rewrite E1, E2, E3. cbn [mbind option_bind].
    rewrite length_app. unfold PutUint64. rewrite !le_split_length. by rewrite Hwords.
  - unfold MayContain, Add. destruct (hash (raw key)) as [h1 h2]. cbn [bf_numHash bf_m bf_bits].
    destruct (Z.to_nat k) as [|n] eqn:E; [lia|]. cbn [may_loop add_loop].
    by destruct (probe h1 h2 m 0).
Qed.

Lemma UnmarshalBloomFilter_accepts_unusable_witness :
  ∃ bf, UnmarshalBloomFilter (PutUint64 0 ++ PutUint64 7) = Some (Ok bf) ∧
        MayContain bf "a.md" = None ∧ Add bf "a.md" = None.
Proof. apply UnmarshalBloomFilter_accepts_unusable; [by left|unfold two64; lia]. Defined.
