(* ===== verification/Provider.v ===== *)
(** * Provider state and retry pacing

    Models [domain/provider_state.go] (the provider-state vocabulary, its
    snapshot and metadata, and [RetryBudgetTracker]) and
    [domain/retry_backoff.go] ([RetryBackoff]).  Durations are int64
    nanoseconds with their wrap-around; the random draw of [Next] is an
    argument, constrained to the range [rand.Int64N] documents. *)
From S2P Require Import Prelude GoStrings GoTime.

#[local] Open Scope Z_scope.

(** ** Provider state *)

Abbreviation ProviderState := string (only parsing).
Definition ProviderStateActive : ProviderState := "active".
Definition ProviderStateWaiting : ProviderState := "waiting".
Definition ProviderStateDegraded : ProviderState := "degraded".
Definition ProviderStatePaused : ProviderState := "paused".

Definition ProviderReasonProbe : string := "probe".
Definition ProviderReasonRateLimit : string := "rate_limit".
Definition ProviderReasonServerError : string := "server_error".
Definition ProviderReasonDeliveryRetryBackoff : string := "delivery_retry_backoff".

Definition ResumeConditionProviderAvailable : string := "provider-available".
Definition ResumeConditionBackoffElapses : string := "backoff-elapses".
Definition ResumeConditionProviderReset : string := "provider-reset-window".
Definition ResumeConditionProbeSucceeds : string := "probe-succeeds".

Definition MetadataProviderState : string := "provider_state".
Definition MetadataProviderReason : string := "provider_reason".
Definition MetadataProviderRetryBudget : string := "provider_retry_budget".
Definition MetadataProviderResumeAt : string := "provider_resume_at".
Definition MetadataProviderResumeWhen : string := "provider_resume_when".

Record ProviderStateSnapshot := mkSnapshot {
  ps_State : ProviderState;
  ps_Reason : string;
  ps_RetryBudget : Z;
  ps_ResumeAt : Time;
  ps_ResumeCondition : string }.

#[export] Instance ProviderStateSnapshot_eq_dec : EqDecision ProviderStateSnapshot.
Proof. solve_decision. Defined.

(** The shape shared by the vocabulary normalizers of the domain: the
    canonical spelling of a value that matches a known word up to case, and
    the value itself otherwise. *)
Definition normalize_word (known : list string) (s : string) : string :=
  let l := ToLower s in if bool_decide (l ∈ known) then l else s.

Definition provider_states : list ProviderState :=
  [ProviderStateActive; ProviderStateWaiting; ProviderStateDegraded; ProviderStatePaused].

Definition NormalizeProviderState (state : ProviderState) : ProviderState :=
  normalize_word provider_states state.
Definition IsKnownProviderState (state : ProviderState) : bool :=
  bool_decide (NormalizeProviderState state ∈ provider_states).

Definition ActiveProviderState : ProviderStateSnapshot :=
  mkSnapshot ProviderStateActive "" 1 0 ResumeConditionProviderAvailable.

(** [if cond { cp[k] = v }] *)
Definition set_if (b : bool) (k v : string) (m : gmap string string) : gmap string string :=
  if b then <[k := v]> m else m.
Definition nonempty (s : string) : bool := negb (bool_decide (s = "")).

Definition ApplyMetadata (s : ProviderStateSnapshot) (meta : gmap string string) : gmap string string :=
  let state := if bool_decide (ps_State s = "") then ProviderStateActive
               else NormalizeProviderState (ps_State s) in
  let cp := <[MetadataProviderState := state]> meta in
  let cp := <[MetadataProviderRetryBudget := Itoa (ps_RetryBudget s)]> cp in
  let cp := set_if (nonempty (ps_Reason s)) MetadataProviderReason (ps_Reason s) cp in
  let cp := set_if (negb (IsZero (ps_ResumeAt s))) MetadataProviderResumeAt
                   (format_rfc3339 (ps_ResumeAt s)) cp in
  set_if (nonempty (ps_ResumeCondition s)) MetadataProviderResumeWhen (ps_ResumeCondition s) cp.

(** ** Retry budget *)

Record RetryBudgetTracker := mkTracker { rb_initial : Z; rb_consumed : Z }.

Definition NewRetryBudgetTracker (initial : Z) : RetryBudgetTracker :=
  mkTracker (if initial <? 0 then 0 else initial) 0.
Definition Consume (t : RetryBudgetTracker) : bool * RetryBudgetTracker :=
  if rb_initial t <=? rb_consumed t then (false, t)
  else (true, mkTracker (rb_initial t) (i64 (rb_consumed t + 1))).
Definition Remaining (t : RetryBudgetTracker) : Z :=
  let r := i64 (rb_initial t - rb_consumed t) in if r <? 0 then 0 else r.
Definition Exhausted (t : RetryBudgetTracker) : bool := rb_initial t <=? rb_consumed t.
Definition Tracker_Reset (t : RetryBudgetTracker) (initial : Z) : RetryBudgetTracker :=
  mkTracker (if initial <? 0 then 0 else initial) 0.
Definition Tracker_Snapshot (t : RetryBudgetTracker) : Z := Remaining t.

(** ** Retry backoff *)

Record RetryBackoff := mkBackoff { rt_base : Duration; rt_max : Duration; rt_current : Duration }.

Definition NewRetryBackoff (base max : Duration) : RetryBackoff := mkBackoff base max base.

(** The bound passed to [rand.Int64N], which panics unless it is positive. *)
Definition jitter_bound (b : RetryBackoff) : Z := i64 (i64 (Z.quot (rt_current b) 4 * 2) + 1).

(** [Next], for the draw [r] of [rand.Int64N]; [None] is its panic. *)
Definition Next (b : RetryBackoff) (r : Z) : option Duration :=
  let quarter := Z.quot (rt_current b) 4 in
  if jitter_bound b <=? 0 then None
  else Some (i64 (rt_current b + i64 (r - quarter))).

Definition Backoff_RecordSuccess (b : RetryBackoff) : RetryBackoff :=
  mkBackoff (rt_base b) (rt_max b) (rt_base b).

Definition Backoff_RecordFailure (b : RetryBackoff) : RetryBackoff :=
  let current := i64 (rt_current b * 2) in
  mkBackoff (rt_base b) (rt_max b) (if rt_max b <? current then rt_max b else current).

Definition Backoff_Snapshot (b : RetryBackoff) : ProviderStateSnapshot :=
  if rt_current b <=? rt_base b then ActiveProviderState
  else mkSnapshot ProviderStateWaiting ProviderReasonDeliveryRetryBackoff 1 0
                  ResumeConditionBackoffElapses.

(** ** Lemmas *)

Lemma normalize_word_known known s :
  normalize_word known s ∈ known ∨ normalize_word known s = s.
Proof. unfold normalize_word. case_bool_decide; auto. Qed.

(** Known words must be in lower case for the normalizers to be idempotent. *)
Lemma normalize_word_idem known s :
  Forall (λ k, ToLower k = k) known →
  normalize_word known (normalize_word known s) = normalize_word known s.
Proof.
  intros Hk. unfold normalize_word. repeat case_bool_decide; try done.
  rewrite Forall_forall in Hk. auto.
Qed.

Lemma normalize_word_empty known s :
  "" ∉ known → ToLower "" = "" → normalize_word known s = "" ↔ s = "".
Proof.
  intros Hk HE. unfold normalize_word. case_bool_decide as E; [|done].
  split; [intros Hs; by rewrite Hs in E|]. intros ->. by rewrite HE in E.
Qed.

Lemma nonempty_spec s : nonempty s = true ↔ s ≠ "".
Proof. unfold nonempty. case_bool_decide; cbn; naive_solver. Qed.

Lemma lookup_set_if b k v m j :
  set_if b k v m !! j = if b && bool_decide (k = j) then Some v else m !! j.
Proof.
  unfold set_if. destruct b; cbn [andb]; [|done].
  case_bool_decide; subst; [by rewrite lookup_insert_eq|by rewrite lookup_insert_ne].
Qed.

(** *** Budget *)

Definition budget_ok (t : RetryBudgetTracker) : Prop :=
  0 ≤ rb_consumed t ≤ rb_initial t ∧ rb_initial t < two63.

Fixpoint consume_n (n : nat) (t : RetryBudgetTracker) : list bool * RetryBudgetTracker :=
  match n with
  | O => ([], t)
  | S n' => let '(b, t1) := Consume t in let '(bs, t2) := consume_n n' t1 in (b :: bs, t2)
  end.

Lemma Remaining_eq t : budget_ok t → Remaining t = rb_initial t - rb_consumed t.
Proof.
  unfold budget_ok, Remaining. intros [H1 H2].
  rewrite i64_id by (unfold two63 in *; lia). destruct (Z.ltb_spec (rb_initial t - rb_consumed t) 0); lia.
Qed.

Lemma Consume_spec t :
  budget_ok t →
  let '(b, t') := Consume t in
  budget_ok t' ∧ rb_initial t' = rb_initial t ∧
  (if 0 <? Remaining t then b = true ∧ rb_consumed t' = rb_consumed t + 1 else b = false ∧ t' = t).
Proof.
  intros Hok. rewrite Remaining_eq by done. destruct Hok as [H1 H2]. unfold Consume.
  destruct (Z.leb_spec (rb_initial t) (rb_consumed t)).
  - rewrite (proj2 (Z.ltb_ge 0 _)) by lia. unfold budget_ok; split_and!; done || lia.
  - rewrite (proj2 (Z.ltb_lt 0 _)) by lia. unfold budget_ok. cbn.
    rewrite i64_id by (unfold two63 in *; lia). split_and!; try done; lia.
Qed.

Lemma consume_n_spec n : ∀ t, budget_ok t →
  let '(bs, t') := consume_n n t in
  bs = replicate (Nat.min n (Z.to_nat (Remaining t))) true ++
       replicate (n - Z.to_nat (Remaining t)) false ∧
  Remaining t' = Z.max 0 (Remaining t - Z.of_nat n) ∧
  Exhausted t' = (Remaining t' =? 0).
Proof.
  induction n as [|n IH]; intros t Hok; cbn [consume_n].
  - rewrite !Remaining_eq by done. unfold Exhausted. destruct Hok as [H1 H2].
    split_and!; [done|lia|]. apply eq_true_iff_eq. rewrite Z.leb_le, Z.eqb_eq. lia.
  - pose proof (Consume_spec _ Hok) as HC. destruct (Consume t) as [b t1].
    destruct HC as (Hok1 & Hi & HC). specialize (IH t1 Hok1).
    destruct (consume_n n t1) as [bs t2]. destruct IH as (-> & -> & ->).
    rewrite !Remaining_eq in * by done.
    destruct (Z.ltb_spec 0 (rb_initial t - rb_consumed t)); destruct HC as [-> HC].
    + rewrite Hi, HC.
      replace (Z.to_nat (rb_initial t - rb_consumed t))
        with (S (Z.to_nat (rb_initial t - (rb_consumed t + 1)))) by lia.
      split_and!; [done|lia|done].
    + subst t1. destruct Hok as [[??]?].
      replace (Z.to_nat (rb_initial t - rb_consumed t)) with 0%nat by lia.
      rewrite !Nat.min_0_r, !Nat.sub_0_r. split_and!; [done|lia|done].
Qed.

(** *** Backoff *)

(** The pacing invariant: the interval stays between base and cap, and the
    cap leaves room for doubling and jitter. *)
Definition backoff_ok (b : RetryBackoff) : Prop :=
  0 < rt_base b ≤ rt_current b ∧ rt_current b ≤ rt_max b ∧ rt_max b * 2 < two63.

Lemma RecordFailure_eq b :
  backoff_ok b →
  Backoff_RecordFailure b = mkBackoff (rt_base b) (rt_max b) (Z.min (rt_max b) (2 * rt_current b)).
Proof.
  intros (H1 & H2 & H3). unfold Backoff_RecordFailure.
  rewrite i64_id by (unfold two63 in *; lia). f_equal.
  destruct (Z.ltb_spec (rt_max b) (rt_current b * 2)); lia.
Qed.

Lemma RecordFailure_ok b : backoff_ok b → backoff_ok (Backoff_RecordFailure b).
Proof.
  intros Hok. rewrite RecordFailure_eq by done. destruct Hok as (H1 & H2 & H3).
  unfold backoff_ok. cbn. lia.
Qed.

Lemma RecordSuccess_ok b : backoff_ok b → backoff_ok (Backoff_RecordSuccess b).
Proof. intros (H1 & H2 & H3). unfold backoff_ok, Backoff_RecordSuccess. cbn. lia. Qed.

Lemma iter_RecordFailure b n :
  backoff_ok b →
  Nat.iter n Backoff_RecordFailure b
  = mkBackoff (rt_base b) (rt_max b) (Z.min (rt_max b) (2 ^ Z.of_nat n * rt_current b)).
Proof.
  intros Hok. induction n as [|n IH].
  - cbn [Nat.iter nat_rect]. destruct Hok as (H1 & H2 & H3), b; cbn in *. f_equal. lia.
  - change (Nat.iter (S n) Backoff_RecordFailure b)
      with (Backoff_RecordFailure (Nat.iter n Backoff_RecordFailure b)).
    assert (0 < 2 ^ Z.of_nat n) by (apply Z.pow_pos_nonneg; lia).
    destruct Hok as (H1 & H2 & H3).
    rewrite RecordFailure_eq, IH; cbn [rt_base rt_max rt_current].
    + f_equal. rewrite Nat2Z.inj_succ, Z.pow_succ_r by lia. lia.
    + rewrite IH. unfold backoff_ok; cbn. nia.
Qed.

Lemma jitter_bound_eq b : backoff_ok b → jitter_bound b = Z.quot (rt_current b) 4 * 2 + 1.
Proof.
  intros (H1 & H2 & H3). unfold jitter_bound.
  pose proof (Z.quot_le_upper_bound (rt_current b) 4 (rt_current b)). pose proof (Z.quot_pos (rt_current b) 4).
  rewrite (i64_id (_ * 2)), i64_id; unfold two63 in *; lia.
Qed.
Lemma jitter_bound_pos b : backoff_ok b → 0 < jitter_bound b.
Proof.
  intros Hok. rewrite jitter_bound_eq by done. destruct Hok as (H1 & H2 & H3).
  pose proof (Z.quot_pos (rt_current b) 4). lia.
Qed.

(** The delay of [Next] is within a quarter of the interval. *)
Lemma Next_bounds b r :
  backoff_ok b → 0 ≤ r < jitter_bound b →
  ∃ d, Next b r = Some d ∧ 3 * rt_current b ≤ 4 * d ≤ 5 * rt_current b.
Proof.
  intros Hok Hr. pose proof (jitter_bound_pos b Hok). unfold Next.
  destruct (Z.leb_spec (jitter_bound b) 0); [lia|]. rewrite jitter_bound_eq in Hr by done.
  destruct Hok as (H1 & H2 & H3).
  pose proof (Z.quot_rem' (rt_current b) 4). pose proof (Z.rem_bound_pos (rt_current b) 4).
  pose proof (Z.quot_pos (rt_current b) 4).
  eexists. split; [done|]. rewrite (i64_id (r - _)), i64_id; unfold two63 in *; lia.
Qed.

(** ** Properties *)

(**  pacing of the retry loop.  From a new backoff with a positive base
    and a cap that can be doubled in an int64, after [n] consecutive failures
    the interval is exactly [min(max, base * 2^n)]; [Next] never panics and
    stays within 25% of the interval; and one success restores the base. *)
Theorem RetryBackoff_pacing (base max : Duration) (n : nat) (r : Z) :
  0 < base ≤ max → max * 2 < two63 →
  let b := Nat.iter n Backoff_RecordFailure (NewRetryBackoff base max) in
  rt_current b = Z.min max (2 ^ Z.of_nat n * base) ∧
  Backoff_RecordSuccess b = NewRetryBackoff base max ∧
  (0 ≤ r < jitter_bound b →
   ∃ d, Next b r = Some d ∧ 3 * rt_current b ≤ 4 * d ≤ 5 * rt_current b).
Proof.
  intros Hb Hm b. assert (backoff_ok (NewRetryBackoff base max)) as Hok
    by (unfold backoff_ok, NewRetryBackoff; cbn; lia).
  subst b. rewrite iter_RecordFailure by done. cbn [rt_base rt_max rt_current NewRetryBackoff].
  split; [done|]. split; [done|].
  assert (0 < 2 ^ Z.of_nat n) by (apply Z.pow_pos_nonneg; lia).
  intros Hr. apply (Next_bounds (mkBackoff base max (Z.min max (2 ^ Z.of_nat n * base)))); [|done].
  unfold backoff_ok. cbn [rt_base rt_max rt_current]. nia.
Qed.

Lemma RetryBackoff_pacing_witness :
  let b := Nat.iter 3 Backoff_RecordFailure (NewRetryBackoff 60 1920) in
  rt_current b = 480 ∧ Backoff_RecordSuccess b = NewRetryBackoff 60 1920.
Proof.
  destruct (RetryBackoff_pacing 60 1920 3 0) as (H1 & H2 & _); [lia|unfold two63; lia|].
  split; [exact H1|exact H2].
Defined.

(**  the retry budget.  From a new tracker with a budget that fits an int,
    exactly the first [initial] of any number of [Consume] calls succeed, in
    that order; [Remaining] counts down to zero and never below, and
    [Exhausted] holds exactly when nothing remains. *)
Theorem RetryBudget_exact (initial : Z) (n : nat) :
  initial < two63 →
  let '(bs, t) := consume_n n (NewRetryBudgetTracker initial) in
  bs = replicate (Nat.min n (Z.to_nat initial)) true ++ replicate (n - Z.to_nat initial) false ∧
  Remaining t = Z.max 0 (Z.max 0 initial - Z.of_nat n) ∧
  Exhausted t = (Remaining t =? 0).
Proof.
  intros Hi. unfold NewRetryBudgetTracker.
  set (t0 := mkTracker _ _).
  assert (budget_ok t0) as Hok.
  { unfold budget_ok. subst t0; cbn. unfold two63 in *. destruct (Z.ltb_spec initial 0); lia. }
  assert (Remaining t0 = Z.max 0 initial) as HR.
  { rewrite Remaining_eq by done. subst t0; cbn. destruct (Z.ltb_spec initial 0); lia. }
  pose proof (consume_n_spec n t0 Hok) as H. rewrite HR in H.
  replace (Z.to_nat (Z.max 0 initial)) with (Z.to_nat initial) in H by lia.
  exact H.
Qed.

Lemma RetryBudget_exact_witness :
  fst (consume_n 4 (NewRetryBudgetTracker 2)) = [true; true; false; false].
Proof. exact (proj1 (RetryBudget_exact 2 4 eq_refl)). Defined.
