(* ===== verification/Breaker.v ===== *)
(** * The delivery circuit breaker

    Models [platform/circuit_breaker.go] with [domain/delivery_error.go] and
    [session/classify_delivery_error.go].  The breaker's fields are a record
    (its mutex makes every method atomic); the notify channel is a generation
    number that [stateChanged] bumps.  [Allow] is one loop iteration
    ([allow_check]) repeated over a script of wake-ups: the clock readings of
    each iteration, how its [select] ended, and what other goroutines did to
    the breaker meanwhile. *)
From S2P Require Import Prelude GoStrings GoTime Provider.

#[local] Open Scope Z_scope.

Inductive DeliveryErrorKind := DeliveryErrorNone | DeliveryErrorTransient | DeliveryErrorPersistent.
#[export] Instance DeliveryErrorKind_eq_dec : EqDecision DeliveryErrorKind.
Proof. solve_decision. Defined.

Record DeliveryErrorInfo := mkErrInfo {
  de_Kind : DeliveryErrorKind;
  de_ResetAt : Time;
  de_Err : option error }.

Definition IsTrip (i : DeliveryErrorInfo) : bool := bool_decide (de_Kind i = DeliveryErrorTransient).

Definition ClassifyDeliveryError (err : option error) : DeliveryErrorInfo :=
  match err with
  | None => mkErrInfo DeliveryErrorNone 0 None
  | Some e =>
      let errMsg := err_msg e in
      if Contains errMsg "parse D-Mail" || Contains errMsg "unsupported dmail-schema-version"
         || Contains errMsg "missing required"
      then mkErrInfo DeliveryErrorPersistent 0 err
      else if errors_Is e ErrPermission || errors_Is e ErrNotExist
              || Contains errMsg "no space left" || Contains errMsg "read-only file system"
      then mkErrInfo DeliveryErrorTransient 0 err
      else mkErrInfo DeliveryErrorTransient 0 err
  end.

Inductive circuitState := circuitClosed | circuitOpen | circuitHalfOpen.
#[export] Instance circuitState_eq_dec : EqDecision circuitState.
Proof. solve_decision. Defined.

Definition defaultBackoffBase : Duration := 30 * Second.
Definition defaultBackoffMax : Duration := 10 * Minute.

Record CircuitBreaker := mkCB {
  cb_state : circuitState;
  cb_resetAt : Time;
  cb_backoffCurrent : Duration;
  cb_tripped : Z;
  cb_lastTrip : Time;
  cb_lastReason : string;
  cb_notify : nat }.

Definition NewCircuitBreaker : CircuitBreaker :=
  mkCB circuitClosed 0 defaultBackoffBase 0 0 "" 0.

Definition set_state (s : circuitState) (cb : CircuitBreaker) : CircuitBreaker :=
  mkCB s (cb_resetAt cb) (cb_backoffCurrent cb) (cb_tripped cb) (cb_lastTrip cb) (cb_lastReason cb)
       (cb_notify cb).

Definition deliveryPauseReason (kind : DeliveryErrorKind) : string :=
  match kind with
  | DeliveryErrorTransient => ProviderReasonDeliveryRetryBackoff
  | _ => "delivery_error"
  end.

Definition RecordDeliveryError (now : Time) (info : DeliveryErrorInfo) (cb : CircuitBreaker)
    : CircuitBreaker :=
  if negb (IsTrip info) then cb else
  let backoff := i64 (cb_backoffCurrent cb * 2) in
  mkCB circuitOpen (de_ResetAt info)
       (if defaultBackoffMax <? backoff then defaultBackoffMax else backoff)
       (i64 (cb_tripped cb + 1)) now (deliveryPauseReason (de_Kind info)) (S (cb_notify cb)).

Definition RecordSuccess (cb : CircuitBreaker) : CircuitBreaker :=
  let cb := match cb_state cb with
            | circuitClosed => cb
            | _ => mkCB (cb_state cb) (cb_resetAt cb) defaultBackoffBase (cb_tripped cb)
                        (cb_lastTrip cb) (cb_lastReason cb) (S (cb_notify cb))
            end in
  mkCB circuitClosed 0 (cb_backoffCurrent cb) (cb_tripped cb) (cb_lastTrip cb) "" (cb_notify cb).

Definition IsOpen (cb : CircuitBreaker) : bool := bool_decide (cb_state cb = circuitOpen).

Definition CB_Snapshot (cb : CircuitBreaker) : ProviderStateSnapshot :=
  match cb_state cb with
  | circuitClosed => ActiveProviderState
  | circuitHalfOpen =>
      mkSnapshot ProviderStateDegraded ProviderReasonProbe 1 0 ResumeConditionProbeSucceeds
  | circuitOpen =>
      if negb (IsZero (cb_resetAt cb))
      then mkSnapshot ProviderStatePaused (cb_lastReason cb) 0 (cb_resetAt cb) ResumeConditionProviderReset
      else mkSnapshot ProviderStateWaiting (cb_lastReason cb) 0 0 ResumeConditionBackoffElapses
  end.

(** ** Allow *)

(** One iteration under the lock: [now1] is the reading the checks use,
    [now2] the later one the wait uses. *)
Inductive allow_outcome :=
  | AllowNil (cb : CircuitBreaker)
  | AllowWait (d : Duration) (notifyCh : nat).

Definition allow_check (cb : CircuitBreaker) (now1 now2 : Time) : allow_outcome :=
  match cb_state cb with
  | circuitClosed | circuitHalfOpen => AllowNil cb
  | circuitOpen =>
      if negb (IsZero (cb_resetAt cb)) && (cb_resetAt cb <? now1)
      then AllowNil (set_state circuitHalfOpen cb)
      else if IsZero (cb_resetAt cb) && (cb_backoffCurrent cb <? now1 - cb_lastTrip cb)
      then AllowNil (set_state circuitHalfOpen cb)
      else
        let waitDur := if negb (IsZero (cb_resetAt cb)) then cb_resetAt cb - now2
                       else cb_backoffCurrent cb - (now2 - cb_lastTrip cb) in
        AllowWait (if waitDur <=? 0 then Second else waitDur) (cb_notify cb)
  end.

Inductive wake := WakeCtx | WakeTimer | WakeNotify.

(** What other goroutines may do to the breaker. *)
Inductive cb_op :=
  | OpError (now : Time) (info : DeliveryErrorInfo)
  | OpSuccess
  | OpProbe (now1 now2 : Time).

Definition cb_apply (cb : CircuitBreaker) (op : cb_op) : CircuitBreaker :=
  match op with
  | OpError now info => RecordDeliveryError now info cb
  | OpSuccess => RecordSuccess cb
  | OpProbe now1 now2 => match allow_check cb now1 now2 with AllowNil cb' => cb' | AllowWait _ _ => cb end
  end.

Record iteration := mkIter {
  it_ctx_done : bool;       (* ctx.Err() != nil at the head of the loop *)
  it_now1 : Time; it_now2 : Time;
  it_wake : wake;
  it_others : list cb_op }.

(** [Allow] over a script; [None]: the script ended while it was waiting. *)
Fixpoint Allow (script : list iteration) (cb : CircuitBreaker) : option (option error * CircuitBreaker) :=
  match script with
  | [] => None
  | it :: rest =>
      let ctxErr := mkErr "context canceled" [ErrContext] in
      if it_ctx_done it then Some (Some ctxErr, cb)
      else match allow_check cb (it_now1 it) (it_now2 it) with
           | AllowNil cb' => Some (None, cb')
           | AllowWait _ _ =>
               let cb' := fold_left cb_apply (it_others it) cb in
               match it_wake it with
               | WakeCtx => Some (Some ctxErr, cb')
               | WakeTimer | WakeNotify => Allow rest cb'
               end
           end
  end.

(** ** Invariant *)

(** The backoff is between its bounds, and a closed breaker has forgotten its
    past failures. *)
Definition cb_ok (cb : CircuitBreaker) : Prop :=
  defaultBackoffBase ≤ cb_backoffCurrent cb ≤ defaultBackoffMax ∧
  (cb_state cb = circuitClosed → cb_backoffCurrent cb = defaultBackoffBase ∧ cb_resetAt cb = 0).

Lemma NewCircuitBreaker_ok : cb_ok NewCircuitBreaker.
Proof. split; [cbn; unfold defaultBackoffBase, defaultBackoffMax, Minute, Second; lia|done]. Qed.

Lemma next_backoff cb :
  cb_ok cb →
  (if defaultBackoffMax <? i64 (cb_backoffCurrent cb * 2) then defaultBackoffMax
   else i64 (cb_backoffCurrent cb * 2)) = Z.min defaultBackoffMax (2 * cb_backoffCurrent cb).
Proof.
  intros [[H1 H2] _]. unfold defaultBackoffBase, defaultBackoffMax, Minute, Second in *.
  rewrite i64_id by (unfold two63; lia). destruct (Z.ltb_spec (10 * (60 * 1000000000)) (cb_backoffCurrent cb * 2)); lia.
Qed.

Lemma RecordDeliveryError_trip now info cb :
  cb_ok cb → IsTrip info = true →
  let cb' := RecordDeliveryError now info cb in
  cb_state cb' = circuitOpen ∧ cb_lastTrip cb' = now ∧ cb_resetAt cb' = de_ResetAt info ∧
  cb_backoffCurrent cb' = Z.min defaultBackoffMax (2 * cb_backoffCurrent cb) ∧ cb_ok cb'.
Proof.
  intros Hok Ht. unfold RecordDeliveryError. rewrite Ht. cbn [negb]. cbv zeta. rewrite next_backoff by done.
  cbn [cb_state cb_lastTrip cb_resetAt cb_backoffCurrent]. split_and!; try done.
  split; [|done]. cbn. destruct Hok as [[H1 H2] _].
  unfold defaultBackoffBase, defaultBackoffMax, Minute, Second in *. lia.
Qed.

Lemma allow_check_nil cb now1 now2 cb' :
  allow_check cb now1 now2 = AllowNil cb' →
  cb' = cb ∨ (cb_state cb = circuitOpen ∧ cb' = set_state circuitHalfOpen cb).
Proof. unfold allow_check. destruct (cb_state cb); repeat case_match; intros; simplify_eq; auto. Qed.

Lemma RecordSuccess_spec cb :
  cb_ok cb →
  RecordSuccess cb = mkCB circuitClosed 0 defaultBackoffBase (cb_tripped cb) (cb_lastTrip cb) ""
                          (if bool_decide (cb_state cb = circuitClosed) then cb_notify cb
                           else S (cb_notify cb)).
Proof.
  intros [_ Hc]. unfold RecordSuccess. destruct (cb_state cb) eqn:E; cbn; try done.
  by rewrite (proj1 (Hc eq_refl)).
Qed.

Lemma cb_apply_ok cb op : cb_ok cb → cb_ok (cb_apply cb op).
Proof.
  intros Hok. destruct op as [now info| |now1 now2]; cbn.
  - destruct (IsTrip info) eqn:Ht; [by apply RecordDeliveryError_trip|].
    unfold RecordDeliveryError. by rewrite Ht.
  - rewrite RecordSuccess_spec by done. split; [cbn|done].
    unfold defaultBackoffBase, defaultBackoffMax, Minute, Second. lia.
  - destruct (allow_check cb now1 now2) as [cb'|] eqn:E; [|done].
    apply allow_check_nil in E as [->|[_ ->]]; [done|].
    split; [by destruct Hok|done].
Qed.
#[export] Hint Resolve NewCircuitBreaker_ok cb_apply_ok : go.

Lemma cb_apply_all_ok ops cb : cb_ok cb → cb_ok (fold_left cb_apply ops cb).
Proof. revert cb. induction ops as [|op ops IH]; cbn; eauto with go. Qed.

(** Number of tripping errors in a sequence of operations without a success. *)
Fixpoint trips (ops : list cb_op) : nat :=
  match ops with
  | [] => O
  | OpError _ info :: r => if IsTrip info then S (trips r) else trips r
  | _ :: r => trips r
  end.
Definition no_success (ops : list cb_op) : bool :=
  forallb (λ op, match op with OpSuccess => false | _ => true end) ops.

Lemma backoff_after ops cb :
  cb_ok cb → no_success ops = true →
  cb_backoffCurrent (fold_left cb_apply ops cb)
  = Z.min defaultBackoffMax (2 ^ Z.of_nat (trips ops) * cb_backoffCurrent cb).
Proof.
  revert cb. induction ops as [|op ops IH]; intros cb Hok Hs; cbn [fold_left trips].
  { destruct Hok as [[??] _]. lia. }
  cbn in Hs. apply andb_true_iff in Hs as [Hop Hs].
  pose proof (cb_apply_ok cb op Hok) as Hok'. rewrite IH by done.
  destruct op as [now info| |now1 now2]; cbn [cb_apply] in *; [|done|].
  - destruct (IsTrip info) eqn:Ht.
    + destruct (RecordDeliveryError_trip now info cb Hok Ht) as (_ & _ & _ & -> & _).
      rewrite Nat2Z.inj_succ, Z.pow_succ_r by lia.
      assert (0 < 2 ^ Z.of_nat (trips ops)) by (apply Z.pow_pos_nonneg; lia).
      unfold defaultBackoffMax, Minute, Second. nia.
    + unfold RecordDeliveryError. by rewrite Ht.
  - destruct (allow_check cb now1 now2) as [cb'|] eqn:E; [|done].
    by apply allow_check_nil in E as [->|[_ ->]].
Qed.

(** ** Properties *)

(**  backoff of the breaker.  From a new breaker, after any history of
    errors, successes and probes that ends in a success, followed by any
    history [ops] with no success in it, the pause is exactly
    [min(10min, 30s * 2^trips)]; persistent errors do not count, and in
    particular the first pause is 60s and not the base of 30s. *)
Theorem CircuitBreaker_backoff (history ops : list cb_op) (now : Time) :
  no_success ops = true →
  let cb := fold_left cb_apply (history ++ OpSuccess :: ops) NewCircuitBreaker in
  cb_backoffCurrent cb = Z.min defaultBackoffMax (2 ^ Z.of_nat (trips ops) * defaultBackoffBase) ∧
  defaultBackoffBase ≤ cb_backoffCurrent cb ≤ defaultBackoffMax ∧
  (cb_state cb = circuitClosed → cb_backoffCurrent cb = defaultBackoffBase) ∧
  cb_backoffCurrent (RecordDeliveryError now (mkErrInfo DeliveryErrorTransient 0 None) NewCircuitBreaker)
    = 60 * Second.
Proof.
  intros Hs cb. subst cb. rewrite fold_left_app. cbn [fold_left cb_apply].
  pose proof (cb_apply_all_ok history _ NewCircuitBreaker_ok) as Hh.
  pose proof (cb_apply_ok _ OpSuccess Hh) as Hok. cbn [cb_apply] in Hok.
  rewrite backoff_after by done. rewrite RecordSuccess_spec in * by done. cbn [cb_backoffCurrent].
  pose proof (cb_apply_all_ok ops _ Hok) as [Hr Hc].
  pose proof (backoff_after ops _ Hok Hs) as Hb. cbn [cb_backoffCurrent] in Hb.
  rewrite Hb in Hr, Hc. split_and!; [done|lia|lia|naive_solver|done].
Qed.

Lemma CircuitBreaker_backoff_witness :
  cb_backoffCurrent (fold_left cb_apply
    [OpError 5 (mkErrInfo DeliveryErrorTransient 0 None); OpSuccess;
     OpError 9 (mkErrInfo DeliveryErrorTransient 0 None); OpProbe 9 9;
     OpError 10 (mkErrInfo DeliveryErrorPersistent 0 None);
     OpError 11 (mkErrInfo DeliveryErrorTransient 0 None)] NewCircuitBreaker) = 120 * Second.
Proof.
  exact (proj1 (CircuitBreaker_backoff
    [OpError 5 (mkErrInfo DeliveryErrorTransient 0 None)]
    [OpError 9 (mkErrInfo DeliveryErrorTransient 0 None); OpProbe 9 9;
     OpError 10 (mkErrInfo DeliveryErrorPersistent 0 None);
     OpError 11 (mkErrInfo DeliveryErrorTransient 0 None)] 0 eq_refl)).
Defined.

(** Each wait lasts at least as long as the timer asked for, and nobody else
    touches the breaker. *)
Fixpoint undisturbed (cb : CircuitBreaker) (script : list iteration) : Prop :=
  match script with
  | [] => True
  | it :: rest =>
      it_ctx_done it = false ∧ it_wake it = WakeTimer ∧ it_others it = [] ∧ it_now1 it ≤ it_now2 it ∧
      match rest, allow_check cb (it_now1 it) (it_now2 it) with
      | next :: _, AllowWait d _ => it_now2 it + d ≤ it_now1 next
      | _, _ => True
      end ∧ undisturbed cb rest
  end.

(** The instant after which an open breaker lets a probe through. *)
Definition release_at (cb : CircuitBreaker) : Time :=
  if IsZero (cb_resetAt cb) then cb_lastTrip cb + cb_backoffCurrent cb else cb_resetAt cb.

Lemma allow_check_open cb now1 now2 :
  cb_state cb = circuitOpen →
  allow_check cb now1 now2 =
    if release_at cb <? now1 then AllowNil (set_state circuitHalfOpen cb)
    else AllowWait (if release_at cb - now2 <=? 0 then Second else release_at cb - now2) (cb_notify cb).
Proof.
  intros E. unfold allow_check, release_at. rewrite E. destruct (IsZero (cb_resetAt cb)); cbn [negb andb].
  - replace (cb_backoffCurrent cb <? now1 - cb_lastTrip cb)
      with (cb_lastTrip cb + cb_backoffCurrent cb <? now1)
      by (apply eq_true_iff_eq; rewrite !Z.ltb_lt; lia).
    by replace (cb_backoffCurrent cb - (now2 - cb_lastTrip cb))
      with (cb_lastTrip cb + cb_backoffCurrent cb - now2) by lia.
  - by destruct (cb_resetAt cb <? now1).
Qed.

(**  [Allow] does not block for ever.  While nobody else touches the
    breaker and the context lives, it returns nil by its third check (the
    wait to the release time, and one more second when the timer fires at
    exactly that time), and it leaves an open breaker half-open, once a
    reading of the clock is past the release time. *)
Theorem Allow_returns (cb : CircuitBreaker) (i1 i2 i3 : iteration) :
  undisturbed cb [i1; i2; i3] →
  ∃ cb', Allow [i1; i2; i3] cb = Some (None, cb') ∧
    (cb_state cb ≠ circuitOpen → cb' = cb) ∧
    (cb_state cb = circuitOpen →
       cb' = set_state circuitHalfOpen cb ∧ ∃ it, it ∈ [i1; i2; i3] ∧ release_at cb < it_now1 it).
Proof.
  destruct i1 as [c1 a1 b1 w1 o1], i2 as [c2 a2 b2 w2 o2], i3 as [c3 a3 b3 w3 o3]. cbn.
  intros (-> & -> & -> & Hab1 & H12 & -> & -> & -> & Hab2 & H23 & -> & -> & -> & Hab3 & _).
  destruct (decide (cb_state cb = circuitOpen)) as [E|E].
  - rewrite !(allow_check_open cb) in * by done. cbn [fold_left].
    exists (set_state circuitHalfOpen cb).
    destruct (Z.ltb_spec (release_at cb) a1); [|destruct (Z.ltb_spec (release_at cb) a2)];
      [split_and!; try done; intros _; split; [done|] ..|].
    + eexists; split; [by left|done].
    + eexists; split; [by right; left|done].
    + assert (release_at cb < a3) as H3.
      { unfold Second in *. repeat match goal with
          | H : context [if ?b then _ else _] |- _ => destruct b eqn:? end; lia. }
      rewrite (proj2 (Z.ltb_lt (release_at cb) a3)) by done.
      split_and!; try done. intros _. split; [done|]. eexists; split; [by right; right; left|done].
  - exists cb. split_and!; [|done|done]. unfold allow_check. by destruct (cb_state cb).
Qed.

Lemma Allow_returns_witness :
  ∃ cb', Allow [mkIter false 10 10 WakeTimer []; mkIter false (60 * Second + 5) (60 * Second + 5) WakeTimer [];
                mkIter false (61 * Second + 5) (61 * Second + 5) WakeTimer []]
               (RecordDeliveryError 5 (mkErrInfo DeliveryErrorTransient 0 None) NewCircuitBreaker)
         = Some (None, cb') ∧ cb_state cb' = circuitHalfOpen.
Proof.
  destruct (Allow_returns (RecordDeliveryError 5 (mkErrInfo DeliveryErrorTransient 0 None) NewCircuitBreaker)
    (mkIter false 10 10 WakeTimer []) (mkIter false (60 * Second + 5) (60 * Second + 5) WakeTimer [])
    (mkIter false (61 * Second + 5) (61 * Second + 5) WakeTimer [])) as (cb' & E & _ & H).
  - repeat split; vm_compute; congruence.
  - exists cb'. split; [exact E|]. destruct (H eq_refl) as [-> _]. reflexivity.
Defined.
