(* ===== verification/Improvement.v ===== *)
(** * Improvement metadata and inbox selection

    Models [domain/improvement.go] (the correction vocabulary, the metadata
    record and its map form, routing and owner histories, inbox filters),
    [domain/routing_policy.go] and [harness/policy/delivery.go]
    ([SelectDeliveryInboxes]).  A nil slice and an empty one are both [[]];
    [*bool] is [option bool]; a Go map is a [gmap], and reading a missing key
    gives the empty string ([get]). *)
From S2P Require Import Prelude GoStrings GoPath GoTime Provider DMail.

(** ** Vocabulary *)

Abbreviation FailureType := string (only parsing).
Definition FailureTypeNone : FailureType := "none".
Definition FailureTypeExecutionFailure : FailureType := "execution_failure".
Definition FailureTypeProviderFailure : FailureType := "provider_failure".
Definition FailureTypeScopeViolation : FailureType := "scope_violation".
Definition FailureTypeMissingAcceptance : FailureType := "missing_acceptance_criteria".
Definition FailureTypeRoutingFailure : FailureType := "routing_failure".
Definition FailureTypeRecurrence : FailureType := "recurrence".

Abbreviation Severity := string (only parsing).
Definition SeverityLow : Severity := "low".
Definition SeverityMedium : Severity := "medium".
Definition SeverityHigh : Severity := "high".

Abbreviation ImprovementOutcome := string (only parsing).
Definition ImprovementOutcomePending : ImprovementOutcome := "pending".
Definition ImprovementOutcomeResolved : ImprovementOutcome := "resolved".
Definition ImprovementOutcomeEscalated : ImprovementOutcome := "escalated".
Definition ImprovementOutcomeFailedAgain : ImprovementOutcome := "failed_again".
Definition ImprovementOutcomeIgnored : ImprovementOutcome := "ignored".

Abbreviation RoutingMode := string (only parsing).
Definition RoutingModeRetry : RoutingMode := "retry".
Definition RoutingModeReroute : RoutingMode := "reroute".
Definition RoutingModeEscalate : RoutingMode := "escalate".

Definition ImprovementSchemaVersion : string := "1".

Definition MetadataFailureType : string := "failure_type".
Definition MetadataSeverity : string := "severity".
Definition MetadataSecondaryType : string := "secondary_type".
Definition MetadataTargetAgent : string := "target_agent".
Definition MetadataRoutingMode : string := "routing_mode".
Definition MetadataRoutingHistory : string := "routing_history".
Definition MetadataOwnerHistory : string := "owner_history".
Definition MetadataRecurrenceCount : string := "recurrence_count".
Definition MetadataCorrectiveAction : string := "corrective_action".
Definition MetadataRetryAllowed : string := "retry_allowed".
Definition MetadataEscalationReason : string := "escalation_reason".
Definition MetadataCorrelationID : string := "correlation_id".
Definition MetadataTraceID : string := "trace_id".
Definition MetadataOutcome : string := "outcome".
Definition MetadataImprovementSchemaVersion : string := "improvement_schema_version".

Definition severities : list Severity := [SeverityLow; SeverityMedium; SeverityHigh].
Definition routing_modes : list RoutingMode := [RoutingModeRetry; RoutingModeReroute; RoutingModeEscalate].
Definition outcomes : list ImprovementOutcome :=
  [ImprovementOutcomePending; ImprovementOutcomeResolved; ImprovementOutcomeEscalated;
   ImprovementOutcomeFailedAgain; ImprovementOutcomeIgnored].

Definition NormalizeSeverity (s : Severity) : Severity := normalize_word severities s.
Definition IsKnownSeverity (s : Severity) : bool := bool_decide (NormalizeSeverity s ∈ severities).
Definition NormalizeRoutingMode (m : RoutingMode) : RoutingMode := normalize_word routing_modes m.
Definition IsKnownRoutingMode (m : RoutingMode) : bool :=
  bool_decide (NormalizeRoutingMode m ∈ routing_modes).
Definition NormalizeImprovementOutcome (o : ImprovementOutcome) : ImprovementOutcome :=
  normalize_word outcomes o.
Definition IsKnownImprovementOutcome (o : ImprovementOutcome) : bool :=
  bool_decide (NormalizeImprovementOutcome o ∈ outcomes).

(** ** The metadata record *)

Record CorrectionMetadata := mkCorrection {
  cm_SchemaVersion : string;
  cm_FailureType : FailureType;
  cm_Severity : Severity;
  cm_SecondaryType : string;
  cm_TargetAgent : string;
  cm_RoutingMode : RoutingMode;
  cm_RoutingHistory : list string;
  cm_OwnerHistory : list string;
  cm_RecurrenceCount : Z;
  cm_CorrectiveAction : string;
  cm_RetryAllowed : option bool;
  cm_EscalationReason : string;
  cm_CorrelationID : string;
  cm_TraceID : string;
  cm_ProviderState : ProviderState;
  cm_ProviderReason : string;
  cm_ProviderRetryBudget : Z;
  cm_ProviderResumeAt : string;
  cm_ProviderResumeWhen : string;
  cm_Outcome : ImprovementOutcome }.

Definition no_metadata : CorrectionMetadata :=
  mkCorrection "" "" "" "" "" "" [] [] 0 "" None "" "" "" "" "" 0 "" "" "".

Definition IsImprovement (m : CorrectionMetadata) : bool :=
  nonempty (cm_SchemaVersion m) || nonempty (cm_FailureType m) || nonempty (cm_Severity m)
  || nonempty (cm_SecondaryType m) || nonempty (cm_TargetAgent m) || nonempty (cm_RoutingMode m)
  || (0 <? length (cm_RoutingHistory m)) || (0 <? length (cm_OwnerHistory m))
  || (0 <? cm_RecurrenceCount m)%Z || nonempty (cm_CorrectiveAction m)
  || bool_decide (is_Some (cm_RetryAllowed m)) || nonempty (cm_EscalationReason m)
  || nonempty (cm_CorrelationID m) || nonempty (cm_TraceID m) || nonempty (cm_Outcome m).

Definition ConsumerSchemaVersion (m : CorrectionMetadata) : string :=
  if nonempty (cm_SchemaVersion m) then cm_SchemaVersion m
  else if IsImprovement m then ImprovementSchemaVersion else "".

Definition HasSupportedVocabulary (m : CorrectionMetadata) : bool :=
  (negb (nonempty (cm_Severity m)) || IsKnownSeverity (cm_Severity m))
  && (negb (nonempty (cm_RoutingMode m)) || IsKnownRoutingMode (cm_RoutingMode m))
  && (negb (nonempty (cm_ProviderState m)) || IsKnownProviderState (cm_ProviderState m))
  && (negb (nonempty (cm_Outcome m)) || IsKnownImprovementOutcome (cm_Outcome m)).

(** ** Histories *)

Definition appendImprovementHistory (history : list string) (value : string) : list string :=
  let value := TrimSpace value in
  if bool_decide (value = "") then history
  else if bool_decide (last history = Some value) then history
  else history ++ [value].

Definition normalizeImprovementHistory (values : list string) : list string :=
  fold_left appendImprovementHistory values [].

Definition formatImprovementHistory (values : list string) : string :=
  match values with
  | [] => ""
  | _ => Join (normalizeImprovementHistory values) ">"
  end.

Definition parseImprovementHistory (raw : string) : list string :=
  let raw := TrimSpace raw in
  if bool_decide (raw = "") then [] else
  let delimiter := if negb (Contains raw ">") && Contains raw "," then ","%char else ">"%char in
  fold_left (λ out part, let part := TrimSpace part in
               if bool_decide (part = "") then out else appendImprovementHistory out part)
            (Split raw delimiter) [].

(** ** Map form *)

Definition get (meta : gmap string string) (k : string) : string := default "" (meta !! k).

Definition atoi_or_0 (raw : string) : Z := if nonempty raw then default 0%Z (Atoi raw) else 0%Z.

Definition CorrectionMetadataFromMap (meta : gmap string string) : CorrectionMetadata :=
  if bool_decide (meta = ∅) then no_metadata else
  let retryAllowed :=
    match meta !! MetadataRetryAllowed with
    | Some raw => if nonempty raw then ParseBool raw else None
    | None => None
    end in
  mkCorrection
    (get meta MetadataImprovementSchemaVersion)
    (get meta MetadataFailureType)
    (NormalizeSeverity (get meta MetadataSeverity))
    (get meta MetadataSecondaryType)
    (get meta MetadataTargetAgent)
    (NormalizeRoutingMode (get meta MetadataRoutingMode))
    (parseImprovementHistory (get meta MetadataRoutingHistory))
    (parseImprovementHistory (get meta MetadataOwnerHistory))
    (atoi_or_0 (get meta MetadataRecurrenceCount))
    (get meta MetadataCorrectiveAction)
    retryAllowed
    (get meta MetadataEscalationReason)
    (get meta MetadataCorrelationID)
    (get meta MetadataTraceID)
    (NormalizeProviderState (get meta MetadataProviderState))
    (get meta MetadataProviderReason)
    (atoi_or_0 (get meta MetadataProviderRetryBudget))
    (get meta MetadataProviderResumeAt)
    (get meta MetadataProviderResumeWhen)
    (NormalizeImprovementOutcome (get meta MetadataOutcome)).

Definition schema_or_default (m : CorrectionMetadata) : string :=
  if nonempty (cm_SchemaVersion m) then cm_SchemaVersion m else ImprovementSchemaVersion.

Definition set_nonempty (k v : string) (m : gmap string string) : gmap string string :=
  set_if (nonempty v) k v m.

Definition Apply (m : CorrectionMetadata) (meta : gmap string string) : gmap string string :=
  let cp := <[MetadataImprovementSchemaVersion := schema_or_default m]> meta in
  let cp := set_nonempty MetadataFailureType (cm_FailureType m) cp in
  let cp := set_if (nonempty (cm_Severity m)) MetadataSeverity (NormalizeSeverity (cm_Severity m)) cp in
  let cp := set_nonempty MetadataSecondaryType (cm_SecondaryType m) cp in
  let cp := set_nonempty MetadataTargetAgent (cm_TargetAgent m) cp in
  let cp := set_if (nonempty (cm_RoutingMode m)) MetadataRoutingMode
                   (NormalizeRoutingMode (cm_RoutingMode m)) cp in
  let cp := set_if (0 <? length (cm_RoutingHistory m)) MetadataRoutingHistory
                   (formatImprovementHistory (cm_RoutingHistory m)) cp in
  let cp := set_if (0 <? length (cm_OwnerHistory m)) MetadataOwnerHistory
                   (formatImprovementHistory (cm_OwnerHistory m)) cp in
  let cp := set_if (0 <? cm_RecurrenceCount m)%Z MetadataRecurrenceCount
                   (Itoa (cm_RecurrenceCount m)) cp in
  let cp := set_nonempty MetadataCorrectiveAction (cm_CorrectiveAction m) cp in
  let cp := match cm_RetryAllowed m with
            | Some b => <[MetadataRetryAllowed := FormatBool b]> cp
            | None => cp
            end in
  let cp := set_nonempty MetadataEscalationReason (cm_EscalationReason m) cp in
  let cp := set_nonempty MetadataCorrelationID (cm_CorrelationID m) cp in
  let cp := set_nonempty MetadataTraceID (cm_TraceID m) cp in
  let cp := set_if (nonempty (cm_ProviderState m)) MetadataProviderState
                   (NormalizeProviderState (cm_ProviderState m)) cp in
  let cp := set_nonempty MetadataProviderReason (cm_ProviderReason m) cp in
  let cp := set_if (nonempty (cm_ProviderState m) || nonempty (cm_ProviderReason m)
                    || negb (cm_ProviderRetryBudget m =? 0)%Z || nonempty (cm_ProviderResumeAt m)
                    || nonempty (cm_ProviderResumeWhen m))
                   MetadataProviderRetryBudget (Itoa (cm_ProviderRetryBudget m)) cp in
  let cp := set_nonempty MetadataProviderResumeAt (cm_ProviderResumeAt m) cp in
  let cp := set_nonempty MetadataProviderResumeWhen (cm_ProviderResumeWhen m) cp in
  set_nonempty MetadataOutcome (cm_Outcome m) cp.

Definition ForwardForRecheck (m : CorrectionMetadata) : CorrectionMetadata :=
  if negb (IsImprovement m) then m else
  mkCorrection (schema_or_default m) (cm_FailureType m) (cm_Severity m) (cm_SecondaryType m)
    "" "" (cm_RoutingHistory m) (cm_OwnerHistory m) (cm_RecurrenceCount m) (cm_CorrectiveAction m)
    (cm_RetryAllowed m) (cm_EscalationReason m) (cm_CorrelationID m) (cm_TraceID m)
    (cm_ProviderState m) (cm_ProviderReason m) (cm_ProviderRetryBudget m)
    (cm_ProviderResumeAt m) (cm_ProviderResumeWhen m)
    (if nonempty (cm_Outcome m) then cm_Outcome m else ImprovementOutcomePending).

(** The wire event has the record's fields. *)
Definition ImprovementEvent (m : CorrectionMetadata) : CorrectionMetadata :=
  mkCorrection (schema_or_default m) (cm_FailureType m) (NormalizeSeverity (cm_Severity m))
    (cm_SecondaryType m) (cm_TargetAgent m) (NormalizeRoutingMode (cm_RoutingMode m))
    (cm_RoutingHistory m) (cm_OwnerHistory m) (cm_RecurrenceCount m) (cm_CorrectiveAction m)
    (cm_RetryAllowed m) (cm_EscalationReason m) (cm_CorrelationID m) (cm_TraceID m)
    (NormalizeProviderState (cm_ProviderState m)) (cm_ProviderReason m) (cm_ProviderRetryBudget m)
    (cm_ProviderResumeAt m) (cm_ProviderResumeWhen m) (cm_Outcome m).

(** ** Routing policy *)

Record RoutingPolicy := mkPolicy {
  rp_RecurrenceThreshold : Z;
  rp_SeverityActionMap : gmap Severity string;
  rp_TargetAgentMap : gmap FailureType string }.

Definition DefaultRoutingPolicy : RoutingPolicy :=
  mkPolicy 2
    {[SeverityHigh := "escalate"; SeverityMedium := "retry"; SeverityLow := "retry"]}
    {[FailureTypeScopeViolation := "sightjack"; FailureTypeMissingAcceptance := "sightjack";
      FailureTypeExecutionFailure := "paintress"; FailureTypeProviderFailure := "paintress";
      FailureTypeRoutingFailure := "paintress"]}.

Definition LookupSeverityAction (p : RoutingPolicy) (sev : Severity) : string :=
  default "retry" (rp_SeverityActionMap p !! NormalizeSeverity sev).
Definition LookupTargetAgent (p : RoutingPolicy) (ft : FailureType) : string :=
  get (rp_TargetAgentMap p) ft.

(** ** Inbox selection *)

Definition DefaultImprovementTargetAgent (kind : DMailKind) : string :=
  if bool_decide (kind = KindDesignFeedback) then "sightjack"
  else if bool_decide (kind = KindImplFeedback) then "paintress" else "".

Definition PreferredImprovementTargetAgent (kind : DMailKind) (meta : CorrectionMetadata) : string :=
  if nonempty (cm_TargetAgent meta) then cm_TargetAgent meta
  else if negb (IsImprovement meta) then ""
  else if bool_decide (cm_Outcome meta = ImprovementOutcomeEscalated) then ""
  else if bool_decide (cm_RetryAllowed meta = Some false) then ""
  else
    let mode := NormalizeRoutingMode (cm_RoutingMode meta) in
    if bool_decide (mode = "") || bool_decide (mode = RoutingModeRetry)
    then DefaultImprovementTargetAgent kind else "".

(** [filepath.ToSlash] is the identity where the separator is a slash. *)
Definition inboxMatchesTargetAgent (inbox targetAgent : string) : bool :=
  existsb (λ segment, bool_decide (segment = targetAgent)) (Split (Clean inbox) "/").

Definition FilterInboxesByTargetAgent (inboxes : list string) (targetAgent : string) : list string :=
  if bool_decide (targetAgent = "") then []
  else List.filter (λ inbox, inboxMatchesTargetAgent inbox targetAgent) inboxes.

Definition FilterInboxesByTargets (inboxes targets : list string) : list string :=
  match targets with
  | [] => []
  | _ => List.filter (λ inbox, existsb (λ target, inboxMatchesTargetAgent inbox target) targets) inboxes
  end.

Definition SelectDeliveryInboxes (kind : DMailKind) (inboxes targets : list string)
    (metadata : CorrectionMetadata) : list string :=
  let selected := inboxes in
  let filtered := FilterInboxesByTargets selected targets in
  let selected := match filtered with [] => selected | _ => filtered end in
  let filtered := FilterInboxesByTargetAgent selected (PreferredImprovementTargetAgent kind metadata) in
  match filtered with [] => selected | _ => filtered end.

(** ** Lemmas on histories *)

(** A history as the code builds it: trimmed, non-empty, no value twice in a row. *)
Definition hist_ok (h : list string) : Prop :=
  Forall (λ v, TrimSpace v = v ∧ v ≠ "") h ∧
  ∀ i x, h !! i = Some x → h !! S i ≠ Some x.

Lemma appendImprovementHistory_ok h v : hist_ok h → hist_ok (appendImprovementHistory h v).
Proof.
  intros [H1 H2]. unfold appendImprovementHistory. repeat case_bool_decide; [done..|]. split.
  - apply Forall_app. split; [done|]. constructor; [|done]. split; [apply TrimSpace_idem|done].
  - intros i x Hi Hs. destruct (decide (S i < length h)).
    + rewrite lookup_app_l in Hi, Hs by lia. exact (H2 _ _ Hi Hs).
    + rewrite lookup_app_r in Hs by lia.
      destruct (S i - length h) as [|k] eqn:E; [|by destruct k]. cbn in Hs. simplify_eq.
      rewrite lookup_app_l in Hi by lia.
      match goal with H : last h ≠ _ |- _ => apply H end.
      rewrite last_lookup. by replace (pred (length h)) with i by lia.
Qed.

Lemma fold_append_ok vs h : hist_ok h → hist_ok (fold_left appendImprovementHistory vs h).
Proof. revert h. induction vs as [|v vs IH]; cbn; auto using appendImprovementHistory_ok. Qed.

Lemma hist_ok_nil : hist_ok [].
Proof. split; [done|]. intros i x. by rewrite lookup_nil. Qed.

Lemma normalize_ok vs : hist_ok (normalizeImprovementHistory vs).
Proof. apply fold_append_ok, hist_ok_nil. Qed.

(** On a well-formed history the append loop rebuilds the history itself. *)
Lemma fold_append_id vs h :
  hist_ok (h ++ vs) →
  fold_left (λ out part, let part := TrimSpace part in
               if bool_decide (part = "") then out else appendImprovementHistory out part) vs h = h ++ vs.
Proof.
  revert h. induction vs as [|v vs IH]; intros h Hok; cbn [fold_left]; [by rewrite app_nil_r|].
  destruct Hok as [H1 H2]. pose proof H1 as HF. rewrite Forall_app, Forall_cons in HF.
  destruct HF as (_ & [Ht Hne] & _). cbv zeta. rewrite Ht, bool_decide_false by done.
  unfold appendImprovementHistory. cbv zeta. rewrite Ht, bool_decide_false by done.
  rewrite bool_decide_false.
  - rewrite IH; rewrite <- app_assoc; [done|]. by split.
  - rewrite last_lookup. intros Hl. eapply (H2 (pred (length h)) v).
    + rewrite lookup_app_l; [done|]. by apply lookup_lt_Some in Hl.
    + pose proof (lookup_lt_Some _ _ _ Hl). rewrite lookup_app_r by lia.
      by replace (S (pred (length h)) - length h) with 0 by lia.
Qed.

Lemma fold_append_prefix vs h : ∃ t, fold_left appendImprovementHistory vs h = h ++ t.
Proof.
  revert h. induction vs as [|v vs IH]; intros h; cbn [fold_left]; [exists []; by rewrite app_nil_r|].
  destruct (IH (appendImprovementHistory h v)) as [t ->].
  unfold appendImprovementHistory. repeat case_bool_decide; [by exists t..|].
  exists (TrimSpace v :: t). by rewrite <- app_assoc.
Qed.

(** Joining trimmed values leaves nothing for [TrimSpace] to remove. *)
Lemma Join_ends h :
  Forall (λ v, TrimSpace v = v ∧ v ≠ "") h → h ≠ [] →
  lead_ok (raw (Join h ">")) = true ∧ trail_ok (reverse (raw (Join h ">"))) = true ∧ Join h ">" ≠ "".
Proof.
  induction 1 as [|v h [Ht Hne] HF IH]; [done|]. intros _.
  pose proof (TrimSpace_spec v) as [Hl Hr]. rewrite Ht in Hl, Hr.
  destruct h as [|w h]; [done|]. destruct IH as (_ & IHr & IHne); [done|].
  change (Join (v :: w :: h) ">") with (v +:+ String ">" (Join (w :: h) ">")).
  assert (sep_byte ">") by reflexivity.
  split_and!; [by apply lead_ok_join|by apply trail_ok_join|]. by destruct v.
Qed.

Lemma Contains_Join v w h : Contains (Join (v :: w :: h) ">") ">" = true.
Proof.
  change (Join (v :: w :: h) ">") with (v +:+ String ">" (Join (w :: h) ">")).
  change ">" with (String ">" "") at 2. rewrite <- has_byte_Contains, has_byte_app.
  cbn. rewrite bool_decide_true by done. apply orb_true_r.
Qed.

Lemma parse_hist_ok h :
  hist_ok h → Forall (λ v, has_byte ">" v = false) h →
  (∀ v, h = [v] → has_byte "," v = false) →
  parseImprovementHistory (Join h ">") = h.
Proof.
  intros Hok Hgt Hcomma. destruct (decide (h = [])) as [->|Hne]; [done|].
  destruct (Join_ends h) as (Hl & Hr & Hj); [by destruct Hok|done|].
  unfold parseImprovementHistory. rewrite TrimSpace_id by done. cbv zeta.
  rewrite bool_decide_false by done.
  assert ((if negb (Contains (Join h ">") ">") && Contains (Join h ">") ","
           then ","%char else ">"%char) = ">"%char) as ->.
  { destruct h as [|v [|w h]]; [done| |by rewrite Contains_Join].
    cbn [Join]. change "," with (String "," ""). rewrite <- (has_byte_Contains ",").
    rewrite Hcomma by done. by rewrite andb_false_r. }
  change ">" with (String ">" ""). rewrite Split_Join by done.
  by apply (fold_append_id h []).
Qed.

Lemma formatImprovementHistory_Join vs :
  formatImprovementHistory vs = Join (normalizeImprovementHistory vs) ">".
Proof. by destruct vs. Qed.

(** ** Lemmas on the map form *)

Lemma ToLower_vocab :
  Forall (λ k, ToLower k = k) (severities ++ routing_modes ++ outcomes ++ provider_states).
Proof. repeat constructor. Qed.

Lemma default_nonempty (x : string) : default "" (if nonempty x then Some x else None) = x.
Proof. unfold nonempty. case_bool_decide; by subst. Qed.

Lemma normalize_default known (x : string) :
  Forall (λ k, ToLower k = k) known →
  normalize_word known (default "" (if nonempty x then Some (normalize_word known x) else None))
  = normalize_word known x.
Proof.
  intros Hk. unfold nonempty. case_bool_decide; cbn; [by subst|by apply normalize_word_idem].
Qed.

Lemma atoi_Itoa_if (b : bool) z :
  (- two63 ≤ z < two63)%Z →
  atoi_or_0 (default "" (if b then Some (Itoa z) else None)) = if b then z else 0%Z.
Proof. intros Hz. unfold atoi_or_0. destruct b; cbn; [|done]. by rewrite (proj2 (nonempty_spec _) (Itoa_nonempty z)), Atoi_Itoa. Qed.

(** Evaluates a lookup with a literal key through a chain of literal updates. *)
Ltac look :=
  repeat (rewrite lookup_set_if ||
          (rewrite lookup_insert_ne by (vm_compute; congruence)) || rewrite lookup_insert_eq ||
          match goal with |- context [bool_decide (?a = ?b :> string)] =>
            let v := eval vm_compute in (bool_decide (a = b)) in
            change (bool_decide (a = b)) with v end;
          rewrite ?andb_false_r, ?andb_true_r).

(** What survives the map form: vocabulary is normalized, a missing schema
    version becomes the current one, histories are normalized, and negative
    recurrence counts are dropped. *)
Definition canonical (m : CorrectionMetadata) : CorrectionMetadata :=
  mkCorrection (schema_or_default m) (cm_FailureType m) (NormalizeSeverity (cm_Severity m))
    (cm_SecondaryType m) (cm_TargetAgent m) (NormalizeRoutingMode (cm_RoutingMode m))
    (normalizeImprovementHistory (cm_RoutingHistory m))
    (normalizeImprovementHistory (cm_OwnerHistory m))
    (Z.max 0 (cm_RecurrenceCount m)) (cm_CorrectiveAction m)
    (cm_RetryAllowed m) (cm_EscalationReason m) (cm_CorrelationID m) (cm_TraceID m)
    (NormalizeProviderState (cm_ProviderState m)) (cm_ProviderReason m) (cm_ProviderRetryBudget m)
    (cm_ProviderResumeAt m) (cm_ProviderResumeWhen m) (NormalizeImprovementOutcome (cm_Outcome m)).

(** A history survives its textual form when no value contains the delimiter
    and a lone value does not contain the legacy delimiter. *)
Definition history_clean (vs : list string) : Prop :=
  Forall (λ v, has_byte ">" v = false) (normalizeImprovementHistory vs) ∧
  ∀ v, normalizeImprovementHistory vs = [v] → has_byte "," v = false.

Lemma parse_format vs :
  history_clean vs → parseImprovementHistory (formatImprovementHistory vs) = normalizeImprovementHistory vs.
Proof.
  intros [H1 H2]. rewrite formatImprovementHistory_Join. apply parse_hist_ok; auto using normalize_ok.
Qed.

Lemma get_history (vs : list string) :
  history_clean vs →
  parseImprovementHistory (default "" (if 0 <? length vs then Some (formatImprovementHistory vs) else None))
  = normalizeImprovementHistory vs.
Proof. intros Hc. destruct vs; [done|]. by apply parse_format. Qed.

(** ** Properties *)

(**  the textual history round trip.  [parseImprovementHistory] undoes
    [formatImprovementHistory] up to normalization whenever no (trimmed) value
    contains [>] and a lone value has no comma; the normalized history is
    trimmed, without empty values or immediate repetitions, and appending is
    monotone: no earlier entry is ever lost. *)
Theorem ImprovementHistory_roundtrip (vs : list string) (v : string) :
  history_clean vs →
  parseImprovementHistory (formatImprovementHistory vs) = normalizeImprovementHistory vs ∧
  hist_ok (normalizeImprovementHistory vs) ∧
  normalizeImprovementHistory (normalizeImprovementHistory vs) = normalizeImprovementHistory vs ∧
  ∃ t, normalizeImprovementHistory (vs ++ [v]) = normalizeImprovementHistory vs ++ t.
Proof.
  intros Hc. split_and!; [by apply parse_format|apply normalize_ok| |].
  - pose proof (normalize_ok vs) as Hok. rewrite <- (fold_append_id _ [] Hok) at 2.
    unfold normalizeImprovementHistory at 1. generalize (normalizeImprovementHistory vs) as l.
    generalize (@nil string) as acc. clear. intros acc l. revert acc.
    induction l as [|x l IH]; intros acc; cbn [fold_left]; [done|]. rewrite IH. f_equal.
    unfold appendImprovementHistory. cbv zeta. rewrite TrimSpace_idem. by repeat case_bool_decide.
  - unfold normalizeImprovementHistory. rewrite fold_left_app. apply (fold_append_prefix [v]).
Qed.

Lemma ImprovementHistory_roundtrip_witness :
  parseImprovementHistory (formatImprovementHistory [" retry"; "retry"; "reroute"]) = ["retry"; "reroute"].
Proof.
  refine (proj1 (ImprovementHistory_roundtrip [" retry"; "retry"; "reroute"] "x" _)).
  split; [repeat constructor|]. intros v H. vm_compute in H. congruence.
Defined.

(**  the metadata round trip.  Reading back what [Apply] wrote into an
    empty map gives the record in canonical form, for every record whose
    counters fit an int and whose histories survive their textual form. *)
Theorem CorrectionMetadata_roundtrip (m : CorrectionMetadata) :
  (- two63 ≤ cm_RecurrenceCount m < two63)%Z → (- two63 ≤ cm_ProviderRetryBudget m < two63)%Z →
  history_clean (cm_RoutingHistory m) → history_clean (cm_OwnerHistory m) →
  CorrectionMetadataFromMap (Apply m ∅) = canonical m.
Proof.
  intros Hrec Hbud Hrh Hoh.
  assert (Apply m ∅ !! MetadataImprovementSchemaVersion = Some (schema_or_default m)) as Hsv.
  { unfold Apply, set_nonempty. destruct (cm_RetryAllowed m); look; done. }
  unfold CorrectionMetadataFromMap. rewrite bool_decide_false
    by (intros E; rewrite E, lookup_empty in Hsv; done).
  unfold canonical, get. rewrite Hsv. cbn [default].
  pose proof ToLower_vocab as HV. rewrite !Forall_app in HV. destruct HV as (V1 & V2 & V3 & V4).
  f_equal; unfold Apply, set_nonempty;
    try (destruct (cm_RetryAllowed m) as [rb|] eqn:?);
    look; rewrite ?lookup_empty;
    try (apply default_nonempty); try (by apply normalize_default); try (by apply get_history);
    try reflexivity.
  all: try (destruct (nonempty (FormatBool rb)) eqn:Hn; [apply ParseBool_FormatBool|by destruct rb]).
  all: try (rewrite default_nonempty; reflexivity).
  all: rewrite atoi_Itoa_if by done.
  all: try (destruct (Z.ltb_spec 0 (cm_RecurrenceCount m)); lia).
  all: destruct (Z.eqb_spec (cm_ProviderRetryBudget m) 0) as [->|]; cbn [negb];
    repeat rewrite orb_true_r; cbn [orb]; by repeat case_match.
Qed.

Definition sample_metadata : CorrectionMetadata :=
  mkCorrection "" "scope_violation" "HIGH" "" "sightjack" "retry" ["retry"; "reroute"] ["amadeus"] 2
    "fix" (Some true) "" "c-1" "t-1" "Paused" "rate_limit" 3 "" "" "pending".

Lemma CorrectionMetadata_roundtrip_witness :
  CorrectionMetadataFromMap (Apply sample_metadata ∅) = canonical sample_metadata.
Proof.
  apply CorrectionMetadata_roundtrip; [unfold two63; cbn; lia|unfold two63; cbn; lia|..];
    (split; [repeat constructor|intros v H; vm_compute in H; congruence || (simplify_eq; reflexivity)]).
Defined.

Lemma FilterInboxesByTargets_In inboxes targets i :
  i ∈ FilterInboxesByTargets inboxes targets ↔
  i ∈ inboxes ∧ ∃ t, t ∈ targets ∧ inboxMatchesTargetAgent i t = true.
Proof.
  unfold FilterInboxesByTargets. destruct targets as [|t ts]; [set_solver|].
  rewrite list_elem_of_In, filter_In, existsb_exists. by setoid_rewrite <- list_elem_of_In.
Qed.

Lemma FilterInboxesByTargetAgent_In inboxes a i :
  i ∈ FilterInboxesByTargetAgent inboxes a ↔
  a ≠ "" ∧ i ∈ inboxes ∧ inboxMatchesTargetAgent i a = true.
Proof.
  unfold FilterInboxesByTargetAgent. case_bool_decide; [set_solver|].
  rewrite elem_of_bfilter. naive_solver.
Qed.

Lemma match_nil_cases {A} (f d : list A) :
  (f = [] ∧ match f with [] => d | _ => f end = d) ∨ (f ≠ [] ∧ match f with [] => d | _ => f end = f).
Proof. destruct f; [by left|by right]. Qed.

Lemma elem_of_SelectDeliveryInboxes kind inboxes targets md i :
  i ∈ SelectDeliveryInboxes kind inboxes targets md → i ∈ inboxes.
Proof.
  unfold SelectDeliveryInboxes. cbv zeta.
  destruct (match_nil_cases (FilterInboxesByTargets inboxes targets) inboxes) as [[_ ->]|[_ ->]];
    match goal with |- context [FilterInboxesByTargetAgent ?s ?a] =>
      destruct (match_nil_cases (FilterInboxesByTargetAgent s a) s) as [[_ ->]|[_ ->]] end;
    rewrite ?FilterInboxesByTargetAgent_In, ?FilterInboxesByTargets_In; naive_solver.
Qed.

Lemma SelectDeliveryInboxes_nil kind inboxes targets md :
  SelectDeliveryInboxes kind inboxes targets md = [] ↔ inboxes = [].
Proof.
  split; [|intros ->; unfold SelectDeliveryInboxes, FilterInboxesByTargetAgent; cbn;
           by destruct targets; cbn; case_bool_decide].
  unfold SelectDeliveryInboxes. cbv zeta.
  destruct (match_nil_cases (FilterInboxesByTargets inboxes targets) inboxes) as [[_ ->]|[? ->]];
    match goal with |- context [FilterInboxesByTargetAgent ?s ?a] =>
      destruct (match_nil_cases (FilterInboxesByTargetAgent s a) s) as [[_ ->]|[? ->]] end; done.
Qed.

(**  inbox selection narrows and never widens or empties the fan-out of a
    route.  When some inbox matches an explicit target, only matching inboxes
    are selected; when, among those, some match the preferred agent, only
    these are; and otherwise the earlier choice stands. *)
Theorem SelectDeliveryInboxes_precedence (kind : DMailKind) (inboxes targets : list string)
    (md : CorrectionMetadata) :
  let sel := SelectDeliveryInboxes kind inboxes targets md in
  let agent := PreferredImprovementTargetAgent kind md in
  let by_target i := i ∈ inboxes ∧ ∃ t, t ∈ targets ∧ inboxMatchesTargetAgent i t = true in
  let base i := by_target i ∨ (i ∈ inboxes ∧ ¬ ∃ j, by_target j) in
  let by_agent i := base i ∧ agent ≠ "" ∧ inboxMatchesTargetAgent i agent = true in
  (sel = [] ↔ inboxes = []) ∧
  (∀ i, i ∈ sel ↔ by_agent i ∨ (base i ∧ ¬ ∃ j, by_agent j)).
Proof.
  cbv zeta. split; [apply SelectDeliveryInboxes_nil|]. intros i.
  unfold SelectDeliveryInboxes. cbv zeta. set (agent := PreferredImprovementTargetAgent kind md).
  set (ft := FilterInboxesByTargets inboxes targets).
  assert (∀ j, j ∈ ft ↔ j ∈ inboxes ∧ ∃ t, t ∈ targets ∧ inboxMatchesTargetAgent j t = true) as Hft
    by (intros; apply FilterInboxesByTargets_In).
  set (base := match ft with [] => inboxes | _ => ft end).
  assert (∀ j, j ∈ base ↔ j ∈ ft ∨ (j ∈ inboxes ∧ ¬ ∃ k, k ∈ ft)) as Hbase.
  { intros j. subst base. destruct (match_nil_cases ft inboxes) as [[E ->]|[E ->]].
    - rewrite E. set_solver.
    - destruct ft as [|x ft']; [done|]. split; [by left|]. intros [?|[_ []]]; [done|]. exists x. by left. }
  setoid_rewrite <- Hft. setoid_rewrite <- Hbase.
  set (fa := FilterInboxesByTargetAgent base agent).
  assert (∀ j, j ∈ fa ↔ j ∈ base ∧ agent ≠ "" ∧ inboxMatchesTargetAgent j agent = true) as Hfa
    by (intros; unfold fa; rewrite FilterInboxesByTargetAgent_In; tauto).
  setoid_rewrite <- Hfa. destruct (match_nil_cases fa base) as [[E ->]|[E ->]].
  - rewrite E. set_solver.
  - destruct fa as [|x fa']; [done|]. split; [by left|]. intros [?|[_ []]]; [done|]. exists x. by left.
Qed.
