(* ===== verification/Prog.v ===== *)
(** * Programs as resumptions, and rely-guarantee reasoning

    The delivery pipeline runs in several goroutines at once (the event
    worker, the retry group, one startup scan per outbox) over shared stores
    and a shared file system.  A goroutine is a [prog]: a sequence of atomic
    actions on the world (one system call, one SQL transaction) with pure Go
    code between them.  An action is given the number of the goroutine that
    performs it, so that the world can record who created a temporary file.
    [run] executes one program alone; [pool_step] interleaves a list of them.
    [wp] is a rely-guarantee weakest precondition: a program proved against it
    keeps its guarantee and meets its postcondition whatever the other
    goroutines do within the rely. *)
From S2P Require Import Prelude.

Section Prog.
Context {W : Type}.

Inductive prog (A : Type) : Type :=
  | Ret (a : A)
  | Act (X : Type) (m : nat → W → X * W) (k : X → prog A).
#[global] Arguments Ret {A} a.
#[global] Arguments Act {A X} m k.

Fixpoint prog_bind {A B} (f : A → prog B) (p : prog A) : prog B :=
  match p with
  | Ret a => f a
  | Act m k => Act m (λ x, prog_bind f (k x))
  end.

(** Actions that do not depend on who performs them, and those that do. *)
Definition atom {X} (m : W → X * W) : prog X := Act (λ _, m) Ret.
Definition atom_by {X} (m : nat → W → X * W) : prog X := Act m Ret.

Fixpoint run {A} (i : nat) (p : prog A) (w : W) : A * W :=
  match p with
  | Ret a => (a, w)
  | Act m k => let '(x, w') := m i w in run i (k x) w'
  end.

Lemma run_bind {A B} i (f : A → prog B) (p : prog A) w :
  run i (prog_bind f p) w = let '(a, w') := run i p w in run i (f a) w'.
Proof.
  revert w. induction p as [a|X m k IH]; intros w; cbn; [done|].
  destruct (m i w) as [x w']. apply IH.
Qed.

Lemma run_atom {X} i (m : W → X * W) w : run i (atom m) w = m w.
Proof. cbn. by destruct (m w). Qed.
Lemma run_atom_by {X} i (m : nat → W → X * W) w : run i (atom_by m) w = m i w.
Proof. cbn. by destruct (m i w). Qed.

(** Goroutine [i], run alone, ends in the postcondition. *)
Definition runs {A} (i : nat) (p : prog A) (Q : A → W → Prop) (w : W) : Prop :=
  Q (fst (run i p w)) (snd (run i p w)).

(** The first [n] actions only: a crash point. *)
Fixpoint run_for {A} (n i : nat) (p : prog A) (w : W) : W :=
  match n, p with
  | S n', Act m k => let '(x, w') := m i w in run_for n' i (k x) w'
  | _, _ => w
  end.

(** [P] holds at every crash point, and [Q] at the end. *)
Fixpoint always {A} (i : nat) (p : prog A) (P : W → Prop) (Q : A → W → Prop) (w : W) : Prop :=
  P w ∧ match p with
        | Ret a => Q a w
        | Act m k => always i (k (fst (m i w))) P Q (snd (m i w))
        end.
Lemma always_run_for {A} n i (p : prog A) P Q w : always i p P Q w → P (run_for n i p w).
Proof.
  revert p w. induction n as [|n IH]; intros [a|X m k] w; cbn; intros [Hw Hk]; [done..|].
  destruct (m i w) as [x w']. by apply IH.
Qed.
Lemma always_end {A} i (p : prog A) P Q w : always i p P Q w → P (snd (run i p w)).
Proof.
  revert w. induction p as [a|X m k IH]; intros w; cbn; intros [Hw Hk]; [done|].
  destruct (m i w) as [x w']. by apply IH.
Qed.
Lemma always_run {A} i (p : prog A) P Q w : always i p P Q w → runs i p Q w.
Proof.
  unfold runs. revert w. induction p as [a|X m k IH]; intros w; cbn; intros [Hw Hk]; [done|].
  destruct (m i w) as [x w']. by apply IH.
Qed.

(** [for _, x := range xs { body }] with an accumulator; the body may stop
    the loop early by returning [inr]. *)
Fixpoint for_range {X S R} (xs : list X) (s : S) (body : S → X → prog (S + R)) : prog (S + R) :=
  match xs with
  | [] => Ret (inl s)
  | x :: r => prog_bind (λ o, match o with
                              | inl s' => for_range r s' body
                              | inr e => Ret (inr e)
                              end) (body s x)
  end.

(** ** Running alone: total correctness *)

Lemma runs_bind {A B} i (f : A → prog B) (p : prog A) (Q : B → W → Prop) w :
  runs i p (λ a, runs i (f a) Q) w → runs i (prog_bind f p) Q w.
Proof. unfold runs. rewrite run_bind. by destruct (run i p w). Qed.

Lemma runs_ret {A} i (a : A) (Q : A → W → Prop) w : Q a w → runs i (Ret a) Q w.
Proof. done. Qed.

Lemma runs_mono {A} i (p : prog A) (Q Q' : A → W → Prop) w :
  (∀ a v, Q a v → Q' a v) → runs i p Q w → runs i p Q' w.
Proof. unfold runs. auto. Qed.

Lemma runs_atom {X} i (m : W → X * W) (Q : X → W → Prop) w :
  Q (fst (m w)) (snd (m w)) → runs i (atom m) Q w.
Proof. unfold runs. by rewrite run_atom. Qed.

Lemma runs_atom_by {X} i (m : nat → W → X * W) (Q : X → W → Prop) w :
  Q (fst (m i w)) (snd (m i w)) → runs i (atom_by m) Q w.
Proof. unfold runs. by rewrite run_atom_by. Qed.

(** A loop that is never left early. *)
Lemma runs_for_range {X S R} i (body : S → X → prog (S + R)) (I : list X → S → W → Prop) :
  ∀ xs done s w,
    (∀ done x s w, x ∈ xs → I done s w →
       runs i (body s x) (λ o v, ∃ s', o = inl s' ∧ I (done ++ [x]) s' v) w) →
    I done s w →
    runs i (for_range xs s body) (λ o v, ∃ s', o = inl s' ∧ I (done ++ xs) s' v) w.
Proof.
  induction xs as [|x xs IH]; intros done s w Hbody HI; cbn [for_range].
  - exists s. by rewrite app_nil_r.
  - apply runs_bind. eapply runs_mono; [|apply (Hbody done x s w); [by left|done]].
    cbn beta. intros o v (s' & -> & Hv). rewrite (cons_middle x done xs), app_assoc.
    apply IH; [|done]. intros d y s1 w1 Hy. apply Hbody. by right.
Qed.

(** Every value a program can return, whatever its actions answer. *)
Fixpoint all_ret {A} (P : A → Prop) (p : prog A) : Prop :=
  match p with
  | Ret a => P a
  | Act m k => ∀ x, all_ret P (k x)
  end.

Lemma all_ret_bind {A B} (P : B → Prop) (f : A → prog B) (p : prog A) :
  all_ret (λ a, all_ret P (f a)) p → all_ret P (prog_bind f p).
Proof. induction p as [a|X m k IH]; cbn; auto. Qed.
Lemma all_ret_mono {A} (P P' : A → Prop) (p : prog A) :
  (∀ a, P a → P' a) → all_ret P p → all_ret P' p.
Proof. intros HP. induction p; cbn; auto. Qed.
Lemma all_ret_true {A} (p : prog A) : all_ret (λ _, True) p.
Proof. induction p; cbn; auto. Qed.

(** ** Interleaving *)

Definition config (A : Type) : Type := list (prog A) * W.

Inductive pool_step {A} : config A → config A → Prop :=
  | pool_step_at i ps X (m : nat → W → X * W) (k : X → prog A) w :
      ps !! i = Some (Act m k) →
      pool_step (ps, w) (<[i := k (fst (m i w))]> ps, snd (m i w)).

(** Executable scheduler: the task to run next, repeatedly. *)
Definition sched_step {A} (c : config A) (i : nat) : config A :=
  match fst c !! i with
  | Some (Act m k) => (<[i := k (fst (m i (snd c)))]> (fst c), snd (m i (snd c)))
  | _ => c
  end.
Definition sched {A} (c : config A) (schedule : list nat) : config A :=
  fold_left sched_step schedule c.

Lemma sched_reachable {A} (c : config A) schedule : rtc pool_step c (sched c schedule).
Proof.
  revert c. induction schedule as [|i l IH]; intros c; [apply rtc_refl|].
  change (rtc pool_step c (sched (sched_step c i) l)).
  unfold sched_step. destruct c as [ps w]; cbn.
  destruct (ps !! i) as [[|X m k]|] eqn:E; try apply IH.
  eapply rtc_l; [by apply pool_step_at|]. apply IH.
Qed.

(** ** Rely-guarantee *)

Section RG.
(** [Rely i] bounds what the others may do while task [i] is between two
    of its steps; [Guar i] is what every step of task [i] promises. *)
Variables Rely Guar : nat → W → W → Prop.
Context `{!∀ i, PreOrder (Rely i)}.
Hypothesis compatible : ∀ i j w w', i ≠ j → Guar i w w' → Rely j w w'.

Fixpoint wp {A} (i : nat) (p : prog A) (Q : A → W → Prop) (w : W) : Prop :=
  ∀ w', Rely i w w' →
    match p with
    | Ret a => Q a w'
    | Act m k => Guar i w' (snd (m i w')) ∧ wp i (k (fst (m i w'))) Q (snd (m i w'))
    end.

Lemma wp_stable {A} i (p : prog A) Q w w' : Rely i w w' → wp i p Q w → wp i p Q w'.
Proof using H. destruct p; cbn; intros Hr Hw v Hv; apply Hw; by etrans. Qed.

Lemma wp_mono {A} i (p : prog A) (Q Q' : A → W → Prop) w :
  (∀ a v, Q a v → Q' a v) → wp i p Q w → wp i p Q' w.
Proof.
  intros HQ. revert w. induction p as [a|X m k IH]; intros w; cbn; intros Hw v Hv; [eauto|].
  destruct (Hw v Hv) as [H1 H2]. split; eauto.
Qed.

Lemma wp_bind {A B} i (f : A → prog B) (p : prog A) (Q : B → W → Prop) w :
  wp i p (λ a, wp i (f a) Q) w → wp i (prog_bind f p) Q w.
Proof using H.
  revert w. induction p as [a|X m k IH]; intros w Hw; cbn [prog_bind].
  - apply Hw. reflexivity.
  - intros v Hv. destruct (Hw v Hv) as [H1 H2]. split; [done|]. by apply IH.
Qed.

(** The postcondition of a value must survive the other tasks. *)
Lemma wp_ret {A} i (a : A) (Q : A → W → Prop) w :
  (∀ v, Rely i w v → Q a v) → wp i (Ret a) Q w.
Proof. done. Qed.

Lemma wp_act {X} i (m : nat → W → X * W) (Q : X → W → Prop) w :
  (∀ v, Rely i w v →
     Guar i v (snd (m i v)) ∧ ∀ u, Rely i (snd (m i v)) u → Q (fst (m i v)) u) →
  wp i (Act m Ret) Q w.
Proof. intros HA v Hv. exact (HA v Hv). Qed.

(** Loop rule: [I] holds of the elements done so far. *)
Lemma wp_for_range {X S E} i (body : S → X → prog (S + E)) (I : list X → S → W → Prop)
    (Q : S + E → W → Prop) :
  ∀ xs done s w,
    (∀ done x s w, x ∈ xs → I done s w →
       wp i (body s x) (λ o v, match o with
                               | inl s' => I (done ++ [x]) s' v
                               | inr e => ∀ u, Rely i v u → Q (inr e) u
                               end) w) →
    (∀ s w, I (done ++ xs) s w → ∀ u, Rely i w u → Q (inl s) u) →
    I done s w → wp i (for_range xs s body) Q w.
Proof using H.
  induction xs as [|x xs IH]; intros done s w Hbody Hend HI; cbn [for_range].
  - apply wp_ret. rewrite app_nil_r in Hend. by apply Hend.
  - apply wp_bind. eapply wp_mono; [|apply (Hbody done x s w); [by left|done]].
    cbn. intros [s'|e] v Hv; [|by apply wp_ret].
    apply (IH (done ++ [x])); [|by rewrite <- app_assoc|done].
    intros d y s1 w1 Hy HI1. eapply Hbody; [by right|done].
Qed.

(** Soundness for any interleaving of any number of tasks: whatever [P]
    every guarantee preserves still holds, and a finished task has its
    postcondition. *)
Lemma pool_sound {A} (Qs : nat → A → W → Prop) (P : W → Prop) (c c' : config A) :
  (∀ i w w', Guar i w w' → P w → P w') →
  rtc pool_step c c' →
  P (snd c) → (∀ i p, fst c !! i = Some p → wp i p (Qs i) (snd c)) →
  P (snd c') ∧ (∀ i p, fst c' !! i = Some p → wp i p (Qs i) (snd c')).
Proof using H compatible.
  intros HP. induction 1 as [c|c d c' Hs _ IH]; intros Hc HF; [by split|].
  destruct Hs as [i ps X m k w Hi]. cbn in *.
  destruct (HF i _ Hi w (reflexivity w)) as [HG Hk]. apply IH; [by eapply HP|].
  intros j p Hj. destruct (decide (i = j)) as [<-|Hne].
  - rewrite list_lookup_insert_eq in Hj by (by eapply lookup_lt_Some). by simplify_eq.
  - rewrite list_lookup_insert_ne in Hj by done.
    eapply wp_stable; [by eapply compatible|by apply HF].
Qed.
End RG.
End Prog.
Arguments prog : clear implicits.

#[export] Instance prog_mret W : MRet (prog W) := λ A a, Ret a.
#[export] Instance prog_mbind W : MBind (prog W) := λ A B f p, prog_bind f p.

Lemma run_mbind {W A B} i (f : A → prog W B) (p : prog W A) w :
  run i (p ≫= f) w = let '(a, w') := run i p w in run i (f a) w'.
Proof. apply run_bind. Qed.
Lemma always_atom {W A X} i (m : W → X * W) (k : X → prog W A) P Q w :
  P w → always i (k (fst (m w))) P Q (snd (m w)) → always i (atom m ≫= k) P Q w.
Proof. by split. Qed.
Lemma always_ret {W A} i (a : A) (P : W → Prop) (Q : A → W → Prop) w : P w → Q a w → always i (mret a) P Q w.
Proof. by split. Qed.

(** Every action of a program, in whatever world, is a step of [R]. *)
Section Acts.
Context {W : Type} (R : W → W → Prop) `{!PreOrder R}.

Fixpoint acts {A} (p : prog W A) : Prop :=
  match p with
  | Ret _ => True
  | Act m k => (∀ i w, R w (snd (m i w))) ∧ ∀ x, acts (k x)
  end.

Lemma acts_run {A} i (p : prog W A) w : acts p → R w (snd (run i p w)).
Proof using PreOrder0.
  revert w. induction p as [a|X m k IH]; intros w; cbn; [reflexivity|]. intros [Hm Hk].
  specialize (Hm i w). destruct (m i w) as [x w']. etrans; [exact Hm|]. by apply IH.
Qed.
Lemma acts_bind {A B} (p : prog W A) (k : A → prog W B) : acts p → (∀ a, acts (k a)) → acts (p ≫= k).
Proof.
  intros Hp Hk. unfold mbind, prog_mbind. induction p as [a|X m k' IH]; cbn [prog_bind acts]; [done|]. destruct Hp. split; auto.
Qed.
Lemma acts_atom {X} (m : W → X * W) : (∀ w, R w (snd (m w))) → acts (atom m).
Proof. intros Hm. split; [done|]. done. Qed.
Lemma acts_for_range {X S E} (xs : list X) (body : S → X → prog W (S + E)) s :
  (∀ s x, acts (body s x)) → acts (for_range xs s body).
Proof.
  intros Hb. revert s. induction xs as [|x xs IH]; intros s; cbn [for_range]; [done|].
  apply acts_bind; [done|]. intros [s'|e]; [apply IH|done].
Qed.
End Acts.
