(* ===== verification/World.v ===== *)
(** * The world the daemon acts on

    One record holds everything the delivery pipeline shares: the file
    system, the three SQLite tables, the delivery log, the Bloom filter, the
    circuit breaker, the daemon's state files and the emitted events.  What the program cannot control
    is an oracle [Env] indexed by a step counter: whether an operation fails
    and with which error, the clock, the random suffixes of temporary files.
    The theorems quantify over the oracle, so over every pattern of failures.

    The second half models the [os] calls the pipeline makes, as atomic
    actions on the world.  The file system maps clean paths to nodes; a path
    is cleaned before it is looked up. *)
From S2P Require Import Prelude GoStrings GoPath GoTime Bloom Provider Breaker DMail Prog.

(** ** Rows of the SQLite tables, in rowid order *)

(** [staged_delivery], primary key (dmail_path, target). *)
Record StagedRow := mkStaged {
  sr_path : string; sr_target : string; sr_data : bytes; sr_flushed : bool; sr_retry : Z }.

(** [delivery_log], primary key (idempotency_key, target). *)
Record DedupRow := mkDedup { dd_key : string; dd_target : string; dd_at : Time }.

(** [error_queue], primary key name.  [claimed_at] is SQLite's
    [datetime('now')] text, which compares like its instant in seconds; the
    empty text of an unclaimed row is [None] and sorts first. *)
Record ErrorRow := mkErrorRow {
  er_name : string; er_data : bytes; er_source_outbox : string; er_kind : string;
  er_original_name : string; er_error_message : string; er_retry_count : Z; er_resolved : bool;
  er_claimed_by : string; er_claimed_at : option Z }.

(** ** Files *)

Inductive node := NFile (data : bytes) | NDir.

(** What a reader of the file system could have observed, newest first. *)
Inductive effect :=
  | EWrote (path : string) (data : bytes)    (* a rename put this content at this path *)
  | ERemoved (path : string).                (* a file was unlinked *)

(** The daemon's own files under its state directory, which holds no outbox:
    [provider-state.json], [.run/delivered.bloom], [watch.pid] and
    [watch.started]. *)
Record StateFiles := mkState {
  sf_provider : option ProviderStateSnapshot; sf_filter : option bytes;
  sf_pid : option string; sf_started : option string }.
Definition no_state : StateFiles := mkState None None None None.

(** Calls of the daemon event emitter. *)
Inductive emitted :=
  | EmitDelivery (path : string) (kind : DMailKind)
  | EmitFailure (path : string) (kind : DMailKind) (msg : string)
  | EmitScan (outbox : string) (delivered errors : nat)
  | EmitRetry (name : string) (kind : DMailKind).

Record Env := mkEnv {
  env_fault : nat → option error;
  env_now : nat → Time;
  env_stamp : nat → Time;
  env_suffix : nat → string;
  env_short : nat → nat }.

(** [w_owner] records which goroutine created a temporary file that still
    exists, [w_stamps] which goroutine read the clock for each name of an error
    queue entry so far; no operation reads who it was. *)
Record World := mkWorld {
  w_fs : gmap string node;
  w_owner : gmap string nat;
  w_stamps : list nat;
  w_staged : list StagedRow;
  w_dedup : list DedupRow;
  w_queue : list ErrorRow;
  w_dlog : list string;
  w_bloom : option BloomFilter;
  w_cb : option CircuitBreaker;
  w_state : StateFiles;
  w_events : list emitted;
  w_trace : list effect;
  w_tick : nat;
  w_env : Env }.

Definition set_fs (f : gmap string node) (w : World) : World :=
  mkWorld f (w_owner w) (w_stamps w) (w_staged w) (w_dedup w) (w_queue w) (w_dlog w) (w_bloom w) (w_cb w)
    (w_state w) (w_events w) (w_trace w) (w_tick w) (w_env w).
Definition set_owner (o : gmap string nat) (w : World) : World :=
  mkWorld (w_fs w) o (w_stamps w) (w_staged w) (w_dedup w) (w_queue w) (w_dlog w) (w_bloom w) (w_cb w)
    (w_state w) (w_events w) (w_trace w) (w_tick w) (w_env w).
Definition set_stamps (l : list nat) (w : World) : World :=
  mkWorld (w_fs w) (w_owner w) l (w_staged w) (w_dedup w) (w_queue w) (w_dlog w) (w_bloom w) (w_cb w)
    (w_state w) (w_events w) (w_trace w) (w_tick w) (w_env w).
Definition set_staged (l : list StagedRow) (w : World) : World :=
  mkWorld (w_fs w) (w_owner w) (w_stamps w) l (w_dedup w) (w_queue w) (w_dlog w) (w_bloom w) (w_cb w)
    (w_state w) (w_events w) (w_trace w) (w_tick w) (w_env w).
Definition set_dedup (l : list DedupRow) (w : World) : World :=
  mkWorld (w_fs w) (w_owner w) (w_stamps w) (w_staged w) l (w_queue w) (w_dlog w) (w_bloom w) (w_cb w)
    (w_state w) (w_events w) (w_trace w) (w_tick w) (w_env w).
Definition set_queue (l : list ErrorRow) (w : World) : World :=
  mkWorld (w_fs w) (w_owner w) (w_stamps w) (w_staged w) (w_dedup w) l (w_dlog w) (w_bloom w) (w_cb w)
    (w_state w) (w_events w) (w_trace w) (w_tick w) (w_env w).
Definition set_dlog (l : list string) (w : World) : World :=
  mkWorld (w_fs w) (w_owner w) (w_stamps w) (w_staged w) (w_dedup w) (w_queue w) l (w_bloom w) (w_cb w)
    (w_state w) (w_events w) (w_trace w) (w_tick w) (w_env w).
Definition set_bloom (b : option BloomFilter) (w : World) : World :=
  mkWorld (w_fs w) (w_owner w) (w_stamps w) (w_staged w) (w_dedup w) (w_queue w) (w_dlog w) b (w_cb w)
    (w_state w) (w_events w) (w_trace w) (w_tick w) (w_env w).
Definition set_cb (c : option CircuitBreaker) (w : World) : World :=
  mkWorld (w_fs w) (w_owner w) (w_stamps w) (w_staged w) (w_dedup w) (w_queue w) (w_dlog w) (w_bloom w) c
    (w_state w) (w_events w) (w_trace w) (w_tick w) (w_env w).
Definition set_state (s : StateFiles) (w : World) : World :=
  mkWorld (w_fs w) (w_owner w) (w_stamps w) (w_staged w) (w_dedup w) (w_queue w) (w_dlog w) (w_bloom w)
    (w_cb w) s (w_events w) (w_trace w) (w_tick w) (w_env w).
Definition set_tick (n : nat) (w : World) : World :=
  mkWorld (w_fs w) (w_owner w) (w_stamps w) (w_staged w) (w_dedup w) (w_queue w) (w_dlog w) (w_bloom w)
    (w_cb w) (w_state w) (w_events w) (w_trace w) n (w_env w).
Definition add_event (e : emitted) (w : World) : World :=
  mkWorld (w_fs w) (w_owner w) (w_stamps w) (w_staged w) (w_dedup w) (w_queue w) (w_dlog w) (w_bloom w)
    (w_cb w) (w_state w) (e :: w_events w) (w_trace w) (w_tick w) (w_env w).
Definition add_effect (e : effect) (w : World) : World :=
  mkWorld (w_fs w) (w_owner w) (w_stamps w) (w_staged w) (w_dedup w) (w_queue w) (w_dlog w) (w_bloom w)
    (w_cb w) (w_state w) (w_events w) (e :: w_trace w) (w_tick w) (w_env w).

Abbreviation act A := (World → A * World).
Abbreviation program := (prog World).

(** ** Oracle reads; each advances the step counter *)

Definition bump (w : World) : World := set_tick (S (w_tick w)) w.
Definition fault : act (option error) := λ w, (env_fault (w_env w) (w_tick w), bump w).
Definition Now : act Time := λ w, (env_now (w_env w) (w_tick w), bump w).

(** The clock reading that goes into the name of an error queue entry; these
    readings are numbered on their own, so that a hypothesis can speak about
    them. *)
Definition Stamp (tid : nat) : act Time := λ w,
  (env_stamp (w_env w) (length (w_stamps w)), set_stamps (w_stamps w ++ [tid]) w).

(** An operation that the environment may fail before it has any effect. *)
Definition guarded {A} (prefix : string) (m : act (result A)) : act (result A) := λ w,
  let '(f, w) := fault w in
  match f with
  | Some e => (Err (errorf_w prefix e), w)
  | None => m w
  end.

(** Go functions that return only an [error]. *)
Definition err_of {A} (r : result A) : option error := match r with Ok _ => None | Err e => Some e end.

(** ** SQL transactions

    [BEGIN IMMEDIATE ... COMMIT] on a database with one connection is atomic:
    it either commits, or fails at one of its stages and is rolled back. *)
Definition rollback (w w' : World) : World := set_tick (w_tick w') w.

Definition sql_tx {A} (pconn pbegin pcommit : string) (body : act (result A)) : act (result A) := λ w,
  let '(fc, w1) := fault w in
  match fc with
  | Some e => (Err (errorf_w pconn e), w1)
  | None =>
    let '(fb, w2) := fault w1 in
    match fb with
    | Some e => (Err (errorf_w pbegin e), w2)
    | None =>
      let '(r, w3) := body w2 in
      match r with
      | Err e => (Err e, rollback w2 w3)
      | Ok a =>
        let '(fm, w4) := fault w3 in
        match fm with
        | Some e => (Err (errorf_w pcommit e), rollback w2 w4)
        | None => (Ok a, w4)
        end
      end
    end
  end.

(** ** [os] *)

Definition enoent (op p : string) : error :=
  mkErr (op +:+ " " +:+ p +:+ ": no such file or directory") [ErrNotExist].

Definition lookup_path (w : World) (p : string) : option node := w_fs w !! Clean p.

Definition os_ReadFile (p : string) : act (result bytes) := guarded "" (λ w,
  match lookup_path w p with
  | Some (NFile b) => (Ok b, w)
  | Some NDir => (Err (errors_New ("read " +:+ p +:+ ": is a directory")), w)
  | None => (Err (enoent "open" p), w)
  end).

(** Whether the path exists, as [errors.Is(statErr, os.ErrNotExist)] sees it. *)
Definition os_Stat (p : string) : act (result unit) := guarded "" (λ w,
  match lookup_path w p with
  | Some _ => (Ok tt, w)
  | None => (Err (enoent "stat" p), w)
  end).

Definition children (fs : gmap string node) (dir : string) : list (string * node) :=
  filter (λ e, Dir (fst e) = Clean dir ∧ fst e ≠ Clean dir) (map_to_list fs).

Definition unlink (c : string) (w : World) : World :=
  set_owner (delete c (w_owner w)) (set_fs (delete c (w_fs w)) w).

Definition os_Remove (p : string) : act (result unit) := guarded "" (λ w,
  match lookup_path w p with
  | Some (NFile _) => (Ok tt, add_effect (ERemoved (Clean p)) (unlink (Clean p) w))
  | Some NDir =>
      match children (w_fs w) p with
      | [] => (Ok tt, unlink (Clean p) w)
      | _ => (Err (errors_New ("remove " +:+ p +:+ ": directory not empty")), w)
      end
  | None => (Err (enoent "remove" p), w)
  end).

(** [os.ReadDir]: the entries sorted by name, with [IsDir]. *)
Definition entry_le (a b : string * bool) : Prop := string_le (fst a) (fst b).
#[export] Instance entry_le_dec a b : Decision (entry_le a b).
Proof. unfold entry_le. apply _. Defined.

Definition os_ReadDir (p : string) : act (result (list (string * bool))) := guarded "" (λ w,
  match lookup_path w p with
  | Some NDir =>
      (Ok (merge_sort entry_le
        ((λ e, (Base (fst e), match snd e with NDir => true | NFile _ => false end))
           <$> children (w_fs w) p)), w)
  | Some (NFile _) => (Err (errors_New ("readdirent " +:+ p +:+ ": not a directory")), w)
  | None => (Err (enoent "open" p), w)
  end).

(** [os.CreateTemp]: random names until one is free, at most 10000 times. *)
Definition temp_attempts : nat := Z.to_nat 10000.
Fixpoint create_temp (fuel tid : nat) (dir prefix : string) (w : World) : result string * World :=
  match fuel with
  | O => (Err (errors_New ("createtemp " +:+ dir +:+ "/" +:+ prefix +:+ "*: file exists")), w)
  | S n =>
      let name := path_Join [dir; prefix +:+ env_suffix (w_env w) (w_tick w)] in
      match lookup_path w name with
      | Some _ => create_temp n tid dir prefix (bump w)
      | None => (Ok name, set_owner (<[Clean name := tid]> (w_owner w))
                            (set_fs (<[Clean name := NFile []]> (w_fs w)) (bump w)))
      end
  end.
Definition os_CreateTemp (dir prefix : string) (tid : nat) : act (result string) := guarded "" (λ w,
  match lookup_path w dir with
  | Some NDir => create_temp temp_attempts tid dir prefix w
  | Some (NFile _) => (Err (errors_New ("open " +:+ dir +:+ ": not a directory")), w)
  | None => (Err (enoent "open" dir), w)
  end).

(** [File.Write] on the temporary file: a failing write may have stored
    any prefix of the data. *)
Definition file_Write (p : string) (data : bytes) : act (result unit) := λ w,
  let short := env_short (w_env w) (w_tick w) in
  let '(f, w) := fault w in
  let put d := match lookup_path w p with
               | Some (NFile _) => set_fs (<[Clean p := NFile d]> (w_fs w)) w
               | _ => w
               end in
  match f with
  | Some e => (Err e, put (take short data))
  | None => (Ok tt, put data)
  end.

Definition file_Close : act (result unit) := guarded "" (λ w, (Ok tt, w)).

Definition os_Rename (src dst : string) : act (result unit) := guarded "" (λ w,
  match lookup_path w src with
  | None => (Err (enoent "rename" src), w)
  | Some NDir => (Err (errors_New ("rename " +:+ src +:+ ": is a directory")), w)
  | Some (NFile d) =>
      match lookup_path w dst with
      | Some NDir => (Err (errors_New ("rename " +:+ dst +:+ ": file exists")), w)
      | _ => (Ok tt, add_effect (EWrote (Clean dst) d)
                       (let w := unlink (Clean src) w in set_fs (<[Clean dst := NFile d]> (w_fs w)) w))
      end
  end).

(** Log lines, the breaker and the event emitter are atomic and do not fail. *)
Definition modify (f : World → World) : act unit := λ w, (tt, f w).
Definition gets {A} (f : World → A) : act A := λ w, (f w, w).

(** ** Lemmas *)

(** [w'] differs from [w] in the step counter only. *)
Definition tick_only (w w' : World) : Prop := w' = set_tick (w_tick w') w.

Lemma tick_only_refl w : tick_only w w.
Proof. by destruct w. Qed.
Lemma tick_only_trans w1 w2 w3 : tick_only w1 w2 → tick_only w2 w3 → tick_only w1 w3.
Proof. unfold tick_only. intros -> ->. by destruct w1. Qed.
Lemma tick_only_bump w : tick_only w (bump w).
Proof. by destruct w. Qed.
Lemma tick_only_rollback w w' : tick_only w (rollback w w').
Proof. by destruct w. Qed.
#[export] Hint Resolve tick_only_refl tick_only_bump tick_only_rollback : go.
#[export] Hint Resolve tick_only_trans : go.

Lemma guarded_cases {A} prefix (m : act (result A)) w :
  (∃ e, guarded prefix m w = (Err (errorf_w prefix e), bump w)) ∨ guarded prefix m w = m (bump w).
Proof. unfold guarded, fault. destruct (env_fault _ _) as [e|]; [left; by exists e|by right]. Qed.

(** A transaction fails and changes nothing, or its body has run. *)
Lemma sql_tx_cases {A} pc pb pm (body : act (result A)) w :
  (∃ e w', sql_tx pc pb pm body w = (Err e, w') ∧ tick_only w w') ∨
  (∃ a w2 w3 w', sql_tx pc pb pm body w = (Ok a, w') ∧
     tick_only w w2 ∧ body w2 = (Ok a, w3) ∧ tick_only w3 w').
Proof.
  unfold sql_tx, fault.
  destruct (env_fault (w_env w) (w_tick w)) as [e|]; [left; eauto 6 with go|].
  destruct (env_fault (w_env (bump w)) (w_tick (bump w))) as [e|]; [left; eauto 8 with go|].
  destruct (body (bump (bump w))) as [[a|e] w3] eqn:E; [|left; eauto 10 with go].
  destruct (env_fault (w_env w3) (w_tick w3)) as [e|]; [left; eauto 10 with go|].
  right. exists a, (bump (bump w)), w3, (bump w3). eauto 8 with go.
Qed.
