(* ===== verification/DeliveryStore.v ===== *)
(** * The Stage/Flush delivery store

    Models [session/delivery_store.go] over the [staged_delivery] table,
    [atomicWrite] of [session/deliver.go], and [session/delivery_dedup_store.go].
    The ports [port.DeliveryStore] and [port.DeliveryDedupStore] are type
    classes; the SQLite stores implement them.  Each SQL transaction and
    each system call is one atomic action of the program. *)
From S2P Require Import Prelude GoStrings GoPath GoTime DMail Prog World.

(** ** Ports *)

Class DeliveryStore := {
  StageDelivery : string → bytes → list string → program (option error);
  FlushDeliveries : program (list DeliveryFlushed * option error);
  AllFlushedFor : string → program (result bool) }.

Class DeliveryDedupStore := {
  HasDelivered : string → string → program (result bool);
  RecordDelivery : string → string → program (option error) }.

(** ** atomicWrite *)

Definition atomicWrite (targetPath : string) (data : bytes) : program (option error) :=
  let dir := Dir targetPath in
  r ← atom_by (os_CreateTemp dir tmp_prefix);
  match r with
  | Err err => mret (Some err)
  | Ok tmpPath =>
      r ← atom (file_Write tmpPath data);
      match r with
      | Err err =>
          _ ← atom file_Close;
          _ ← atom (os_Remove tmpPath);
          mret (Some err)
      | Ok _ =>
          r ← atom file_Close;
          match r with
          | Err err => _ ← atom (os_Remove tmpPath); mret (Some err)
          | Ok _ => r ← atom (os_Rename tmpPath targetPath); mret (err_of r)
          end
      end
  end.

(** ** The staged_delivery table *)

Module Staged.

Definition maxDeliveryRetryCount : Z := 3.

Definition has_key (p t : string) (r : StagedRow) : bool :=
  bool_decide (sr_path r = p) && bool_decide (sr_target r = t).

(** [INSERT ... ON CONFLICT(dmail_path, target) DO UPDATE SET data =
    excluded.data, flushed = 0, retry_count = 0 WHERE flushed = 0 OR data !=
    excluded.data] *)
Fixpoint upsert (p t : string) (data : bytes) (rows : list StagedRow) : list StagedRow :=
  match rows with
  | [] => [mkStaged p t data false 0]
  | r :: rest =>
      if has_key p t r then
        (if negb (sr_flushed r) || negb (bool_decide (sr_data r = data))
         then mkStaged p t data false 0 else r) :: rest
      else r :: upsert p t data rest
  end.

Fixpoint stage_rows (dmailPath : string) (data : bytes) (targets : list string) (w : World)
    : result unit * World :=
  match targets with
  | [] => (Ok tt, w)
  | target :: rest =>
      let '(f, w) := fault w in
      match f with
      | Some e => (Err (errorf_w ("delivery store: stage " +:+ dmailPath +:+ " → " +:+ target +:+ ": ") e), w)
      | None => stage_rows dmailPath data rest (set_staged (upsert dmailPath target data (w_staged w)) w)
      end
  end.

Definition StageDelivery_tx (dmailPath : string) (data : bytes) (targets : list string)
    : act (result unit) :=
  sql_tx "delivery store: get conn: " "delivery store: begin immediate: " "delivery store: commit stage: "
         (stage_rows dmailPath data targets).

Definition collectable (r : StagedRow) : bool :=
  negb (sr_flushed r) && (sr_retry r <? maxDeliveryRetryCount)%Z.

(** A query, the scan of its rows, and [rows.Err()]. *)
Definition query {A} (pquery pscan : string) (f : World → A) : act (result A) :=
  guarded pquery (guarded pscan (guarded "" (λ w, (Ok (f w), w)))).

Definition collectUnflushed : act (result (list StagedRow)) :=
  query "delivery store: select unflushed: " "delivery store: scan unflushed: "
        (λ w, List.filter collectable (w_staged w)).

(** [UPDATE staged_delivery SET ... WHERE dmail_path = ? AND target = ?] *)
Definition update_rows (p t : string) (f : StagedRow → StagedRow) (rows : list StagedRow) : list StagedRow :=
  (λ r, if has_key p t r then f r else r) <$> rows.
Definition set_flushed (r : StagedRow) : StagedRow :=
  mkStaged (sr_path r) (sr_target r) (sr_data r) true (sr_retry r).
Definition incr_retry (r : StagedRow) : StagedRow :=
  mkStaged (sr_path r) (sr_target r) (sr_data r) (sr_flushed r) (sr_retry r + 1).

Definition exec_update (f : list StagedRow → list StagedRow) : act (result unit) :=
  sql_tx "" "" "" (guarded "" (λ w, (Ok tt, set_staged (f (w_staged w)) w))).
Definition markFlushed (dmailPath target : string) : act (result unit) :=
  exec_update (update_rows dmailPath target set_flushed).
Definition incrementRetryCount (dmailPath target : string) : act (result unit) :=
  exec_update (update_rows dmailPath target incr_retry).

Definition flush_item (flushed : list DeliveryFlushed) (item : StagedRow)
    : program (list DeliveryFlushed + (list DeliveryFlushed * error)) :=
  writeErr ← atomicWrite (sr_target item) (sr_data item);
  match writeErr with
  | Some _ =>
      r ← atom (incrementRetryCount (sr_path item) (sr_target item));
      match r with
      | Err err => mret (inr (flushed, errorf_w "delivery store: increment retry: " err))
      | Ok _ => mret (inl flushed)
      end
  | None =>
      r ← atom (markFlushed (sr_path item) (sr_target item));
      match r with
      | Err err => mret (inr (flushed, errorf_w "delivery store: mark flushed: " err))
      | Ok _ => mret (inl (flushed ++ [mkFlushed (sr_path item) (sr_target item)]))
      end
  end.

Definition FlushDeliveries_prog : program (list DeliveryFlushed * option error) :=
  r ← atom collectUnflushed;
  match r with
  | Err err => mret ([], Some err)
  | Ok [] => mret ([], None)
  | Ok items =>
      o ← for_range items [] flush_item;
      match o with
      | inl flushed => mret (flushed, None)
      | inr (flushed, err) => mret (flushed, Some err)
      end
  end.

Definition RecoverUnflushed : act (result (list StagedDelivery)) :=
  query "delivery store: recover unflushed: " "delivery store: scan unflushed: "
    (λ w, (λ r, mkStagedD (sr_path r) (sr_target r) (sr_data r))
            <$> List.filter (λ r, negb (sr_flushed r)) (w_staged w)).

Definition unflushed_for (dmailPath : string) (r : StagedRow) : bool :=
  bool_decide (sr_path r = dmailPath) && negb (sr_flushed r).

Definition AllFlushedFor_query (dmailPath : string) : act (result bool) :=
  guarded "delivery store: all flushed check: "
    (λ w, (Ok (length (List.filter (unflushed_for dmailPath) (w_staged w)) =? 0), w)).

Definition deleteFlushedRows : act (result nat) :=
  sql_tx "delivery store: get conn: " "delivery store: begin immediate: " "delivery store: commit prune: "
    (guarded "delivery store: delete flushed: " (λ w,
      (Ok (length (List.filter sr_flushed (w_staged w))),
       set_staged (List.filter (λ r, negb (sr_flushed r)) (w_staged w)) w))).

Definition PruneFlushed : program (nat * option error) :=
  r ← atom deleteFlushedRows;
  match r with
  | Err err => mret (0, Some err)
  | Ok affected =>
      v ← atom (guarded "delivery store: vacuum: " (λ w, (Ok tt, w)));
      mret (affected, err_of v)
  end.

Definition dead_letter (r : StagedRow) : bool :=
  negb (sr_flushed r) && (maxDeliveryRetryCount <=? sr_retry r)%Z.

Definition DeadLetterCount : act (result nat) :=
  guarded "delivery store: dead letter count: "
    (λ w, (Ok (length (List.filter dead_letter (w_staged w))), w)).

Definition PurgeDeadLetters : act (result nat) := λ w,
  guarded "delivery store: purge dead letters: " (λ w,
    let purged := set_staged (List.filter (λ r, negb (dead_letter r)) (w_staged w)) w in
    let '(f, w') := fault purged in
    match f with
    | Some e => (Err (errorf_w "delivery store: rows affected: " e), w')
    | None => (Ok (length (List.filter dead_letter (w_staged w))), w')
    end) w.

End Staged.

Definition SQLiteDeliveryStore : DeliveryStore := {|
  StageDelivery p d ts := r ← atom (Staged.StageDelivery_tx p d ts); mret (err_of r);
  FlushDeliveries := Staged.FlushDeliveries_prog;
  AllFlushedFor p := atom (Staged.AllFlushedFor_query p) |}.

(** ** The delivery_log table of the dedup store *)

Module Dedup.

Definition has (key target : string) (rows : list DedupRow) : bool :=
  existsb (λ r, bool_decide (dd_key r = key) && bool_decide (dd_target r = target)) rows.

Definition HasDelivered_query (key target : string) : act (result bool) :=
  guarded "delivery dedup: has delivered: " (λ w, (Ok (has key target (w_dedup w)), w)).

(** [INSERT OR IGNORE]. *)
Definition RecordDelivery_exec (key target : string) : act (result unit) := λ w,
  let '(now, w) := Now w in
  guarded "delivery dedup: record: " (λ w,
    (Ok tt, if has key target (w_dedup w) then w
            else set_dedup (w_dedup w ++ [mkDedup key target now]) w)) w.

End Dedup.

Definition SQLiteDeliveryDedupStore : DeliveryDedupStore := {|
  HasDelivered k t := atom (Dedup.HasDelivered_query k t);
  RecordDelivery k t := r ← atom (Dedup.RecordDelivery_exec k t); mret (err_of r) |}.
