(* ===== verification/ErrorQueue.v ===== *)
(** * The error queue

    Models [session/error_queue_store.go] over the [error_queue] table: the
    write operations are transactions ([sql_tx]), [datetime('now')] is the
    clock of the world in seconds, and the column [created_at], which nothing
    reads, is left out. *)
From S2P Require Import Prelude GoStrings GoTime DMail Prog World.

Record ErrorEntry := mkEntry {
  ee_Name : string; ee_Data : bytes; ee_SourceOutbox : string; ee_Kind : DMailKind;
  ee_OriginalName : string; ee_ErrorMessage : string; ee_RetryCount : Z }.

Definition to_entry (r : ErrorRow) : ErrorEntry :=
  mkEntry (er_name r) (er_data r) (er_source_outbox r) (er_kind r) (er_original_name r)
          (er_error_message r) (er_retry_count r).

Definition queue_tx {A} (label : string) (body : act (result A)) : act (result A) :=
  sql_tx "error queue store: get conn: " "error queue store: begin immediate: "
         ("error queue store: commit " +:+ label +:+ ": ") body.

(** [INSERT OR IGNORE]. *)
Definition insert_ignore (row : ErrorRow) (rows : list ErrorRow) : list ErrorRow :=
  if existsb (λ r, bool_decide (er_name r = er_name row)) rows then rows else rows ++ [row].

Definition Enqueue (name : string) (data : bytes) (meta : ErrorMetadata) : act (result unit) :=
  queue_tx ("enqueue " +:+ name)
    (guarded ("error queue store: enqueue " +:+ name +:+ ": ") (λ w,
      (Ok tt, set_queue (insert_ignore
        (mkErrorRow name data (em_SourceOutbox meta) (em_Kind meta) (em_OriginalName meta)
                    (em_Error meta) (em_Attempts meta) false "" None) (w_queue w)) w))).

Definition lease : Z := 300.   (* '-5 minutes', in seconds *)

(** [claimed_at < datetime('now', '-5 minutes')] *)
Definition expired (now : Z) (r : ErrorRow) : bool :=
  match er_claimed_at r with None => true | Some t => (t <? now - lease)%Z end.

Definition claimable (maxRetries now : Z) (r : ErrorRow) : bool :=
  negb (er_resolved r) && (er_retry_count r <? maxRetries)%Z
  && (bool_decide (er_claimed_by r = "") || expired now r).

Definition set_claim (claimer : string) (at_ : option Z) (r : ErrorRow) : ErrorRow :=
  mkErrorRow (er_name r) (er_data r) (er_source_outbox r) (er_kind r) (er_original_name r)
             (er_error_message r) (er_retry_count r) (er_resolved r) claimer at_.

Definition claim_row (claimer : string) (maxRetries now : Z) (r : ErrorRow) : ErrorRow :=
  if claimable maxRetries now r then set_claim claimer (Some now) r else r.

Definition held_by (claimer : string) (r : ErrorRow) : bool :=
  bool_decide (er_claimed_by r = claimer) && negb (er_resolved r).

(** The UPDATE, the SELECT with the scan of its rows, and [rows.Err()]. *)
Definition ClaimPendingRetries (claimerID : string) (maxRetries : Z) : act (result (list ErrorEntry)) :=
  queue_tx "claim" (λ w,
    let '(t, w) := Now w in
    guarded "error queue store: claim update: " (λ w,
      let w := set_queue (claim_row claimerID maxRetries (t / Second) <$> w_queue w) w in
      guarded "error queue store: claim select: "
        (guarded "error queue store: scan row: "
          (guarded "error queue store: rows iter: " (λ w,
            (Ok (to_entry <$> List.filter (held_by claimerID) (w_queue w)), w)))) w) w).

Definition pending (maxRetries : Z) (r : ErrorRow) : bool :=
  negb (er_resolved r) && (er_retry_count r <? maxRetries)%Z.

Definition PendingCount (maxRetries : Z) : act (result nat) :=
  guarded "error queue store: pending count: "
    (λ w, (Ok (length (List.filter (pending maxRetries) (w_queue w))), w)).

Definition on_name (name : string) (f : ErrorRow → ErrorRow) (rows : list ErrorRow) : list ErrorRow :=
  (λ r, if bool_decide (er_name r = name) then f r else r) <$> rows.

Definition incr_row (newError : string) (r : ErrorRow) : ErrorRow :=
  mkErrorRow (er_name r) (er_data r) (er_source_outbox r) (er_kind r) (er_original_name r)
             newError (er_retry_count r + 1) (er_resolved r) "" None.
Definition resolve_row (r : ErrorRow) : ErrorRow :=
  mkErrorRow (er_name r) (er_data r) (er_source_outbox r) (er_kind r) (er_original_name r)
             (er_error_message r) (er_retry_count r) true (er_claimed_by r) (er_claimed_at r).

Definition IncrementRetry (name newError : string) : act (result unit) :=
  queue_tx ("increment " +:+ name)
    (guarded ("error queue store: increment retry " +:+ name +:+ ": ")
      (λ w, (Ok tt, set_queue (on_name name (incr_row newError) (w_queue w)) w))).

Definition MarkResolved (name : string) : act (result unit) :=
  queue_tx ("resolved " +:+ name)
    (guarded ("error queue store: mark resolved " +:+ name +:+ ": ")
      (λ w, (Ok tt, set_queue (on_name name resolve_row (w_queue w)) w))).

(** The name under which [enqueueDeliveryFailure] and [ScanAndDeliver] file a
    failed D-Mail: [fmt.Sprintf("%s-%s-%s", ts.Format(...), kind, name)]. *)
Definition queue_name (t : Time) (kind original : string) : string :=
  format_queue t +:+ "-" +:+ kind +:+ "-" +:+ original.
