(* ===== verification/Deliver.v ===== *)
(** * Delivering one D-Mail

    Models [session/deliver.go]: [Deliver], [DeliverData] and
    [recordDedupForTargets], written against the store ports.  The pair a Go
    function returns is a pair of options; a nil dedup store is [None].
    Tracing spans have no effect on the state and are left out. *)
From S2P Require Import Prelude GoStrings GoPath GoTime Sha256 DMail Provider Improvement Breaker Prog World DeliveryStore.

Abbreviation outcome := (option DeliveryResult * option error)%type.

Section Deliver.
Context `{External} `{DeliveryStore}.

(** The checks of [DeliverData] before it looks for a route. *)
Definition validate_dmail (dmailPath : string) (data : bytes) : result DMailFrontmatter :=
  let prefix := "parse D-Mail " +:+ dmailPath +:+ ": " in
  match ParseDMailFrontmatter data with
  | Err err => Err (errorf_w prefix err)
  | Ok fm =>
      let kind := fm_Kind fm in
      if bool_decide (fm_SchemaVersion fm = "") then
        Err (errors_New (prefix +:+ "D-Mail missing required 'dmail-schema-version' field"))
      else if negb (bool_decide (fm_SchemaVersion fm = SupportedDMailSchemaVersion)) then
        Err (errors_New (prefix +:+ "unsupported dmail-schema-version " +:+ quote (fm_SchemaVersion fm)
                         +:+ ": only " +:+ quote SupportedDMailSchemaVersion +:+ " is supported"))
      else if bool_decide (kind = "") then
        Err (errors_New (prefix +:+ "D-Mail missing required 'kind' field"))
      else match ParseDMailKind kind with
           | Err err => Err (errorf_w prefix err)
           | Ok _ => Ok fm
           end
  end.

(** The first route for the kind and the outbox. *)
Definition match_route (kind : DMailKind) (sourceDir : string) (routes : list ResolvedRoute)
    : option ResolvedRoute :=
  List.find (λ r, bool_decide (rr_Kind r = kind) && bool_decide (rr_FromOutbox r = sourceDir)) routes.

(** The inboxes of the route that the dedup store has not seen; stops at the
    first read error. *)
Definition filter_step (dedup : DeliveryDedupStore) (key : string) (remaining : list string)
    (inbox : string) : program (list string + error) :=
  r ← @HasDelivered dedup key inbox;
  match r with
  | Err err => mret (inr (errorf_w ("dedup read " +:+ inbox +:+ ": ") err))
  | Ok delivered => mret (inl (if (delivered : bool) then remaining else remaining ++ [inbox]))
  end.
Definition filter_delivered (dedup : DeliveryDedupStore) (key : string) (inboxes : list string)
    : program (list string + error) :=
  for_range inboxes [] (filter_step dedup key).

Definition record_step (dedup : DeliveryDedupStore) (key : string) (allOK : bool) (inbox : string)
    : program (bool + Empty_set) :=
  recErr ← @RecordDelivery dedup key inbox;
  match recErr with
  | Some _ => mret (inl false)
  | None => mret (inl allOK)
  end.

Definition recordDedupForTargets (dedup : DeliveryDedupStore) (key : string) (targetInboxes : list string)
    : program bool :=
  o ← for_range targetInboxes true (record_step dedup key);
  match o with inl allOK => mret allOK | inr e => match e : Empty_set with end end.

(** The inboxes to record after a flush: those just written, and, when every
    row of the D-Mail is flushed, the others that were selected. *)
Definition dedup_targets (deliveredTo targetInboxes : list string) (allDone : bool) : list string :=
  let newly := Dir <$> deliveredTo in
  newly ++ (if allDone then List.filter (λ inbox, negb (bool_decide (inbox ∈ newly))) targetInboxes else []).

Definition remove_source (dmailPath : string) : program (option error) :=
  r ← atom (os_Remove dmailPath);
  match r with
  | Ok _ => mret None
  | Err err => if errors_Is err ErrNotExist then mret None else mret (Some err)
  end.

(** From the staging of the intents to the removal of the source. *)
Definition stage_and_flush (dedup : option DeliveryDedupStore) (dmailPath : string) (data : bytes)
    (kind : DMailKind) (targetInboxes : list string) : program outcome :=
  let fileName := Base dmailPath in
  let idempotencyKey := ContentIdempotencyKey data in
  let targetPaths := (λ inbox, path_Join [inbox; fileName]) <$> targetInboxes in
  serr ← StageDelivery dmailPath data targetPaths;
  match serr with
  | Some err => mret (None, Some (errorf_w ("stage delivery " +:+ dmailPath +:+ ": ") err))
  | None =>
      fl ← FlushDeliveries;
      let deliveredTo := df_Target <$> List.filter (λ f, bool_decide (df_DMailPath f = dmailPath)) (fst fl) in
      let result := mkResult dmailPath kind deliveredTo in
      af ← AllFlushedFor dmailPath;
      let allDone := match af with Ok b => b | Err _ => false end in
      allRecorded ← match dedup with
                    | None => mret true
                    | Some d => recordDedupForTargets d idempotencyKey
                                  (dedup_targets deliveredTo targetInboxes allDone)
                    end;
      if (allDone : bool) && allRecorded then
        rerr ← remove_source dmailPath;
        match rerr with
        | Some err => mret (Some result, Some (errorf_w ("remove source " +:+ dmailPath +:+ ": ") err))
        | None => mret (Some result, None)
        end
      else mret (Some result, None)
  end.

Definition DeliverData (dedup : option DeliveryDedupStore) (routes : list ResolvedRoute)
    (dmailPath : string) (data : bytes) : program outcome :=
  match validate_dmail dmailPath data with
  | Err err => mret (None, Some err)
  | Ok fm =>
      let kind := fm_Kind fm in
      let metadata := CorrectionMetadataFromMap (fm_Metadata fm) in
      let sourceDir := Dir dmailPath in
      match match_route kind sourceDir routes with
      | None => mret (None, Some (errors_New ("no route for kind=" +:+ quote kind +:+ " from " +:+ sourceDir)))
      | Some matchedRoute =>
          let targetInboxes := SelectDeliveryInboxes kind (rr_ToInboxes matchedRoute) (fm_Targets fm) metadata in
          let idempotencyKey := ContentIdempotencyKey data in
          match dedup with
          | None => stage_and_flush dedup dmailPath data kind targetInboxes
          | Some d =>
              o ← filter_delivered d idempotencyKey targetInboxes;
              match o with
              | inr err => mret (None, Some err)
              | inl [] =>
                  _ ← remove_source dmailPath;
                  mret (Some (mkResult dmailPath kind []), None)
              | inl remaining => stage_and_flush dedup dmailPath data kind remaining
              end
          end
      end
  end.

Definition Deliver (routes : list ResolvedRoute) (dmailPath : string) : program outcome :=
  r ← atom (os_ReadFile dmailPath);
  match r with
  | Err err => mret (None, Some (errorf_w "read D-Mail: " err))
  | Ok data => DeliverData None routes dmailPath data
  end.

End Deliver.

(** The selection a D-Mail gets from the routing table, as a function of its
    content: what "delivered everywhere" has to mean for it. *)
Definition selected_inboxes `{External} (routes : list ResolvedRoute) (dmailPath : string) (data : bytes)
    : option (list string) :=
  match validate_dmail dmailPath data with
  | Err _ => None
  | Ok fm =>
      route ← match_route (fm_Kind fm) (Dir dmailPath) routes;
      Some (SelectDeliveryInboxes (fm_Kind fm) (rr_ToInboxes route) (fm_Targets fm)
              (CorrectionMetadataFromMap (fm_Metadata fm)))
  end.
