(* ===== verification/Safety.v ===== *)
(** * Safety of concurrent delivery

    The rely-guarantee protocol of the delivery pipeline and the proof that
    every goroutine keeps it.  [content] names the D-Mail each outbox path
    carries; the protocol is about workloads in which all tasks for a path
    carry the same content (the file [Race] shows what happens otherwise).

    [Inv] is the invariant of the shared world: staged rows hold the content
    of their path, a row is marked flushed only after its content was renamed
    onto its target, a dedup record is backed by a write into that inbox,
    every temporary file belongs to one goroutine, an outbox file holds the
    content of its path and is never a delivery target, and every removed
    source is [settled]: delivered to every inbox selected for it, or in the
    error queue.  A step of the environment (a producer that drops a D-Mail
    into an outbox) is admitted by the rely like any other. *)
From S2P Require Import Prelude GoStrings GoPath GoTime Sha256 DMail Improvement Prog World DeliveryStore ErrorQueue Deliver.

(** A temporary file of [atomicWrite]. *)
Definition temp (p : string) : Prop := HasPrefix (Base p) tmp_prefix = true.

(** A path a D-Mail can have: clean, with a file name that is not temporary. *)
Definition mail_path (p : string) : Prop := Clean p = p ∧ ¬ temp p ∧ plain (Base p).

(** Some file with this content key was put into the inbox. *)
Definition delivered_to (w : World) (key inbox : string) : Prop :=
  ∃ t d, EWrote t d ∈ w_trace w ∧ Dir t = inbox ∧ ContentIdempotencyKey d = key.

(** The path an entry of the error queue was filed for. *)
Definition row_path (r : ErrorRow) : string := path_Join [er_source_outbox r; er_original_name r].

#[global] Arguments row_path : simpl never.
#[global] Arguments queue_name : simpl never.

(** The error queue holds this D-Mail of this path; the entry may since have
    been resolved, but it keeps the data. *)
Definition queued (w : World) (p : string) (data : bytes) : Prop :=
  ∃ r, r ∈ w_queue w ∧ row_path r = p ∧ er_data r = data.

(** The clock readings that name queue entries never give the same name
    twice.  ([Enqueue] ignores an entry whose name is taken, and the caller
    then removes the source.) *)
Definition stamps_distinct (env : Env) : Prop :=
  ∀ n m k b k' b', queue_name (env_stamp env n) k b = queue_name (env_stamp env m) k' b' → n = m.

(** The parts of the world the protocol is about. *)
Definition same_view (w w' : World) : Prop :=
  w_fs w' = w_fs w ∧ w_owner w' = w_owner w ∧ w_stamps w' = w_stamps w ∧
  w_staged w' = w_staged w ∧ w_dedup w' = w_dedup w ∧
  w_queue w' = w_queue w ∧ w_trace w' = w_trace w ∧ w_env w' = w_env w.

Lemma tick_only_view w w' : tick_only w w' → same_view w w'.
Proof. unfold tick_only. intros ->. by destruct w. Qed.

Section Protocol.
Context `{External}.
Variable routes : list ResolvedRoute.
Variable content : string → bytes.
(** The directories the daemon takes D-Mails from. *)
Variable outbox : string → Prop.

Definition settled (w : World) (p : string) : Prop :=
  queued w p (content p) ∨
  ∃ inboxes, selected_inboxes routes p (content p) = Some inboxes ∧
    ∀ inbox, inbox ∈ inboxes → delivered_to w (ContentIdempotencyKey (content p)) inbox.

Record Inv (w : World) : Prop := {
  inv_env : ∀ n, has_byte slash (env_suffix (w_env w) n) = false;
  inv_row : ∀ r, r ∈ w_staged w →
    sr_data r = content (sr_path r) ∧ Clean (sr_target r) = sr_target r ∧ ¬ temp (sr_target r) ∧
    ¬ outbox (Dir (sr_target r));
  inv_flushed : ∀ r, r ∈ w_staged w → sr_flushed r = true →
    EWrote (sr_target r) (sr_data r) ∈ w_trace w;
  inv_dedup : ∀ r, r ∈ w_dedup w → delivered_to w (dd_key r) (dd_target r);
  inv_owner : ∀ n i, w_owner w !! n = Some i → temp n ∧ ∃ d, w_fs w !! n = Some (NFile d);
  inv_source : ∀ p d, mail_path p → outbox (Dir p) → w_fs w !! p = Some (NFile d) → d = content p;
  inv_queue : ∀ r, r ∈ w_queue w →
    mail_path (row_path r) ∧ er_data r = content (row_path r);
  inv_stamps : stamps_distinct (w_env w);
  inv_names : ∀ r n k b, r ∈ w_queue w → length (w_stamps w) ≤ n →
    er_name r ≠ queue_name (env_stamp (w_env w) n) k b;
  inv_removed : ∀ c, ERemoved c ∈ w_trace w → temp c ∨ settled w c }.

(** How the world may move: history grows, records and rows stay, nothing is
    delivered into an outbox, and a file that is not temporary keeps its
    content until it is removed or a delivery replaces it. *)
Record evolve (w w' : World) : Prop := {
  ev_trace : ∃ new, w_trace w' = new ++ w_trace w ∧
    (∀ c d, EWrote c d ∈ new → ¬ outbox (Dir c)) ∧
    ∀ c d, ¬ temp c → w_fs w !! c = Some (NFile d) →
      w_fs w' !! c = Some (NFile d) ∨ ERemoved c ∈ new ∨ ∃ d', EWrote c d' ∈ new;
  ev_dedup : ∀ r, r ∈ w_dedup w → r ∈ w_dedup w';
  ev_rows : ∀ r, r ∈ w_staged w →
    ∃ r', r' ∈ w_staged w' ∧ sr_path r' = sr_path r ∧ sr_target r' = sr_target r;
  ev_queue : ∀ r, r ∈ w_queue w →
    ∃ r', r' ∈ w_queue w' ∧ row_path r' = row_path r ∧ er_data r' = er_data r;
  ev_stamps : w_stamps w `prefix_of` w_stamps w';
  ev_env : w_env w' = w_env w }.

(** What goroutine [i] holds is not touched: its temporary files, and the
    names it has reserved in the error queue by reading the clock. *)
Definition keeps_files (i : nat) (w w' : World) : Prop :=
  ∀ n, w_owner w !! n = Some i → w_owner w' !! n = Some i ∧ w_fs w' !! n = w_fs w !! n.
Definition name_taken (n : nat) (w : World) : Prop :=
  ∃ r k b, r ∈ w_queue w ∧ er_name r = queue_name (env_stamp (w_env w) n) k b.
Definition keeps_names (i : nat) (w w' : World) : Prop :=
  ∀ n, w_stamps w !! n = Some i → name_taken n w' → name_taken n w.
Record keeps (i : nat) (w w' : World) : Prop := mkKeeps {
  kp_files : keeps_files i w w'; kp_names : keeps_names i w w' }.

Definition Rely (i : nat) (w w' : World) : Prop := Inv w → Inv w' ∧ evolve w w' ∧ keeps i w w'.
Definition Guar (i : nat) (w w' : World) : Prop :=
  Inv w → Inv w' ∧ evolve w w' ∧ ∀ j, j ≠ i → keeps j w w'.

(** *** Order structure *)

Lemma evolve_refl w : evolve w w.
Proof.
  constructor; try eauto. exists []. split_and!; [done|by intros c d ?%elem_of_nil|by left].
Qed.

Lemma evolve_trans w1 w2 w3 : evolve w1 w2 → evolve w2 w3 → evolve w1 w3.
Proof.
  intros [(n1 & E1 & O1 & F1) D1 R1 Q1 S1 V1] [(n2 & E2 & O2 & F2) D2 R2 Q2 S2 V2]. constructor; auto.
  - exists (n2 ++ n1). split_and!; [by rewrite E2, E1, app_assoc| |].
    { intros c d [?|?]%elem_of_app; eauto. }
    intros c d Hc Hd. setoid_rewrite elem_of_app.
    destruct (F1 c d Hc Hd) as [F|[?|[d' ?]]]; [|eauto..].
    destruct (F2 c d Hc F) as [?|[?|[d' ?]]]; eauto.
  - intros r Hr. destruct (R1 r Hr) as (r1 & Hr1 & E3 & E4). destruct (R2 r1 Hr1) as (r2 & Hr2 & E5 & E6).
    exists r2. split_and!; congruence.
  - intros r Hr. destruct (Q1 r Hr) as (r1 & Hr1 & E3 & E4). destruct (Q2 r1 Hr1) as (r2 & Hr2 & E5 & E6).
    exists r2. split_and!; congruence.
  - by trans (w_stamps w2).
  - congruence.
Qed.

Lemma keeps_trans i w1 w2 w3 :
  w_stamps w1 `prefix_of` w_stamps w2 → keeps i w1 w2 → keeps i w2 w3 → keeps i w1 w3.
Proof.
  intros Hp [F1 N1] [F2 N2]. split.
  - intros n Hn. destruct (F1 n Hn) as [Hn2 <-]. by apply F2.
  - intros n Hn Ht. apply N1; [done|]. apply N2; [by eapply prefix_lookup_Some|done].
Qed.

(** A step that leaves the queue alone keeps all names. *)
Lemma keeps_intro i w w' :
  w_queue w' = w_queue w → w_env w' = w_env w → keeps_files i w w' → keeps i w w'.
Proof. intros Eq Ee HF. split; [done|]. intros n Hn. unfold name_taken. by rewrite Eq, Ee. Qed.

#[export] Instance Rely_preorder i : PreOrder (Rely i).
Proof.
  split.
  - intros w Hw. split; [done|]. split; [apply evolve_refl|]. by apply keeps_intro; [..|intros n].
  - intros w1 w2 w3 H12 H23 Hw. destruct (H12 Hw) as (I2 & E12 & K12).
    destruct (H23 I2) as (I3 & E23 & K23). split_and!; [done|by eapply evolve_trans|].
    eapply keeps_trans; [by apply ev_stamps|by eauto|by eauto].
Qed.

Lemma Guar_Rely i j w w' : i ≠ j → Guar i w w' → Rely j w w'.
Proof. intros Hne HG Hw. destruct (HG Hw) as (? & ? & HK). split_and!; auto. Qed.

(** *** Monotone facts *)

Lemma delivered_to_mono w w' key inbox :
  (∀ e, e ∈ w_trace w → e ∈ w_trace w') → delivered_to w key inbox → delivered_to w' key inbox.
Proof. intros Hs (t & d & ? & ? & ?). exists t, d. auto. Qed.

Lemma evolve_trace w w' e : evolve w w' → e ∈ w_trace w → e ∈ w_trace w'.
Proof. intros [(n & -> & _ & _) _ _ _ _ _] He. apply elem_of_app. by right. Qed.

Lemma settled_mono w w' p : evolve w w' → settled w p → settled w' p.
Proof.
  intros Hev [(r & Hr & Ep & Ed)|(ib & E & HD)].
  - left. destruct (ev_queue _ _ Hev r Hr) as (r' & ? & ? & ?). exists r'. split_and!; congruence.
  - right. exists ib. split; [done|]. intros i Hi.
    eapply delivered_to_mono; [|by apply HD]. intros e. by apply evolve_trace.
Qed.

(** Steps outside the protocol's view. *)
Lemma Guar_view i w w' : same_view w w' → Guar i w w'.
Proof.
  intros (Efs & Eo & Est & Es & Ed & Eq & Et & Ee) Hw.
  assert (evolve w w') as Hev.
  { constructor; rewrite ?Efs, ?Es, ?Ed, ?Eq, ?Est; try eauto. exists []. split_and!; [done|by intros ? ? ?%elem_of_nil|by left]. }
  split_and!; [|done|intros j Hj; apply keeps_intro; [done|done|]; intros n Hn; by rewrite Eo, Efs].
  destruct Hw. constructor; rewrite ?Efs, ?Eo, ?Est, ?Es, ?Ed, ?Eq, ?Et, ?Ee; eauto.
  - intros r Hr. eapply delivered_to_mono; [|by apply inv_dedup0]. by rewrite Et.
  - intros c Hc. destruct (inv_removed0 c Hc); [by left|right]. by eapply settled_mono.
Qed.

Lemma Guar_tick i w w' : tick_only w w' → Guar i w w'.
Proof. intros. by apply Guar_view, tick_only_view. Qed.

Lemma Guar_trans i w1 w2 w3 : Guar i w1 w2 → Guar i w2 w3 → Guar i w1 w3.
Proof.
  intros H12 H23 Hw. destruct (H12 Hw) as (I2 & E12 & K12). destruct (H23 I2) as (I3 & E23 & K23).
  split_and!; [done|by eapply evolve_trans|]. intros j Hj. eapply keeps_trans; [by apply ev_stamps|by eauto|by eauto].
Qed.

(** *** Steps on one table *)

Lemma Guar_staged i rows w :
  (∀ r, r ∈ rows → sr_data r = content (sr_path r) ∧ Clean (sr_target r) = sr_target r ∧
                   ¬ temp (sr_target r) ∧ ¬ outbox (Dir (sr_target r)) ∧
                   (sr_flushed r = true → EWrote (sr_target r) (sr_data r) ∈ w_trace w)) →
  (∀ r, r ∈ w_staged w → ∃ r', r' ∈ rows ∧ sr_path r' = sr_path r ∧ sr_target r' = sr_target r) →
  Guar i w (set_staged rows w).
Proof.
  intros Hrows Hkeys Hw. assert (evolve w (set_staged rows w)) as Hev.
  { constructor; cbn; eauto. exists []. split_and!; [done|by intros ? ? ?%elem_of_nil|by left]. }
  split_and!; [|done|by intros j Hj; apply keeps_intro].
  destruct Hw. constructor; cbn; eauto; intros r Hr; apply Hrows in Hr; tauto.
Qed.

Lemma Guar_dedup i rows w :
  (∀ r, r ∈ w_dedup w → r ∈ rows) →
  (∀ r, r ∈ rows → r ∈ w_dedup w ∨ delivered_to w (dd_key r) (dd_target r)) →
  Guar i w (set_dedup rows w).
Proof.
  intros Hsup Hrows Hw. assert (evolve w (set_dedup rows w)) as Hev.
  { constructor; cbn; eauto. exists []. split_and!; [done|by intros ? ? ?%elem_of_nil|by left]. }
  split_and!; [|done|by intros j Hj; apply keeps_intro].
  destruct Hw. constructor; cbn; auto. intros r Hr. destruct (Hrows r Hr) as [?|Hd]; [|done].
  by apply inv_dedup0.
Qed.

(** The rows of the queue keep what they are about; a new row is named by a
    clock reading of the goroutine that adds it. *)
Lemma Guar_queue i rows w :
  (∀ r, r ∈ w_queue w → ∃ r', r' ∈ rows ∧ row_path r' = row_path r ∧ er_data r' = er_data r) →
  (∀ r, r ∈ rows →
     (∃ r0, r0 ∈ w_queue w ∧ er_name r = er_name r0 ∧ er_data r = er_data r0 ∧ row_path r = row_path r0) ∨
     (mail_path (row_path r) ∧ er_data r = content (row_path r) ∧
      ∃ n k b, w_stamps w !! n = Some i ∧ er_name r = queue_name (env_stamp (w_env w) n) k b)) →
  Guar i w (set_queue rows w).
Proof.
  intros Hsup Hrows Hw. assert (evolve w (set_queue rows w)) as Hev.
  { constructor; cbn; eauto. exists []. split_and!; [done|by intros ? ? ?%elem_of_nil|by left]. }
  split_and!; [|done|].
  - destruct Hw. constructor; cbn; auto.
    + intros r Hr. destruct (Hrows r Hr) as [(r0 & H0 & _ & E2 & E3)|(? & ? & _)]; [|done].
      rewrite E2, E3. by apply inv_queue0.
    + intros r n k b Hr Hn. destruct (Hrows r Hr) as [(r0 & H0 & -> & _)|(_ & _ & m & k' & b' & Hm & ->)].
      * by apply inv_names0.
      * intros E%inv_stamps0. subst m. apply lookup_lt_Some in Hm. lia.
    + intros c Hc. destruct (inv_removed0 c Hc); [by left|right]. by eapply settled_mono.
  - intros j Hj. split; [by intros n Hn|]. intros n Hn (r & k & b & Hr & E). cbn in Hr, E.
    destruct (Hrows r Hr) as [(r0 & H0 & E0 & _)|(_ & _ & m & k' & b' & Hm & E')].
    + exists r0, k, b. split; [done|congruence].
    + rewrite E' in E. apply (inv_stamps _ Hw) in E. congruence.
Qed.

(** Reading the clock for a name reserves it. *)
Lemma Guar_stamp i w : Guar i w (set_stamps (w_stamps w ++ [i]) w).
Proof.
  intros Hw. set (w' := set_stamps _ _). assert (evolve w w') as Hev.
  { constructor; cbn; eauto using prefix_app_r. exists []. split_and!; [done|by intros ? ? ?%elem_of_nil|by left]. }
  split_and!; [|done|by intros j Hj; apply keeps_intro].
  destruct Hw. constructor; cbn; auto. intros r n k b Hr Hn. rewrite length_app in Hn. cbn in Hn.
  apply inv_names0; [done|lia].
Qed.

(** *** Steps on files *)

Lemma temp_of_temp_name dir x :
  has_byte slash x = false →
  Clean (path_Join [dir; tmp_prefix +:+ x]) = path_Join [dir; tmp_prefix +:+ x] ∧
  temp (path_Join [dir; tmp_prefix +:+ x]).
Proof.
  intros Hx. assert (plain (tmp_prefix +:+ x)) as Hp by by split_and!.
  split; [by apply Clean_Join|]. unfold temp. rewrite Base_Join by done.
  unfold HasPrefix. apply prefix_refl_app.
Qed.

(** A new temporary file belongs to its creator. *)
Lemma Guar_create i n w :
  w_fs w !! n = None → temp n →
  Guar i w (set_owner (<[n := i]> (w_owner w)) (set_fs (<[n := NFile []]> (w_fs w)) w)).
Proof.
  intros Hn Ht Hw. set (w' := set_owner _ _).
  assert (evolve w w') as Hev.
  { constructor; cbn; eauto. exists []. split_and!; [done|by intros ? ? ?%elem_of_nil|]. intros c d Hc Hd. left.
    rewrite lookup_insert_ne; [done|]. by intros ->. }
  destruct Hw as [I1 I2 I3 I4 I5 IS I6 IE IN I7]. split_and!; [|done|].
  - constructor; cbn; [done|done|done|done| | |done|done|done|done].
    2:{ intros p d Hp Hout. rewrite lookup_insert_ne; [by apply IS|]. intros ->. by destruct Hp as (_ & ? & _). }
    intros m j. rewrite lookup_insert. case_decide as E.
    + subst m. intros [= <-]. split; [done|]. exists []. by rewrite lookup_insert_eq.
    + intros Hj. destruct (I5 _ _ Hj) as [Hm [d Hd]]. split; [done|]. exists d.
      by rewrite lookup_insert_ne.
  - intros j Hj. apply keeps_intro; [done|done|]. intros m Hm. cbn. destruct (I5 _ _ Hm) as [_ [d Hd]].
    assert (n ≠ m) by congruence. by rewrite !lookup_insert_ne.
Qed.

(** Writing to one's own temporary file. *)
Lemma Guar_write i n d w :
  w_owner w !! n = Some i → Guar i w (set_fs (<[n := NFile d]> (w_fs w)) w).
Proof.
  intros Ho Hw. set (w' := set_fs _ _). destruct (inv_owner _ Hw _ _ Ho) as [Ht [d0 Hd0]].
  assert (evolve w w') as Hev.
  { constructor; cbn; eauto. exists []. split_and!; [done|by intros ? ? ?%elem_of_nil|]. intros c d' Hc Hd. left.
    rewrite lookup_insert_ne; [done|]. by intros ->. }
  destruct Hw as [I1 I2 I3 I4 I5 IS I6 IE IN I7]. split_and!; [|done|].
  - constructor; cbn; [done|done|done|done| | |done|done|done|done].
    2:{ intros p d' Hp Hout. rewrite lookup_insert_ne; [by apply IS|]. intros ->. by destruct Hp as (_ & ? & _). }
    intros m j Hj. destruct (I5 _ _ Hj) as [Hm [d1 Hd1]]. split; [done|].
    destruct (decide (n = m)) as [->|]; [exists d; by rewrite lookup_insert_eq|].
    exists d1. by rewrite lookup_insert_ne.
  - intros j Hj. apply keeps_intro; [done|done|]. intros m Hm. cbn. assert (n ≠ m) by congruence. by rewrite lookup_insert_ne.
Qed.

(** Unlinking: one's own temporary file, or a settled source. *)
Lemma Guar_remove i c d w :
  w_fs w !! c = Some (NFile d) →
  (temp c ∧ w_owner w !! c = Some i) ∨ (¬ temp c ∧ settled w c) →
  Guar i w (add_effect (ERemoved c) (unlink c w)).
Proof.
  intros Hc Hor Hw. set (w' := add_effect _ _).
  assert (evolve w w') as Hev.
  { constructor; cbn; eauto. exists [ERemoved c]. split_and!; [done|by intros ? ? ?%list_elem_of_singleton|]. intros e d' He Hd.
    destruct (decide (e = c)) as [->|]; [right; left; by left|]. left. by rewrite lookup_delete_ne. }
  assert (∀ e, e ∈ w_trace w → e ∈ w_trace w') as Htr by (intros; cbn; by right).
  destruct Hw as [I1 I2 I3 I4 I5 IS I6 IE IN I7]. split_and!; [|done|].
  - constructor; cbn; [done|done| | | | |done|done|done|].
    + intros r Hr Hf. right. by apply I3.
    + intros r Hr. eapply delivered_to_mono; [done|by apply I4].
    + intros m j. rewrite lookup_delete. case_decide; [done|]. intros Hj.
      destruct (I5 _ _ Hj) as [Hm [d1 Hd1]]. split; [done|]. exists d1. by rewrite lookup_delete_ne.
    + intros p d' Hp Hout. rewrite lookup_delete. case_decide; [done|]. by apply IS.
    + intros e He. apply elem_of_cons in He as [He|He].
      * injection He as ->. destruct Hor as [[? _]|[_ ?]]; [by left|right; by eapply settled_mono].
      * destruct (I7 e He); [by left|right; by eapply settled_mono].
  - intros j Hj. apply keeps_intro; [done|done|]. intros m Hm. cbn. assert (c ≠ m).
    { intros ->. destruct Hor as [[_ ?]|[? _]]; [congruence|]. by destruct (I5 _ _ Hm). }
    by rewrite !lookup_delete_ne.
Qed.

(** Renaming one's own temporary file onto a target. *)
Lemma Guar_rename i n t d w :
  w_owner w !! n = Some i → ¬ temp t → ¬ outbox (Dir t) →
  Guar i w (add_effect (EWrote t d)
              (let w := unlink n w in set_fs (<[t := NFile d]> (w_fs w)) w)).
Proof.
  intros Ho Ht Hto Hw. cbv zeta. set (w' := add_effect _ _).
  destruct (inv_owner _ Hw _ _ Ho) as [Htn _].
  assert (evolve w w') as Hev.
  { constructor; cbn; eauto. exists [EWrote t d]. split_and!; [done|by intros c0 d0 E%list_elem_of_singleton; simplify_eq|]. intros e d' He Hd.
    destruct (decide (e = t)) as [->|]; [right; right; exists d; by left|]. left.
    rewrite lookup_insert_ne by done. rewrite lookup_delete_ne; [done|]. by intros ->. }
  assert (∀ e, e ∈ w_trace w → e ∈ w_trace w') as Htr by (intros; cbn; by right).
  destruct Hw as [I1 I2 I3 I4 I5 IS I6 IE IN I7]. split_and!; [|done|].
  - constructor; cbn; [done|done| | | | |done|done|done|].
    + intros r Hr Hf. right. by apply I3.
    + intros r Hr. eapply delivered_to_mono; [done|by apply I4].
    + intros m j. rewrite lookup_delete. case_decide; [done|]. intros Hj.
      destruct (I5 _ _ Hj) as [Hm [d1 Hd1]]. split; [done|]. exists d1.
      rewrite lookup_insert_ne by (by intros ->). by rewrite lookup_delete_ne.
    + intros p d' Hp Hout. rewrite lookup_insert_ne by (by intros ->).
      rewrite lookup_delete. case_decide; [done|]. by apply IS.
    + intros e He. apply elem_of_cons in He as [He|He]; [done|].
      destruct (I7 e He); [by left|right; by eapply settled_mono].
  - intros j Hj. apply keeps_intro; [done|done|]. intros m Hm. cbn. assert (n ≠ m) by congruence.
    destruct (I5 _ _ Hm) as [Htm _]. assert (t ≠ m) by (by intros ->).
    by rewrite lookup_insert_ne, !lookup_delete_ne.
Qed.

(** ** Proof rules *)

Abbreviation WP := (wp Rely Guar).

(** Facts the other goroutines cannot destroy. *)
Definition stable (i : nat) (P : World → Prop) : Prop :=
  ∀ w w', Inv w → Rely i w w' → P w → P w'.

Lemma Rely_Inv i w w' : Inv w → Rely i w w' → Inv w'.
Proof. intros Hw HR. by destruct (HR Hw). Qed.

(** Facts that no step of the protocol, one's own included, can destroy. *)
Definition persistent (P : World → Prop) : Prop := ∀ w w', evolve w w' → P w → P w'.

Lemma persistent_stable i P : persistent P → stable i P.
Proof. intros HP w w' Hw HR. destruct (HR Hw) as (_ & Hev & _). by apply HP. Qed.
Lemma stable_and i (P P' : World → Prop) : stable i P → stable i P' → stable i (λ w, P w ∧ P' w).
Proof. intros H1 H2 w w' Hw HR [??]. split; eauto. Qed.

Lemma persistent_pure (P : Prop) : persistent (λ _, P).
Proof. by intros w w' _. Qed.
Lemma persistent_and (P P' : World → Prop) : persistent P → persistent P' → persistent (λ w, P w ∧ P' w).
Proof. intros H1 H2 w w' He [??]. split; eauto. Qed.
Lemma persistent_impl (A : Prop) (P : World → Prop) : persistent P → persistent (λ w, A → P w).
Proof. intros H1 w w' He Hp Ha. eauto. Qed.
Lemma persistent_forall {X} (P : X → World → Prop) :
  (∀ x, persistent (P x)) → persistent (λ w, ∀ x, P x w).
Proof. intros HP w w' He Hx x. by eapply HP. Qed.
Lemma persistent_trace e : persistent (λ w, e ∈ w_trace w).
Proof. intros w w' Hev. by apply evolve_trace. Qed.
Lemma persistent_delivered key inbox : persistent (λ w, delivered_to w key inbox).
Proof. intros w w' Hev. apply delivered_to_mono. intros e. by apply evolve_trace. Qed.
Lemma persistent_settled p : persistent (λ w, settled w p).
Proof. intros w w' Hev. by apply settled_mono. Qed.
Lemma persistent_queued p : persistent (λ w, queued w p (content p)).
Proof.
  intros w w' Hev (r & Hr & E & E'). destruct (ev_queue _ _ Hev r Hr) as (r' & ? & ? & ?).
  exists r'. split_and!; congruence.
Qed.
(** The goroutine holds a temporary file with this content. *)
Definition holds (i : nat) (n : string) (d : bytes) (w : World) : Prop :=
  w_owner w !! n = Some i ∧ w_fs w !! n = Some (NFile d).
Definition owns (i : nat) (n : string) (w : World) : Prop := w_owner w !! n = Some i.
Lemma stable_holds i n d : stable i (holds i n d).
Proof. intros w w' Hw HR [Ho Hf]. destruct (HR Hw) as (_ & _ & [HK _]). destruct (HK n Ho). by split; [|congruence]. Qed.
Lemma stable_owns i n : stable i (owns i n).
Proof. intros w w' Hw HR Ho. destruct (HR Hw) as (_ & _ & [HK _]). by destruct (HK n Ho). Qed.
(** The goroutine has reserved the names of a clock reading. *)
Definition reserved (i n : nat) (w : World) : Prop := w_stamps w !! n = Some i ∧ ¬ name_taken n w.
Lemma stable_reserved i n : stable i (reserved i n).
Proof.
  intros w w' Hw HR [Hn Ht]. destruct (HR Hw) as (_ & Hev & [_ HK]). split.
  - eapply prefix_lookup_Some; [done|]. by apply ev_stamps.
  - intros Ht'. by apply Ht, HK.
Qed.
(** A row is staged for the path and target. *)
Definition row_for (p t : string) (w : World) : Prop :=
  ∃ r, r ∈ w_staged w ∧ sr_path r = p ∧ sr_target r = t.
Lemma persistent_row p t : persistent (row_for p t).
Proof. intros w w' Hev (r & Hr & <- & <-). by apply (ev_rows _ _ Hev). Qed.

Lemma wp_step {A X} i (m : nat → World → X * World) (k : X → program A) Q (P : World → Prop) w :
  Inv w → P w → stable i P →
  (∀ v, Inv v → P v →
     Guar i v (snd (m i v)) ∧
     (Inv (snd (m i v)) → WP i (k (fst (m i v))) Q (snd (m i v)))) →
  WP i (Act m k) Q w.
Proof.
  intros Hw HP Hst Hm v HR. pose proof (Rely_Inv _ _ _ Hw HR) as Hv.
  destruct (Hm v Hv) as [HG Hk]; [exact (Hst _ _ Hw HR HP)|]. split; [done|]. apply Hk. by destruct (HG Hv).
Qed.

(** A stable fact survives any program. *)
Lemma wp_frame {A} i (p : program A) (Q : A → World → Prop) (F : World → Prop) w :
  Inv w → F w → persistent F →
  WP i p Q w → WP i p (λ a v, Q a v ∧ F v) w.
Proof.
  intros Hw HF Hp0. pose proof (persistent_stable i F Hp0) as Hst.
  revert w Hw HF. induction p as [a|X m k IH]; intros w Hw HF Hp v HR.
  - split; [by apply Hp|exact (Hst _ _ Hw HR HF)].
  - pose proof (Rely_Inv _ _ _ Hw HR) as Hv. pose proof (Hst _ _ Hw HR HF) as HFv.
    destruct (Hp v HR) as [HGv Hk]. split; [done|].
    destruct (HGv Hv) as (Hv' & Hev & _). apply IH; [done| |done]. exact (Hp0 _ _ Hev HFv).
Qed.

Lemma wp_value {A} i (a : A) (P : World → Prop) (Q : A → World → Prop) w :
  Inv w → P w → stable i P → (∀ v, Inv v → P v → Q a v) → WP i (Ret a) Q w.
Proof. intros Hw HP Hst HQ v HR. apply HQ; [exact (Rely_Inv _ _ _ Hw HR)|exact (Hst _ _ Hw HR HP)]. Qed.
End Protocol.

#[export] Hint Resolve persistent_pure persistent_and persistent_impl persistent_forall persistent_trace
  persistent_delivered persistent_settled persistent_queued persistent_row : go.
#[export] Hint Resolve persistent_stable stable_and stable_holds stable_owns stable_reserved : go.
