(* ===== verification/StoreSafety.v ===== *)
(** * The stores keep the delivery protocol

    [DeliveryStoreSafe] and [DedupStoreSafe] state what a store promises to
    [DeliverData] under any interleaving; the SQLite stores and [atomicWrite]
    are proved to keep the promise. *)
From S2P Require Import Prelude GoStrings GoPath GoTime Sha256 DMail Improvement Prog World DeliveryStore ErrorQueue Deliver Safety.

Section StoreSafety.
Context `{External}.
Variable routes : list ResolvedRoute.
Variable content : string → bytes.
Variable outbox : string → Prop.

#[local] Abbreviation Inv := (Inv routes content outbox).
#[local] Abbreviation Guar := (Guar routes content outbox).
#[local] Abbreviation WP := (wp (Rely routes content outbox) (Safety.Guar routes content outbox)).

(** ** What [DeliverData] relies on *)

Class DeliveryStoreSafe (ds : DeliveryStore) : Prop := {
  (** a successful staging leaves a row for every target; *)
  stage_safe i p d (ts : list string) w :
    Inv w → d = content p → (∀ t, t ∈ ts → Clean t = t ∧ ¬ temp t ∧ ¬ outbox (Dir t)) →
    WP i (StageDelivery p d ts) (λ e v, Inv v ∧ (e = None → ∀ t, t ∈ ts → row_for p t v)) w;
  (** what a flush reports as flushed was written; *)
  flush_safe i w :
    Inv w →
    WP i FlushDeliveries (λ r v, Inv v ∧ ∀ f, f ∈ fst r →
      EWrote (df_Target f) (content (df_DMailPath f)) ∈ w_trace v) w;
  (** when all rows of a path are flushed, each of its targets was written. *)
  all_flushed_safe i p (ts : list string) w :
    Inv w → (∀ t, t ∈ ts → row_for p t w) →
    WP i (AllFlushedFor p) (λ r v, Inv v ∧ (r = Ok true → ∀ t, t ∈ ts →
      EWrote t (content p) ∈ w_trace v)) w }.

Class DedupStoreSafe (dd : DeliveryDedupStore) : Prop := {
  has_safe i k t w :
    Inv w → WP i (HasDelivered k t) (λ r v, Inv v ∧ (r = Ok true → delivered_to v k t)) w;
  record_safe i k t w :
    Inv w → delivered_to w k t → WP i (RecordDelivery k t) (λ _ v, Inv v) w }.

(** ** System calls *)

Lemma create_temp_spec fuel i dir w :
  Inv w →
  let '(r, w') := create_temp fuel i dir tmp_prefix w in
  Guar i w w' ∧ match r with Ok n => owns i n w' ∧ Clean n = n | Err _ => True end.
Proof.
  revert w. induction fuel as [|fuel IH]; intros w Hw; cbn [create_temp].
  { split; [apply Guar_tick, tick_only_refl|done]. }
  destruct (temp_of_temp_name dir _ (inv_env _ _ _ _ Hw (w_tick w))) as [Hc Ht].
  set (n := path_Join _) in *. unfold lookup_path. rewrite Hc.
  pose proof (Guar_tick routes content outbox i w (bump w) (tick_only_bump w)) as Hb.
  destruct (Hb Hw) as (Hw' & _ & _). destruct (w_fs w !! n) eqn:E.
  - specialize (IH (bump w) Hw'). destruct (create_temp fuel i dir tmp_prefix (bump w)) as [r w'].
    destruct IH as [HG Hr]. split; [by eapply Guar_trans|done].
  - split; [|split; [apply lookup_insert_eq|done]]. eapply Guar_trans; [exact Hb|].
    by apply (Guar_create routes content outbox i n (bump w)).
Qed.

Lemma CreateTemp_spec i dir w :
  Inv w →
  Guar i w (snd (os_CreateTemp dir tmp_prefix i w)) ∧
  ∀ n, fst (os_CreateTemp dir tmp_prefix i w) = Ok n →
       owns i n (snd (os_CreateTemp dir tmp_prefix i w)) ∧ Clean n = n.
Proof.
  intros Hw. unfold os_CreateTemp.
  destruct (guarded_cases "" (λ w, match lookup_path w dir with
    | Some NDir => create_temp temp_attempts i dir tmp_prefix w
    | Some (NFile _) => (Err (errors_New ("open " +:+ dir +:+ ": not a directory")), w)
    | None => (Err (enoent "open" dir), w) end) w) as [[e ->]| ->]; cbn [fst snd].
  { split; [apply Guar_tick; auto with go|done]. }
  pose proof (Guar_tick routes content outbox i w (bump w) (tick_only_bump w)) as Hb.
  destruct (Hb Hw) as (Hw' & _ & _).
  destruct (lookup_path (bump w) dir) as [[d|]|]; cbn [fst snd]; [by split| |by split].
  pose proof (create_temp_spec temp_attempts i dir (bump w) Hw') as HC.
  destruct (create_temp _ _ _ _ _) as [r w']. destruct HC as [HG Hr]. cbn [fst snd].
  split; [by eapply Guar_trans|]. intros n ->. done.
Qed.

Lemma Write_spec i n d w :
  owns i n w → Clean n = n → Inv w →
  Guar i w (snd (file_Write n d w)) ∧ owns i n (snd (file_Write n d w)) ∧
  (fst (file_Write n d w) = Ok tt → holds i n d (snd (file_Write n d w))).
Proof.
  intros Ho Hc Hw. destruct (inv_owner _ _ _ _ Hw _ _ Ho) as [_ [d0 Hd0]].
  unfold file_Write, fault, lookup_path. rewrite Hc.
  replace (w_fs (bump w) !! n) with (Some (NFile d0)) by (by cbn).
  assert (∀ b, Guar i w (set_fs (<[n := NFile b]> (w_fs (bump w))) (bump w))) as HG.
  { intros b. eapply Guar_trans; [apply Guar_tick, tick_only_bump|].
    by apply (Guar_write routes content outbox i n b (bump w)). }
  destruct (env_fault _ _) as [e|]; cbn [fst snd]; (split; [apply HG|split; [done|]]); [done|].
  intros _. split; [done|]. cbn. by rewrite lookup_insert_eq.
Qed.

Lemma Close_spec i w : Guar i w (snd (file_Close w)).
Proof.
  unfold file_Close. destruct (guarded_cases "" (λ w, (Ok tt, w)) w) as [[e ->]| ->];
    apply Guar_tick; cbn; auto with go.
Qed.

(** [os.Remove] of one's own temporary file, or of a settled source. *)
Lemma Remove_spec i n w :
  Clean n = n → Inv w → owns i n w ∨ (¬ temp n ∧ settled routes content w n) →
  Guar i w (snd (os_Remove n w)).
Proof.
  intros Hc Hw Hor.
  pose proof (Guar_tick routes content outbox i w (bump w) (tick_only_bump w)) as Hb.
  destruct (Hb Hw) as (Hw' & Hev & _).
  unfold os_Remove. match goal with |- context [guarded "" ?m w] =>
    destruct (guarded_cases "" m w) as [[e ->]| ->] end; [exact Hb|].
  eapply Guar_trans; [exact Hb|]. unfold lookup_path. rewrite Hc.
  destruct (w_fs (bump w) !! n) as [[d|]|] eqn:E; cbn [fst snd].
  - apply (Guar_remove routes content outbox i n d); [done|].
    destruct Hor as [Ho|[Ht Hs]]; [left|right]; split; try done.
    by destruct (inv_owner _ _ _ _ Hw _ _ Ho).
  - destruct (children _ _) as [|x l]; cbn [snd]; [|apply Guar_tick, tick_only_refl].
    (* an empty directory: nothing of the protocol lives there *)
    intros Hw''. assert (∀ m d, w_fs (bump w) !! m = Some (NFile d) → n ≠ m) as Hne by congruence.
    assert (evolve outbox (bump w) (unlink n (bump w))) as Hev'.
    { constructor; cbn; eauto. exists []. split_and!; [done|by intros ? ? ?%elem_of_nil|].
      intros c d Hc' Hd. left.
      rewrite lookup_delete_ne; [done|]. by eapply Hne. }
    split_and!; [|done|].
    + destruct Hw'' as [I1 I2 I3 I4 I5 IS I6 IE IN I7]. constructor; cbn; [done|done|done|done| | |done|done|done|done].
      2:{ intros p d' Hp Hout. rewrite lookup_delete. case_decide; [done|]. by apply IS. }
      intros m j. rewrite lookup_delete. case_decide; [done|]. intros Hj.
      destruct (I5 _ _ Hj) as [? [d Hd]]. split; [done|]. exists d. by rewrite lookup_delete_ne.
    + intros j Hj. apply keeps_intro; [done|done|]. intros m Hm. destruct (inv_owner _ _ _ _ Hw'' _ _ Hm) as [_ [d Hd]]. cbn.
      rewrite !lookup_delete_ne by (by eapply Hne). done.
  - apply Guar_tick, tick_only_refl.
Qed.

Lemma Rename_spec i n t d w :
  holds i n d w → Clean n = n → Clean t = t → ¬ temp t → ¬ outbox (Dir t) → Inv w →
  Guar i w (snd (os_Rename n t w)) ∧
  (fst (os_Rename n t w) = Ok tt → EWrote t d ∈ w_trace (snd (os_Rename n t w))).
Proof.
  intros [Ho Hf] Hcn Hct Ht Hto Hw. unfold os_Rename.
  pose proof (Guar_tick routes content outbox i w (bump w) (tick_only_bump w)) as Hb.
  match goal with |- context [guarded "" ?m w] =>
    destruct (guarded_cases "" m w) as [[e ->]| ->] end; [by split|].
  unfold lookup_path. rewrite Hcn, Hct. replace (w_fs (bump w) !! n) with (Some (NFile d)) by (by cbn).
  assert (Guar i w (snd (Ok tt, add_effect (EWrote t d)
    (let w := unlink n (bump w) in set_fs (<[t := NFile d]> (w_fs w)) w)))) as HG.
  { eapply Guar_trans; [exact Hb|]. by apply (Guar_rename routes content outbox i n t d (bump w)). }
  destruct (w_fs (bump w) !! t) as [[d'|]|]; (split; [done|]); cbn; intros; try done; by left.
Qed.

(** ** atomicWrite *)

(** Removing the temporary file and returning the error. *)
Lemma cleanup_safe i n (e : error) t d w :
  Inv w → owns i n w → Clean n = n →
  WP i (_ ← atom (os_Remove n); mret (Some e))
    (λ o v, Inv v ∧ (o = None → EWrote t d ∈ w_trace v)) w.
Proof.
  intros Hw Ho Hn. eapply wp_step; [exact Hw|exact Ho|auto with go|]. cbn beta.
  intros v Hv Ho'. split; [apply Remove_spec; auto|]. intros Hv'.
  eapply (wp_value _ _ _ _ _ (λ _, True)); [done|done|auto with go|]. done.
Qed.

Lemma atomicWrite_safe i t d w :
  Inv w → Clean t = t → ¬ temp t → ¬ outbox (Dir t) →
  WP i (atomicWrite t d) (λ o v, Inv v ∧ (o = None → EWrote t d ∈ w_trace v)) w.
Proof.
  intros Hw Hct Ht Hto. unfold atomicWrite.
  eapply (wp_step _ _ _ _ _ _ _ (λ _, True)); [done|done|auto with go|]. intros v Hv _. cbn beta.
  destruct (CreateTemp_spec i (Dir t) v Hv) as [HG Hn]. split; [exact HG|]. clear HG.
  destruct (os_CreateTemp (Dir t) tmp_prefix i v) as [[n|e] v1]; cbn [fst snd prog_bind] in *; intros Hv1.
  2:{ by eapply (wp_value _ _ _ _ _ (λ _, True)); [|auto with go..|]. }
  destruct (Hn n eq_refl) as [Ho Hcn]. clear Hn.
  eapply wp_step; [exact Hv1|exact Ho|auto with go|]. clear v v1 Hv Hv1 Ho. intros v Hv Ho.
  destruct (Write_spec i n d v Ho Hcn Hv) as (HG & Ho1 & Hh). split; [exact HG|]. clear HG.
  destruct (file_Write n d v) as [[[]|e] v1]; cbn [fst snd] in *; intros Hv1.
  2:{ (* the write failed: close, remove, report *)
    eapply wp_step; [exact Hv1|exact Ho1|auto with go|]. intros u Hu Hou.
    split; [apply Close_spec|]. intros Hu'. apply cleanup_safe; try done.
    unfold owns in *. unfold file_Close. match goal with |- context [guarded "" ?m u] =>
      destruct (guarded_cases "" m u) as [[? ->]| ->] end; done. }
  specialize (Hh eq_refl).
  eapply wp_step; [exact Hv1|exact Hh|auto with go|]. clear v v1 Hv Hv1 Ho Ho1 Hh. intros v Hv Hh.
  split; [apply Close_spec|]. unfold file_Close. match goal with |- context [guarded "" ?m v] =>
      destruct (guarded_cases "" m v) as [[? ->]| ->] end; cbn [fst snd]; intros Hv1.
  { apply cleanup_safe; try done. by destruct Hh. }
  eapply (wp_step _ _ _ _ _ _ _ (holds i n d)); [exact Hv1|exact Hh|auto with go|]. clear v Hv Hv1 Hh.
  intros v Hv Hh. destruct (Rename_spec i n t d v Hh Hcn Hct Ht Hto Hv) as [HG Hr]. split; [exact HG|]. clear HG.
  destruct (os_Rename n t v) as [[[]|e] v1]; cbn [fst snd] in *; intros Hv1.
  - specialize (Hr eq_refl).
    eapply (wp_value _ _ _ _ _ (λ w, EWrote t d ∈ w_trace w)); [exact Hv1|exact Hr|auto with go|]. done.
  - by eapply (wp_value _ _ _ _ _ (λ _, True)); [|auto with go..|].
Qed.

(** ** Updates of the staged rows *)

(** A transaction whose body only rewrites the table. *)
Lemma exec_update_spec f w :
  (∃ e w', Staged.exec_update f w = (Err e, w') ∧ tick_only w w') ∨
  (∃ w2 w', Staged.exec_update f w = (Ok tt, w') ∧ tick_only w w2 ∧
     tick_only (set_staged (f (w_staged w)) w2) w').
Proof.
  unfold Staged.exec_update.
  destruct (sql_tx_cases "" "" "" (guarded "" (λ w, (Ok tt, set_staged (f (w_staged w)) w))) w)
    as [?|([] & w2 & w3 & w' & E & H2 & H3 & H4)]; [by left|right].
  match type of H3 with guarded "" ?m w2 = _ =>
    destruct (guarded_cases "" m w2) as [[e E']|E'] end; rewrite E' in H3; [done|].
  simplify_eq. exists (bump w2), w'. split; [done|]. split; [eauto with go|].
  replace (w_staged w) with (w_staged (bump w2)); [done|]. rewrite H2. by destruct w.
Qed.

Lemma exec_update_Guar i f w :
  (∀ v, w_staged v = w_staged w → w_trace v = w_trace w → Guar i v (set_staged (f (w_staged w)) v)) →
  Guar i w (snd (Staged.exec_update f w)).
Proof.
  intros HG. destruct (exec_update_spec f w) as [(e & w' & -> & Ht)|(w2 & w' & -> & H2 & H3)]; cbn [snd].
  { by apply Guar_tick. }
  eapply Guar_trans; [by apply Guar_tick|].
  eapply Guar_trans; [|by apply Guar_tick]. apply HG; rewrite H2; by destruct w.
Qed.

Lemma elem_of_update_rows p t f r rows :
  r ∈ Staged.update_rows p t f rows ↔
  ∃ r0, r0 ∈ rows ∧ r = if Staged.has_key p t r0 then f r0 else r0.
Proof. unfold Staged.update_rows. rewrite list_elem_of_fmap. naive_solver. Qed.

Lemma has_key_spec p t r : Staged.has_key p t r = true ↔ sr_path r = p ∧ sr_target r = t.
Proof. unfold Staged.has_key. by rewrite andb_true_iff, !bool_decide_eq_true. Qed.

(** Marking is allowed once the content of the path is at the target. *)
Lemma markFlushed_Guar i p t w :
  EWrote t (content p) ∈ w_trace w → Guar i w (snd (Staged.markFlushed p t w)).
Proof.
  intros Hwr. apply exec_update_Guar. intros v Es Et Hv. revert Hv. rewrite <- Es.
  intros Hv. refine (Guar_staged routes content outbox i _ v _ _ Hv).
  - intros r (r0 & Hr0 & ->)%elem_of_update_rows. destruct (inv_row _ _ _ _ Hv r0 Hr0) as (D & C & T & O).
    destruct (Staged.has_key p t r0) eqn:E.
    + apply has_key_spec in E as [<- <-]. cbn. split_and!; [done..|]. intros _. by rewrite D, Et.
    + split_and!; [done..|]. by apply (inv_flushed _ _ _ _ Hv).
  - intros r Hr. eexists. split; [apply elem_of_update_rows; eauto|]. by destruct (Staged.has_key p t r).
Qed.

Lemma incrementRetry_Guar i p t w : Guar i w (snd (Staged.incrementRetryCount p t w)).
Proof.
  apply exec_update_Guar. intros v Es Et Hv. revert Hv. rewrite <- Es.
  intros Hv. refine (Guar_staged routes content outbox i _ v _ _ Hv).
  - intros r (r0 & Hr0 & ->)%elem_of_update_rows. destruct (inv_row _ _ _ _ Hv r0 Hr0) as (D & C & T & O).
    pose proof (inv_flushed _ _ _ _ Hv r0 Hr0).
    destruct (Staged.has_key p t r0) eqn:E; cbn; by split_and!.
  - intros r Hr. eexists. split; [apply elem_of_update_rows; eauto|]. by destruct (Staged.has_key p t r).
Qed.

(** ** Flush *)

Definition written (fl : list DeliveryFlushed) (w : World) : Prop :=
  ∀ f, f ∈ fl → EWrote (df_Target f) (content (df_DMailPath f)) ∈ w_trace w.
Lemma persistent_written fl : persistent outbox (written fl).
Proof. unfold written. auto with go. Qed.
#[local] Hint Resolve persistent_written : go.

Lemma flush_item_safe i fl item w :
  Inv w → written fl w →
  sr_data item = content (sr_path item) → Clean (sr_target item) = sr_target item →
  ¬ temp (sr_target item) → ¬ outbox (Dir (sr_target item)) →
  WP i (Staged.flush_item fl item)
    (λ o v, Inv v ∧ match o with inl fl' => written fl' v | inr (fl', _) => written fl' v end) w.
Proof.
  intros Hw Hfl HD HC HT HO. unfold Staged.flush_item. cbv [mbind prog_mbind]. apply wp_bind; [apply _|].
  assert (WP i (atomicWrite (sr_target item) (sr_data item))
    (λ o v, (Inv v ∧ (o = None → EWrote (sr_target item) (sr_data item) ∈ w_trace v)) ∧ written fl v) w) as HA.
  { apply wp_frame; [done|done|auto with go|by apply atomicWrite_safe]. }
  eapply wp_mono; [|exact HA]. cbn beta. intros o v [[Hv Ho] Hfl'].
  destruct o as [e|]; [|specialize (Ho eq_refl)].
  - eapply (wp_step _ _ _ _ _ _ _ (written fl)); [done|done|auto with go|]. intros u Hu Hfu. cbn beta.
    split; [apply incrementRetry_Guar|].
    destruct (Staged.incrementRetryCount _ _ u) as [r u'] eqn:E; cbn [fst snd]; intros Hu'.
    assert (written fl u') as Hfu'.
    { pose proof (incrementRetry_Guar i (sr_path item) (sr_target item) u Hu) as (_ & Hev & _).
      rewrite E in Hev. intros f Hf. by eapply evolve_trace, Hfu. }
    destruct r as [[]|e']; eapply (wp_value _ _ _ _ _ (written fl)); auto with go.
  - rewrite HD in Ho.
    eapply (wp_step _ _ _ _ _ _ _ (λ v, EWrote (sr_target item) (content (sr_path item)) ∈ w_trace v ∧ written fl v));
      [done|done|auto with go|]. intros u Hu [Hou Hfu]. cbn beta.
    pose proof (markFlushed_Guar i (sr_path item) (sr_target item) u Hou) as HG. split; [exact HG|].
    destruct (HG Hu) as (_ & Hev & _). clear HG.
    destruct (Staged.markFlushed _ _ u) as [r u'] eqn:E; cbn [fst snd] in *; intros Hu'.
    assert (written (fl ++ [mkFlushed (sr_path item) (sr_target item)]) u') as Hfu'.
    { intros f [Hf| ->%list_elem_of_singleton]%elem_of_app; eapply evolve_trace; eauto. }
    destruct r as [[]|e'].
    + eapply (wp_value _ _ _ _ _ (written (fl ++ [mkFlushed (sr_path item) (sr_target item)]))); auto with go.
    + eapply (wp_value _ _ _ _ _ (written fl)); auto with go.
      intros f Hf. apply Hfu', elem_of_app. by left.
Qed.

Lemma query_spec {A} p q (f : World → A) w :
  tick_only w (snd (Staged.query p q f w)) ∧
  ∀ a, fst (Staged.query p q f w) = Ok a → a = f (snd (Staged.query p q f w)).
Proof using Type.
  unfold Staged.query, guarded, fault.
  repeat case_match; simplify_eq/=; split; try done;
    eauto using tick_only_refl, tick_only_bump, tick_only_trans. by intros a [= <-].
Qed.

Lemma FlushDeliveries_safe i w :
  Inv w → WP i Staged.FlushDeliveries_prog (λ r v, Inv v ∧ written (fst r) v) w.
Proof.
  intros Hw. unfold Staged.FlushDeliveries_prog.
  eapply (wp_step _ _ _ _ _ _ _ (λ _, True)); [done|done|auto with go|]. intros v Hv _. cbn beta.
  unfold Staged.collectUnflushed. match goal with |- context [Staged.query ?p ?q ?f v] =>
    destruct (query_spec p q f v) as [Ht Hr]; destruct (Staged.query p q f v) as [r v1] end.
  cbn [fst snd] in *. split; [by apply Guar_tick|]. intros Hv1.
  destruct r as [items|e]; cbn [prog_bind].
  2:{ eapply (wp_value _ _ _ _ _ (λ _, True)); auto with go. intros u Hu _. split; [done|].
      by intros f Hf%elem_of_nil. }
  specialize (Hr items eq_refl).
  assert (∀ r, r ∈ items → sr_data r = content (sr_path r) ∧ Clean (sr_target r) = sr_target r ∧
                           ¬ temp (sr_target r) ∧ ¬ outbox (Dir (sr_target r))) as Hitems.
  { intros r. rewrite Hr, elem_of_bfilter. intros [Hin _].
    by apply (inv_row _ _ _ _ Hv1). }
  clear Hr. assert (written [] v1) as H0 by (by intros f Hf%elem_of_nil).
  set (body := match items with [] => _ | _ => _ end).
  assert (WP i (o ← for_range items [] Staged.flush_item;
                match o with
                | inl flushed => mret (flushed, None)
                | inr (flushed, err) => mret (flushed, Some err)
                end) (λ r v, Inv v ∧ written (fst r) v) v1) as Hloop.
  { apply wp_bind; [apply _|].
    eapply (wp_for_range _ _ i _ (λ _ fl u, Inv u ∧ written fl u)) with (done := []).
    - intros done x fl u Hx [Hu Hfu]. destruct (Hitems x Hx) as (D & C & T & O).
      eapply wp_mono; [|by apply flush_item_safe]. cbn beta. intros [fl'|[fl' e]] u'; [done|].
      intros [Hu' Hf'] u'' HR. eapply (wp_value _ _ _ _ _ (written fl')); auto with go.
      + by eapply Rely_Inv.
      + by eapply (persistent_stable routes content outbox i _ (persistent_written fl')).
    - intros fl u [Hu Hfu] u' HR. eapply (wp_value _ _ _ _ _ (written fl)); auto with go.
      + by eapply Rely_Inv.
      + by eapply (persistent_stable routes content outbox i _ (persistent_written fl)).
    - done. }
  subst body. destruct items as [|it items]; [|exact Hloop].
  eapply (wp_value _ _ _ _ _ (written [])); auto with go.
Qed.

(** ** Stage *)

Lemma elem_of_upsert p t d r rows :
  r ∈ Staged.upsert p t d rows → r ∈ rows ∨ r = mkStaged p t d false 0.
Proof using Type.
  induction rows as [|x rows IH]; cbn [Staged.upsert]; [rewrite list_elem_of_singleton; by right|].
  repeat case_match; rewrite !elem_of_cons; intros [->|Hr]; auto. destruct (IH Hr); auto.
Qed.

Lemma upsert_keys p t d r rows :
  r ∈ rows → ∃ r', r' ∈ Staged.upsert p t d rows ∧ sr_path r' = sr_path r ∧ sr_target r' = sr_target r.
Proof.
  induction rows as [|x rows IH]; cbn [Staged.upsert]; [by intros ?%elem_of_nil|].
  intros [->|Hr]%elem_of_cons; destruct (Staged.has_key p t x) eqn:E.
  - eexists. split; [by left|]. apply has_key_spec in E as [<- <-]. by case_match.
  - exists x. split; [by left|done].
  - exists r. split; [by right|done].
  - destruct (IH Hr) as (r' & ? & ?). exists r'. split; [by right|done].
Qed.

Lemma upsert_row p t d rows :
  ∃ r, r ∈ Staged.upsert p t d rows ∧ sr_path r = p ∧ sr_target r = t.
Proof.
  induction rows as [|x rows IH]; cbn [Staged.upsert]; [eexists; split; [by left|done]|].
  destruct (Staged.has_key p t x) eqn:E.
  - eexists. split; [by left|]. apply has_key_spec in E as [<- <-]. by case_match.
  - destruct IH as (r & ? & ?). exists r. split; [by right|done].
Qed.

Lemma stage_rows_spec i p ts w w' :
  (∀ t, t ∈ ts → Clean t = t ∧ ¬ temp t ∧ ¬ outbox (Dir t)) → Inv w →
  Staged.stage_rows p (content p) ts w = (Ok tt, w') →
  Guar i w w' ∧ ∀ t, t ∈ ts → row_for p t w'.
Proof.
  intros Hts. revert w. induction ts as [|t ts IH]; intros w Hw; cbn [Staged.stage_rows].
  { intros [= <-]. split; [apply Guar_tick, tick_only_refl|by intros t ?%elem_of_nil]. }
  unfold fault. destruct (env_fault _ _); [done|]. intros E.
  set (w1 := set_staged _ _) in E.
  assert (Guar i w w1) as HG.
  { eapply Guar_trans; [apply Guar_tick, tick_only_bump|]. subst w1.
    intros Hb. refine (Guar_staged routes content outbox i _ (bump w) _ _ Hb).
    - intros r [Hr| ->]%elem_of_upsert.
      + destruct (inv_row _ _ _ _ Hw r Hr) as (?&?&?&?). split_and!; try done.
        by apply (inv_flushed _ _ _ _ Hw).
      + cbn. destruct (Hts t) as (?&?&?); [by left|]. by split_and!.
    - intros r Hr. by apply upsert_keys. }
  destruct (HG Hw) as (Hw1 & _ & _).
  destruct (IH (λ t' Ht', Hts t' (list_elem_of_further _ _ _ Ht')) w1 Hw1 E) as [HG' Hrows].
  split; [by eapply Guar_trans|]. intros t' [->|Ht']%elem_of_cons; [|auto].
  destruct (HG' Hw1) as (_ & Hev & _). eapply persistent_row; [exact Hev|].
  subst w1. apply upsert_row.
Qed.

Lemma StageDelivery_safe i p (ts : list string) w :
  Inv w → (∀ t, t ∈ ts → Clean t = t ∧ ¬ temp t ∧ ¬ outbox (Dir t)) →
  WP i (r ← atom (Staged.StageDelivery_tx p (content p) ts); mret (err_of r))
    (λ e v, Inv v ∧ (e = None → ∀ t, t ∈ ts → row_for p t v)) w.
Proof.
  intros Hw Hts. eapply (wp_step _ _ _ _ _ _ _ (λ _, True)); [done|done|auto with go|].
  intros v Hv _. cbn beta. unfold Staged.StageDelivery_tx.
  match goal with |- context [sql_tx ?a ?b ?c ?m v] =>
    destruct (sql_tx_cases a b c m v) as [(e & v' & -> & Ht)|([] & v2 & v3 & v' & -> & H2 & H3 & H4)] end;
    cbn [fst snd].
  - split; [by apply Guar_tick|]. intros Hv'.
    eapply (wp_value _ _ _ _ _ (λ _, True)); [done|done|auto with go|]. done.
  - destruct (Guar_tick routes content outbox i _ _ H2 Hv) as (Hv2 & _).
    destruct (stage_rows_spec i p ts v2 v3 Hts Hv2 H3) as [HG Hrows].
    assert (Guar i v v') as HG'.
    { eapply Guar_trans; [by apply Guar_tick|]. eapply Guar_trans; [exact HG|by apply Guar_tick]. }
    split; [exact HG'|]. intros Hv'.
    eapply (wp_value _ _ _ _ _ (λ v, ∀ t, t ∈ ts → row_for p t v)); [done| |auto with go|done].
    intros t Ht. destruct (HG Hv2) as (Hv3 & _). destruct (Guar_tick routes content outbox i _ _ H4 Hv3) as (_ & Hev & _).
    by eapply persistent_row, Hrows.
Qed.

(** ** AllFlushedFor *)

Lemma AllFlushedFor_safe i p (ts : list string) w :
  Inv w → (∀ t, t ∈ ts → row_for p t w) →
  WP i (atom (Staged.AllFlushedFor_query p))
    (λ r v, Inv v ∧ (r = Ok true → ∀ t, t ∈ ts → EWrote t (content p) ∈ w_trace v)) w.
Proof.
  intros Hw Hrows.
  eapply (wp_step _ _ _ _ _ _ _ (λ v, ∀ t, t ∈ ts → row_for p t v)); [done|done|auto with go|].
  clear w Hw Hrows. intros v Hv Hrows. unfold Staged.AllFlushedFor_query.
  match goal with |- context [guarded ?pre ?m v] =>
    destruct (guarded_cases pre m v) as [[e ->]| ->] end; cbn [fst snd];
    (split; [apply Guar_tick, tick_only_bump|]); intros Hv'.
  - eapply (wp_value _ _ _ _ _ (λ _, True)); [done|done|auto with go|]. done.
  - eapply (wp_value _ _ _ _ _ (λ u, Ok (length (List.filter (Staged.unflushed_for p) (w_staged v)) =? 0) = Ok true →
      ∀ t, t ∈ ts → EWrote t (content p) ∈ w_trace u)); [done| |auto with go|done].
    intros [= E%Nat.eqb_eq%length_zero_iff_nil] t Ht. destruct (Hrows t Ht) as (r & Hr & Hp & Htt).
    destruct (sr_flushed r) eqn:Ef.
    + pose proof (inv_flushed _ _ _ _ Hv r Hr Ef) as HW. destruct (inv_row _ _ _ _ Hv r Hr) as (D & _).
      by rewrite D, Htt, Hp in HW.
    + assert (r ∈ List.filter (Staged.unflushed_for p) (w_staged v)) as Hin.
      { rewrite elem_of_bfilter. split; [done|].
        unfold Staged.unflushed_for. by rewrite Hp, bool_decide_true, Ef. }
      rewrite E in Hin. by apply elem_of_nil in Hin.
Qed.

#[export] Instance SQLiteDeliveryStore_safe : DeliveryStoreSafe SQLiteDeliveryStore.
Proof.
  split; cbn [StageDelivery FlushDeliveries AllFlushedFor SQLiteDeliveryStore].
  - intros i p d ts w Hw -> Hts. by apply StageDelivery_safe.
  - intros i w Hw. by apply FlushDeliveries_safe.
  - intros i p ts w Hw Hr. by apply AllFlushedFor_safe.
Qed.

(** ** Dedup *)

Lemma has_In key target rows :
  Dedup.has key target rows = true ↔ ∃ r, r ∈ rows ∧ dd_key r = key ∧ dd_target r = target.
Proof.
  unfold Dedup.has. rewrite existsb_exists. setoid_rewrite andb_true_iff.
  setoid_rewrite bool_decide_eq_true. by setoid_rewrite list_elem_of_In.
Qed.

#[export] Instance SQLiteDeliveryDedupStore_safe : DedupStoreSafe SQLiteDeliveryDedupStore.
Proof.
  split; cbn [HasDelivered RecordDelivery SQLiteDeliveryDedupStore].
  - intros i k t w Hw. eapply (wp_step _ _ _ _ _ _ _ (λ _, True)); [done|done|auto with go|].
    clear w Hw. intros v Hv _. unfold Dedup.HasDelivered_query.
    match goal with |- context [guarded ?pre ?m v] =>
      destruct (guarded_cases pre m v) as [[e ->]| ->] end; cbn [fst snd];
      (split; [apply Guar_tick, tick_only_bump|]); intros Hv'.
    + eapply (wp_value _ _ _ _ _ (λ _, True)); [done|done|auto with go|]. done.
    + eapply (wp_value _ _ _ _ _ (λ u, Ok (Dedup.has k t (w_dedup v)) = Ok true → delivered_to u k t));
        [done| |auto with go|done].
      intros [= (r & Hr & <- & <-)%has_In]. by apply (inv_dedup _ _ _ _ Hv').
  - intros i k t w Hw Hd.
    eapply (wp_step _ _ _ _ _ _ _ (λ v, delivered_to v k t)); [done|done|auto with go|].
    clear w Hw Hd. intros v Hv Hd. cbn beta. unfold Dedup.RecordDelivery_exec, Now.
    match goal with |- context [guarded ?pre ?m ?v1] =>
      destruct (guarded_cases pre m v1) as [[e ->]| ->] end; cbn [fst snd].
    { split; [apply Guar_tick; eauto with go|]. intros Hv'.
      eapply (wp_value _ _ _ _ _ (λ _, True)); [done|done|auto with go|]. done. }
    split; [|intros Hv'; eapply (wp_value _ _ _ _ _ (λ _, True)); [done|done|auto with go|]; done].
    eapply (Guar_trans _ _ _ _ _ (bump (bump v))); [apply Guar_tick; eauto with go|].
    destruct (Dedup.has _ _ _); [apply Guar_tick; auto with go|].
    apply Guar_dedup.
    + intros r Hr. apply elem_of_app. by left.
    + intros r [Hr| ->%list_elem_of_singleton]%elem_of_app; [by left|right]. cbn.
      eapply delivered_to_mono; [|exact Hd]. done.
Qed.
End StoreSafety.
