(* ===== verification/StoreSpec.v ===== *)
(** * What the delivery store promises, one operation at a time

    [StageDelivery] is all or nothing and acts on the rows of its targets
    only; dead letters, the rows that were tried too often, are counted and
    purged exactly, and purging does not touch what a flush would deliver. *)
From S2P Require Import Prelude GoStrings GoPath GoTime DMail Prog World DeliveryStore StoreSafety.

(** The row of a D-Mail path and a target. *)
Definition row_at (rows : list StagedRow) (p t : string) : option StagedRow := List.find (Staged.has_key p t) rows.

(** What staging data makes of the row that is there: a row flushed with the
    same data is kept, anything else becomes a fresh intent. *)
Definition restaged (p t : string) (data : bytes) (old : option StagedRow) : StagedRow :=
  match old with
  | Some r => if sr_flushed r && bool_decide (sr_data r = data) then r else mkStaged p t data false 0
  | None => mkStaged p t data false 0
  end.

Lemma row_at_upsert p t d rows p' t' :
  row_at (Staged.upsert p t d rows) p' t' =
  if bool_decide (p' = p ∧ t' = t) then Some (restaged p t d (row_at rows p t)) else row_at rows p' t'.
Proof.
  unfold row_at. induction rows as [|x rows IH]; cbn [Staged.upsert find].
  - cbn. unfold Staged.has_key. cbn. repeat case_bool_decide; naive_solver.
  - destruct (Staged.has_key p t x) eqn:E; cbn [find].
    + assert (has_key_eq : ∀ y, sr_path y = p → sr_target y = t →
        Staged.has_key p' t' y = bool_decide (p' = p ∧ t' = t)).
      { intros y <- <-. unfold Staged.has_key. repeat case_bool_decide; naive_solver. }
      apply has_key_spec in E as [E1 E2]. rewrite (has_key_eq x E1 E2). cbn [restaged].
      destruct (sr_flushed x); cbn [negb orb andb]; [destruct (bool_decide (sr_data x = d))|];
        cbn [negb]; rewrite has_key_eq by done; by case_bool_decide.
    + rewrite IH. destruct (Staged.has_key p' t' x) eqn:E'; [|done].
      case_bool_decide as Hk; [|done]. destruct Hk as [-> ->]. congruence.
Qed.

Lemma restaged_twice p t d r : restaged p t d (Some (restaged p t d r)) = restaged p t d r.
Proof.
  unfold restaged. destruct r as [r|]; [|done]. destruct (sr_flushed r && _) eqn:E; [by rewrite E|done].
Qed.

Lemma stage_rows_effect p d ts w r w' :
  Staged.stage_rows p d ts w = (r, w') → r = Ok tt →
  ∀ p' t', row_at (w_staged w') p' t' =
    if bool_decide (p' = p ∧ t' ∈ ts) then Some (restaged p t' d (row_at (w_staged w) p t'))
    else row_at (w_staged w) p' t'.
Proof.
  revert w. induction ts as [|t ts IH]; intros w; cbn [Staged.stage_rows].
  { intros [= <- <-] _ p' t'. rewrite bool_decide_eq_false_2; [done|]. by intros [_ ?%elem_of_nil]. }
  unfold fault. destruct (env_fault _ _); [by intros [= <- _]|]. intros E Hr p' t'.
  rewrite (IH _ E Hr p' t'). cbn [w_staged set_staged bump set_tick]. rewrite !row_at_upsert.
  destruct (decide (p' = p)) as [->|Hp]; [|rewrite !bool_decide_eq_false_2 by naive_solver; done].
  destruct (decide (t' = t)) as [->|Ht].
  - rewrite (bool_decide_eq_true_2 (p = p ∧ t = t)) by done.
    rewrite (bool_decide_eq_true_2 (p = p ∧ t ∈ t :: ts)) by (split; [done|by left]).
    case_bool_decide; [by rewrite restaged_twice|done].
  - rewrite (bool_decide_eq_false_2 (p = p ∧ t' = t)) by naive_solver.
    apply (f_equal (λ b : bool, if b then _ else _)). apply bool_decide_ext. rewrite elem_of_cons. naive_solver.
Qed.

Lemma StageDelivery_rows p d ts w :
  let '(r, w') := Staged.StageDelivery_tx p d ts w in
  match r with
  | Err _ => w_staged w' = w_staged w
  | Ok _ => ∀ p' t', row_at (w_staged w') p' t' =
      if bool_decide (p' = p ∧ t' ∈ ts) then Some (restaged p t' d (row_at (w_staged w) p t'))
      else row_at (w_staged w) p' t'
  end.
Proof.
  unfold Staged.StageDelivery_tx. match goal with |- context [sql_tx ?x ?y ?z ?b w] =>
    destruct (sql_tx_cases x y z b w) as [(e & w' & -> & Ht)|([] & w2 & w3 & w' & -> & H2 & H3 & H4)] end.
  - by rewrite Ht.
  - intros p' t'. rewrite H4. cbn [w_staged set_tick]. rewrite (stage_rows_effect _ _ _ _ _ _ H3 eq_refl).
    by rewrite H2.
Qed.

(**  [StageDelivery] is atomic and local.  When it fails the table is as
    before; when it succeeds, the row of each of its targets holds the new
    data as a fresh intent, except that a row already flushed with the same
    data stays as it is, and every other row is untouched. *)
Theorem StageDelivery_effect (p : string) (d : bytes) (ts : list string) (w : World) :
  let '(r, w') := Staged.StageDelivery_tx p d ts w in
  match r with
  | Err _ => w_staged w' = w_staged w
  | Ok _ => ∀ p' t', row_at (w_staged w') p' t' =
      if bool_decide (p' = p ∧ t' ∈ ts) then Some (restaged p t' d (row_at (w_staged w) p t'))
      else row_at (w_staged w) p' t'
  end.
Proof. apply StageDelivery_rows. Qed.

(**  staging a D-Mail again does not always reset its row.  When the row
    of a target is flushed and holds the same data, [StageDelivery] leaves it
    flushed with its retry count whether it succeeds or fails, and the next
    flush does not collect it: no new delivery of the same bytes under the
    same path happens. *)
Theorem restage_same_data_is_noop (p t : string) (d : bytes) (ts : list string) (n : Z) (w : World) :
  row_at (w_staged w) p t = Some (mkStaged p t d true n) →
  let row := row_at (w_staged (snd (Staged.StageDelivery_tx p d ts w))) p t in
  row = Some (mkStaged p t d true n) ∧ Staged.collectable <$> row = Some false.
Proof.
  intros Hr row.
  assert (row = Some (mkStaged p t d true n)) as ->; [|done].
  subst row. pose proof (StageDelivery_rows p d ts w) as He.
  destruct (Staged.StageDelivery_tx p d ts w) as [[[]|e] w']; cbn [snd]; [|by rewrite He].
  rewrite He, Hr. case_bool_decide; [|done]. cbn. by rewrite bool_decide_eq_true_2.
Qed.

Lemma restage_same_data_is_noop_witness :
  let rows := [mkStaged "/o/a.md" "/i/a.md" [] true 2] in
  let w := mkWorld ∅ ∅ [] rows [] [] [] None None no_state [] [] 0
             (mkEnv (λ _, None) (λ _, 0%Z) (λ _, 0%Z) (λ _, "x") (λ _, 0)) in
  fst (Staged.StageDelivery_tx "/o/a.md" [] ["/i/a.md"] w) = Ok tt ∧
  row_at (w_staged (snd (Staged.StageDelivery_tx "/o/a.md" [] ["/i/a.md"] w))) "/o/a.md" "/i/a.md" =
    Some (mkStaged "/o/a.md" "/i/a.md" [] true 2).
Proof.
  intros rows w. split; [vm_compute; reflexivity|].
  by apply (restage_same_data_is_noop "/o/a.md" "/i/a.md" [] ["/i/a.md"] 2 w).
Defined.

(** ** Dead letters *)

Definition dead_letters (w : World) : list StagedRow := List.filter Staged.dead_letter (w_staged w).

Lemma dead_letter_cases r :
  Staged.dead_letter r = negb (sr_flushed r) && negb (Staged.collectable r).
Proof.
  unfold Staged.dead_letter, Staged.collectable. destruct (sr_flushed r); [done|]. cbn. lia.
Qed.

Lemma filter_filter_disjoint {A} (f g : A → bool) l :
  (∀ x, f x = true → g x = true) → List.filter f (List.filter g l) = List.filter f l.
Proof.
  intros Hfg. induction l as [|x l IH]; [done|]. cbn. destruct (g x) eqn:G; cbn; rewrite IH; [done|].
  destruct (f x) eqn:F; [|done]. by rewrite Hfg in G.
Qed.

(**  purging dead letters is exact.  Every unflushed row is either picked
    up by the next flush or a dead letter, never both.  When
    [PurgeDeadLetters] succeeds it reports the number of dead letters there
    were, and after it, whatever it reported, the flushed rows and the rows
    the next flush will collect are unchanged; if it deleted anything, no
    dead letter is left. *)
Theorem PurgeDeadLetters_exact (w : World) :
  let '(r, w') := Staged.PurgeDeadLetters w in
  (∀ x, x ∈ w_staged w → sr_flushed x = false → Staged.dead_letter x = negb (Staged.collectable x)) ∧
  List.filter sr_flushed (w_staged w') = List.filter sr_flushed (w_staged w) ∧
  List.filter Staged.collectable (w_staged w') = List.filter Staged.collectable (w_staged w) ∧
  (w_staged w' = w_staged w ∨ dead_letters w' = []) ∧
  (∀ n, r = Ok n → n = length (dead_letters w) ∧ dead_letters w' = []).
Proof.
  unfold dead_letters.
  assert (∀ x, x ∈ w_staged w → sr_flushed x = false → Staged.dead_letter x = negb (Staged.collectable x)) as Hd.
  { intros x _ E. by rewrite dead_letter_cases, E. }
  set (keep := List.filter (λ r, negb (Staged.dead_letter r)) (w_staged w)).
  assert (List.filter sr_flushed keep = List.filter sr_flushed (w_staged w)) as Hf.
  { apply filter_filter_disjoint. intros x Hx. by rewrite dead_letter_cases, Hx. }
  assert (List.filter Staged.collectable keep = List.filter Staged.collectable (w_staged w)) as Hc.
  { apply filter_filter_disjoint. intros x Hx. by rewrite dead_letter_cases, Hx, andb_false_r. }
  assert (List.filter Staged.dead_letter keep = []) as Hz.
  { subst keep. clear. induction (w_staged w) as [|x l IH]; [done|]. cbn.
    destruct (Staged.dead_letter x) eqn:E; cbn; [done|]. by rewrite E. }
  unfold Staged.PurgeDeadLetters. match goal with |- context [guarded ?q ?m w] =>
    destruct (guarded_cases q m w) as [[e ->]| ->] end; [by split_and!; [..|left|]|].
  cbn beta zeta. change (w_staged (bump w)) with (w_staged w). fold keep. unfold fault.
  destruct (env_fault _ _) as [e|]; cbn [w_staged set_staged bump set_tick];
    (split_and!; [done|done|done|by right|]); [done|]. by intros n [= <-].
Qed.
