(* ===== verification/DeliverSafety.v ===== *)
(** * No D-Mail is lost, under any interleaving and any failures

    [DeliverData] keeps the delivery protocol, proved against the store
    interfaces; the theorem for the SQLite stores follows for every pool of
    concurrent deliveries, every schedule and every failure pattern. *)
From S2P Require Import Prelude GoStrings GoPath GoTime Sha256 DMail Improvement Prog World DeliveryStore ErrorQueue Deliver Safety StoreSafety.

(** [ResolveRoutes] joins every inbox path, so they are clean; and an inbox is
    not an outbox. *)
Definition routes_ok (routes : list ResolvedRoute) (outbox : string → Prop) : Prop :=
  ∀ r inbox, r ∈ routes → inbox ∈ rr_ToInboxes r → Clean inbox = inbox ∧ ¬ outbox inbox.

Section DeliverSafety.
Context `{External}.
Variable routes : list ResolvedRoute.
Variable content : string → bytes.
Variable outbox : string → Prop.
Hypothesis routes_clean : routes_ok routes outbox.

Context (ds : DeliveryStore) `{!DeliveryStoreSafe routes content outbox ds}.

#[local] Abbreviation Inv := (Inv routes content outbox).
#[local] Abbreviation WP := (wp (Rely routes content outbox) (Guar routes content outbox)).
#[local] Abbreviation settled := (settled routes content).

Definition dedup_safe (dedup : option DeliveryDedupStore) : Prop :=
  match dedup with None => True | Some d => DedupStoreSafe routes content outbox d end.

Lemma target_path_ok p inbox :
  mail_path p → let t := path_Join [inbox; Base p] in
  Clean t = t ∧ ¬ temp t ∧ (Clean inbox = inbox → Dir t = inbox).
Proof.
  intros (_ & Ht & Hp) t. subst t. split_and!.
  - by apply Clean_Join.
  - unfold temp in *. by rewrite Base_Join.
  - intros <-. by rewrite Dir_Join, Clean_idem.
Qed.

Lemma remove_source_safe i p w :
  Inv w → mail_path p → settled w p → WP i (remove_source p) (λ _ v, Inv v) w.
Proof.
  intros Hw (Hc & Ht & Hp) Hs. unfold remove_source.
  eapply (wp_step _ _ _ _ _ _ _ (λ v, settled v p)); [done|done|auto with go|]. intros v Hv Hsv. cbn beta.
  split; [apply Remove_spec; auto|]. destruct (os_Remove p v) as [[[]|e] v']; cbn [fst snd]; intros Hv'.
  - eapply (wp_value _ _ _ _ _ (λ _, True)); auto with go.
  - destruct (errors_Is e ErrNotExist); eapply (wp_value _ _ _ _ _ (λ _, True)); auto with go.
Qed.

(** The dedup filter: what it drops was delivered. *)
Definition filtered (key : string) (done remaining : list string) (w : World) : Prop :=
  ∀ inbox, inbox ∈ done → inbox ∈ remaining ∨ delivered_to w key inbox.
Lemma persistent_filtered key done remaining : persistent outbox (filtered key done remaining).
Proof.
  intros w w' Hev HF inbox Hi. destruct (HF inbox Hi); [by left|right]. by eapply persistent_delivered.
Qed.
#[local] Hint Resolve persistent_filtered : go.

Lemma filter_delivered_safe i d key inboxes w :
  DedupStoreSafe routes content outbox d → Inv w →
  WP i (filter_delivered d key inboxes)
    (λ o v, Inv v ∧ match o with
                    | inl remaining => (∀ b, b ∈ remaining → b ∈ inboxes) ∧ filtered key inboxes remaining v
                    | inr _ => True
                    end) w.
Proof.
  intros Hd Hw. unfold filter_delivered.
  eapply (wp_for_range _ _ i _ (λ done rem v, Inv v ∧ (∀ b, b ∈ rem → b ∈ inboxes) ∧ filtered key done rem v))
    with (done := []).
  - intros done x rem v Hx (Hv & Hsub & HF). unfold filter_step. apply wp_bind; [apply _|].
    eapply wp_mono; [|eapply (wp_frame _ _ _ i _ _ (filtered key done rem)); [done|done|auto with go|by apply has_safe]].
    cbn beta. intros r u [[Hu Hr] HFu]. destruct r as [[]|e].
    + specialize (Hr eq_refl).
      eapply (wp_value _ _ _ _ _ (λ u, delivered_to u key x ∧ filtered key done rem u)); auto with go.
      intros u' Hu' [Hdu HFu']. split_and!; [done|done|].
      intros b [Hb| ->%list_elem_of_singleton]%elem_of_app; [by apply HFu'|by right].
    + eapply (wp_value _ _ _ _ _ (filtered key done rem)); auto with go.
      intros u' Hu' HFu'. split_and!; [done| |].
      * intros b [?| ->%list_elem_of_singleton]%elem_of_app; auto.
      * intros b [Hb| ->%list_elem_of_singleton]%elem_of_app.
        -- destruct (HFu' b Hb); [left; apply elem_of_app; by left|by right].
        -- left. apply elem_of_app. right. by left.
    + eapply (wp_value _ _ _ _ _ (λ _, True)); auto with go.
      intros u' Hu' _ u'' HR. split; [by eapply Rely_Inv|done].
  - intros rem v (Hv & Hsub & HF) u HR. split; [by eapply Rely_Inv|]. split; [done|].
    destruct (HR Hv) as (_ & Hev & _). by eapply persistent_filtered.
  - split_and!; [done|by intros b ?%elem_of_nil|by intros b ?%elem_of_nil].
Qed.

Lemma record_safe_all i d key targets w :
  DedupStoreSafe routes content outbox d → Inv w → (∀ b, b ∈ targets → delivered_to w key b) →
  WP i (recordDedupForTargets d key targets) (λ _ v, Inv v) w.
Proof.
  intros Hd Hw Ht. unfold recordDedupForTargets. apply wp_bind; [apply _|].
  eapply (wp_for_range _ _ i _ (λ _ _ v, Inv v ∧ ∀ b, b ∈ targets → delivered_to v key b)) with (done := []).
  - intros done x b v Hx [Hv Hdv]. unfold record_step. apply wp_bind; [apply _|].
    eapply wp_mono; [|eapply (wp_frame _ _ _ i _ _ (λ v, ∀ b, b ∈ targets → delivered_to v key b));
      [done|done|auto with go|apply record_safe; auto]].
    cbn beta. intros r u [Hu Hdu]. destruct r;
      eapply (wp_value _ _ _ _ _ (λ v, ∀ b, b ∈ targets → delivered_to v key b)); auto with go.
  - intros b v [Hv _] u HR. eapply (wp_value _ _ _ _ _ (λ _, True)); auto with go. by eapply Rely_Inv.
  - done.
Qed.

Lemma stage_and_flush_safe i dedup p kind inboxes selected w :
  dedup_safe dedup → Inv w → mail_path p →
  selected_inboxes routes p (content p) = Some selected →
  (∀ b, b ∈ inboxes → Clean b = b ∧ ¬ outbox b) →
  filtered (ContentIdempotencyKey (content p)) selected inboxes w →
  WP i (stage_and_flush dedup p (content p) kind inboxes)
    (λ o v, Inv v ∧ ∀ res t, fst o = Some res → t ∈ dr_DeliveredTo res →
              EWrote t (content p) ∈ w_trace v) w.
Proof.
  intros Hdd Hw Hp Hsel Hcl HF. unfold stage_and_flush.
  set (key := ContentIdempotencyKey (content p)) in *.
  set (paths := (λ inbox, path_Join [inbox; Base p]) <$> inboxes).
  assert (∀ t, t ∈ paths → Clean t = t ∧ ¬ temp t ∧ ¬ outbox (Dir t)) as Hpaths.
  { intros t (b & -> & Hb)%list_elem_of_fmap. destruct (target_path_ok p b Hp) as (?&?&HD).
    destruct (Hcl b Hb). split_and!; [done|done|]. by rewrite HD. }
  apply wp_bind; [apply _|].
  eapply wp_mono; [|eapply (wp_frame _ _ _ i _ _ (filtered key selected inboxes));
    [done|done|auto with go|by apply stage_safe]].
  cbn beta. clear w Hw HF. intros e w [[Hw Hrows] HF]. destruct e as [e|].
  { eapply (wp_value _ _ _ _ _ (λ _, True)); auto with go. intros v Hv _. by split. }
  specialize (Hrows eq_refl). apply wp_bind; [apply _|].
  eapply wp_mono; [|eapply (wp_frame _ _ _ i _ _ (λ v, filtered key selected inboxes v ∧ ∀ t, t ∈ paths → row_for p t v));
    [done|done|auto with go|by apply flush_safe]].
  cbn beta. clear w Hw HF Hrows. intros [fl ferr] w [[Hw Hfl] [HF Hrows]]. cbn [fst] in *.
  set (dl := df_Target <$> List.filter _ fl).
  assert (∀ t, t ∈ dl → EWrote t (content p) ∈ w_trace w) as Hdl.
  { intros t (f & -> & Hf)%list_elem_of_fmap.
    rewrite elem_of_bfilter in Hf.
    destruct Hf as [Hf <-%bool_decide_eq_true]. by apply Hfl. }
  clearbody dl. clear fl ferr Hfl. apply wp_bind; [apply _|].
  eapply wp_mono; [|eapply (wp_frame _ _ _ i _ _ (λ v, filtered key selected inboxes v ∧
      ∀ t, t ∈ dl → EWrote t (content p) ∈ w_trace v));
    [done|done|auto with go|by eapply all_flushed_safe]].
  cbn beta. clear w Hw HF Hrows Hdl. intros af w [[Hw Haf] [HF Hdl]].
  set (allDone := match af with Ok b => b | Err _ => false end).
  (* everything the rest needs *)
  set (F := λ v, (allDone = true → ∀ t, t ∈ paths → EWrote t (content p) ∈ w_trace v) ∧
                 filtered key selected inboxes v ∧ ∀ t, t ∈ dl → EWrote t (content p) ∈ w_trace v).
  assert (persistent outbox F) as HFp by (unfold F; auto 10 with go).
  assert (F w) as HFw.
  { split_and!; [|done|done]. subst allDone. destruct af as [[]|]; [intros _; by apply Haf|done..]. }
  assert (∀ v b, F v → allDone = true → b ∈ inboxes → delivered_to v key b) as Hall.
  { intros v b (HA & _ & _) Hd Hb. exists (path_Join [b; Base p]), (content p).
    destruct (target_path_ok p b Hp) as (_ & _ & HD). split_and!; [|by apply HD, Hcl|done].
    apply HA; [done|]. apply list_elem_of_fmap. by exists b. }
  clearbody allDone. clear af Haf HF Hdl. apply wp_bind; [apply _|].
  eapply (wp_mono _ _ _ _ (λ _ v, Inv v ∧ F v)); [|eapply (wp_frame _ _ _ i _ _ F); [done|done|done|]].
  2:{ destruct dedup as [d|]; [|eapply (wp_value _ _ _ _ _ (λ _, True)); auto with go].
      apply record_safe_all; [done|done|]. intros b Hb. unfold dedup_targets in Hb.
      apply elem_of_app in Hb as [Hb|Hb].
      - apply list_elem_of_fmap in Hb as (t & -> & Ht). destruct HFw as (_ & _ & Hdl).
        exists t, (content p). auto.
      - destruct allDone; [|by apply elem_of_nil in Hb].
        rewrite elem_of_bfilter in Hb. destruct Hb as [Hb _].
        by apply Hall. }
  clear w Hw HFw. intros rec w [Hw HFw].
  assert (∀ v (o : outcome), Inv v → F v → fst o = Some (mkResult p kind dl) →
    WP i (Ret o) (λ o v, Inv v ∧ ∀ res t, fst o = Some res → t ∈ dr_DeliveredTo res →
              EWrote t (content p) ∈ w_trace v) v) as Hret.
  { intros v o Hv HFv Ho. eapply (wp_value _ _ _ _ _ F); auto with go.
    intros u Hu (_ & _ & Hdl). split; [done|]. intros res t. rewrite Ho. intros [= <-]. apply Hdl. }
  destruct (allDone && rec) eqn:Eb; [|by apply Hret].
  apply andb_true_iff in Eb as [Ed _]. apply wp_bind; [apply _|].
  eapply (wp_mono _ _ _ _ (λ _ v, Inv v ∧ F v)); [|eapply (wp_frame _ _ _ i _ _ F); [done|done|done|]].
  - intros [e|] v [Hv HFv]; by apply Hret.
  - apply remove_source_safe; [done|done|]. right. exists selected. split; [done|].
    intros b Hb. pose proof HFw as (_ & HF & _). destruct (HF b Hb); [|done]. by apply Hall.
Qed.

Lemma selected_clean p data selected :
  selected_inboxes routes p data = Some selected → ∀ b, b ∈ selected → Clean b = b ∧ ¬ outbox b.
Proof using routes_clean.
  unfold selected_inboxes. destruct (validate_dmail p data) as [fm|]; [|done].
  destruct (match_route _ _ _) as [r|] eqn:E; [|done]. cbn. intros [= <-] b Hb.
  apply elem_of_SelectDeliveryInboxes in Hb. unfold match_route in E.
  apply find_some in E as [Hr%list_elem_of_In _]. by eapply routes_clean.
Qed.

(** The interface-level result: a delivery keeps the protocol, and what it
    reports as delivered was written with the D-Mail's content. *)
Lemma DeliverData_safe i dedup p w :
  dedup_safe dedup → Inv w → mail_path p →
  WP i (DeliverData dedup routes p (content p))
    (λ o v, Inv v ∧ ∀ res t, fst o = Some res → t ∈ dr_DeliveredTo res →
              EWrote t (content p) ∈ w_trace v) w.
Proof using routes_clean DeliveryStoreSafe0.
  intros Hdd Hw Hp.
  assert (∀ (o : outcome) v, Inv v → (∀ res, fst o = Some res → dr_DeliveredTo res = []) →
    WP i (Ret o) (λ o v, Inv v ∧ ∀ res t, fst o = Some res → t ∈ dr_DeliveredTo res →
              EWrote t (content p) ∈ w_trace v) v) as Hret.
  { intros o v Hv Ho. eapply (wp_value _ _ _ _ _ (λ _, True)); auto with go.
    intros u Hu _. split; [done|]. intros res t Er Ht. rewrite (Ho _ Er) in Ht. by apply elem_of_nil in Ht. }
  pose proof (selected_clean p (content p)) as Hclean.
  unfold DeliverData, selected_inboxes in *.
  destruct (validate_dmail p (content p)) as [fm|e] eqn:EV; [|by apply Hret].
  destruct (match_route (fm_Kind fm) (Dir p) routes) as [r|] eqn:ER; [|by apply Hret].
  cbn [mbind option_bind] in *. set (sel := SelectDeliveryInboxes _ _ _ _) in *.
  assert (selected_inboxes routes p (content p) = Some sel) as Hsel.
  { unfold selected_inboxes. rewrite EV, ER. done. }
  specialize (Hclean sel eq_refl). clearbody sel. destruct dedup as [d|].
  2:{ eapply stage_and_flush_safe; try done. intros b Hb. by left. }
  apply wp_bind; [apply _|]. eapply wp_mono; [|by apply filter_delivered_safe].
  cbn beta. clear w Hw. intros [rem|e] w [Hw HF]; [|by apply Hret]. destruct HF as [Hsub HF].
  destruct rem as [|b rem].
  - apply wp_bind; [apply _|]. eapply wp_mono; [|apply remove_source_safe; [done|done|]].
    + intros o v Hv. apply Hret; [done|]. intros res [= <-]. done.
    + right. exists sel. split; [done|]. intros b Hb. destruct (HF b Hb) as [Hn|]; [by apply elem_of_nil in Hn|done].
  - eapply stage_and_flush_safe; try done. auto.
Qed.
End DeliverSafety.

(** ** Pools of deliveries over the SQLite stores *)

Section Pool.
Context `{External}.
Variable routes : list ResolvedRoute.
Variable content : string → bytes.
Variable outbox : string → Prop.

Definition delivery_task (dedup : bool) (p : string) : program outcome :=
  @DeliverData _ SQLiteDeliveryStore (if dedup then Some SQLiteDeliveryDedupStore else None)
    routes p (content p).

(** A world before the first delivery. *)
Definition fresh (w : World) : Prop :=
  (∀ p d, mail_path p → outbox (Dir p) → w_fs w !! p = Some (NFile d) → d = content p) ∧
  w_staged w = [] ∧ w_dedup w = [] ∧ w_queue w = [] ∧ w_trace w = [] ∧ w_owner w = ∅ ∧
  (∀ n, has_byte slash (env_suffix (w_env w) n) = false) ∧ stamps_distinct (w_env w).

Lemma fresh_Inv w : fresh w → Inv routes content outbox w.
Proof.
  intros (E0 & E1 & E2 & E3 & E4 & E5 & E6 & E7).
  constructor; rewrite ?E1, ?E2, ?E3, ?E4, ?E5; try done; try (by intros r ?%elem_of_nil).
  by intros r n k b ?%elem_of_nil.
Qed.

Lemma delivery_task_safe i b p w :
  routes_ok routes outbox → mail_path p → Inv routes content outbox w →
  wp (Rely routes content outbox) (Guar routes content outbox) i (delivery_task b p)
    (λ o v, Inv routes content outbox v ∧ ∀ res t, fst o = Some res → t ∈ dr_DeliveredTo res →
              EWrote t (content p) ∈ w_trace v) w.
Proof.
  intros Hr Hp Hw. apply DeliverData_safe; auto.
  - apply _.
  - destruct b; [|done]. apply SQLiteDeliveryDedupStore_safe.
Qed.
End Pool.

(** What the evolution of the world means for a file in an outbox. *)
Lemma source_conserved `{External} routes content outbox w0 w p d :
  Inv routes content outbox w → evolve outbox w0 w → ¬ temp p → outbox (Dir p) →
  w_fs w0 !! p = Some (NFile d) → w_fs w !! p = Some (NFile d) ∨ settled routes content w p.
Proof.
  intros HI Hev Hpt Hout Hf. destruct (ev_trace _ _ _ Hev) as (new & Et & Hno & Hnew).
  destruct (Hnew p d Hpt Hf) as [?|[Hrm|[d' Hd']]]; [by left| |by apply Hno in Hd'].
  right. destruct (inv_removed _ _ _ _ HI p) as [?|?]; [|done..].
  rewrite Et. apply elem_of_app. by left.
Qed.

(** C18: concurrent deliveries lose no D-Mail as long as a path stands for one
    content.  Take any number of concurrent deliveries, with or without dedup,
    where all tasks for one path carry the same content, the one that its file
    has ([Race.same_path_race_loses_dmail] loses a D-Mail where two tasks carry
    different ones), started in any world that satisfies the invariant (a fresh
    one does, when the outbox files have the content their paths stand for).
    After any interleaving of their system calls and transactions, with any
    failures, stopped at any point: the invariant still holds; every file that
    was in an outbox is still there with its content, or into every inbox
    selected for it a file with the idempotency key of its content was renamed,
    or the error queue has a row with its path and content; and whatever a finished task reports as delivered was
    renamed onto its target with the D-Mail's content. *)
Theorem concurrent_delivery_loses_nothing `{External} (routes : list ResolvedRoute)
    (content : string → bytes) (outbox : string → Prop) (tasks : list (bool * string)) (w0 : World) (c : config outcome) :
  routes_ok routes outbox →
  Forall (λ x, mail_path (snd x)) tasks →
  Inv routes content outbox w0 →
  rtc pool_step ((λ x, delivery_task routes content (fst x) (snd x)) <$> tasks, w0) c →
  Inv routes content outbox (snd c) ∧
  (∀ p d, mail_path p → outbox (Dir p) → w_fs w0 !! p = Some (NFile d) →
     w_fs (snd c) !! p = Some (NFile d) ∨ settled routes content (snd c) p) ∧
  (∀ i b p o res t, tasks !! i = Some (b, p) → fst c !! i = Some (Ret o) →
     fst o = Some res → t ∈ dr_DeliveredTo res → EWrote t (content p) ∈ w_trace (snd c)).
Proof.
  intros Hr Hts Hw Hrun.
  set (Q := λ i (o : outcome) v, Inv routes content outbox v ∧ ∀ b p res t, tasks !! i = Some (b, p) →
              fst o = Some res → t ∈ dr_DeliveredTo res → EWrote t (content p) ∈ w_trace v).
  destruct (pool_sound (Rely routes content outbox) (Guar routes content outbox) (Guar_Rely routes content outbox)
              Q (λ w, Inv routes content outbox w ∧ evolve outbox w0 w)
              ((λ x, delivery_task routes content (fst x) (snd x)) <$> tasks, w0) c) with (2 := Hrun) as [[HI Hev] Hwp].
  - intros i w w' HG [Hi He]. destruct (HG Hi) as (? & ? & _). split; [done|by eapply evolve_trans].
  - split; [done|apply evolve_refl].
  - cbn [fst snd]. intros i q Hq. rewrite list_lookup_fmap in Hq.
    destruct (tasks !! i) as [[b p]|] eqn:Ei; [|done]. cbn in Hq. simplify_eq.
    eapply wp_mono; [|apply delivery_task_safe; [done|by eapply (Forall_lookup_1 _ _ _ _ Hts Ei)|done]].
    intros o v [Hv Ho]. split; [done|]. intros b' p' res t Ei' Er Ht. rewrite Ei in Ei'. simplify_eq. eauto.
  - split_and!; [done| |].
    + intros p d (_ & Hpt & _) Hout Hf. by eapply source_conserved.
    + intros i b p o res t Ei Ec. specialize (Hwp i _ Ec (snd c) (reflexivity _)).
      destruct Hwp as [_ Hwp]. eauto.
Qed.

(** ** A sample installation *)

(** The clock of the sample reads one instant every 400 years, in years
    that print differently. *)
Definition era : Z := (146097 * (24 * Hour))%Z.
Definition no_fault_env : Env :=
  mkEnv (λ _, None) (λ n, Z.of_nat n) (λ n, (Z.of_nat n * era)%Z) (λ _, "7") (λ _, 0).

Lemma era_distinct : stamps_distinct no_fault_env.
Proof.
  intros n m k b k' b' E. cbn [no_fault_env env_stamp] in E. unfold queue_name, era in E.
  rewrite !format_queue_era, <- !app_str_assoc in E by lia.
  apply (f_equal (λ s, Split s "-" !! 0)) in E.
  destruct (400 * Z.of_nat n + 1)%Z as [|p|p] eqn:Ep; [lia| |lia].
  destruct (400 * Z.of_nat m + 1)%Z as [|q|q] eqn:Eq; [lia| |lia].
  repeat match type of E with context [?s +:+ ("-01-01T000000.000000000" +:+ ?x)] =>
    change (s +:+ ("-01-01T000000.000000000" +:+ x)) with (s +:+ String "-" ("01-01T000000.000000000" +:+ x)) in E end.
  rewrite !Split_app in E by apply pad_pos_no_dash. cbn in E. injection E as E%pad_pos_inj. lia.
Qed.

Definition sample_fs (files : list (string * bytes)) : gmap string node :=
  list_to_map ((λ f, (fst f, NFile (snd f))) <$> files) ∪
  {["/r/.siren/outbox" := NDir; "/r/.siren/inbox" := NDir; "/r/.expedition/inbox" := NDir;
    "/r/.gate/inbox" := NDir]}.

Definition sample_world (files : list (string * bytes)) (env : Env) : World :=
  mkWorld (sample_fs files) ∅ [] [] [] [] [] None None no_state [] [] 0 env.

Definition sample_routes : list ResolvedRoute :=
  [mkRoute "specification" "/r/.siren/outbox" ["/r/.expedition/inbox"; "/r/.gate/inbox"]].

Definition sample_path : string := "/r/.siren/outbox/spec.md".

Definition sample_outbox (dir : string) : Prop := dir = "/r/.siren/outbox".

Lemma sample_routes_ok : routes_ok sample_routes sample_outbox.
Proof.
  intros r inbox Hr Hi. unfold sample_routes in Hr. apply list_elem_of_singleton in Hr as ->. cbn in Hi.
  rewrite !elem_of_cons in Hi. destruct Hi as [->|[->|Hi]]; [done|done|].
  by apply elem_of_nil in Hi.
Qed.

Lemma sample_mail_path : mail_path sample_path.
Proof. by split_and!. Qed.

Lemma sample_fresh (d : bytes) :
  fresh (λ _, d) sample_outbox (sample_world [(sample_path, d)] no_fault_env).
Proof.
  split_and!; try done; [|apply era_distinct]. intros p d' _ _. cbn. unfold sample_fs. cbn.
  rewrite lookup_union_Some_raw. intros [E|[_ E]].
  - apply lookup_insert_Some in E as [[_ ?]|[_ E]]; [by simplify_eq|by rewrite lookup_empty in E].
  - repeat (apply lookup_insert_Some in E as [[_ ?]|[_ E]]; [done|]).
    by apply lookup_singleton_Some in E as [_ ?].
Qed.

Lemma concurrent_delivery_loses_nothing_witness :
  let c := sched ([delivery_task (H := sample_external) sample_routes (λ _, sample_dmail) true sample_path;
                   delivery_task (H := sample_external) sample_routes (λ _, sample_dmail) false sample_path],
                  sample_world [(sample_path, sample_dmail)] no_fault_env) [0; 1; 1; 0; 0; 1; 1; 1; 0] in
  w_fs (snd c) !! sample_path = Some (NFile sample_dmail) ∨
  settled (H := sample_external) sample_routes (λ _, sample_dmail) (snd c) sample_path.
Proof.
  intros c.
  destruct (concurrent_delivery_loses_nothing (H := sample_external) sample_routes (λ _, sample_dmail) sample_outbox
    [(true, sample_path); (false, sample_path)] (sample_world [(sample_path, sample_dmail)] no_fault_env) c)
    as (_ & HP & _).
  - apply sample_routes_ok.
  - repeat constructor; apply sample_mail_path.
  - apply fresh_Inv, sample_fresh.
  - apply sched_reachable.
  - apply HP; [apply sample_mail_path|reflexivity|reflexivity].
Defined.

(** Run alone without failures, the sample reaches both inboxes and leaves the
    outbox. *)
Example sample_delivery :
  let '(o, w) := run 0 (delivery_task (H := sample_external) sample_routes (λ _, sample_dmail) true sample_path)
                   (sample_world [(sample_path, sample_dmail)] no_fault_env) in
  o = (Some (mkResult sample_path "specification" ["/r/.expedition/inbox/spec.md"; "/r/.gate/inbox/spec.md"]), None) ∧
  w_fs w !! sample_path = None ∧
  w_fs w !! "/r/.expedition/inbox/spec.md" = Some (NFile sample_dmail) ∧
  w_fs w !! "/r/.gate/inbox/spec.md" = Some (NFile sample_dmail).
Proof. vm_compute. auto. Qed.
