(* ===== verification/Complete.v ===== *)
(** * Deliveries complete

    Safety says nothing is lost; this file says that work gets done.  Without
    failures a delivery, run alone over a quiet store, puts the D-Mail into
    every selected inbox, records it and removes the source, and touches
    nothing else; delivering the same content again has no effect on any
    inbox. *)
From S2P Require Import Prelude GoStrings GoPath GoTime Sha256 DMail Improvement Prog World DeliveryStore Deliver Safety StoreSafety DeliverSafety.

(** The part of the world a delivery acts on. *)
Record core := mkCore {
  c_fs : gmap string node; c_staged : list StagedRow; c_dedup : list DedupRow;
  c_queue : list ErrorRow; c_env : Env }.
Definition core_of (w : World) : core :=
  mkCore (w_fs w) (w_staged w) (w_dedup w) (w_queue w) (w_env w).

(** The environment never fails an operation, and gives file names. *)
Definition healthy (env : Env) : Prop :=
  (∀ n, env_fault env n = None) ∧ ∀ n, has_byte slash (env_suffix env n) = false.

Definition no_temps (fs : gmap string node) : Prop := ∀ c, temp c → fs !! c = None.

Section Healthy.
Variable env : Env.
Hypothesis Henv : healthy env.

Lemma guarded_ok {A} p (m : act (result A)) w : w_env w = env → guarded p m w = m (bump w).
Proof using Henv. intros Hw. unfold guarded, fault. rewrite Hw. by rewrite (proj1 Henv). Qed.

Lemma sql_tx_ok {A} pc pb pm (body : act (result A)) a w w3 :
  w_env w = env → body (bump (bump w)) = (Ok a, w3) → w_env w3 = env →
  sql_tx pc pb pm body w = (Ok a, bump w3).
Proof using Henv.
  intros Hw Hb H3. destruct Henv as [HF _]. unfold sql_tx, fault. rewrite Hw, HF.
  change (w_env (bump w)) with (w_env w). by rewrite Hw, HF, Hb, H3, HF.
Qed.

(** A write lands on its target and leaves no temporary file. *)
Lemma atomicWrite_ok i t data w :
  w_env w = env → no_temps (w_fs w) → Clean t = t → ¬ temp t →
  w_fs w !! Dir t = Some NDir → Clean (Dir t) = Dir t → w_fs w !! t ≠ Some NDir →
  runs i (atomicWrite t data) (λ err v, err = None ∧
    core_of v = mkCore (<[t := NFile data]> (w_fs w)) (w_staged w) (w_dedup w) (w_queue w) env) w.
Proof using Henv.
  intros Hw Hnt Hct Ht Hd Hcd Hnd.
  set (n := path_Join [Dir t; tmp_prefix +:+ env_suffix env (S (w_tick w))]).
  destruct (temp_of_temp_name (Dir t) (env_suffix env (S (w_tick w)))) as [Hcn Htn]; [apply Henv|].
  fold n in Hcn, Htn. pose proof (Hnt n Htn) as Hn.
  assert (n ≠ t) as Hne by (by intros ->).
  unfold atomicWrite. apply runs_bind, runs_atom_by.
  assert (os_CreateTemp (Dir t) tmp_prefix i w = (Ok n, set_owner (<[n := i]> (w_owner w))
    (set_fs (<[n := NFile []]> (w_fs w)) (bump (bump w))))) as ->.
  { unfold os_CreateTemp. rewrite guarded_ok by done. unfold lookup_path. rewrite Hcd.
    change (w_fs (bump w)) with (w_fs w). rewrite Hd.
    change temp_attempts with (S (Z.to_nat 9999)). cbn [create_temp].
    change (env_suffix (w_env (bump w)) (w_tick (bump w))) with (env_suffix (w_env w) (S (w_tick w))).
    rewrite Hw. fold n. unfold lookup_path. rewrite Hcn. change (w_fs (bump w)) with (w_fs w). by rewrite Hn. }
  cbn [fst snd]. set (w1 := set_owner _ _). apply runs_bind, runs_atom.
  assert (file_Write n data w1 = (Ok tt, set_fs (<[n := NFile data]> (w_fs w1)) (bump w1))) as ->.
  { unfold file_Write, fault. replace (w_env w1) with env by done. rewrite (proj1 Henv).
    unfold lookup_path. rewrite Hcn. change (w_fs (bump w1)) with (<[n := NFile []]> (w_fs w)).
    by rewrite lookup_insert_eq. }
  cbn [fst snd]. set (w2 := set_fs _ _). apply runs_bind, runs_atom.
  unfold file_Close. rewrite guarded_ok by done. cbn [fst snd].
  apply runs_bind, runs_atom. unfold os_Rename. rewrite guarded_ok by done. unfold lookup_path. rewrite Hcn, Hct.
  change (w_fs (bump (bump w2))) with (<[n := NFile data]> (<[n := NFile []]> (w_fs w))).
  rewrite insert_insert_eq, lookup_insert_eq, lookup_insert_ne by done.
  assert (core_of (add_effect (EWrote t data)
    (let w0 := unlink n (bump (bump w2)) in set_fs (<[t := NFile data]> (w_fs w0)) w0)) =
    mkCore (<[t := NFile data]> (w_fs w)) (w_staged w) (w_dedup w) (w_queue w) env) as Hcore.
  { unfold core_of. cbn. rewrite Hw, insert_insert_eq. f_equal.
    by rewrite delete_insert_id by done. }
  destruct (w_fs w !! t) as [[x|]|] eqn:E; done.
Qed.

(** ** Stage and flush of one D-Mail *)

Variables (p : string) (data : bytes) (ts : list string) (fs0 : gmap string node)
          (dd : list DedupRow) (q : list ErrorRow).

Definition row_of (t : string) : StagedRow := mkStaged p t data false 0.

(** The targets can be written. *)
Hypothesis Hfs0 : no_temps fs0.
Hypothesis Hts : ∀ t, t ∈ ts →
  Clean t = t ∧ ¬ temp t ∧ Clean (Dir t) = Dir t ∧ fs0 !! Dir t = Some NDir ∧ fs0 !! t ≠ Some NDir.

Definition todo (dn : list string) (r : StagedRow) : Prop :=
  ∃ t, t ∈ ts ∧ r = row_of t ∧ t ∉ dn.

(** The targets in [dn] have been written and their rows marked; nothing
    else has changed, and the other rows are flushed or still to do. *)
Record flushing (dn : list string) (w : World) : Prop := {
  fl_env : w_env w = env;
  fl_dedup : w_dedup w = dd;
  fl_queue : w_queue w = q;
  fl_other : ∀ c, c ∉ ts → w_fs w !! c = fs0 !! c;
  fl_files : ∀ t, t ∈ ts → w_fs w !! t ≠ Some NDir;
  fl_done : ∀ t, t ∈ dn → w_fs w !! t = Some (NFile data);
  fl_rows : ∀ r, r ∈ w_staged w → sr_flushed r = true ∨ todo dn r }.

Lemma flush_item_ok i dn fl t w :
  t ∈ ts → flushing dn w →
  runs i (Staged.flush_item fl (row_of t)) (λ o v, ∃ fl', o = inl fl' ∧
    fl' = fl ++ [mkFlushed p t] ∧ flushing (dn ++ [t]) v) w.
Proof using Henv Hfs0 Hts.
  intros Ht [F1 F2 F3 F4 F5 F6 F7]. destruct (Hts t Ht) as (Hc & Hnt & Hcd & Hd & _).
  assert (∀ c, c ∈ ts → c ≠ Dir t) as Hdir.
  { intros c Hc' ->. by destruct (Hts _ Hc') as (_ & _ & _ & _ & ?). }
  unfold Staged.flush_item. cbn [sr_target sr_data row_of]. apply runs_bind.
  eapply runs_mono; [|apply atomicWrite_ok; try done].
  2:{ intros c Hct. rewrite F4; [by apply Hfs0|]. intros Hin. by destruct (Hts c Hin) as (_ & ? & _). }
  2:{ rewrite F4; [done|]. intros Hin. by apply (Hdir _ Hin). }
  2:{ by apply F5. }
  intros err v [-> Hv]. unfold core_of in Hv. injection Hv as V1 V2 V3 V4 V5.
  apply runs_bind, runs_atom. unfold Staged.markFlushed, Staged.exec_update.
  erewrite sql_tx_ok; [|done|by rewrite guarded_ok|by cbn]. cbn [fst snd].
  eexists. split; [done|]. split; [done|]. constructor; cbn; [done|congruence|congruence| | | |].
  - intros c Hc'. rewrite V1, lookup_insert_ne; [by apply F4|]. by intros ->.
  - intros t' Ht'. rewrite V1, lookup_insert. case_decide; [done|by apply F5].
  - intros t' Ht'. rewrite V1, lookup_insert. case_decide; [done|].
    apply elem_of_app in Ht' as [?| ->%list_elem_of_singleton]; [by apply F6|done].
  - intros r. rewrite V2. intros (r0 & -> & Hr0)%list_elem_of_fmap.
    destruct (Staged.has_key p t r0) eqn:Ek; [by left|].
    destruct (F7 r0 Hr0) as [?|(t' & H1 & -> & H2)]; [by left|right]. exists t'. split_and!; [done|done|].
    intros [?| ->%list_elem_of_singleton]%elem_of_app; [done|].
    apply not_true_iff_false in Ek. apply Ek, has_key_spec. done.
Qed.

Lemma FlushDeliveries_ok i w :
  flushing [] w → (∀ t, t ∈ ts → row_of t ∈ w_staged w) →
  runs i Staged.FlushDeliveries_prog (λ o v, ∃ done, o = (mkFlushed p <$> done, None) ∧
    (∀ t, t ∈ done ↔ t ∈ ts) ∧ flushing done v) w.
Proof using Henv Hfs0 Hts.
  intros HF Hall. unfold Staged.FlushDeliveries_prog, Staged.collectUnflushed, Staged.query.
  apply runs_bind, runs_atom. do 3 (rewrite guarded_ok by (apply (fl_env _ _ HF))).
  cbn [fst snd]. set (w1 := bump _). assert (flushing [] w1) as HF1 by (by destruct HF; constructor).
  change (w_staged w1) with (w_staged w). set (items := List.filter _ _).
  assert (∃ done, items = row_of <$> done ∧ ∀ t, t ∈ done ↔ t ∈ ts) as (done & Ei & Hd).
  { exists (sr_target <$> items). split.
    - rewrite <- list_fmap_compose. rewrite <- (list_fmap_id items) at 1. apply list_fmap_ext.
      intros k r Hr%list_elem_of_lookup_2. cbn. subst items.
      rewrite elem_of_bfilter in Hr. destruct Hr as [Hr Hc].
      destruct (fl_rows _ _ HF r Hr) as [E|(t & _ & -> & _)]; [|done].
      unfold Staged.collectable in Hc. by rewrite E in Hc.
    - intros t. split.
      + intros (r & -> & Hr)%list_elem_of_fmap. subst items.
        rewrite elem_of_bfilter in Hr. destruct Hr as [Hr Hc].
        destruct (fl_rows _ _ HF r Hr) as [E|(t & ? & -> & _)]; [|done].
        unfold Staged.collectable in Hc. by rewrite E in Hc.
      + intros Ht. apply list_elem_of_fmap. exists (row_of t). split; [done|]. subst items.
        rewrite elem_of_bfilter. split; [by apply Hall|done]. }
  rewrite Ei. clear Ei items.
  assert (runs i (o ← for_range (row_of <$> done) [] Staged.flush_item;
    match o with inl flushed => mret (flushed, None) | inr (flushed, err) => mret (flushed, Some err) end)
    (λ o v, ∃ done, o = (mkFlushed p <$> done, None) ∧ (∀ t, t ∈ done ↔ t ∈ ts) ∧ flushing done v) w1) as Hloop.
  { apply runs_bind. eapply runs_mono;
      [|apply (runs_for_range i _ (λ dn fl v, fl = mkFlushed p <$> (sr_target <$> dn) ∧ flushing (sr_target <$> dn) v)
          _ [] [] w1)].
    - cbn beta. intros o v (fl & -> & -> & HFv). rewrite app_nil_l, <- (list_fmap_compose row_of) in *.
      exists (sr_target ∘ row_of <$> done). rewrite list_fmap_id. split_and!; [done|apply Hd|].
      by rewrite list_fmap_id in HFv.
    - intros dn r fl v (t & -> & Ht)%list_elem_of_fmap [-> HFv].
      eapply runs_mono; [|apply (flush_item_ok i (sr_target <$> dn)); [by apply Hd|done]].
      intros o u (fl' & -> & -> & Hu). eexists. split; [done|]. by rewrite !fmap_app.
    - by split. }
  destruct done as [|t done]; [|exact Hloop]. cbn [fmap list_fmap] in *.
  exists []. split_and!; [done|done|]. exact HF1.
Qed.

(** Rows that this delivery has nothing to do with, and its own fresh rows. *)
Definition quiet (r : StagedRow) : Prop := sr_flushed r = true ∧ sr_path r ≠ p.
Definition ours (rows : list StagedRow) : Prop := ∀ r, r ∈ rows → quiet r ∨ (∃ t, t ∈ ts ∧ r = row_of t).

Lemma upsert_ours t rows :
  t ∈ ts → ours rows →
  ours (Staged.upsert p t data rows) ∧ row_of t ∈ Staged.upsert p t data rows ∧
  ∀ r, r ∈ rows → r ∈ Staged.upsert p t data rows.
Proof.
  intros Ht HO. split_and!.
  - intros r [Hr| ->]%elem_of_upsert; [by apply HO|right; by exists t].
  - induction rows as [|x rows IH]; cbn [Staged.upsert]; [by left|].
    destruct (Staged.has_key p t x) eqn:E; [|right; apply IH; intros r Hr; apply HO; by right].
    apply has_key_spec in E as [E1 E2].
    destruct (HO x) as [[_ ?]|(t' & _ & ->)]; [by left|done|]. cbn. by left.
  - induction rows as [|x rows IH]; cbn [Staged.upsert]; [by intros r ?%elem_of_nil|].
    destruct (Staged.has_key p t x) eqn:E.
    + intros r [->|Hr]%elem_of_cons; [|by right]. apply has_key_spec in E as [E1 E2].
      destruct (HO x) as [[_ ?]|(t' & _ & ->)]; [by left|done|]. cbn in *. subst t'. by left.
    + intros r [->|Hr]%elem_of_cons; [by left|right]. apply IH; [|done].
      intros r' Hr'. apply HO. by right.
Qed.

Lemma stage_rows_ok ts' w :
  w_env w = env → (∀ t, t ∈ ts' → t ∈ ts) → ours (w_staged w) →
  ∃ rows w', Staged.stage_rows p data ts' w = (Ok tt, w') ∧
    core_of w' = mkCore (w_fs w) rows (w_dedup w) (w_queue w) env ∧ ours rows ∧
    (∀ t, t ∈ ts' → row_of t ∈ rows) ∧ (∀ r, r ∈ w_staged w → r ∈ rows).
Proof using Henv.
  revert w. induction ts' as [|t ts' IH]; intros w Hw Hsub HO; cbn [Staged.stage_rows].
  - exists (w_staged w), w. unfold core_of. rewrite Hw. split_and!; [done|done|done|by intros t ?%elem_of_nil|done].
  - unfold fault. rewrite Hw, (proj1 Henv). destruct (upsert_ours t (w_staged w)) as (U1 & U2 & U3); [apply Hsub; by left|done|].
    set (w1 := set_staged _ _).
    assert (∀ t', t' ∈ ts' → t' ∈ ts) as Hsub' by (intros; apply Hsub; by right).
    destruct (IH w1 Hw Hsub' U1) as (rows & w' & E & Hc & O & R1 & R2).
    exists rows, w'. split_and!; [done|done|done| |].
    + intros t' [->|Ht']%elem_of_cons; [|by apply R1]. by apply R2.
    + intros r Hr. by apply R2, U3.
Qed.

Lemma StageDelivery_ok i w :
  w_env w = env → w_dedup w = dd → w_queue w = q → w_fs w = fs0 →
  (∀ r, r ∈ w_staged w → quiet r) →
  runs i (@StageDelivery SQLiteDeliveryStore p data ts) (λ err v, err = None ∧ flushing [] v ∧
    (∀ t, t ∈ ts → row_of t ∈ w_staged v)) w.
Proof using Henv Hts.
  intros Hw Hdd Hq Hfs HQ. cbn [StageDelivery SQLiteDeliveryStore]. apply runs_bind, runs_atom.
  unfold Staged.StageDelivery_tx.
  destruct (stage_rows_ok ts (bump (bump w))) as (rows & w' & E & Hc & HO & HR & _);
    [done|done|intros r Hr; left; by apply HQ|].
  unfold core_of in Hc. injection Hc as V1 V2 V3 V4 V5. erewrite sql_tx_ok; [|done|exact E|done].
  split; [done|]. split; cbn [snd].
  - constructor; cbn; [done|congruence|congruence| | |by intros t ?%elem_of_nil|].
    + intros c _. by rewrite V1, <- Hfs.
    + intros t Ht. rewrite V1. change (w_fs (bump (bump w))) with (w_fs w). rewrite Hfs. by apply Hts.
    + rewrite V2. intros r Hr. destruct (HO r Hr) as [[? _]|(t & ? & ->)]; [by left|right].
      exists t. split_and!; [done|done|by apply not_elem_of_nil].
  - intros t Ht. rewrite <- V2 in HR. by apply HR.
Qed.

Lemma AllFlushedFor_ok i w :
  flushing ts w →
  runs i (@AllFlushedFor SQLiteDeliveryStore p) (λ r v, r = Ok true ∧ flushing ts v) w.
Proof using Henv.
  intros HF. cbn [AllFlushedFor SQLiteDeliveryStore]. apply runs_atom. unfold Staged.AllFlushedFor_query.
  rewrite guarded_ok by apply (fl_env _ _ HF). cbn [fst snd]. split.
  - f_equal. apply Nat.eqb_eq, length_zero_iff_nil. destruct (List.filter _ _) as [|r l] eqn:E; [done|].
    assert (r ∈ List.filter (Staged.unflushed_for p) (w_staged (bump w))) as Hr by (rewrite E; by left).
    rewrite elem_of_bfilter in Hr. destruct Hr as [Hr Hu].
    destruct (fl_rows _ _ HF r Hr) as [Ef|(t & ? & -> & ?)]; [|done].
    unfold Staged.unflushed_for in Hu. by rewrite Ef, andb_false_r in Hu.
  - by destruct HF; constructor.
Qed.

(** ** Dedup records *)

(** [w'] has recorded at least what [w] had, and is otherwise the same. *)
Definition dedup_grows (w w' : World) : Prop :=
  core_of w' = mkCore (w_fs w) (w_staged w) (w_dedup w') (w_queue w) (w_env w) ∧
  ∀ k t, Dedup.has k t (w_dedup w) = true → Dedup.has k t (w_dedup w') = true.

Lemma RecordDelivery_ok i k t w :
  w_env w = env →
  runs i (@RecordDelivery SQLiteDeliveryDedupStore k t) (λ err v, err = None ∧
    dedup_grows w v ∧ Dedup.has k t (w_dedup v) = true) w.
Proof using Henv.
  intros Hw. cbn [RecordDelivery SQLiteDeliveryDedupStore]. apply runs_bind, runs_atom.
  unfold Dedup.RecordDelivery_exec, Now. rewrite guarded_ok by done. cbn [fst snd].
  change (w_dedup (bump (bump w))) with (w_dedup w). split; [done|].
  destruct (Dedup.has k t (w_dedup w)) eqn:E; cbn [snd]; [by split|].
  assert (∀ k' t', Dedup.has k' t' (w_dedup w) = true → Dedup.has k' t' (w_dedup w ++ [mkDedup k t (env_now (w_env w) (w_tick w))]) = true) as Hm.
  { intros k' t' (r & ? & ?)%has_In. apply has_In. exists r. split; [apply elem_of_app; by left|done]. }
  split; [by split|]. apply has_In. eexists. split; [apply elem_of_app; right; by left|done].
Qed.

Lemma record_all_ok i k inboxes w :
  w_env w = env →
  runs i (recordDedupForTargets SQLiteDeliveryDedupStore k inboxes) (λ b v, b = true ∧
    dedup_grows w v ∧ ∀ t, t ∈ inboxes → Dedup.has k t (w_dedup v) = true) w.
Proof using Henv.
  intros Hw. unfold recordDedupForTargets. apply runs_bind. eapply runs_mono;
    [|apply (runs_for_range i _ (λ dn b v, b = true ∧ dedup_grows w v ∧
        ∀ t, t ∈ dn → Dedup.has k t (w_dedup v) = true) _ [] true w)].
  - intros o v (b & -> & -> & ? & ?). by split_and!.
  - intros dn t b v _ (-> & [Hc Hg] & Hd). unfold record_step. apply runs_bind.
    assert (w_env v = env) as Hv by (unfold core_of in Hc; congruence).
    eapply runs_mono; [|by apply RecordDelivery_ok]. intros err u (-> & [Hc' Hg'] & Hh).
    exists true. split_and!; [done|done| |].
    + split; [|auto]. injection Hc as E1 E2 E3 E4. injection Hc' as E5 E6 E7 E8.
      cbn [run mret prog_mret snd]. unfold core_of. congruence.
    + intros t' [?| ->%list_elem_of_singleton]%elem_of_app; auto.
  - split_and!; [done| |by intros t ?%elem_of_nil]. by split.
Qed.

Lemma filter_delivered_ok i k inboxes w :
  w_env w = env →
  runs i (filter_delivered SQLiteDeliveryDedupStore k inboxes) (λ o v,
    o = inl (List.filter (λ b, negb (Dedup.has k b (w_dedup w))) inboxes) ∧ core_of v = core_of w) w.
Proof using Henv.
  intros Hw. unfold filter_delivered. eapply runs_mono;
    [|apply (runs_for_range i _ (λ dn rem v, core_of v = core_of w ∧
        rem = List.filter (λ b, negb (Dedup.has k b (w_dedup w))) dn) _ [] [] w)].
  - intros o v (rem & -> & Hc & ->). by rewrite app_nil_l.
  - intros dn b rem v _ [Hc ->]. unfold filter_step. apply runs_bind.
    cbn [HasDelivered SQLiteDeliveryDedupStore]. apply runs_atom. unfold Dedup.HasDelivered_query.
    assert (w_env v = env ∧ w_dedup v = w_dedup w) as [Hv Hdv] by (unfold core_of in Hc; split; congruence).
    rewrite guarded_ok by done. cbn [fst snd]. eexists. split; [done|]. split; [done|].
    change (w_dedup (bump v)) with (w_dedup v). rewrite Hdv, List.filter_app. cbn.
    destruct (Dedup.has k b (w_dedup w)); cbn; [by rewrite app_nil_r|done].
  - done.
Qed.

Lemma remove_source_ok i w data' :
  w_env w = env → Clean p = p → w_fs w !! p = Some (NFile data') →
  runs i (remove_source p) (λ err v, err = None ∧
    core_of v = mkCore (delete p (w_fs w)) (w_staged w) (w_dedup w) (w_queue w) env) w.
Proof using Henv.
  intros Hw Hc Hf. unfold remove_source. apply runs_bind, runs_atom. unfold os_Remove.
  rewrite guarded_ok by done. unfold lookup_path. rewrite Hc. change (w_fs (bump w)) with (w_fs w).
  rewrite Hf. split; [done|]. unfold core_of. cbn. by rewrite Hw.
Qed.
End Healthy.

(** ** Deliveries *)

Definition targets (p : string) (inboxes : list string) : list string :=
  (λ inbox, path_Join [inbox; Base p]) <$> inboxes.

(** A world in which a delivery of the D-Mail can go through: no failures, no
    leftover temporary files, inboxes that exist, and a store with nothing
    pending and no rows of this path. *)
Record ready (w : World) (p : string) (data : bytes) (inboxes : list string) : Prop := {
  rd_env : healthy (w_env w);
  rd_temps : no_temps (w_fs w);
  rd_source : w_fs w !! p = Some (NFile data);
  rd_rows : ∀ r, r ∈ w_staged w → quiet p r;
  rd_inbox : ∀ b, b ∈ inboxes →
    Clean b = b ∧ w_fs w !! b = Some NDir ∧ w_fs w !! path_Join [b; Base p] ≠ Some NDir ∧ b ≠ Dir p }.

(** What a completed delivery to the given inboxes leaves behind. *)
Record completed (dedup : bool) (p : string) (data : bytes) (kind : DMailKind) (inboxes : list string)
    (w : World) (o : outcome) (v : World) : Prop := {
  cp_outcome : ∃ dl, o = (Some (mkResult p kind dl), None) ∧ ∀ t, t ∈ dl ↔ t ∈ targets p inboxes;
  cp_source : w_fs v !! p = None;
  cp_inbox : ∀ t, t ∈ targets p inboxes → w_fs v !! t = Some (NFile data);
  cp_other : ∀ c, c ≠ p → c ∉ targets p inboxes → w_fs v !! c = w_fs w !! c;
  cp_dedup : ∀ k t, Dedup.has k t (w_dedup w) = true → Dedup.has k t (w_dedup v) = true;
  cp_recorded : dedup = true → ∀ b, b ∈ inboxes → Dedup.has (ContentIdempotencyKey data) b (w_dedup v) = true;
  cp_queue : w_queue v = w_queue w;
  cp_rows : ∀ r, r ∈ w_staged v → sr_flushed r = true;
  cp_env : w_env v = w_env w }.

Definition dedup_store (b : bool) : option DeliveryDedupStore :=
  if b then Some SQLiteDeliveryDedupStore else None.

Section Completes.
Context `{External}.

Lemma targets_ready p data inboxes w :
  mail_path p → ready w p data inboxes →
  (∀ t, t ∈ targets p inboxes → Clean t = t ∧ ¬ temp t ∧ Clean (Dir t) = Dir t ∧
     w_fs w !! Dir t = Some NDir ∧ w_fs w !! t ≠ Some NDir) ∧ p ∉ targets p inboxes.
Proof.
  intros (Hc & Ht & Hp) HR. split.
  - intros t (b & -> & Hb)%list_elem_of_fmap. destruct (rd_inbox _ _ _ _ HR b Hb) as (H1 & H2 & H3 & _).
    rewrite (Dir_Join b (Base p) Hp), H1. split_and!; [by apply Clean_Join| |done|done|done].
    unfold temp. by rewrite Base_Join.
  - intros (b & E & Hb)%list_elem_of_fmap. destruct (rd_inbox _ _ _ _ HR b Hb) as (H1 & _ & _ & Hne).
    apply Hne. by rewrite E, Dir_Join, H1.
Qed.

Lemma stage_and_flush_ok i dedup p data kind inboxes w :
  mail_path p → ready w p data inboxes →
  runs i (@stage_and_flush SQLiteDeliveryStore (dedup_store dedup) p data kind inboxes)
    (completed dedup p data kind inboxes w) w.
Proof.
  intros Hp HR. destruct (targets_ready p data inboxes w Hp HR) as [Hts Hpt].
  pose proof (rd_env _ _ _ _ HR) as Henv. unfold stage_and_flush. fold (targets p inboxes).
  set (ts := targets p inboxes) in *. apply runs_bind.
  eapply runs_mono; [|apply (StageDelivery_ok (w_env w) Henv p data ts (w_fs w) (w_dedup w) (w_queue w) Hts);
    try done; apply HR].
  intros err v (-> & HF & Hrows). apply runs_bind. cbn [FlushDeliveries SQLiteDeliveryStore].
  eapply runs_mono; [|apply (FlushDeliveries_ok (w_env w) Henv p data ts (w_fs w) (w_dedup w) (w_queue w)
    (rd_temps _ _ _ _ HR) Hts); done].
  clear v HF Hrows. intros fl v (dn & -> & Hdn & HF). cbn [fst].
  assert (df_Target <$> List.filter (λ f, bool_decide (df_DMailPath f = p)) (mkFlushed p <$> dn) = dn) as ->.
  { clear. induction dn as [|t dn IH]; [done|]. cbn. rewrite bool_decide_eq_true_2 by done. cbn. by f_equal. }
  assert (flushing (w_env w) p data ts (w_fs w) (w_dedup w) (w_queue w) ts v) as HF'.
  { destruct HF as [F1 F2 F3 F4 F5 F6 F7]. constructor; try done.
    - intros t Ht. by apply F6, Hdn.
    - intros r Hr. destruct (F7 r Hr) as [?|(t & H1 & H2 & H3)]; [by left|]. by rewrite Hdn in H3. }
  apply runs_bind. eapply runs_mono; [|by apply (AllFlushedFor_ok (w_env w) Henv)].
  clear v HF HF'. intros r v [-> HF].
  apply runs_bind. apply (runs_mono _ _ (λ b u, b = true ∧ dedup_grows v u ∧
    (dedup = true → ∀ b, b ∈ inboxes → Dedup.has (ContentIdempotencyKey data) b (w_dedup u) = true))).
  2:{ destruct dedup; cbn [dedup_store]; [|by split_and!]. eapply runs_mono;
        [|apply (record_all_ok (w_env w) Henv), HF].
      intros b u (-> & Hg & Hall). split_and!; [done|done|]. intros _ b Hb. apply Hall. unfold dedup_targets.
      apply elem_of_app. left. apply list_elem_of_fmap. exists (path_Join [b; Base p]).
      destruct (rd_inbox _ _ _ _ HR b Hb) as (H1 & _). destruct Hp as (_ & _ & Hpl).
      split; [by rewrite Dir_Join, H1|]. apply Hdn, list_elem_of_fmap. by exists b. }
  intros b u (-> & [Hc Hg] & Hall). cbn [andb]. injection Hc as U1 U2 U3 U4.
  apply runs_bind. eapply runs_mono; [|apply (remove_source_ok (w_env w) Henv p i u data); [|apply Hp|]].
  2:{ rewrite U4. apply HF. }
  2:{ rewrite U1, (fl_other _ _ _ _ _ _ _ _ _ HF p Hpt). apply HR. }
  intros err x [-> Hx]. injection Hx as X1 X2 X3 X4 X5. destruct HF as [F1 F2 F3 F4 F5 F6 F7].
  constructor; cbn [fst snd run mret prog_mret].
  - exists dn. by split.
  - by rewrite X1, lookup_delete_eq.
  - intros t Ht. rewrite X1, lookup_delete_ne, U1 by (by intros ->). by apply F6.
  - intros c Hc1 Hc2. rewrite X1, lookup_delete_ne, U1 by done. by apply F4.
  - intros k t Hk. rewrite X3. apply Hg. by rewrite F2.
  - intros Hd b Hb. rewrite X3. by apply Hall.
  - congruence.
  - rewrite X2, U2. intros r Hr. destruct (F7 r Hr) as [?|(t & H1 & _ & H3)]; [done|by destruct H3].
  - done.
Qed.

(** The inboxes of a selection that are still to be served. *)
Definition unserved (dedup : bool) (data : bytes) (w : World) (inboxes : list string) : list string :=
  if dedup then List.filter (λ b, negb (Dedup.has (ContentIdempotencyKey data) b (w_dedup w))) inboxes
  else inboxes.

Lemma unserved_sub dedup data w inboxes b : b ∈ unserved dedup data w inboxes → b ∈ inboxes.
Proof.
  destruct dedup; [|done]. cbn. rewrite elem_of_bfilter. by intros [? _].
Qed.

Lemma ready_core w v p data inboxes inboxes' :
  core_of v = core_of w → (∀ b, b ∈ inboxes' → b ∈ inboxes) → ready w p data inboxes → ready v p data inboxes'.
Proof.
  intros Hc Hs [R1 R2 R3 R4 R5]. injection Hc as E1 E2 E3 E4 E5.
  constructor; rewrite ?E1, ?E2, ?E5; auto.
Qed.

Lemma DeliverData_ok i dedup routes p data inboxes w :
  mail_path p → selected_inboxes routes p data = Some inboxes → ready w p data inboxes →
  runs i (@DeliverData _ SQLiteDeliveryStore (dedup_store dedup) routes p data)
    (λ o v, ∃ kind, completed dedup p data kind (unserved dedup data w inboxes) w o v) w.
Proof.
  intros Hp Hsel HR. unfold DeliverData, selected_inboxes in *.
  destruct (validate_dmail p data) as [fm|]; [|done].
  destruct (match_route (fm_Kind fm) (Dir p) routes) as [r|]; [|done]. cbn in Hsel. injection Hsel as ->.
  destruct dedup; cbn [dedup_store unserved].
  2:{ eapply runs_mono; [|by apply (stage_and_flush_ok i false)]. intros o v Hv. by exists (fm_Kind fm). }
  apply runs_bind. eapply runs_mono; [|apply (filter_delivered_ok (w_env w)); [apply HR|done]].
  intros o v [-> Hc]. set (rem := List.filter _ _).
  assert (∀ b, b ∈ rem → b ∈ inboxes) as Hsub by (intros b; apply (unserved_sub true data w)).
  clearbody rem. destruct rem as [|b rem].
  - injection Hc as E1 E2 E3 E4 E5. apply runs_bind.
    eapply runs_mono; [|apply (remove_source_ok (w_env w) (rd_env _ _ _ _ HR) p i v data E5 (proj1 Hp))].
    2:{ rewrite E1. apply HR. }
    intros err u [_ Hu]. injection Hu as X1 X2 X3 X4 X5. exists (fm_Kind fm).
    constructor; cbn [fst snd run mret prog_mret].
    + by exists [].
    + by rewrite X1, lookup_delete_eq.
    + by intros t ?%elem_of_nil.
    + intros c Hc' _. by rewrite X1, lookup_delete_ne, E1.
    + intros k t. by rewrite X3, E3.
    + by intros _ b ?%elem_of_nil.
    + congruence.
    + rewrite X2, E2. intros r' Hr'. by apply (rd_rows _ _ _ _ HR).
    + congruence.
  - eapply runs_mono; [|apply (stage_and_flush_ok i true p data (fm_Kind fm) (b :: rem) v Hp)].
    + intros o u HC. exists (fm_Kind fm). injection Hc as E1 E2 E3 E4 E5. destruct HC.
      constructor; try done; [by rewrite <- E1|by rewrite <- E3|congruence|congruence].
    + eapply ready_core; [exact Hc| |exact HR]. done.
Qed.
End Completes.

(** C19: a delivery completes.  Take a D-Mail that has a route, in a world with
    no failures, where the selected inboxes exist and the store has nothing
    pending.  Then [DeliverData], run alone, returns a result and no error;
    every selected inbox the dedup store does not already know has the
    D-Mail's content under its file name and is listed in the result; the
    source is gone; no other file and no queue entry has changed; no row is
    left pending; and, with a dedup store, all these inboxes are recorded. *)
Theorem delivery_completes `{External} (i : nat) (dedup : bool) (routes : list ResolvedRoute)
    (p : string) (data : bytes) (inboxes : list string) (w : World) :
  mail_path p →
  selected_inboxes routes p data = Some inboxes →
  ready w p data inboxes →
  let '(o, v) := run i (@DeliverData _ SQLiteDeliveryStore (dedup_store dedup) routes p data) w in
  ∃ kind, completed dedup p data kind (unserved dedup data w inboxes) w o v.
Proof.
  intros Hp Hsel HR. pose proof (DeliverData_ok i dedup routes p data inboxes w Hp Hsel HR) as HD.
  unfold runs in HD. by destruct (run i _ w).
Qed.

Lemma sample_ready :
  ready (sample_world [(sample_path, sample_dmail)] no_fault_env) sample_path sample_dmail
    ["/r/.expedition/inbox"; "/r/.gate/inbox"].
Proof.
  constructor.
  - by split.
  - intros c Hc. apply eq_None_not_Some. intros [n Hn]. cbn in Hn. unfold sample_fs in Hn.
    apply lookup_union_Some_raw in Hn as [E|[_ E]]; cbn in E.
    + apply lookup_insert_Some in E as [[<- _]|[_ E]]; [done|by rewrite lookup_empty in E].
    + repeat (apply lookup_insert_Some in E as [[<- _]|[_ E]]; [done|]).
      by apply lookup_singleton_Some in E as [<- _].
  - done.
  - by intros r ?%elem_of_nil.
  - intros b. rewrite !elem_of_cons. intros [->|[->|?%elem_of_nil]]; done.
Qed.

Lemma delivery_completes_witness :
  let '(o, v) := run 0 (delivery_task (H := sample_external) sample_routes (λ _, sample_dmail) true sample_path)
                   (sample_world [(sample_path, sample_dmail)] no_fault_env) in
  w_fs v !! "/r/.gate/inbox/spec.md" = Some (NFile sample_dmail) ∧ w_fs v !! sample_path = None.
Proof.
  pose proof (delivery_completes (H := sample_external) 0 true sample_routes sample_path sample_dmail
    ["/r/.expedition/inbox"; "/r/.gate/inbox"] (sample_world [(sample_path, sample_dmail)] no_fault_env)
    sample_mail_path) as HC.
  specialize (HC ltac:(vm_compute; reflexivity) sample_ready).
  unfold delivery_task. cbn [dedup_store] in HC. destruct (run _ _ _) as [o v]. destruct HC as [kind HC].
  split; [|by apply HC]. apply (cp_inbox _ _ _ _ _ _ _ _ HC). vm_compute. right. left.
Defined.

(** C20: delivery is idempotent in the content.  When a delivery with a dedup
    store has completed, and the same content turns up again in the same
    outbox under any file name, with the world otherwise quiet, then
    delivering it again succeeds, removes the new source, reports no target
    and changes no other file, no row and no queue entry. *)
Theorem redelivery_is_idempotent `{External} (i : nat) (routes : list ResolvedRoute) (p p' : string) (data : bytes)
    (kind : DMailKind) (inboxes : list string) (w v u : World) (o : outcome) :
  mail_path p' → Dir p' = Dir p →
  selected_inboxes routes p data = Some inboxes →
  completed true p data kind (unserved true data w inboxes) w o v →
  healthy (w_env u) → w_dedup u = w_dedup v → w_fs u !! p' = Some (NFile data) →
  let '(o', u') := run i (@DeliverData _ SQLiteDeliveryStore (dedup_store true) routes p' data) u in
  (∃ kind', o' = (Some (mkResult p' kind' []), None)) ∧ w_fs u' = delete p' (w_fs u) ∧
  w_staged u' = w_staged u ∧ w_dedup u' = w_dedup u ∧ w_queue u' = w_queue u.
Proof.
  intros Hp' HD Hsel HC Henv Hd Hf.
  assert (∀ b, b ∈ inboxes → Dedup.has (ContentIdempotencyKey data) b (w_dedup u) = true) as Hall.
  { intros b Hb. rewrite Hd. destruct (Dedup.has (ContentIdempotencyKey data) b (w_dedup w)) eqn:E.
    - by apply (cp_dedup _ _ _ _ _ _ _ _ HC).
    - apply (cp_recorded _ _ _ _ _ _ _ _ HC eq_refl). cbn.
      rewrite elem_of_bfilter, E. done. }
  assert (runs i (@DeliverData _ SQLiteDeliveryStore (dedup_store true) routes p' data)
    (λ o' u', (∃ kind', o' = (Some (mkResult p' kind' []), None)) ∧
      core_of u' = mkCore (delete p' (w_fs u)) (w_staged u) (w_dedup u) (w_queue u) (w_env u)) u) as HR.
  { unfold DeliverData, selected_inboxes, validate_dmail in *.
    destruct (ParseDMailFrontmatter data) as [fm|]; [|done].
    repeat (case_bool_decide; cbn [negb] in *; try done).
    destruct (ParseDMailKind (fm_Kind fm)); [|done]. rewrite HD.
    destruct (match_route (fm_Kind fm) (Dir p) routes) as [r|]; [|done]. cbn in Hsel. injection Hsel as ->.
    cbn [dedup_store]. apply runs_bind. eapply runs_mono; [|by apply (filter_delivered_ok (w_env u))].
    intros o1 u1 [-> Hc]. injection Hc as E1 E2 E3 E4 E5.
    assert (List.filter (λ b, negb (Dedup.has (ContentIdempotencyKey data) b (w_dedup u))) inboxes = []) as ->.
    { clear -Hall. induction inboxes as [|b l IH]; [done|]. cbn. rewrite Hall by by left. cbn.
      apply IH. intros. apply Hall. by right. }
    apply runs_bind. eapply runs_mono; [|apply (remove_source_ok (w_env u) Henv p' i u1 data E5 (proj1 Hp')); by rewrite E1].
    intros err u2 [_ Hu]. split; [by eexists|]. cbn [run mret prog_mret snd]. rewrite Hu, E1, E2, E3, E4. done. }
  unfold runs in HR. destruct (run i _ u) as [o' u']. destruct HR as [Ho Hc]. injection Hc as ? ? ? ? ?. done.
Qed.

Lemma redelivery_is_idempotent_witness :
  let '(_, v) := run 0 (delivery_task (H := sample_external) sample_routes (λ _, sample_dmail) true sample_path)
                   (sample_world [(sample_path, sample_dmail)] no_fault_env) in
  let u := set_fs (<["/r/.siren/outbox/again.md" := NFile sample_dmail]> (w_fs v)) v in
  let '(o', u') := run 0 (delivery_task (H := sample_external) sample_routes (λ _, sample_dmail) true
                            "/r/.siren/outbox/again.md") u in
  w_staged u' = w_staged u ∧ w_dedup u' = w_dedup u ∧ w_queue u' = w_queue u.
Proof.
  pose proof (DeliverData_ok (H := sample_external) 0 true sample_routes sample_path sample_dmail
    ["/r/.expedition/inbox"; "/r/.gate/inbox"] (sample_world [(sample_path, sample_dmail)] no_fault_env)
    sample_mail_path ltac:(vm_compute; reflexivity) sample_ready) as HC.
  unfold runs in HC. unfold delivery_task. cbn [dedup_store] in HC.
  destruct (run 0 _ _) as [o v]. cbn [fst snd] in HC. destruct HC as [kind HC]. cbv zeta. set (u := set_fs _ v).
  pose proof (redelivery_is_idempotent (H := sample_external) 0 sample_routes sample_path "/r/.siren/outbox/again.md"
    sample_dmail kind ["/r/.expedition/inbox"; "/r/.gate/inbox"]
    (sample_world [(sample_path, sample_dmail)] no_fault_env) v u o) as HI.
  cbn [dedup_store] in HI. destruct (run 0 _ u) as [o' u']. apply HI; clear HI.
  - by split_and!.
  - reflexivity.
  - vm_compute. reflexivity.
  - exact HC.
  - change (w_env u) with (w_env v). rewrite (cp_env _ _ _ _ _ _ _ _ HC). by split.
  - done.
  - apply lookup_insert_eq.
Defined.
