(* ===== verification/Setup.v ===== *)
(** * From repositories to routes

    Models [session/scanner.go] ([ScanRepository]), [session/setup.go]
    ([Init], [Add], [Remove], [Sync] and their diffs), [session/daemon_setup.go]
    ([ResolveRoutes], [CollectOutboxDirs]) and [session/crosscheck.go].  The
    repository scans run on a worker pool whose results come back in
    submission order and only read the file system: here they run in that
    order.  A Go map that is only compared and ranged over is a [gmap]; the
    order of a range is [map_to_list]'s.  The checks of the external
    skills-ref tool on one endpoint are a parameter. *)
From S2P Require Import Prelude GoStrings GoPath GoTime DMail Improvement Router Provider Prog World Deliver Safety DeliverSafety.

(** [domain/phonewave.go] *)
Definition StateDir : string := ".phonewave".

(** ** [daemon_setup.go] *)

(** The text before the first separator, [strings.SplitN(s, "/", 2)[0]]. *)
Definition first_element (s : string) : string := default "" (head (Split s slash)).

Definition has_endpoint (dotDir : string) (repo : RepoConfig) : bool :=
  existsb (λ ep, bool_decide (epc_Dir ep = dotDir)) (rc_Endpoints repo).

(** [range] with an early error return. *)
Fixpoint collect {A B} (f : A → result B) (l : list A) : result (list B) :=
  match l with
  | [] => Ok []
  | a :: r =>
      match f a with
      | Err e => Err e
      | Ok b => match collect f r with Err e => Err e | Ok bs => Ok (b :: bs) end
      end
  end.

Section Resolve.
Context `{External}.

Definition findRepoForRoute (cfg : Config) (fromPath : string) : result RepoConfig :=
  match List.find (has_endpoint (first_element fromPath)) (cfg_Repositories cfg) with
  | Some repo => Ok repo
  | None => Err (errors_New ("no repository found for route from " +:+ quote fromPath))
  end.

Definition resolve_route (cfg : Config) (route : RouteConfig) : result ResolvedRoute :=
  let resolved repoPath :=
    mkRoute (rtc_Kind route) (path_Join [repoPath; rtc_From route])
            (map (λ to, path_Join [repoPath; to]) (rtc_To route)) in
  if bool_decide (rtc_RepoPath route = "") then
    match findRepoForRoute cfg (rtc_From route) with
    | Err err => Err err
    | Ok repo => Ok (resolved (rc_Path repo))
    end
  else Ok (resolved (rtc_RepoPath route)).

Definition ResolveRoutes (cfg : Config) : result (list ResolvedRoute) :=
  collect (resolve_route cfg) (cfg_Routes cfg).

End Resolve.

Definition CollectOutboxDirs (cfg : Config) : list string :=
  mjoin (map (λ repo,
    omap (λ ep, match epc_Produces ep with
                | [] => None
                | _ => Some (path_Join [rc_Path repo; epc_Dir ep; "outbox"])
                end) (rc_Endpoints repo)) (cfg_Repositories cfg)).

(** ** [scanner.go] *)

Section Scan.
Context `{External}.

Definition SkillSendable : string := "dmail-sendable".
Definition SkillReadable : string := "dmail-readable".

(** The kinds a skill file adds: [None] when it cannot be read. *)
Definition read_skill (path : string) (caps : SkillFrontmatter → list DMailCapability)
    : program (option (result (list string))) :=
  r ← atom (os_ReadFile path);
  match r with
  | Err _ => mret None
  | Ok data =>
      match ParseSkillFrontmatter data with
      | Err err => mret (Some (Err err))
      | Ok skill => mret (Some (Ok (map cap_Kind (caps skill))))
      end
  end.

Definition scanEndpoint (repoPath dirName : string) : program (result (option Endpoint)) :=
  s ← read_skill (path_Join [repoPath; dirName; "skills"; SkillSendable; "SKILL.md"]) sk_Produces;
  match s with
  | Some (Err err) => mret (Err err)
  | None | Some (Ok _) =>
      let produces := match s with Some (Ok ks) => ks | _ => [] end in
      r ← read_skill (path_Join [repoPath; dirName; "skills"; SkillReadable; "SKILL.md"]) sk_Consumes;
      match r with
      | Some (Err err) => mret (Err err)
      | None | Some (Ok _) =>
          let consumes := match r with Some (Ok ks) => ks | _ => [] end in
          let found := match s, r with None, None => false | _, _ => true end in
          mret (Ok (if (found : bool) then Some (mkEndpoint dirName produces consumes) else None))
      end
  end.

(** The dot-directories that can be tools. *)
Definition tool_dir (entry : string * bool) : bool :=
  snd entry && HasPrefix (fst entry) "." &&
  negb (bool_decide (fst entry = ".git") || bool_decide (fst entry = ".github")
        || bool_decide (fst entry = StateDir)).

Definition scan_step (repoPath : string) (endpoints : list Endpoint) (name : string)
    : program (list Endpoint + error) :=
  r ← scanEndpoint repoPath name;
  match r with
  | Err err => mret (inr err)
  | Ok (Some ep) => mret (inl (endpoints ++ [ep]))
  | Ok None => mret (inl endpoints)
  end.

Definition ScanRepository (repoPath : string) : program (result (list Endpoint)) :=
  r ← atom (os_ReadDir repoPath);
  match r with
  | Err err => mret (Err err)
  | Ok entries =>
      o ← for_range (map fst (List.filter tool_dir entries)) [] (scan_step repoPath);
      match o with inl endpoints => mret (Ok endpoints) | inr err => mret (Err err) end
  end.

(** ** [setup.go] *)

(** The working directory, and the warnings of the skills-ref tool. *)
Variable cwd : string.
Variable validateEndpointSkills : string → EndpointConfig → list string.

Definition Abs (p : string) : act (result string) := λ w,
  if IsAbs p then (Ok (Clean p), w)
  else guarded "" (λ w, (Ok (path_Join [cwd; p]), w)) w.

Definition collectSkillWarnings (cfg : Config) (filterRepoPath : string) : list string :=
  mjoin (map (λ repo,
    if negb (bool_decide (filterRepoPath = "")) && negb (bool_decide (rc_Path repo = filterRepoPath)) then []
    else mjoin (map (validateEndpointSkills (rc_Path repo)) (rc_Endpoints repo))) (cfg_Repositories cfg)).

Definition set_synced (t : Time) (c : Config) : Config :=
  mkConfig t (cfg_Repositories c) (cfg_Routes c).

Record InitResult := mkInitResult {
  ir_Config : Config; ir_Orphans : OrphanReport; ir_RepoCount : nat; ir_Warnings : list string }.
Record AddResult := mkAddResult { ar_Orphans : OrphanReport; ar_Warnings : list string }.

Definition scan_abs (repoPath : string) : program (result (string * list Endpoint)) :=
  a ← atom (Abs repoPath);
  match a with
  | Err err => mret (Err (errorf_w ("invalid path " +:+ quote repoPath +:+ ": ") err))
  | Ok absPath =>
      r ← ScanRepository absPath;
      match r with
      | Err err => mret (Err (errorf_w ("scan " +:+ quote absPath +:+ ": ") err))
      | Ok endpoints => mret (Ok (absPath, endpoints))
      end
  end.

(** The tasks of a group; their results in submission order. *)
Fixpoint run_all {A B} (f : A → program B) (l : list A) : program (list B) :=
  match l with
  | [] => mret []
  | a :: r => b ← f a; bs ← run_all f r; mret (b :: bs)
  end.

Definition Init (repoPaths : list string) : program (result InitResult) :=
  now ← atom Now;
  scanResults ← run_all scan_abs repoPaths;
  match collect id scanResults with
  | Err err => mret (Err err)
  | Ok scanned =>
      let cfg := fold_left (λ c s, AddRepository c (fst s) (snd s)) scanned (mkConfig now [] []) in
      let cfg := UpdateRoutes cfg in
      mret (Ok (mkInitResult cfg (DetectOrphansPerRepo cfg) (length repoPaths) (collectSkillWarnings cfg "")))
  end.

(** The Go functions below mutate [*cfg]; here the new configuration is
    returned beside the result. *)
Definition Add (cfg : Config) (repoPath : string) : program (result AddResult * Config) :=
  a ← atom (Abs repoPath);
  match a with
  | Err err => mret (Err (errorf_w ("invalid path " +:+ quote repoPath +:+ ": ") err), cfg)
  | Ok absPath =>
      if existsb (λ repo, bool_decide (rc_Path repo = absPath)) (cfg_Repositories cfg) then
        mret (Err (errors_New ("repository " +:+ quote absPath +:+ " already exists in config")), cfg)
      else
        r ← ScanRepository absPath;
        match r with
        | Err err => mret (Err (errorf_w ("scan " +:+ quote absPath +:+ ": ") err), cfg)
        | Ok endpoints =>
            now ← atom Now;
            let cfg := set_synced now (UpdateRoutes (AddRepository cfg absPath endpoints)) in
            mret (Ok (mkAddResult (DetectOrphansPerRepo cfg) (collectSkillWarnings cfg absPath)), cfg)
        end
  end.

Definition Remove (cfg : Config) (repoPath : string) : program (result OrphanReport * Config) :=
  a ← atom (Abs repoPath);
  match a with
  | Err err => mret (Err (errorf_w ("invalid path " +:+ quote repoPath +:+ ": ") err), cfg)
  | Ok absPath =>
      match RemoveRepository cfg absPath with
      | (false, cfg) => mret (Err (errors_New ("repository " +:+ quote absPath +:+ " not found in config")), cfg)
      | (true, cfg) =>
          now ← atom Now;
          let cfg := set_synced now (UpdateRoutes cfg) in
          mret (Ok (DetectOrphansPerRepo cfg), cfg)
      end
  end.
End Scan.

(** ** Snapshots and diffs *)

Definition snapshotEndpoints (cfg : Config) : gmap string EndpointConfig :=
  fold_left (λ snap repo,
    fold_left (λ snap ep, <[rc_Path repo +:+ "/" +:+ epc_Dir ep := ep]> snap) (rc_Endpoints repo) snap)
    (cfg_Repositories cfg) ∅.

Definition snapshotRoutes (cfg : Config) : gmap string RouteConfig :=
  fold_left (λ snap r, <[rtc_RepoPath r +:+ ":" +:+ rtc_Kind r +:+ ":" +:+ rtc_From r := r]> snap)
    (cfg_Routes cfg) ∅.

Definition splitEndpointKey (key : string) : string * string :=
  match cut_last slash key with
  | None => (key, "")
  | Some (before, dir) => (Base before, dir)
  end.

(** Equal as multisets: both sorted, then compared. *)
Definition slicesEqual (a b : list string) : bool :=
  (length a =? length b) && bool_decide (sort_Strings a = sort_Strings b).
Definition endpointEqual (a b : EndpointConfig) : bool :=
  slicesEqual (epc_Produces a) (epc_Produces b) && slicesEqual (epc_Consumes a) (epc_Consumes b).

Inductive change := Added | Removed | Changed.
Record EndpointDiff := mkEpDiff { ed_Repo : string; ed_Dir : string; ed_Change : change }.
Record RouteDiff := mkRtDiff { rd_Kind : string; rd_From : string; rd_Change : change }.

Definition diffEndpoints (old latest : gmap string EndpointConfig) : list EndpointDiff :=
  let diff key c := let '(repo, dir) := splitEndpointKey key in mkEpDiff repo dir c in
  omap (λ '(key, newEp),
    match old !! key with
    | None => Some (diff key Added)
    | Some oldEp => if negb (endpointEqual oldEp newEp) then Some (diff key Changed) else None
    end) (map_to_list latest) ++
  omap (λ '(key, _),
    match latest !! key with None => Some (diff key Removed) | Some _ => None end) (map_to_list old).

Definition diffRoutes (old latest : gmap string RouteConfig) : list RouteDiff :=
  omap (λ '(key, r), match old !! key with
                     | None => Some (mkRtDiff (rtc_Kind r) (rtc_From r) Added)
                     | Some _ => None
                     end) (map_to_list latest) ++
  omap (λ '(key, r), match latest !! key with
                     | None => Some (mkRtDiff (rtc_Kind r) (rtc_From r) Removed)
                     | Some _ => None
                     end) (map_to_list old).

Record SyncReport := mkSyncReport {
  sy_Orphans : OrphanReport; sy_EndpointChanges : list EndpointDiff; sy_RouteChanges : list RouteDiff;
  sy_RepoCount : nat; sy_TotalRoutes : nat; sy_Warnings : list string }.

Section Sync.
Context `{External}.
Variable validateEndpointSkills : string → EndpointConfig → list string.

Definition rescan (repo : RepoConfig) : program (result RepoConfig) :=
  r ← ScanRepository (rc_Path repo);
  match r with
  | Err err => mret (Err (errorf_w ("scan " +:+ quote (rc_Path repo) +:+ ": ") err))
  | Ok endpoints => mret (Ok (mkRepo (rc_Path repo) (map to_EndpointConfig endpoints)))
  end.

Definition Sync (cfg : Config) : program (result SyncReport * Config) :=
  let oldEndpoints := snapshotEndpoints cfg in
  let oldRoutes := snapshotRoutes cfg in
  scanResults ← run_all rescan (cfg_Repositories cfg);
  match collect id scanResults with
  | Err err => mret (Err err, cfg)
  | Ok newRepos =>
      now ← atom Now;
      let cfg := set_synced now (UpdateRoutes (mkConfig (cfg_LastSynced cfg) newRepos (cfg_Routes cfg))) in
      mret (Ok (mkSyncReport (DetectOrphansPerRepo cfg)
                  (diffEndpoints oldEndpoints (snapshotEndpoints cfg))
                  (diffRoutes oldRoutes (snapshotRoutes cfg))
                  (length (cfg_Repositories cfg)) (length (cfg_Routes cfg))
                  (collectSkillWarnings validateEndpointSkills cfg "")), cfg)
  end.
End Sync.

(** ** [crosscheck.go] *)

Record UnifiedCheck := mkCheck { uc_Name : string; uc_Status : string; uc_Message : string; uc_Hint : string }.

Definition CheckRoutingConsistency (cfg : option Config) : list UnifiedCheck :=
  match cfg with
  | None => [mkCheck "routing" "SKIP" "no config loaded" ""]
  | Some cfg =>
      let orphans := DetectOrphansPerRepo cfg in
      let unconsumed := match UnconsumedKinds orphans with
        | [] => []
        | ks => [mkCheck "routing-unconsumed" "WARN" ("produced but not consumed: " +:+ Join ks ", ")
                         "Add a consumer endpoint for these D-Mail kinds"]
        end in
      let unproduced := match UnproducedKinds orphans with
        | [] => []
        | ks => [mkCheck "routing-unproduced" "WARN" ("consumed but not produced: " +:+ Join ks ", ")
                         "Add a producer endpoint for these D-Mail kinds or remove the consumer"]
        end in
      match unconsumed ++ unproduced with
      | [] =>
          let totalRoutes := sum_list (map (λ repo, length (DeriveRoutes (repo_endpoints repo))) (cfg_Repositories cfg)) in
          [mkCheck "routing" "OK" (Itoa (Z.of_nat totalRoutes) +:+ " route(s) resolved, no orphans") ""]
      | checks => checks
      end
  end.

(** * Theorems *)

(** What a scan gives: endpoint directories are plain names, and repository
    paths are not empty. *)
Definition well_scanned (cfg : Config) : Prop :=
  ∀ repo, repo ∈ cfg_Repositories cfg → rc_Path repo ≠ "" ∧
    ∀ ep, ep ∈ rc_Endpoints repo → plain (epc_Dir ep).

Lemma elem_of_CollectOutboxDirs cfg dir :
  dir ∈ CollectOutboxDirs cfg ↔ ∃ repo ep, repo ∈ cfg_Repositories cfg ∧ ep ∈ rc_Endpoints repo ∧
    epc_Produces ep ≠ [] ∧ dir = path_Join [rc_Path repo; epc_Dir ep; "outbox"].
Proof.
  unfold CollectOutboxDirs. rewrite list_elem_of_join. setoid_rewrite list_elem_of_fmap. split.
  - intros (l & Hl & repo & -> & Hrepo). apply list_elem_of_omap in Hl as (ep & Hep & E).
    exists repo, ep. destruct (epc_Produces ep); simplify_eq. done.
  - intros (repo & ep & Hr & He & Hp & ->). eexists. split; [|by exists repo].
    apply list_elem_of_omap. exists ep. split; [done|]. by destruct (epc_Produces ep).
Qed.

Lemma elem_of_repo_endpoints repo ep :
  ep ∈ repo_endpoints repo ↔ ∃ epc, epc ∈ rc_Endpoints repo ∧ ep = to_Endpoint epc.
Proof. unfold repo_endpoints. rewrite list_elem_of_fmap. naive_solver. Qed.

Lemma plain_outbox : plain "outbox". Proof. by split_and!. Qed.
Lemma plain_inbox : plain "inbox". Proof. by split_and!. Qed.
#[local] Hint Resolve plain_outbox plain_inbox : go.
#[local] Arguments path_Join : simpl never.

(** An inbox is never an outbox. *)
Lemma inbox_not_outbox cfg p d :
  well_scanned cfg → path_Join [p; d; "inbox"] ∈ CollectOutboxDirs cfg → plain d → False.
Proof.
  intros Hs (repo & ep & Hr & He & _ & E)%elem_of_CollectOutboxDirs Hd. destruct (Hs repo Hr) as [_ Hp].
  rewrite !path_Join_3 in E by auto with go.
  destruct (path_Join_inj _ _ _ _ plain_inbox plain_outbox E) as [? _]. done.
Qed.

Lemma collect_total {A B} (f : A → result B) (g : A → B) l :
  (∀ a, a ∈ l → f a = Ok (g a)) → collect f l = Ok (map g l).
Proof.
  induction l as [|a l IH]; intros Hf; [done|]. cbn. rewrite Hf by by left.
  rewrite IH; [done|]. intros b Hb. apply Hf. by right.
Qed.

Definition resolved (route : RouteConfig) : ResolvedRoute :=
  mkRoute (rtc_Kind route) (path_Join [rtc_RepoPath route; rtc_From route])
          (map (λ to, path_Join [rtc_RepoPath route; to]) (rtc_To route)).

Lemma ResolveRoutes_total `{External} cfg :
  well_scanned cfg → ResolveRoutes (UpdateRoutes cfg) = Ok (map resolved (cfg_Routes (UpdateRoutes cfg))).
Proof.
  intros Hs. apply collect_total. intros rt (repo & r & Hrepo & _ & ->)%elem_of_UpdateRoutes.
  unfold resolve_route. rewrite bool_decide_false; [done|]. by apply Hs.
Qed.

(** C22: the routes the daemon runs on fit the directories it watches.  For a
    configuration whose endpoints have plain directory names, resolving the
    routes derived by [UpdateRoutes] cannot fail; every resolved route starts
    at an outbox the daemon watches; its inboxes are clean paths and none of
    them is a watched outbox, so the hypothesis of the delivery safety
    theorems holds; and it serves exactly the inboxes of the other endpoints
    of that repository that consume its kind. *)
Theorem resolved_routes_fit `{External} (cfg : Config) :
  well_scanned cfg →
  ∃ routes, ResolveRoutes (UpdateRoutes cfg) = Ok routes ∧
    routes_ok routes (λ dir, dir ∈ CollectOutboxDirs cfg) ∧
    ∀ r, r ∈ routes → ∃ repo ep, repo ∈ cfg_Repositories cfg ∧ ep ∈ rc_Endpoints repo ∧
      rr_Kind r ∈ epc_Produces ep ∧
      rr_FromOutbox r = path_Join [rc_Path repo; epc_Dir ep; "outbox"] ∧
      rr_FromOutbox r ∈ CollectOutboxDirs cfg ∧
      ∀ inbox, inbox ∈ rr_ToInboxes r ↔
        ∃ ec, ec ∈ rc_Endpoints repo ∧ rr_Kind r ∈ epc_Consumes ec ∧ epc_Dir ec ≠ epc_Dir ep ∧
              inbox = path_Join [rc_Path repo; epc_Dir ec; "inbox"].
Proof.
  intros Hs. exists (map resolved (cfg_Routes (UpdateRoutes cfg))). split; [by apply ResolveRoutes_total|].
  assert (∀ r, r ∈ map resolved (cfg_Routes (UpdateRoutes cfg)) → ∃ repo ep, repo ∈ cfg_Repositories cfg ∧
    ep ∈ rc_Endpoints repo ∧ rr_Kind r ∈ epc_Produces ep ∧
    rr_FromOutbox r = path_Join [rc_Path repo; epc_Dir ep; "outbox"] ∧
    ∀ inbox, inbox ∈ rr_ToInboxes r ↔ ∃ ec, ec ∈ rc_Endpoints repo ∧ rr_Kind r ∈ epc_Consumes ec ∧
      epc_Dir ec ≠ epc_Dir ep ∧ inbox = path_Join [rc_Path repo; epc_Dir ec; "inbox"]) as Hr.
  { intros r (rt & -> & Hrt)%list_elem_of_fmap.
    apply elem_of_UpdateRoutes in Hrt as (repo & r0 & Hrepo & Hr0 & ->).
    destruct (Hs repo Hrepo) as [_ Hplain].
    destruct (derived_route _ _ Hr0) as (ep & (epc & Hepc & ->)%elem_of_repo_endpoints & Hk & Hfrom & _ & Hto).
    exists repo, epc. split_and!; [done|done|done| |].
    - cbn. rewrite Hfrom. cbn. by rewrite path_Join_nested, path_Join_3 by auto with go.
    - intros inbox. cbn. rewrite list_elem_of_fmap. setoid_rewrite Hto. setoid_rewrite elem_of_repo_endpoints. split.
      + intros (t & -> & ec & (ecc & Hec & ->) & Hkc & Hne & ->). exists ecc. split_and!; [done..|].
        cbn. by rewrite path_Join_nested, path_Join_3 by auto with go.
      + intros (ecc & Hec & Hkc & Hne & ->). exists (path_Join [epc_Dir ecc; "inbox"]). split.
        * by rewrite path_Join_nested, path_Join_3 by auto with go.
        * exists (to_Endpoint ecc). split_and!; [by exists ecc|done|done|done]. }
  split.
  - intros r inbox Hin Hi. destruct (Hr r Hin) as (repo & ep & Hrepo & _ & _ & _ & Hto).
    destruct (proj1 (Hto inbox) Hi) as (ec & Hec & _ & _ & ->). destruct (Hs repo Hrepo) as [_ Hplain]. split.
    + rewrite path_Join_3 by auto with go. by apply Clean_Join.
    + intros Ho. eapply inbox_not_outbox; eauto.
  - intros r Hin. destruct (Hr r Hin) as (repo & ep & H1 & H2 & H3 & H4 & H5). exists repo, ep.
    split_and!; [done..| |done]. rewrite H4. apply elem_of_CollectOutboxDirs. exists repo, ep.
    split_and!; [done|done| |done]. intros E. rewrite E in H3. by apply elem_of_nil in H3.
Qed.

Definition sample_config : Config :=
  mkConfig 0 [mkRepo "/r" (map to_EndpointConfig sample_eps)] [].

Lemma resolved_routes_fit_witness :
  ∃ routes, @ResolveRoutes sample_external (UpdateRoutes sample_config) = Ok routes ∧
    routes_ok routes (λ dir, dir ∈ CollectOutboxDirs sample_config).
Proof.
  destruct (@resolved_routes_fit sample_external sample_config) as (routes & H1 & H2 & _).
  - intros repo Hr%list_elem_of_singleton. subst repo. split; [done|]. intros ep He.
    cbn in He. rewrite !elem_of_cons in He. destruct He as [->|[->|[->|?%elem_of_nil]]]; [by split_and!..|done].
  - by exists routes.
Defined.
