(* ===== verification/SetupSafety.v ===== *)
(** * Setup keeps the configuration consistent

    Scans yield plain endpoint names; [Add], [Remove] and [Sync] keep the
    configuration well-formed with its routes derived from its repositories,
    and change nothing when they fail; syncing twice in a row reports no
    change the second time. *)
From S2P Require Import Prelude GoStrings GoPath GoTime DMail Improvement Router Provider Prog World Deliver Safety DeliverSafety Setup.

#[local] Arguments path_Join : simpl never.

(** Unfolds one bind of a program that is being run. *)
Ltac run_bind := change (@mbind program _ ?A ?B ?f ?q) with (@prog_bind World A B f q); rewrite run_bind.

(** ** Paths of a rooted file system *)

Lemma Base_rooted k : clean k → IsAbs k = true → Base k = "/" ∨ plain (Base k).
Proof.
  intros Hc Ha. pose proof (elems_nf k) as Hnf. unfold clean in Hc. rewrite Clean_elems, Ha in Hc.
  rewrite Ha in Hnf. unfold elems in Hc. rewrite Ha in Hc.
  inversion Hnf as [E|stk ? _ E|f stk Hf Hs E]; [|done|].
  - rewrite <- E in Hc. left. by rewrite <- Hc.
  - rewrite <- E, reverse_cons, render_snoc in Hc. right. rewrite <- Hc.
    destruct (reverse stk) as [|x l] eqn:Er.
    + change (String slash f) with ("" +:+ String slash f). by rewrite Base_slash.
    + by rewrite Base_slash.
Qed.

Lemma Clean_nonempty s : Clean s ≠ "".
Proof.
  rewrite Clean_elems. unfold render. destruct (IsAbs s) eqn:E; [done|].
  destruct (elems s) as [|x l] eqn:El; [done|]. intros Hj.
  pose proof (stack_nf_nonempty _ _ (elems_nf s)) as Hn. unfold elems in El. rewrite El in Hn.
  apply Forall_cons in Hn as [Hx _]. apply Hx. destruct l as [|y l]; [done|]. rewrite Join_cons in Hj.
  by destruct x.
Qed.

Definition fs_rooted (fs : gmap string node) : Prop := ∀ k n, fs !! k = Some n → clean k ∧ IsAbs k = true.

(** ** Programs that only read *)

Definition no_faults (env : Env) : Prop := ∀ n, env_fault env n = None.

(** An action that leaves the file system and the environment alone; without
    faults its result depends on the file system only. *)
Definition read_act {X} (m : act X) : Prop :=
  (∀ w, w_fs (snd (m w)) = w_fs w ∧ w_env (snd (m w)) = w_env w) ∧
  ∀ w w', w_fs w = w_fs w' → no_faults (w_env w) → no_faults (w_env w') → fst (m w) = fst (m w').

Inductive reads {A} : program A → Prop :=
  | reads_ret a : reads (Ret a)
  | reads_act X (m : act X) k : read_act m → (∀ x, reads (k x)) → reads (Act (λ _, m) k).

Lemma reads_bind {A B} (p : program A) (f : A → program B) :
  reads p → (∀ a, reads (f a)) → reads (p ≫= f).
Proof.
  intros Hp Hf. change (reads (prog_bind f p)). induction Hp as [a|X m k Hm Hk IH]; cbn [prog_bind]; [done|].
  by constructor.
Qed.

Lemma reads_atom {X} (m : act X) : read_act m → reads (atom m).
Proof. intros Hm. constructor; [done|]. constructor. Qed.

Lemma reads_for_range {X S R} (xs : list X) s (body : S → X → program (S + R)) :
  (∀ s x, reads (body s x)) → reads (for_range xs s body).
Proof.
  intros Hb. revert s. induction xs as [|x xs IH]; intros s; cbn [for_range]; [constructor|].
  apply (reads_bind (body s x)); [done|]. intros [s'|e]; [done|constructor].
Qed.

Lemma reads_run_all {A B} (f : A → program B) l : (∀ a, reads (f a)) → reads (run_all f l).
Proof.
  intros Hf. induction l as [|a l IH]; cbn [run_all]; [constructor|].
  apply reads_bind; [done|]. intros b. apply reads_bind; [done|]. constructor.
Qed.

Lemma reads_frame {A} i (p : program A) w :
  reads p → w_fs (snd (run i p w)) = w_fs w ∧ w_env (snd (run i p w)) = w_env w.
Proof.
  intros Hp. revert w. induction Hp as [a|X m k [Hm _] _ IH]; intros w; cbn [run]; [done|].
  destruct (Hm w) as [H1 H2]. destruct (m w) as [x w1]. destruct (IH x w1) as [-> ->]. done.
Qed.

Lemma reads_det {A} i (p : program A) w w' :
  reads p → w_fs w = w_fs w' → no_faults (w_env w) → no_faults (w_env w') →
  fst (run i p w) = fst (run i p w').
Proof.
  intros Hp. revert w w'. induction Hp as [a|X m k [Hm Hd] _ IH]; intros w w' Hfs H1 H2; cbn [run]; [done|].
  specialize (Hd w w' Hfs H1 H2). destruct (Hm w) as [E1 E2]. destruct (Hm w') as [E3 E4].
  destruct (m w) as [x w1], (m w') as [x' w1']. cbn in *. subst x'. apply IH; congruence.
Qed.

(** A guarded lookup in the file system. *)
Lemma read_guarded {X} (f : gmap string node → result X) :
  read_act (guarded "" (λ w, (f (w_fs w), w))).
Proof.
  split.
  - intros w. unfold guarded, fault. by destruct (env_fault _ _).
  - intros w w' E H1 H2. unfold guarded, fault. rewrite H1, H2. cbn. by rewrite E.
Qed.

Lemma read_ext {X} (m m' : act X) : (∀ w, m w = m' w) → read_act m → read_act m'.
Proof.
  intros E [H1 H2]. split.
  - intros w. rewrite <- E. apply H1.
  - intros w w' ? ? ?. rewrite <- !E. by apply H2.
Qed.

Lemma read_ReadFile p : read_act (os_ReadFile p).
Proof.
  eapply read_ext; [|apply (read_guarded (λ fs, match fs !! Clean p with
    | Some (NFile b) => Ok b
    | Some NDir => Err (errors_New ("read " +:+ p +:+ ": is a directory"))
    | None => Err (enoent "open" p) end))].
  intros w. unfold os_ReadFile, guarded, fault. destruct (env_fault _ _); [done|].
  unfold lookup_path. by repeat case_match.
Qed.

Lemma read_ReadDir p : read_act (os_ReadDir p).
Proof.
  eapply read_ext; [|apply (read_guarded (λ fs, match fs !! Clean p with
    | Some NDir => Ok (merge_sort entry_le
        ((λ e, (Base (fst e), match snd e with NDir => true | NFile _ => false end)) <$> children fs p))
    | Some (NFile _) => Err (errors_New ("readdirent " +:+ p +:+ ": not a directory"))
    | None => Err (enoent "open" p) end))].
  intros w. unfold os_ReadDir, guarded, fault. destruct (env_fault _ _); [done|].
  unfold lookup_path. by repeat case_match.
Qed.

Section Setup.
Context `{External}.

Lemma scanEndpoint_reads p n : reads (scanEndpoint p n).
Proof.
  assert (∀ path caps, reads (read_skill path caps)) as Hskill.
  { intros path caps. apply reads_bind; [apply reads_atom, read_ReadFile|].
    intros [data|e]; [|constructor]. destruct (ParseSkillFrontmatter data); constructor. }
  unfold scanEndpoint. apply reads_bind; [done|]. intros [[ks|e]|]; [|constructor|];
    (apply reads_bind; [done|]; intros [[ks'|e']|]; constructor).
Qed.

Lemma ScanRepository_reads p : reads (ScanRepository p).
Proof.
  apply reads_bind; [apply reads_atom, read_ReadDir|]. intros [es|e]; [|constructor].
  apply reads_bind; [|intros [?|?]; constructor]. apply reads_for_range. intros s x.
  apply reads_bind; [apply scanEndpoint_reads|]. intros [[ep|]|e]; constructor.
Qed.

Lemma rescan_reads repo : reads (rescan repo).
Proof. apply reads_bind; [apply ScanRepository_reads|]. intros [eps|e]; constructor. Qed.

(** ** Scanned endpoints *)

Lemma scanEndpoint_dir i p n w ep : fst (run i (scanEndpoint p n) w) = Ok (Some ep) → ep_Dir ep = n.
Proof.
  unfold scanEndpoint. run_bind. destruct (run i (read_skill _ _) w) as [s w1].
  destruct s as [[ks|e]|]; cbn [run fst]; [|done|];
    run_bind;
    destruct (run i (read_skill _ _) w1) as [[[ks'|e']|] w2]; cbn; intros; simplify_eq; done.
Qed.

Lemma scan_loop i p names acc w eps w' :
  run i (for_range names acc (scan_step p)) w = (inl eps, w') →
  ∀ ep, ep ∈ eps → ep ∈ acc ∨ ep_Dir ep ∈ names.
Proof.
  revert acc w. induction names as [|n names IH]; intros acc w; cbn [for_range].
  { intros [= <- _]. by left. }
  rewrite run_bind. unfold scan_step at 1.
  run_bind.
  pose proof (scanEndpoint_dir i p n w) as Hd. destruct (run i (scanEndpoint p n) w) as [[[ep0|]|e] w1];
    cbn [run mret prog_mret]; intros E ep Hep; [| |done].
  - apply (IH _ _ E) in Hep as [[?| ->%list_elem_of_singleton]%elem_of_app|]; [by left| |right; by right].
    right. rewrite (Hd ep0 eq_refl). by left.
  - apply (IH _ _ E) in Hep as [?|?]; [by left|right; by right].
Qed.

Lemma ScanRepository_plain i p w eps :
  fs_rooted (w_fs w) → fst (run i (ScanRepository p) w) = Ok eps → ∀ ep, ep ∈ eps → plain (ep_Dir ep).
Proof.
  intros Hfs. unfold ScanRepository. run_bind. rewrite run_atom. unfold os_ReadDir. match goal with |- context [guarded "" ?m w] =>
    destruct (guarded_cases "" m w) as [[? ->]| ->] end; [done|].
  destruct (lookup_path (bump w) p) as [[]|]; [done| |done]. set (entries := merge_sort _ _).
  run_bind. destruct (run i (for_range _ _ _) _) as [[eps'|e] w'] eqn:E; [|done].
  cbn. intros [= ->] ep Hep. destruct (scan_loop _ _ _ _ _ _ _ E ep Hep) as [?%elem_of_nil|Hn]; [done|].
  apply list_elem_of_fmap in Hn as ([n b] & -> & Hin). cbn [fst].
  rewrite elem_of_bfilter in Hin. destruct Hin as [Hin Ht].
  unfold entries in Hin. rewrite merge_sort_Permutation in Hin.
  apply list_elem_of_fmap in Hin as ([k nd] & [= -> ->] & Hk). cbn [fst].
  apply list_elem_of_filter in Hk as [_ Hk]. apply elem_of_map_to_list in Hk.
  destruct (Hfs k nd Hk) as [Hc Ha]. destruct (Base_rooted k Hc Ha) as [Hb|]; [|done].
  unfold tool_dir in Ht. cbn [fst snd] in Ht. rewrite Hb in Ht.
  replace (HasPrefix "/" ".") with false in Ht by done. by rewrite andb_false_r in Ht.
Qed.

(** ** The configuration invariant *)

Definition paths (c : Config) : list string := rc_Path <$> cfg_Repositories c.

Record config_ok (c : Config) : Prop := {
  ok_scanned : well_scanned c;
  ok_unique : NoDup (paths c);
  ok_routes : cfg_Routes c = cfg_Routes (UpdateRoutes c) }.

Lemma update_ok now c :
  well_scanned c → NoDup (paths c) → config_ok (set_synced now (UpdateRoutes c)).
Proof. intros Hs Hn. by constructor. Qed.

Variable cwd : string.
Hypothesis cwd_abs : cwd ≠ "".
Variable validate : string → EndpointConfig → list string.

Lemma Abs_nonempty p w a : fst (Abs cwd p w) = Ok a → a ≠ "".
Proof using cwd_abs.
  unfold Abs. destruct (IsAbs p); [intros [= <-]; apply Clean_nonempty|].
  match goal with |- context [guarded "" ?m w] => destruct (guarded_cases "" m w) as [[? ->]| ->] end; [done|].
  intros [= <-]. cbn [path_Join]. unfold path_Join. rewrite bool_decide_false by done. apply Clean_nonempty.
Qed.

Lemma Abs_frame p w : w_fs (snd (Abs cwd p w)) = w_fs w.
Proof.
  unfold Abs. destruct (IsAbs p); [done|].
  by match goal with |- context [guarded "" ?m w] => destruct (guarded_cases "" m w) as [[? ->]| ->] end.
Qed.

Lemma add_ok i c p w :
  fs_rooted (w_fs w) → config_ok c →
  let '((r, c'), _) := run i (Add cwd validate c p) w in
  config_ok c' ∧ (∀ e, r = Err e → c' = c).
Proof using cwd_abs.
  intros Hfs Hc. unfold Add. run_bind. rewrite run_atom. pose proof (Abs_nonempty p w) as Ha.
  pose proof (Abs_frame p w) as Hf. destruct (Abs cwd p w) as [[a|e] w1]; cbn [fst snd] in *; [|by split].
  destruct (existsb _ _) eqn:Ex; [by split|]. run_bind.
  pose proof (ScanRepository_plain i a w1) as Hp. destruct (run i (ScanRepository a) w1) as [[eps|e] w2];
    [|by split]. cbn [run mret prog_mret fst snd atom] in *. run_bind. rewrite run_atom. cbn.
  split; [|done]. apply update_ok.
  - intros repo Hr. cbn in Hr. apply elem_of_app in Hr as [Hr| ->%list_elem_of_singleton]; [by apply Hc|].
    cbn. split; [by apply Ha|]. intros ep (ep0 & -> & He)%list_elem_of_fmap. cbn.
    apply (Hp eps); [by rewrite Hf|done|done].
  - unfold paths. cbn. rewrite fmap_app. apply NoDup_app. split_and!; [apply Hc| |apply NoDup_singleton].
    intros x (repo & -> & Hr)%list_elem_of_fmap Hx%list_elem_of_singleton. apply not_true_iff_false in Ex.
    apply Ex, existsb_exists. exists repo. rewrite <- list_elem_of_In. split; [done|]. by apply bool_decide_eq_true.
Qed.

Lemma remove_ok i c p w :
  config_ok c →
  let '((r, c'), _) := run i (Remove cwd c p) w in config_ok c' ∧ (∀ e, r = Err e → c' = c).
Proof.
  intros Hc. unfold Remove. run_bind. rewrite run_atom.
  destruct (Abs cwd p w) as [[a|e] w1]; [|by split]. unfold RemoveRepository.
  pose proof (remove_repo_spec a (cfg_Repositories c)) as Hr.
  destruct (remove_repo a (cfg_Repositories c)) as [rest|]; [|by split].
  destruct Hr as (l1 & r & l2 & E1 & -> & _). run_bind. rewrite run_atom. cbn. split; [|done].
  destruct Hc as [H1 H2 _]. unfold paths in H2. rewrite E1 in H2. apply update_ok.
  - intros repo Hr. cbn in Hr. apply H1. rewrite E1. rewrite elem_of_app in *. rewrite elem_of_cons. tauto.
  - unfold paths. cbn. rewrite fmap_app in *. cbn in H2. apply NoDup_app in H2 as (N1 & N2 & N3).
    apply NoDup_cons in N3 as [_ N3]. apply NoDup_app. split_and!; [done| |done].
    intros x Hx Hx'. apply (N2 x Hx). by right.
Qed.

(** What a round of scans gives: the same paths, with what is there now. *)
Lemma rescan_path i repo w r : fst (run i (rescan repo) w) = Ok r → rc_Path r = rc_Path repo.
Proof. unfold rescan. run_bind. destruct (run i (ScanRepository _) w) as [[eps|e] w1]; cbn; [by intros [= <-]|done]. Qed.

Lemma rescan_all i repos w news :
  fs_rooted (w_fs w) → (∀ repo, repo ∈ repos → rc_Path repo ≠ "") →
  collect id (fst (run i (run_all rescan repos) w)) = Ok news →
  rc_Path <$> news = rc_Path <$> repos ∧
  ∀ r, r ∈ news → rc_Path r ≠ "" ∧ ∀ ep, ep ∈ rc_Endpoints r → plain (epc_Dir ep).
Proof.
  revert w news. induction repos as [|repo repos IH]; intros w news Hfs Hne; cbn [run_all].
  { intros [= <-]. split; [done|]. by intros r ?%elem_of_nil. }
  run_bind. pose proof (rescan_path i repo w) as Hp. pose proof (reads_frame i _ w (rescan_reads repo)) as [Hf _].
  assert (∀ r, fst (run i (rescan repo) w) = Ok r → ∀ ep, ep ∈ rc_Endpoints r → plain (epc_Dir ep)) as Hpl.
  { intros r. unfold rescan. run_bind. pose proof (ScanRepository_plain i (rc_Path repo) w) as HS.
    destruct (run i (ScanRepository _) w) as [[eps|e] w1]; cbn; [|done]. intros [= <-] ep (ep0 & -> & He)%list_elem_of_fmap.
    by apply (HS eps). }
  destruct (run i (rescan repo) w) as [r w1]. cbn [fst snd] in *. run_bind. specialize (IH w1).
  destruct (run i (run_all rescan repos) w1) as [rs w2]. cbn [run mret prog_mret fst] in *. cbn [collect id].
  destruct r as [r|e]; [|done]. destruct (collect id rs) as [news'|e]; [|done]. intros [= <-].
  destruct (IH news') as [E1 E2]; [by rewrite Hf|intros; apply Hne; by right|done|]. split.
  - cbn. by rewrite E1, (Hp r eq_refl).
  - intros x [->|Hx]%elem_of_cons; [|by apply E2]. split; [|by apply (Hpl r)].
    rewrite (Hp r eq_refl). apply Hne. by left.
Qed.

Lemma sync_ok i c w :
  fs_rooted (w_fs w) → config_ok c →
  let '((r, c'), _) := run i (Sync validate c) w in
  config_ok c' ∧ paths c' = paths c ∧ (∀ e, r = Err e → c' = c).
Proof.
  intros Hfs Hc. unfold Sync. cbv zeta. run_bind.
  pose proof (rescan_all i (cfg_Repositories c) w) as HR.
  destruct (run i (run_all rescan _) w) as [rs w1]. cbn [fst] in HR.
  destruct (collect id rs) as [news|e]; [|by split_and!]. run_bind. rewrite run_atom. cbn [run mret prog_mret Now].
  destruct (HR news Hfs) as [E1 E2]; [intros; by apply Hc|done|]. split_and!; [|done|done].
  apply update_ok; [exact E2|]. unfold paths. cbn. rewrite E1. apply Hc.
Qed.

(** ** Setup histories *)

Inductive setup_op := SAdd (p : string) | SRemove (p : string) | SSync.

(** One command: whether it failed, and the configuration it leaves. *)
Definition setup_step (op : setup_op) (c : Config) : program (bool * Config) :=
  match op with
  | SAdd p => rc ← Add cwd validate c p; mret (match fst rc with Ok _ => false | Err _ => true end, snd rc)
  | SRemove p => rc ← Remove cwd c p; mret (match fst rc with Ok _ => false | Err _ => true end, snd rc)
  | SSync => rc ← Sync validate c; mret (match fst rc with Ok _ => false | Err _ => true end, snd rc)
  end.

Lemma setup_step_ok i op c w :
  fs_rooted (w_fs w) → config_ok c →
  let '((failed, c'), _) := run i (setup_step op c) w in config_ok c' ∧ (failed = true → c' = c).
Proof using cwd_abs.
  intros Hfs Hc. destruct op as [p|p|]; cbn [setup_step]; run_bind.
  - pose proof (add_ok i c p w Hfs Hc) as Ha. destruct (run i (Add _ _ _ _) w) as [[r c'] w1].
    destruct Ha as [H1 H2]. cbn. split; [done|]. destruct r; [done|]. intros _. by eapply H2.
  - pose proof (remove_ok i c p w Hc) as Ha. destruct (run i (Remove _ _ _) w) as [[r c'] w1].
    destruct Ha as [H1 H2]. cbn. split; [done|]. destruct r; [done|]. intros _. by eapply H2.
  - pose proof (sync_ok i c w Hfs Hc) as Ha. destruct (run i (Sync _ _) w) as [[r c'] w1].
    destruct Ha as (H1 & _ & H2). cbn. split; [done|]. destruct r; [done|]. intros _. by eapply H2.
Qed.
End Setup.

(** ** Diffs *)

Lemma slicesEqual_refl a : slicesEqual a a = true.
Proof. unfold slicesEqual. rewrite Nat.eqb_refl. by apply bool_decide_eq_true. Qed.

Lemma diffEndpoints_refl m : diffEndpoints m m = [].
Proof.
  unfold diffEndpoints. assert (∀ l, (∀ k e, (k, e) ∈ l → m !! k = Some e) →
    omap (λ '(key, newEp), match m !! key with
      | None => Some (let '(repo, dir) := splitEndpointKey key in mkEpDiff repo dir Added)
      | Some oldEp => if negb (endpointEqual oldEp newEp)
          then Some (let '(repo, dir) := splitEndpointKey key in mkEpDiff repo dir Changed) else None
      end) l = [] ∧
    omap (λ '(key, _), match m !! key with
      | None => Some (let '(repo, dir) := splitEndpointKey key in mkEpDiff repo dir Removed) | Some _ => None end) l = []) as Hl.
  { induction l as [|[k e] l IH]; intros Hm; [done|]. cbn. rewrite (Hm k e) by by left.
    unfold endpointEqual. rewrite !slicesEqual_refl. cbn. apply IH. intros k' e' Hin. apply Hm. by right. }
  destruct (Hl (map_to_list m)) as [E1 E2]; [intros k e; apply elem_of_map_to_list|].
  cbv zeta. by rewrite E1, E2.
Qed.

Lemma diffRoutes_refl m : diffRoutes m m = [].
Proof.
  unfold diffRoutes. assert (∀ c l, (∀ k r, (k, r) ∈ l → m !! k = Some r) →
    omap (λ '(key, r), match m !! key with
      | None => Some (mkRtDiff (rtc_Kind r) (rtc_From r) c) | Some _ => None end) l = []) as Hl.
  { intros c. induction l as [|[k r] l IH]; intros Hm; [done|]. cbn. rewrite (Hm k r) by by left.
    apply IH. intros k' r' Hin. apply Hm. by right. }
  rewrite !Hl; [done|intros k r; apply elem_of_map_to_list..].
Qed.

(** A scan round looks at the paths only. *)
Lemma rescan_paths `{External} l l' :
  rc_Path <$> l = rc_Path <$> l' → run_all rescan l = run_all rescan l'.
Proof.
  revert l'. induction l as [|x l IH]; intros [|y l'] E; try done. cbn in E. injection E as E1 E2.
  cbn [run_all]. rewrite (IH l' E2). unfold rescan. by rewrite E1.
Qed.

(** C28: the setup commands keep the configuration consistent.  Whatever is on
    disk and whatever fails, each of [Add], [Remove] and [Sync] takes a
    configuration with plain endpoint names, unique repository paths and
    routes derived from its repositories to one of the same kind, and leaves
    it exactly as it was when it reports an error. *)
Theorem setup_keeps_config `{External} (i : nat) (cwd : string) (validate : string → EndpointConfig → list string)
    (op : setup_op) (c : Config) (w : World) :
  cwd ≠ "" → fs_rooted (w_fs w) → config_ok c →
  let '((failed, c'), _) := run i (setup_step cwd validate op c) w in config_ok c' ∧ (failed = true → c' = c).
Proof. intros Hcwd Hfs Hc. by apply setup_step_ok. Qed.

(** C29: syncing is idempotent.  When [Sync] succeeds and nothing changes on
    disk, a second [Sync] without failures succeeds too, reports no endpoint
    change and no route change, and leaves repositories and routes as they
    are. *)
Theorem Sync_idempotent `{External} (i j : nat) (validate : string → EndpointConfig → list string)
    (c c1 : Config) (rep : SyncReport) (w w1 w2 : World) :
  fs_rooted (w_fs w) → config_ok c → no_faults (w_env w) → no_faults (w_env w2) → w_fs w2 = w_fs w →
  run i (Sync validate c) w = ((Ok rep, c1), w1) →
  ∃ rep2 c2, fst (run j (Sync validate c1) w2) = (Ok rep2, c2) ∧
    sy_EndpointChanges rep2 = [] ∧ sy_RouteChanges rep2 = [] ∧
    cfg_Repositories c2 = cfg_Repositories c1 ∧ cfg_Routes c2 = cfg_Routes c1.
Proof.
  intros Hfs Hc Hf1 Hf2 Hsame. unfold Sync at 1. cbv zeta. run_bind.
  pose proof (rescan_all i (cfg_Repositories c) w) as HR.
  pose proof (reads_det i (run_all rescan (cfg_Repositories c)) w w2 (reads_run_all _ _ rescan_reads)
    (eq_sym Hsame) Hf1 Hf2) as HD.
  destruct (run i (run_all rescan _) w) as [rs v]. cbn [fst] in HR, HD.
  destruct (collect id rs) as [news|e] eqn:Ec; [|done]. run_bind. rewrite run_atom. cbn [run mret prog_mret Now].
  destruct (HR news Hfs) as [E1 _]; [intros; by apply Hc|done|]. intros [= _ <- _].
  unfold Sync. cbv zeta. run_bind. cbn [cfg_Repositories set_synced UpdateRoutes].
  rewrite (rescan_paths news (cfg_Repositories c) E1).
  assert (fst (run j (run_all rescan (cfg_Repositories c)) w2) = rs) as ED.
  { rewrite HD. clear. generalize (cfg_Repositories c) as l. intros l.
    assert (∀ A (p : program A) u, reads p → run j p u = run i p u) as Hij.
    { intros A p u Hp. revert u. induction Hp as [a|X m k Hm Hk IH]; intros u; cbn [run]; [done|].
      destruct (m u). apply IH. }
    rewrite (Hij _ _ w2 (reads_run_all rescan l rescan_reads)). done. }
  destruct (run j (run_all rescan _) w2) as [rs2 v2]. cbn [fst] in ED. subst rs2. rewrite Ec.
  run_bind. rewrite run_atom. cbn [run mret prog_mret Now fst].
  eexists _, _. split; [done|]. cbn [sy_EndpointChanges sy_RouteChanges cfg_Repositories cfg_Routes set_synced UpdateRoutes].
  split_and!; [|apply diffRoutes_refl|done|done].
  apply diffEndpoints_refl.
Qed.

(** ** A sample repository *)

Definition setup_fs : gmap string node :=
  {["/" := NDir; "/r" := NDir; "/r/.siren" := NDir; "/r/.git" := NDir;
    "/r/.siren/skills/dmail-sendable/SKILL.md" := NFile sample_dmail]}.

Definition setup_world : World := set_fs setup_fs (sample_world [] no_fault_env).
Definition no_warnings (p : string) (ep : EndpointConfig) : list string := [].
Definition empty_config : Config := mkConfig 0 [] [].

Lemma setup_fs_rooted : fs_rooted (w_fs setup_world).
Proof.
  intros k n Hk. change (w_fs setup_world) with setup_fs in Hk. unfold setup_fs in Hk.
  repeat (apply lookup_insert_Some in Hk as [[<- _]|[_ Hk]]; [by vm_compute|]).
  apply lookup_singleton_Some in Hk as [<- _]. by vm_compute.
Qed.

Lemma empty_config_ok : config_ok empty_config.
Proof. constructor; [by intros r ?%elem_of_nil|constructor|done]. Qed.

Example setup_add_example :
  fst (run 0 (setup_step (H := sample_external) "/" no_warnings (SAdd "/r") empty_config) setup_world) =
  (false, mkConfig 3 [mkRepo "/r" [mkEndpointConfig ".siren" ["specification"] []]] []).
Proof. vm_compute. reflexivity. Qed.

Lemma setup_keeps_config_witness :
  let '((failed, c'), _) := run 0 (setup_step (H := sample_external) "/" no_warnings (SAdd "/r") empty_config)
                              setup_world in
  config_ok c' ∧ failed = false.
Proof.
  pose proof (setup_keeps_config (H := sample_external) 0 "/" no_warnings (SAdd "/r") empty_config setup_world
    ltac:(done) setup_fs_rooted empty_config_ok) as HS.
  assert (fst (fst (run 0 (setup_step (H := sample_external) "/" no_warnings (SAdd "/r") empty_config) setup_world)) = false)
    as Hf by (vm_compute; reflexivity).
  destruct (run 0 _ _) as [[failed c'] w']. by destruct HS.
Defined.

Definition synced_config : Config := mkConfig 0 [mkRepo "/r" []] [].

Lemma Sync_idempotent_witness :
  ∃ rep c1 w1 rep2 c2,
    run 0 (Sync (H := sample_external) no_warnings synced_config) setup_world = ((Ok rep, c1), w1) ∧
    sy_EndpointChanges rep = [mkEpDiff "r" ".siren" Added] ∧
    fst (run 0 (Sync (H := sample_external) no_warnings c1) setup_world) = (Ok rep2, c2) ∧
    sy_EndpointChanges rep2 = [] ∧ sy_RouteChanges rep2 = [].
Proof.
  assert (config_ok synced_config) as Hok.
  { constructor; [|apply NoDup_singleton|done]. intros r Hr. apply list_elem_of_singleton in Hr as ->.
    split; [done|]. by intros ep ?%elem_of_nil. }
  assert (∃ rep c1 w1, run 0 (Sync (H := sample_external) no_warnings synced_config) setup_world = ((Ok rep, c1), w1)
    ∧ sy_EndpointChanges rep = [mkEpDiff "r" ".siren" Added]) as (rep & c1 & w1 & E & Ech).
  { eexists _, _, _. split; [vm_compute; reflexivity|]. vm_compute. reflexivity. }
  destruct (Sync_idempotent (H := sample_external) 0 0 no_warnings synced_config c1 rep setup_world w1 setup_world)
    as (rep2 & c2 & H1 & H2 & H3 & _); [apply setup_fs_rooted|exact Hok|by intros n|by intros n|exact eq_refl|exact E|].
  exists rep, c1, w1, rep2, c2. exact (conj E (conj Ech (conj H1 (conj H2 H3)))).
Defined.
