(* ===== verification/Race.v ===== *)
(** * What the delivery protocol does not survive

    The safety theorem of [DeliverSafety] needs all tasks for a path to carry
    the same content.  This file exhibits the schedule that loses a D-Mail
    when they do not: a retry of an old D-Mail is between its write and its
    [markFlushed] while the event worker stages a new D-Mail that a producer
    has dropped under the same file name. *)
From S2P Require Import Prelude GoStrings GoPath GoTime Sha256 DMail Improvement Prog World DeliveryStore Deliver Safety DeliverSafety.

Definition old_dmail : bytes := raw ("---" +:+ String "010" "kind: specification" +:+ fence +:+ String "010" "old").
Definition new_dmail : bytes := raw ("---" +:+ String "010" "kind: specification" +:+ fence +:+ String "010" "new").

Definition race_routes : list ResolvedRoute :=
  [mkRoute "specification" "/r/.siren/outbox" ["/r/.expedition/inbox"]].

Definition race_task (data : bytes) : program outcome :=
  @DeliverData sample_external SQLiteDeliveryStore (Some SQLiteDeliveryDedupStore) race_routes sample_path data.

(** Task 0 retries the old content; task 1 delivers the new file. *)
Definition race_start : config outcome :=
  ([race_task old_dmail; race_task new_dmail], sample_world [(sample_path, new_dmail)] no_fault_env).

(** The retry reads the dedup table, stages and collects; the worker reads the
    dedup table and stages; the retry writes its copy and marks the row
    flushed; the worker finds nothing to flush, records the dedup and removes
    the source. *)
Definition race_schedule : list nat := [0; 0; 0; 1; 1; 0; 0; 0; 0; 0; 1; 1; 1; 1].

(**  two deliveries of different contents under one path can lose the
    newer one without any failure: from a fresh world with the new D-Mail in
    the outbox there is an interleaving of a retry of the old content with
    the delivery of the new one after which the new file is gone from the
    outbox, no file anywhere has its content, it is not in the error queue,
    the delivery reported success, and the dedup table claims that it reached
    the inbox. *)
Theorem same_path_race_loses_dmail :
  fresh (λ _, new_dmail) sample_outbox (snd race_start) ∧
  ∃ c, rtc pool_step race_start c ∧
    w_fs (snd race_start) !! sample_path = Some (NFile new_dmail) ∧
    map_Forall (λ _ n, n ≠ NFile new_dmail) (w_fs (snd c)) ∧
    (∀ t, EWrote t new_dmail ∉ w_trace (snd c)) ∧
    w_queue (snd c) = [] ∧
    fst c !! 1 = Some (Ret (Some (mkResult sample_path "specification" []), None)) ∧
    Dedup.has (ContentIdempotencyKey new_dmail) "/r/.expedition/inbox" (w_dedup (snd c)) = true.
Proof.
  split; [apply sample_fresh|]. exists (sched race_start race_schedule). split; [apply sched_reachable|].
  split; [reflexivity|].
  split_and!.
  - apply map_Forall_to_list.
    assert (map_to_list (w_fs (snd (sched race_start race_schedule))) =
            [("/r/.gate/inbox", NDir); ("/r/.siren/outbox", NDir); ("/r/.siren/inbox", NDir);
             ("/r/.expedition/inbox/spec.md", NFile old_dmail); ("/r/.expedition/inbox", NDir)]) as ->.
    { vm_compute. reflexivity. }
    rewrite !Forall_cons, Forall_nil. split_and!; vm_compute; congruence || done.
  - intros t. assert (w_trace (snd (sched race_start race_schedule)) =
      [ERemoved sample_path; EWrote "/r/.expedition/inbox/spec.md" old_dmail]) as -> by (vm_compute; reflexivity).
    rewrite !elem_of_cons. intros [E|[E|?%elem_of_nil]]; [done| |done].
    assert (new_dmail = old_dmail) as E' by congruence. vm_compute in E'. congruence.
  - vm_compute. reflexivity.
  - vm_compute. reflexivity.
  - vm_compute. reflexivity.
Qed.
