(* ===== verification/Daemon.v ===== *)
(** * The daemon

    Models the goroutines of [session/daemon_runner.go],
    [session/daemon_deliver.go], [session/scan_deliver.go] and
    [session/daemon_session.go], with [session/delivery_log.go] and
    [domain/daemon.go], over the world of the delivery pipeline.  A nil
    pointer or interface in the Go struct is a [false] or [None] field of
    [Daemon]; tracing spans, log output and metrics have no effect on the
    state and are left out.  The watcher library's events are reduced to what
    the code asks of them (the name, and whether the operation has the Create
    or the Rename bit). *)
From S2P Require Import Prelude GoStrings GoPath GoTime Sha256 Bloom Provider Breaker DMail Improvement Prog World DeliveryStore ErrorQueue Deliver.

#[local] Open Scope Z_scope.
#[local] Open Scope nat_scope.

Record FsEvent := mkFsEvent { ev_Name : string; ev_Create : bool; ev_Rename : bool }.

(** [domain.DaemonOptions] and the fields of [Daemon] and [DaemonSession]
    that decide what runs. *)
Record Daemon := mkDaemon {
  d_Routes : list ResolvedRoute;
  d_OutboxDirs : list string;
  d_StateDir : string;
  d_DryRun : bool;
  d_RetryInterval : Duration;
  d_MaxRetries : Z;
  d_IdleTimeout : Duration;
  d_dlog : bool;         (* d.dlog != nil *)
  d_session : bool;      (* d.session != nil *)
  d_ErrorQueue : bool;   (* d.session.ErrorQueue != nil *)
  d_Emitter : bool;      (* d.session.Emitter != nil *)
  d_dedupStore : bool;   (* d.dedupStore != nil *)
  d_pid : Z }.

(** ** [domain/daemon.go] *)

Definition maxIdleTimeout : Duration := (24 * Hour)%Z.
Definition EffectiveIdleTimeout (timeout : Duration) : Duration :=
  if (timeout <? 0)%Z then 0%Z else if (timeout =? 0)%Z then maxIdleTimeout else timeout.

(** ** The delivery log *)

Module DeliveryLog.
(** [%-9s] *)
Definition pad9 (s : string) : string := s +:+ String.concat "" (replicate (9 - slen s) " ").

Definition write (action details : string) : act unit := λ w,
  let '(now, w) := Now w in
  (tt, set_dlog (w_dlog w ++
    [format_rfc3339 now +:+ " " +:+ pad9 action +:+ " " +:+ details +:+ String "010" ""]) w).

Definition Delivered (kind from to : string) : act unit :=
  write "DELIVERED" ("kind=" +:+ kind +:+ " from=" +:+ from +:+ " to=" +:+ to).
Definition Removed (from : string) : act unit := write "REMOVED" ("from=" +:+ from).
Definition Failed (kind from reason : string) : act unit :=
  write "FAILED" ("kind=" +:+ kind +:+ " from=" +:+ from +:+ " reason=" +:+ reason).
Definition Retried (kind from to : string) : act unit :=
  write "RETRIED" ("kind=" +:+ kind +:+ " from=" +:+ from +:+ " to=" +:+ to).
End DeliveryLog.

(** A call made only when the receiver is not nil. *)
Definition when (b : bool) (m : act unit) : program unit := if b then atom m else mret tt.
Fixpoint for_each {X} (xs : list X) (f : X → program unit) : program unit :=
  match xs with
  | [] => mret tt
  | x :: r => _ ← f x; for_each r f
  end.

(** ** [DaemonSession] *)

Definition HasErrorQueue (d : Daemon) : bool := d_session d && d_ErrorQueue d.

(** An emitter call; its error is logged and dropped. *)
Definition emit (d : Daemon) (e : emitted) : program unit :=
  when (d_session d && d_Emitter d) (λ w,
    let '(f, w) := fault w in
    match f with Some _ => (tt, w) | None => (tt, add_event e w) end).

Definition recordDeliveryEvent (d : Daemon) (r : DeliveryResult) : program unit :=
  emit d (EmitDelivery (dr_SourcePath r) (dr_Kind r)).
Definition recordFailureEvent (d : Daemon) (path : string) (kind : DMailKind) (err : error) : program unit :=
  emit d (EmitFailure path kind (err_msg err)).
Definition recordRetryEvent (d : Daemon) (name : string) (kind : DMailKind) : program unit :=
  emit d (EmitRetry name kind).

(** ** The Bloom filter and the breaker of the daemon *)

(** [d.bloomFilter.Add]; a well-formed filter cannot panic ([Add_spec]). *)
Definition bloom_Add (key : string) : act unit := modify (λ w,
  match w_bloom w with
  | Some bf => match Add bf key with Some bf' => set_bloom (Some bf') w | None => w end
  | None => w
  end).
Definition bloom_MayContain (key : string) : act bool := gets (λ w,
  match w_bloom w with
  | Some bf => default false (MayContain bf key)
  | None => false
  end).

Definition cb_RecordSuccess : act unit := modify (λ w, set_cb (RecordSuccess <$> w_cb w) w).
Definition cb_RecordDeliveryError (info : DeliveryErrorInfo) : act unit := λ w,
  let '(now, w) := Now w in (tt, set_cb (RecordDeliveryError now info <$> w_cb w) w).

Section Daemon.
Context `{External}.
Variable d : Daemon.

Definition deliver_data (path : string) (data : bytes) : program outcome :=
  @DeliverData _ SQLiteDeliveryStore (if d_dedupStore d then Some SQLiteDeliveryDedupStore else None)
    (d_Routes d) path data.

(** The kind recorded for a failed D-Mail. *)
Definition failed_kind (data : bytes) : DMailKind :=
  match ExtractDMailKind data with
  | Ok kind => if bool_decide (kind = "") then UnknownKind else kind
  | Err _ => UnknownKind
  end.

(** ** Watcher events *)

Definition shouldProcessEvent (event : FsEvent) : bool :=
  if negb (ev_Create event) && negb (ev_Rename event) then false else IsDMailFile (ev_Name event).

Definition enqueueDeliveryFailure (path : string) (data : bytes) (kind : string) (deliverErr : error)
    : program unit :=
  ts ← atom_by Stamp;
  let meta := mkMeta (Dir path) kind (Base path) 1 (err_msg deliverErr) ts in
  if negb (HasErrorQueue d) then mret tt else
  let name := queue_name ts (em_Kind meta) (em_OriginalName meta) in
  saveErr ← atom (Enqueue name data meta);
  match saveErr with
  | Err _ => mret tt
  | Ok _ => _ ← atom (os_Remove path); mret tt
  end.

(** The delivery log entries of a result: its targets, and the removal of
    the source when it is really gone. *)
Definition log_result (r : DeliveryResult) : program unit :=
  if d_dlog d then
    _ ← for_each (dr_DeliveredTo r) (λ t, atom (DeliveryLog.Delivered (dr_Kind r) (dr_SourcePath r) t));
    st ← atom (os_Stat (dr_SourcePath r));
    match st with
    | Err e => when (errors_Is e ErrNotExist) (DeliveryLog.Removed (dr_SourcePath r))
    | Ok _ => mret tt
    end
  else mret tt.

Definition mark_delivered (key : string) (r : DeliveryResult) : program unit :=
  when (0 <? length (dr_DeliveredTo r)) (bloom_Add key).

Definition handleEvent (event : FsEvent) : program unit :=
  if negb (shouldProcessEvent event) then mret tt else
  if d_DryRun d then mret tt else
  r ← atom (os_ReadFile (ev_Name event));
  match r with
  | Err _ => mret tt
  | Ok data =>
      o ← deliver_data (ev_Name event) data;
      match o with
      | (_, Some err) =>
          let kind := failed_kind data in
          _ ← when (d_dlog d) (DeliveryLog.Failed kind (ev_Name event) (err_msg err));
          _ ← recordFailureEvent d (ev_Name event) kind err;
          _ ← atom (cb_RecordDeliveryError (ClassifyDeliveryError (Some err)));
          enqueueDeliveryFailure (ev_Name event) data kind err
      | (Some result, None) =>
          _ ← atom cb_RecordSuccess;
          _ ← log_result result;
          _ ← recordDeliveryEvent d result;
          mark_delivered (ev_Name event) result
      | (None, None) => mret tt
      end
  end.

(** ** Retries *)

Definition max_retries : Z := if (d_MaxRetries d <=? 0)%Z then 10%Z else d_MaxRetries d.
Definition claimer_id : string := "daemon-" +:+ Itoa (d_pid d).

(** One task of the retry group; true when it signals a success. *)
Definition retry_entry (e : ErrorEntry) : program bool :=
  let originalPath := path_Join [ee_SourceOutbox e; ee_OriginalName e] in
  o ← deliver_data originalPath (ee_Data e);
  match o with
  | (_, Some deliverErr) =>
      _ ← atom (IncrementRetry (ee_Name e) (err_msg deliverErr));
      mret false
  | (Some result, None) =>
      _ ← atom (MarkResolved (ee_Name e));
      _ ← (if d_dlog d
           then for_each (dr_DeliveredTo result)
                  (λ t, atom (DeliveryLog.Retried (dr_Kind result) originalPath t))
           else mret tt);
      _ ← recordRetryEvent d (ee_OriginalName e) (dr_Kind result);
      _ ← mark_delivered originalPath result;
      mret true
  | (None, None) => mret true
  end.

(** The group runs its tasks on a worker pool; here in submission order,
    which is the schedule of a pool of one worker. *)
Fixpoint run_group (tasks : list (program bool)) : program nat :=
  match tasks with
  | [] => mret 0
  | t :: r => b ← t; n ← run_group r; mret (if (b : bool) then S n else n)
  end.

(** The entries to retry: none without a queue or when the claim fails. *)
Definition claim_pending : program (list ErrorEntry) :=
  if negb (HasErrorQueue d) then mret [] else
  r ← atom (ClaimPendingRetries claimer_id max_retries);
  match r with
  | Err _ => mret []
  | Ok entries => mret entries
  end.

Definition retryPending : program nat :=
  entries ← claim_pending;
  run_group (retry_entry <$> entries).

(** ** Startup scan *)

Definition scan_file (outboxDir : string) (acc : list DeliveryResult * list error) (name : string)
    : program ((list DeliveryResult * list error) + Empty_set) :=
  let '(results, errs) := acc in
  let dmailPath := path_Join [outboxDir; name] in
  skip ← atom (bloom_MayContain dmailPath);
  if (skip : bool) then mret (inl (results, errs)) else
  r ← atom (os_ReadFile dmailPath);
  match r with
  | Err readErr => mret (inl (results, errs ++ [errorf_w ("read " +:+ dmailPath +:+ ": ") readErr]))
  | Ok data =>
      o ← deliver_data dmailPath data;
      match o with
      | (_, Some deliverErr) =>
          let kind := failed_kind data in
          ts ← atom_by Stamp;
          let meta := mkMeta outboxDir kind name 1 (err_msg deliverErr) ts in
          _ ← (if negb (HasErrorQueue d) then mret tt else
               saveErr ← atom (Enqueue (queue_name ts kind name) data meta);
               match saveErr with
               | Err _ => mret tt
               | Ok _ => _ ← atom (os_Remove dmailPath); mret tt
               end);
          mret (inl (results, errs ++ [errorf_w ("deliver " +:+ dmailPath +:+ ": ") deliverErr]))
      | (Some result, None) => mret (inl (results ++ [result], errs))
      | (None, None) => mret (inl (results, errs))
      end
  end.

Definition eligible (e : string * bool) : bool := negb (snd e) && IsDMailFile (fst e).

Definition ScanAndDeliver (outboxDir : string) : program (list DeliveryResult * list error) :=
  r ← atom (os_ReadDir outboxDir);
  match r with
  | Err err => mret ([], [errorf_w ("scan outbox " +:+ outboxDir +:+ ": ") err])
  | Ok entries =>
      o ← for_range (fst <$> List.filter eligible entries) ([], []) (scan_file outboxDir);
      match o with inl acc => mret acc | inr e => match e : Empty_set with end end
  end.

(** One task of the scan group. *)
Definition scan_task (dir : string) : program unit :=
  re ← ScanAndDeliver dir;
  for_each (fst re) (λ r, _ ← log_result r; mark_delivered (dr_SourcePath r) r).

(** ** The event loop *)

(** The passes of [CircuitBreaker.Allow] through its loop, as moves of the
    main goroutine: what it finds at the head of the loop, its two readings of
    the clock, and what wakes it when it has to wait.  The other goroutines use
    the breaker between the passes.  After the last pass of a script the
    context is done. *)
Record pass := mkPass { pa_ctx_done : bool; pa_now1 : Time; pa_now2 : Time; pa_wake : wake }.

Definition cb_check (now1 now2 : Time) : act bool := λ w,
  match w_cb w with
  | None => (true, w)
  | Some cb => match allow_check cb now1 now2 with
               | AllowNil cb' => (true, set_cb (Some cb') w)
               | AllowWait _ _ => (false, w)
               end
  end.

Fixpoint cb_Allow (script : list pass) : program bool :=
  match script with
  | [] => mret false
  | it :: rest =>
      if pa_ctx_done it then mret false else
      ok ← atom (cb_check (pa_now1 it) (pa_now2 it));
      if (ok : bool) then mret true else
      match pa_wake it with
      | WakeCtx => mret false
      | WakeTimer | WakeNotify => cb_Allow rest
      end
  end.

(** The breaker gate of the retry case. *)
Definition gate (script : list pass) : program bool :=
  cb ← atom (gets w_cb);
  match cb with
  | None => mret true
  | Some _ => cb_Allow script
  end.

Definition writeProviderStateSnapshot (s : ProviderStateSnapshot) : act unit := λ w,
  let '(f, w) := fault w in
  match f with Some _ => (tt, w) | None => (tt, set_state (mkState (Some s) (sf_filter (w_state w)) (sf_pid (w_state w)) (sf_started (w_state w))) w) end.

(** What follows the retries in [case <-retryCh]: returns the backoff for the
    next timer. *)
Definition after_cycle (backoff : RetryBackoff) (successes : nat) : program RetryBackoff :=
  backoff ←
    (if 0 <? successes then
       _ ← atom cb_RecordSuccess; mret (Backoff_RecordSuccess backoff)
     else
       cb ← atom (gets w_cb);
       _ ← (if bool_decide (cb = None) || negb (HasErrorQueue d) then mret tt else
            r ← atom (PendingCount (d_MaxRetries d));
            let pending := match r with Ok n => n | Err _ => 0 end in
            when (0 <? pending) (cb_RecordDeliveryError (mkErrInfo DeliveryErrorTransient 0 None)));
       mret (Backoff_RecordFailure backoff));
  cb ← atom (gets w_cb);
  _ ← atom (writeProviderStateSnapshot
              match cb with Some cb => CB_Snapshot cb | None => Backoff_Snapshot backoff end);
  mret backoff.

(** [case <-retryCh]. *)
Definition retry_cycle (script : list pass) (backoff : RetryBackoff) : program RetryBackoff :=
  ok ← gate script;
  if negb ok then mret backoff else
  successes ← retryPending;
  after_cycle backoff successes.

(** Crash recovery at the start of [Run]. *)
Definition recover_unflushed : program unit :=
  r ← atom Staged.RecoverUnflushed;
  match r with
  | Ok (_ :: _) => _ ← Staged.FlushDeliveries_prog; mret tt
  | _ => mret tt
  end.
End Daemon.
