(* ===== verification/DaemonSafety.v ===== *)
(** * The daemon's goroutines keep the delivery protocol

    Watcher events, startup scans, retries and crash recovery, interleaved in
    any way and with any failures, never lose a D-Mail: the proofs go through
    the interface-level result for [DeliverData]. *)
From S2P Require Import Prelude GoStrings GoPath GoTime Sha256 Bloom Provider Breaker DMail Improvement Prog World DeliveryStore ErrorQueue Deliver Safety StoreSafety DeliverSafety Daemon.

Section DaemonSafety.
Context `{External}.
Variable d : Daemon.
Variable content : string → bytes.
Variable outbox : string → Prop.
Hypothesis routes_clean : routes_ok (d_Routes d) outbox.

#[local] Abbreviation Inv := (Inv (d_Routes d) content outbox).
#[local] Abbreviation Guar := (Guar (d_Routes d) content outbox).
#[local] Abbreviation WP := (wp (Rely (d_Routes d) content outbox) (Safety.Guar (d_Routes d) content outbox)).

(** ** Actions outside the protocol's view *)

Definition view_act {X} (m : act X) : Prop := ∀ w, same_view w (snd (m w)).

Lemma view_when b m : view_act m → ∀ i w, Inv w → WP i (when b m) (λ _ v, Inv v) w.
Proof.
  intros Hm i w Hw. destruct b; cbn [when].
  - eapply (wp_step _ _ _ _ _ _ _ (λ _, True)); auto with go. intros v Hv _.
    split; [by apply Guar_view|]. intros Hv'. eapply (wp_value _ _ _ _ _ (λ _, True)); auto with go.
  - eapply (wp_value _ _ _ _ _ (λ _, True)); auto with go.
Qed.

Lemma view_atom {X} (m : act X) : view_act m → ∀ i w, Inv w → WP i (atom m) (λ _ v, Inv v) w.
Proof.
  intros Hm i w Hw. eapply (wp_step _ _ _ _ _ _ _ (λ _, True)); auto with go. intros v Hv _.
  split; [by apply Guar_view|]. intros Hv'. eapply (wp_value _ _ _ _ _ (λ _, True)); auto with go.
Qed.

Lemma dlog_view action details : view_act (DeliveryLog.write action details).
Proof. intros w. by destruct w. Qed.
Lemma emit_view e : view_act (λ w, let '(f, w) := fault w in
  match f with Some _ => (tt, w) | None => (tt, add_event e w) end).
Proof. intros w. unfold fault. destruct (env_fault _ _); by destruct w. Qed.
Lemma cb_success_view : view_act cb_RecordSuccess.
Proof. intros w. by destruct w. Qed.
Lemma cb_error_view info : view_act (cb_RecordDeliveryError info).
Proof. intros w. by destruct w. Qed.
Lemma bloom_Add_view key : view_act (bloom_Add key).
Proof.
  intros w. unfold bloom_Add, modify. cbn [snd]. destruct (w_bloom w) as [bf|]; [|by split_and!].
  destruct (Add bf key); by split_and!.
Qed.
Lemma bloom_May_view key : view_act (bloom_MayContain key).
Proof. intros w. by destruct w. Qed.
Lemma Now_view : view_act Now.
Proof. intros w. by destruct w. Qed.
Lemma Stat_view p : view_act (os_Stat p).
Proof.
  intros w. apply tick_only_view. unfold os_Stat.
  match goal with |- context [guarded "" ?m w] => destruct (guarded_cases "" m w) as [[? ->]| ->] end;
    cbn; [auto with go|]. case_match; auto with go.
Qed.
#[local] Hint Resolve dlog_view emit_view cb_success_view cb_error_view bloom_Add_view bloom_May_view
  Now_view Stat_view : go.

(** Sequencing when only the invariant is carried. *)
Lemma wp_seq {A B} i (p : program A) (k : A → program B) (Q : B → World → Prop) w :
  WP i p (λ _ v, Inv v) w → (∀ a v, Inv v → WP i (k a) Q v) → WP i (p ≫= k) Q w.
Proof. intros Hp Hk. apply wp_bind; [apply _|]. eapply wp_mono; [|exact Hp]. cbn. auto. Qed.

Lemma wp_done {A} i (a : A) w : Inv w → WP i (mret a) (λ _ v, Inv v) w.
Proof. intros Hw. eapply (wp_value _ _ _ _ _ (λ _, True)); auto with go. Qed.
#[local] Hint Resolve wp_done : go.

Lemma for_each_safe {X} i (xs : list X) (f : X → program unit) w :
  (∀ x v, x ∈ xs → Inv v → WP i (f x) (λ _ v, Inv v) v) → Inv w →
  WP i (for_each xs f) (λ _ v, Inv v) w.
Proof.
  intros Hf. revert w. induction xs as [|x xs IH]; intros w Hw; cbn [for_each]; [auto with go|].
  apply wp_seq; [apply Hf; [by left|done]|]. intros _ v Hv. apply IH; [|done].
  intros y u Hy. apply Hf. by right.
Qed.

(** ** The error queue *)

Lemma queue_tx_Guar {A} i label (body : act (result A)) w :
  (∀ v a v', same_view w v → Inv v → body v = (Ok a, v') → Guar i v v') →
  Guar i w (snd (queue_tx label body w)).
Proof.
  intros Hbody Hw. revert Hw. unfold queue_tx.
  match goal with |- context [sql_tx ?x ?y ?z body w] =>
    destruct (sql_tx_cases x y z body w) as [(e & w' & -> & Ht)|(a & w2 & w3 & w' & -> & H2 & H3 & H4)] end;
    cbn [snd]; intros Hw.
  - revert Hw. by apply Guar_tick.
  - pose proof (Guar_tick (d_Routes d) content outbox i _ _ H2) as G2. destruct (G2 Hw) as (Hw2 & _).
    revert Hw. eapply Guar_trans; [exact G2|]. eapply Guar_trans; [|by apply Guar_tick].
    eapply Hbody; [by apply tick_only_view|done|exact H3].
Qed.

(** An update of a row that keeps what the row is about. *)
Definition same_entry (r r' : ErrorRow) : Prop :=
  er_name r' = er_name r ∧ er_data r' = er_data r ∧ row_path r' = row_path r.

Lemma map_Guar i f w :
  (∀ r, same_entry r (f r)) → Guar i w (set_queue (f <$> w_queue w) w).
Proof.
  intros Hf. apply Guar_queue.
  - intros r Hr. exists (f r). split; [apply list_elem_of_fmap; by exists r|].
    by destruct (Hf r) as (_ & ? & ?).
  - intros r (r0 & -> & Hr0)%list_elem_of_fmap. left. exists r0. by destruct (Hf r0) as (? & ? & ?).
Qed.

Lemma on_name_Guar i name f w :
  (∀ r, same_entry r (f r)) → Guar i w (set_queue (on_name name f (w_queue w)) w).
Proof. intros Hf. apply map_Guar. intros r. case_bool_decide; [apply Hf|by split_and!]. Qed.

(** One guarded statement inside a transaction. *)
Lemma guarded_set_queue i prefix f v a v' :
  (∀ w, Guar i w (set_queue (f (w_queue w)) w)) →
  guarded prefix (λ w, (Ok tt, set_queue (f (w_queue w)) w)) v = (Ok a, v') → Guar i v v'.
Proof.
  intros HG E. match type of E with guarded ?p ?m v = _ =>
    destruct (guarded_cases p m v) as [[e E']|E'] end; rewrite E' in E; simplify_eq.
  eapply Guar_trans; [apply Guar_tick, tick_only_bump|apply HG].
Qed.

Lemma MarkResolved_safe i name w : Inv w → WP i (atom (MarkResolved name)) (λ _ v, Inv v) w.
Proof.
  intros Hw. eapply (wp_step _ _ _ _ _ _ _ (λ _, True)); auto with go. intros v Hv _.
  split; [|intros; by apply wp_done]. apply queue_tx_Guar. intros u a u' _ _.
  apply (guarded_set_queue i _ (on_name name resolve_row)). intros. by apply on_name_Guar.
Qed.

Lemma IncrementRetry_safe i name msg w : Inv w → WP i (atom (IncrementRetry name msg)) (λ _ v, Inv v) w.
Proof.
  intros Hw. eapply (wp_step _ _ _ _ _ _ _ (λ _, True)); auto with go. intros v Hv _.
  split; [|intros; by apply wp_done]. apply queue_tx_Guar. intros u a u' _ _.
  apply (guarded_set_queue i _ (on_name name (incr_row msg))). intros. by apply on_name_Guar.
Qed.

(** A new name is really inserted. *)
Lemma insert_ignore_new row rows :
  (∀ r, r ∈ rows → er_name r ≠ er_name row) → insert_ignore row rows = rows ++ [row].
Proof.
  intros Hn. unfold insert_ignore. destruct (existsb _ rows) eqn:E; [|done].
  apply existsb_exists in E as (r & Hr%list_elem_of_In & ?%bool_decide_eq_true). by destruct (Hn r).
Qed.

(** Reading the clock for the name reserves the name. *)
Lemma Stamp_safe i w :
  Inv w → WP i (atom_by Stamp)
    (λ t v, Inv v ∧ ∃ n, t = env_stamp (w_env v) n ∧ reserved i n v) w.
Proof.
  intros Hw. eapply (wp_step _ _ _ _ _ _ _ (λ _, True)); auto with go. intros v Hv _. cbn beta.
  split; [apply Guar_stamp|]. intros Hv'. set (t := fst (Stamp i v)).
  eapply (wp_value _ _ _ _ _ (λ u, t = env_stamp (w_env u) (length (w_stamps v)) ∧
    reserved i (length (w_stamps v)) u)); [done| |apply stable_and; [|auto with go]|eauto].
  - split; [done|]. split; [unfold Stamp; cbn; by rewrite list_lookup_middle|].
    intros (r & k & b & Hr & E). by eapply (inv_names _ _ _ _ Hv).
  - intros u u' Hu HR ->. destruct (HR Hu) as (_ & Hev & _). by rewrite (ev_env _ _ _ Hev).
Qed.

(** After a successful enqueue under a reserved name the D-Mail is in the
    queue. *)
Lemma Enqueue_safe i n kind meta p w :
  let name := queue_name (env_stamp (w_env w) n) kind (em_OriginalName meta) in
  Inv w → reserved i n w → mail_path p → path_Join [em_SourceOutbox meta; em_OriginalName meta] = p →
  WP i (atom (Enqueue name (content p) meta))
    (λ r v, Inv v ∧ (r = Ok tt → settled (d_Routes d) content v p)) w.
Proof.
  intros name Hw Hres Hp Hj.
  set (row := mkErrorRow name (content p) (em_SourceOutbox meta)
    (em_Kind meta) (em_OriginalName meta) (em_Error meta) (em_Attempts meta) false "" None).
  assert (row_path row = p) as Hrow by done.
  eapply (wp_step _ _ _ _ _ _ _ (λ v, w_env v = w_env w ∧ reserved i n v)); [done|done| |].
  { apply stable_and; [|auto with go]. intros u u' Hu HR <-. destruct (HR Hu) as (_ & Hev & _). apply Hev. }
  intros v Hv [Ee [Hst Hfree]]. cbn beta.
  assert (∀ u, same_view v u → Guar i u (set_queue (insert_ignore row (w_queue u)) u) ∧
            insert_ignore row (w_queue u) = w_queue u ++ [row]) as HI.
  { intros u (_ & _ & Es & _ & _ & Eq & _ & Ev). rewrite insert_ignore_new.
    - split; [|done]. apply Guar_queue.
      + intros r Hr. exists r. split; [apply elem_of_app; by left|done].
      + intros r [Hr| ->%list_elem_of_singleton]%elem_of_app; [left; by exists r|right].
        rewrite Hrow. split_and!; [done|done|]. exists n, kind, (em_OriginalName meta).
        rewrite Es, Ev, Ee. done.
    - rewrite Eq. intros r Hr E. apply Hfree. exists r, kind, (em_OriginalName meta). by rewrite Ee. }
  split.
  - apply queue_tx_Guar. intros u a u' Hview _ E.
    match type of E with guarded ?q ?m u = _ => destruct (guarded_cases q m u) as [[e E']|E'] end;
      rewrite E' in E; simplify_eq.
    eapply Guar_trans; [apply Guar_tick, tick_only_bump|]. apply HI. by destruct u.
  - intros Hv'. eapply (wp_value _ _ _ _ _ (λ u, fst (Enqueue name (content p) meta v) = Ok tt →
      settled (d_Routes d) content u p)); [done| |auto with go|done].
    unfold Enqueue, queue_tx. match goal with |- context [sql_tx ?x ?y ?z ?b v] =>
      destruct (sql_tx_cases x y z b v) as [(e & w' & -> & Ht)|([] & w2 & w3 & w' & -> & H2 & H3 & H4)] end;
      cbn [fst snd]; [done|]. intros _.
    match type of H3 with guarded ?pr ?m w2 = _ =>
      destruct (guarded_cases pr m w2) as [[e E']|E'] end; rewrite E' in H3; simplify_eq.
    left. exists row. split; [|done]. rewrite H4. destruct (HI (bump w2)) as [_ Ei]; [apply tick_only_view; eauto with go|].
    change (row ∈ insert_ignore row (w_queue (bump w2))). rewrite Ei. apply elem_of_app. right. by left.
Qed.

(** ** Reading a source *)

Lemma ReadFile_safe i p w :
  Inv w → mail_path p → outbox (Dir p) →
  WP i (atom (os_ReadFile p)) (λ r v, Inv v ∧ ∀ data, r = Ok data → data = content p) w.
Proof.
  intros Hw Hp Ho. eapply (wp_step _ _ _ _ _ _ _ (λ _, True)); auto with go. intros v Hv _.
  cbn beta. unfold os_ReadFile.
  match goal with |- context [guarded "" ?m v] => destruct (guarded_cases "" m v) as [[? ->]| ->] end;
    cbn [fst snd].
  { split; [apply Guar_tick; auto with go|]. intros Hv'. eapply (wp_value _ _ _ _ _ (λ _, True)); auto with go. done. }
  unfold lookup_path. destruct Hp as (Hc & Ht & Hpl). rewrite Hc.
  destruct (w_fs (bump v) !! p) as [[data|]|] eqn:E; cbn [fst snd];
    (split; [apply Guar_tick; auto with go|]; intros Hv';
     eapply (wp_value _ _ _ _ _ (λ _, True)); auto with go); intros u Hu _; (split; [done|]); try done.
  intros ? [= <-]. by apply (inv_source _ _ _ _ Hv' p).
Qed.

(** ** Deliveries *)

Lemma deliver_data_safe i p w :
  Inv w → mail_path p → WP i (deliver_data d p (content p)) (λ _ v, Inv v) w.
Proof using routes_clean.
  intros Hw Hp. unfold deliver_data. eapply wp_mono; [|apply DeliverData_safe; auto].
  - by intros o v [Hv _].
  - apply SQLiteDeliveryStore_safe.
  - destruct (d_dedupStore d); [|done]. apply SQLiteDeliveryDedupStore_safe.
Qed.

Lemma emit_safe i e w : Inv w → WP i (emit d e) (λ _ v, Inv v) w.
Proof. intros Hw. unfold emit. apply view_when; auto with go. Qed.

Lemma log_result_safe i r w : Inv w → WP i (log_result d r) (λ _ v, Inv v) w.
Proof.
  intros Hw. unfold log_result. destruct (d_dlog d); [|auto with go].
  apply wp_seq; [apply for_each_safe; [|done]; intros; apply view_atom; unfold DeliveryLog.Delivered; auto with go|].
  intros _ v Hv. apply wp_seq; [apply view_atom; auto with go|]. intros [[]|e] u Hu; [auto with go|].
  apply view_when; unfold DeliveryLog.Removed; auto with go.
Qed.

Lemma mark_delivered_safe i key r w : Inv w → WP i (mark_delivered key r) (λ _ v, Inv v) w.
Proof. intros Hw. unfold mark_delivered. apply view_when; auto with go. Qed.

(** Filing a failed D-Mail under a reserved name and removing it from its
    outbox. *)
Lemma filing_safe i (b : bool) n kind p meta w :
  Inv w → reserved i n w → mail_path p → path_Join [em_SourceOutbox meta; em_OriginalName meta] = p →
  WP i (if b then mret tt else
        saveErr ← atom (Enqueue (queue_name (env_stamp (w_env w) n) kind (em_OriginalName meta)) (content p) meta);
        match saveErr with
        | Err _ => mret tt
        | Ok _ => _ ← atom (os_Remove p); mret tt
        end) (λ _ v, Inv v) w.
Proof.
  intros Hw Hr Hp Hj. destruct b; [auto with go|].
  apply wp_bind; [apply _|]. eapply wp_mono; [|by apply (Enqueue_safe i n kind _ p)]. cbn beta.
  intros [[]|e] v [Hv Hs]; [|auto with go]. specialize (Hs eq_refl).
  eapply (wp_step _ _ _ _ _ _ _ (λ v, settled (d_Routes d) content v p)); auto with go.
  intros u Hu Hsu. cbn beta. destruct Hp as (Hc & Ht & _).
  split; [apply Remove_spec; auto|]. intros Hu'. apply wp_done. done.
Qed.

Lemma stamped {A} i (k : Time → program A) Q w :
  Inv w → (∀ n v, Inv v → reserved i n v → WP i (k (env_stamp (w_env v) n)) Q v) →
  WP i (ts ← atom_by Stamp; k ts) Q w.
Proof.
  intros Hw Hk. apply wp_bind; [apply _|]. eapply wp_mono; [|by apply Stamp_safe]. cbn beta.
  intros t x (Hx & n & -> & Hr). by apply Hk.
Qed.

Lemma enqueueDeliveryFailure_safe i p kind err w :
  Inv w → mail_path p → WP i (enqueueDeliveryFailure d p (content p) kind err) (λ _ v, Inv v) w.
Proof.
  intros Hw Hp. unfold enqueueDeliveryFailure. apply stamped; [done|]. intros n v Hv Hr.
  apply (filing_safe i _ n kind p (mkMeta (Dir p) kind (Base p) 1 (err_msg err) _)); [done..|].
  destruct Hp as (Hc & Ht & Hpl). by apply Join_Dir_Base.
Qed.

Lemma handleEvent_safe i ev w :
  Inv w → mail_path (ev_Name ev) → outbox (Dir (ev_Name ev)) →
  WP i (handleEvent d ev) (λ _ v, Inv v) w.
Proof using routes_clean.
  intros Hw Hp Ho. unfold handleEvent. destruct (negb _); [auto with go|]. destruct (d_DryRun d); [auto with go|].
  apply wp_bind; [apply _|]. eapply wp_mono; [|by apply ReadFile_safe]. cbn beta.
  intros [data|e] v [Hv Hd]; [|auto with go]. rewrite (Hd data eq_refl). clear data Hd.
  apply wp_seq; [by apply deliver_data_safe|].
  assert (∀ err u, Inv u → WP i (
    _ ← when (d_dlog d) (DeliveryLog.Failed (failed_kind (content (ev_Name ev))) (ev_Name ev) (err_msg err));
    _ ← recordFailureEvent d (ev_Name ev) (failed_kind (content (ev_Name ev))) err;
    _ ← atom (cb_RecordDeliveryError (ClassifyDeliveryError (Some err)));
    enqueueDeliveryFailure d (ev_Name ev) (content (ev_Name ev)) (failed_kind (content (ev_Name ev))) err)
    (λ _ v, Inv v) u) as Hfail.
  { intros err u Hu. apply wp_seq; [apply view_when; unfold DeliveryLog.Failed; auto with go|]. intros _ u1 Hu1.
    apply wp_seq; [by apply emit_safe|]. intros _ u2 Hu2.
    apply wp_seq; [apply view_atom; auto with go|]. intros _ u3 Hu3. by apply enqueueDeliveryFailure_safe. }
  intros [[res|] [err|]] u Hu; [by apply Hfail| |by apply Hfail|auto with go].
  apply wp_seq; [apply view_atom; auto with go|]. intros _ u1 Hu1.
  apply wp_seq; [by apply log_result_safe|]. intros _ u2 Hu2.
  apply wp_seq; [by apply emit_safe|]. intros _ u3 Hu3. by apply mark_delivered_safe.
Qed.

(** ** Retries *)

Definition entry_ok (e : ErrorEntry) : Prop :=
  let p := path_Join [ee_SourceOutbox e; ee_OriginalName e] in mail_path p ∧ ee_Data e = content p.

Lemma retry_entry_safe i e w : Inv w → entry_ok e → WP i (retry_entry d e) (λ _ v, Inv v) w.
Proof using routes_clean.
  intros Hw [Hp Hd]. unfold retry_entry. rewrite Hd. apply wp_seq; [by apply deliver_data_safe|].
  intros [[res|] [err|]] u Hu; [| | |auto with go].
  1,3: apply wp_seq; [by apply IncrementRetry_safe|]; intros; auto with go.
  apply wp_seq; [by apply MarkResolved_safe|]. intros _ v Hv.
  apply wp_seq.
  { destruct (d_dlog d); [|auto with go]. apply for_each_safe; [|done]. intros.
    apply view_atom; unfold DeliveryLog.Retried; auto with go. }
  intros _ v1 Hv1. apply wp_seq; [by apply emit_safe|]. intros _ v2 Hv2.
  apply wp_seq; [by apply mark_delivered_safe|]. intros; auto with go.
Qed.

Lemma claim_row_same c m now r : same_entry r (claim_row c m now r).
Proof. unfold claim_row. by destruct (claimable m now r). Qed.

Lemma Claim_safe i c m w :
  Inv w →
  WP i (atom (ClaimPendingRetries c m)) (λ r v, Inv v ∧ ∀ es e, r = Ok es → e ∈ es → entry_ok e) w.
Proof.
  intros Hw. eapply (wp_step _ _ _ _ _ _ _ (λ _, True)); auto with go. intros v Hv _. cbn beta.
  assert (Guar i v (snd (ClaimPendingRetries c m v)) ∧
    ∀ es e, fst (ClaimPendingRetries c m v) = Ok es → e ∈ es → entry_ok e) as [HG He].
  2:{ split; [exact HG|]. intros Hv'. eapply (wp_value _ _ _ _ _ (λ _, True)); auto with go. }
  unfold ClaimPendingRetries, queue_tx.
  match goal with |- context [sql_tx ?x ?y ?z ?b v] =>
    destruct (sql_tx_cases x y z b v) as [(e & w' & -> & Ht)|(es & w2 & w3 & w' & -> & H2 & H3 & H4)] end;
    cbn [fst snd]; [split; [by apply Guar_tick|done]|].
  unfold Now in H3. set (now := (env_now (w_env w2) (w_tick w2) / Second)%Z) in H3.
  match type of H3 with guarded ?pr ?m ?u = _ =>
    destruct (guarded_cases pr m u) as [[e E']|E'] end; rewrite E' in H3; [done|]. clear E'.
  set (u := set_queue (claim_row c m now <$> w_queue (bump (bump w2))) (bump (bump w2))) in H3.
  assert (Guar i v u) as Gu.
  { eapply Guar_trans; [by apply Guar_tick|].
    eapply (Guar_trans _ _ _ _ _ (bump (bump w2))); [apply Guar_tick; eauto with go|].
    subst u. apply map_Guar. intros r. apply claim_row_same. }
  assert (tick_only u w3 ∧ es = to_entry <$> List.filter (held_by c) (w_queue u)) as [Ht3 Hes].
  { repeat (match type of H3 with guarded ?pr ?m ?x = _ =>
      destruct (guarded_cases pr m x) as [[e E']|E'] end; rewrite E' in H3; [done|]; clear E').
    simplify_eq. split; [|done].
    do 3 (eapply tick_only_trans; [|apply tick_only_bump]). apply tick_only_refl. }
  destruct (Gu Hv) as (Hu & _ & _). split.
  { eapply Guar_trans; [exact Gu|]. eapply Guar_trans; by apply Guar_tick. }
  intros es' e [= <-]. rewrite Hes. intros (r & -> & Hr)%list_elem_of_fmap.
  rewrite elem_of_bfilter in Hr. destruct Hr as [Hr _].
  exact (inv_queue _ _ _ _ Hu r Hr).
Qed.

Lemma run_group_safe i ts w :
  (∀ t v, t ∈ ts → Inv v → WP i t (λ _ v, Inv v) v) → Inv w → WP i (run_group ts) (λ _ v, Inv v) w.
Proof.
  intros Hts. revert w. induction ts as [|t ts IH]; intros w Hw; cbn [run_group]; [auto with go|].
  apply wp_seq; [apply Hts; [by left|done]|]. intros b v Hv.
  apply wp_seq; [|intros; auto with go]. apply IH; [|done]. intros t' u Ht'. apply Hts. by right.
Qed.

Lemma claim_pending_safe i w :
  Inv w → WP i (claim_pending d) (λ es v, Inv v ∧ Forall entry_ok es) w.
Proof.
  intros Hw. unfold claim_pending.
  assert (∀ v, Inv v → WP i (mret []) (λ es v, Inv v ∧ Forall entry_ok es) v) as Hnone.
  { intros v Hv. eapply (wp_value _ _ _ _ _ (λ _, True)); auto with go. }
  destruct (negb _); [by apply Hnone|]. apply wp_bind; [apply _|].
  eapply wp_mono; [|by apply Claim_safe]. cbn beta. intros [es|e] v [Hv Hes]; [|by apply Hnone].
  eapply (wp_value _ _ _ _ _ (λ _, True)); auto with go. intros u Hu _. split; [done|].
  apply Forall_forall. intros e. by apply Hes.
Qed.

Lemma retryPending_safe i w : Inv w → WP i (retryPending d) (λ _ v, Inv v) w.
Proof using routes_clean.
  intros Hw. unfold retryPending. apply wp_bind; [apply _|].
  eapply wp_mono; [|by apply claim_pending_safe]. cbn beta. intros es v [Hv Hes].
  apply run_group_safe; [|done]. intros t u (e & -> & He)%list_elem_of_fmap Hu.
  apply retry_entry_safe; [done|]. by eapply Forall_forall in Hes.
Qed.

(** ** Startup scan and recovery *)

(** A directory entry the scan picks up has an ordinary file name. *)
Lemma eligible_plain k :
  IsDMailFile (Base k) = true → plain (Base k) ∧ HasPrefix (Base k) tmp_prefix = false.
Proof.
  intros HD. destruct (Base_no_slash k) as [E|E]; [by rewrite E in HD|].
  assert (plain (Base k)) as Hp.
  { split_and!; [..|done]; intros E'; rewrite E' in HD; vm_compute in HD; done. }
  split; [done|]. unfold IsDMailFile in HD. rewrite (Base_plain _ Hp) in HD. cbv zeta in HD.
  case_bool_decide; [done|]. apply andb_true_iff in HD as [_ HD]. by apply negb_true_iff.
Qed.

Lemma scan_path_ok dir k :
  IsDMailFile (Base k) = true → outbox (Clean dir) →
  let p := path_Join [dir; Base k] in
  mail_path p ∧ outbox (Dir p) ∧ Base p = Base k.
Proof.
  intros (Hp & Ht)%eligible_plain Ho p. subst p. unfold mail_path. split_and!.
  - by apply Clean_Join.
  - unfold temp. rewrite Base_Join by done. by rewrite Ht.
  - by rewrite Base_Join.
  - by rewrite Dir_Join.
  - by rewrite Base_Join.
Qed.

Lemma scan_file_safe i dir k acc w :
  Inv w → outbox (Clean dir) → IsDMailFile (Base k) = true →
  WP i (scan_file d dir acc (Base k)) (λ _ v, Inv v) w.
Proof using routes_clean.
  intros Hw Ho HD. destruct acc as [results errs]. unfold scan_file.
  destruct (scan_path_ok dir k HD Ho) as (Hp & Hout & Hb). set (p := path_Join [dir; Base k]) in *.
  apply wp_seq; [apply view_atom; auto with go|]. intros skip v Hv. destruct skip; [auto with go|].
  apply wp_bind; [apply _|]. eapply wp_mono; [|by apply ReadFile_safe]. cbn beta.
  intros [data|e] v1 [Hv1 Hd]; [|auto with go]. rewrite (Hd data eq_refl). clear data Hd.
  apply wp_seq; [by apply deliver_data_safe|].
  assert (∀ err u, Inv u → WP i (
    ts ← atom_by Stamp;
    _ ← (if negb (HasErrorQueue d) then mret tt else
         saveErr ← atom (Enqueue (queue_name ts (failed_kind (content p)) (Base k)) (content p)
           (mkMeta dir (failed_kind (content p)) (Base k) 1 (err_msg err) ts));
         match saveErr with Err _ => mret tt | Ok _ => _ ← atom (os_Remove p); mret tt end);
    mret (inl (results, errs ++ [errorf_w ("deliver " +:+ p +:+ ": ") err])) : program ((list DeliveryResult * list error) + Empty_set))
    (λ _ v, Inv v) u) as Hfail.
  { intros err u Hu. apply stamped; [done|]. intros n v2 Hv2 Hr. apply wp_seq; [|intros; auto with go].
    by apply (filing_safe i _ n _ p (mkMeta dir (failed_kind (content p)) (Base k) 1 (err_msg err) _)). }
  intros [[res|] [err|]] u Hu; [by apply Hfail|auto with go|by apply Hfail|auto with go].
Qed.

Lemma ReadDir_entries dir w entries :
  fst (os_ReadDir dir w) = Ok entries → ∀ n b, (n, b) ∈ entries → ∃ k, n = Base k.
Proof.
  unfold os_ReadDir. match goal with |- context [guarded "" ?m w] =>
    destruct (guarded_cases "" m w) as [[? ->]| ->] end; cbn [fst]; [done|].
  destruct (lookup_path (bump w) dir) as [[]|]; cbn [fst]; intros [= <-]. intros n b.
  rewrite merge_sort_Permutation. intros ([k nd] & [= -> ->] & _)%list_elem_of_fmap. by exists k.
Qed.

Lemma ScanAndDeliver_safe i dir w :
  Inv w → outbox (Clean dir) → WP i (ScanAndDeliver d dir) (λ _ v, Inv v) w.
Proof using routes_clean.
  intros Hw Ho. unfold ScanAndDeliver.
  eapply (wp_step _ _ _ _ _ _ _ (λ _, True)); auto with go. intros v Hv _. cbn beta.
  pose proof (ReadDir_entries dir v) as Hent.
  assert (tick_only v (snd (os_ReadDir dir v))) as Ht.
  { unfold os_ReadDir. match goal with |- context [guarded "" ?m v] =>
      destruct (guarded_cases "" m v) as [[? ->]| ->] end; cbn [snd]; [auto with go|].
    destruct (lookup_path (bump v) dir) as [[]|]; cbn [snd]; auto with go. }
  split; [by apply Guar_tick|]. destruct (os_ReadDir dir v) as [[entries|e] v']; cbn [fst snd prog_bind] in *;
    intros Hv'; [|by apply wp_done].
  specialize (Hent entries eq_refl). apply wp_bind; [apply _|].
  eapply (wp_for_range _ _ i _ (λ _ _ u, Inv u)) with (done := []); [| |done].
  - intros dn n acc u Hn Hu. apply list_elem_of_fmap in Hn as ([n' b'] & -> & Hin).
    rewrite elem_of_bfilter in Hin. destruct Hin as [Hin He].
    apply andb_true_iff in He as [_ He]. cbn [fst] in *. destruct (Hent n' b' Hin) as [k ->].
    eapply wp_mono; [|by apply scan_file_safe]. intros [acc'|[]]; auto.
  - intros acc u Hu u' HR. apply wp_done. by eapply Rely_Inv.
Qed.

Lemma scan_task_safe i dir w :
  Inv w → outbox (Clean dir) → WP i (scan_task d dir) (λ _ v, Inv v) w.
Proof using routes_clean.
  intros Hw Ho. unfold scan_task. apply wp_seq; [by apply ScanAndDeliver_safe|]. intros [rs es] v Hv.
  apply for_each_safe; [|done]. intros r u _ Hu. apply wp_seq; [by apply log_result_safe|].
  intros _ u' Hu'. by apply mark_delivered_safe.
Qed.

Lemma recover_unflushed_safe i w : Inv w → WP i recover_unflushed (λ _ v, Inv v) w.
Proof.
  intros Hw. unfold recover_unflushed.
  eapply (wp_step _ _ _ _ _ _ _ (λ _, True)); auto with go. intros v Hv _. cbn beta.
  unfold Staged.RecoverUnflushed. match goal with |- context [Staged.query ?p ?q ?f v] =>
    destruct (query_spec p q f v) as [Ht _]; destruct (Staged.query p q f v) as [r v1] end.
  cbn [fst snd] in *. split; [by apply Guar_tick|]. intros Hv1.
  destruct r as [[|x l]|e]; [by apply wp_done| |by apply wp_done].
  apply wp_seq; [|intros; by apply wp_done].
  eapply wp_mono; [|by apply FlushDeliveries_safe]. by intros a u [Hu _].
Qed.

(** ** Any mixture of the daemon's goroutines *)

Inductive daemon_task :=
  | TEvent (ev : FsEvent)          (* the event worker, on one event *)
  | TScan (dir : string)           (* the startup scan of one outbox *)
  | TRetry (e : ErrorEntry)        (* one task of the retry group *)
  | TRetryCycle                    (* claim and retry *)
  | TRecover.                      (* crash recovery *)

Definition task_prog (t : daemon_task) : program unit :=
  match t with
  | TEvent ev => handleEvent d ev
  | TScan dir => scan_task d dir
  | TRetry e => _ ← retry_entry d e; mret tt
  | TRetryCycle => _ ← retryPending d; mret tt
  | TRecover => recover_unflushed
  end.

(** Events name files of the outboxes, scans are of outboxes, and a retried
    entry carries the content of its path. *)
Definition task_ok (t : daemon_task) : Prop :=
  match t with
  | TEvent ev => mail_path (ev_Name ev) ∧ outbox (Dir (ev_Name ev))
  | TScan dir => outbox (Clean dir)
  | TRetry e => entry_ok e
  | TRetryCycle | TRecover => True
  end.

Lemma task_safe i t w : Inv w → task_ok t → WP i (task_prog t) (λ _ v, Inv v) w.
Proof using routes_clean.
  intros Hw Ht. destruct t as [ev|dir|e| |]; cbn [task_prog] in *.
  - destruct Ht. by apply handleEvent_safe.
  - by apply scan_task_safe.
  - apply wp_seq; [by apply retry_entry_safe|]. intros; by apply wp_done.
  - apply wp_seq; [by apply retryPending_safe|]. intros; by apply wp_done.
  - by apply recover_unflushed_safe.
Qed.
End DaemonSafety.

(**  the running daemon loses no D-Mail.  Take any mixture of its
    goroutines (watcher events, startup scans, retry tasks and cycles, crash
    recovery) over a world that satisfies the invariant, where all tasks for
    a path carry the content of that path and the clock readings that name
    queue entries do not repeat.  After any interleaving of their
    system calls and transactions, with any failures and stopped at any point
    (a crash), every D-Mail that was in an outbox is still there with its
    content, or has been put into every inbox selected for it, or is stored
    in the error queue under its path with its content; and the invariant
    holds again, so the same is true of the next session. *)
Theorem daemon_loses_nothing `{External} (d : Daemon) (content : string → bytes) (outbox : string → Prop)
    (tasks : list daemon_task) (w0 : World) (c : config unit) :
  routes_ok (d_Routes d) outbox →
  Forall (task_ok content outbox) tasks →
  Inv (d_Routes d) content outbox w0 →
  rtc pool_step (task_prog d <$> tasks, w0) c →
  Inv (d_Routes d) content outbox (snd c) ∧
  ∀ p data, mail_path p → outbox (Dir p) → w_fs w0 !! p = Some (NFile data) →
    w_fs (snd c) !! p = Some (NFile data) ∨ settled (d_Routes d) content (snd c) p.
Proof.
  intros Hr Hts Hw Hrun.
  destruct (pool_sound _ _ (Guar_Rely (d_Routes d) content outbox)
              (λ _ _ v, Inv (d_Routes d) content outbox v)
              (λ w, Inv (d_Routes d) content outbox w ∧ evolve outbox w0 w)
              (task_prog d <$> tasks, w0) c) with (2 := Hrun) as [[HI Hev] _].
  - intros i w w' HG [Hi He]. destruct (HG Hi) as (? & ? & _). split; [done|by eapply evolve_trans].
  - split; [done|apply evolve_refl].
  - cbn [fst snd]. intros i q Hq. rewrite list_lookup_fmap in Hq.
    destruct (tasks !! i) as [t|] eqn:Ei; [|done]. cbn in Hq. simplify_eq.
    apply task_safe; [done|done|]. by eapply (Forall_lookup_1 _ _ _ _ Hts Ei).
  - split; [done|]. intros p data (_ & Hpt & _) Ho Hf. by eapply source_conserved.
Qed.

Definition sample_daemon : Daemon :=
  mkDaemon sample_routes ["/r/.siren/outbox"] "/r/.phonewave" false (60 * Second) 10 0
    true true true true true 42.

Lemma daemon_loses_nothing_witness :
  let c := sched (task_prog (H := sample_external) sample_daemon <$>
                    [TEvent (mkFsEvent sample_path true false); TScan "/r/.siren/outbox"; TRetryCycle],
                  sample_world [(sample_path, sample_dmail)] no_fault_env)
                 [0; 1; 2; 1; 1; 0; 0; 1; 0; 0; 1] in
  w_fs (snd c) !! sample_path = Some (NFile sample_dmail) ∨
  settled (H := sample_external) sample_routes (λ _, sample_dmail) (snd c) sample_path.
Proof.
  intros c.
  destruct (daemon_loses_nothing (H := sample_external) sample_daemon (λ _, sample_dmail) sample_outbox
    [TEvent (mkFsEvent sample_path true false); TScan "/r/.siren/outbox"; TRetryCycle]
    (sample_world [(sample_path, sample_dmail)] no_fault_env) c) as (_ & HP).
  - apply sample_routes_ok.
  - repeat constructor; apply sample_mail_path || done.
  - apply fresh_Inv, sample_fresh.
  - apply sched_reachable.
  - apply HP; [apply sample_mail_path|reflexivity|reflexivity].
Defined.
