(* ===== verification/DaemonRun.v ===== *)
(** * The daemon's life: [Daemon.Run]

    Models [session/daemon_runner.go] from the opening of the stores to the
    return of [Run], with [session/delivery_filter.go].  The goroutines are the
    main one (which runs the startup, the event loop and the shutdown), the
    event worker behind the buffered channel, and the tasks of the current
    group of the worker pool (startup scans, then retries).  [step] is one move
    of the whole: an action of one goroutine, a channel operation, a case of
    the [select], the passing of time, or the arrival of a D-Mail in an outbox.
    Every choice is in the label, so [step] is a function; [steps] runs a list
    of labels.

    The main goroutine has the number 0, the worker 1, the tasks of a group 2,
    3 and so on.  Closing files, stores and the watcher has no effect here. *)
From Stdlib Require Import QArith.
From S2P Require Import Prelude GoStrings GoPath GoTime Sha256 Bloom Provider Breaker DMail Improvement Prog World DeliveryStore ErrorQueue Deliver Daemon.

#[local] Open Scope nat_scope.

(** ** Files of the state directory *)

(** [os.WriteFile]: truncate, write (a failing write may have stored a
    prefix), close. *)
Section WriteFile.
Variable put : bytes → StateFiles → StateFiles.

Definition state_Truncate : act (result unit) :=
  guarded "" (λ w, (Ok tt, set_state (put [] (w_state w)) w)).
Definition state_Write (data : bytes) : act (result unit) := λ w,
  let short := env_short (w_env w) (w_tick w) in
  let '(f, w) := fault w in
  match f with
  | Some e => (Err e, set_state (put (take short data) (w_state w)) w)
  | None => (Ok tt, set_state (put data (w_state w)) w)
  end.
Definition state_WriteFile (data : bytes) : program (option error) :=
  r ← atom state_Truncate;
  match r with
  | Err err => mret (Some err)
  | Ok _ =>
      r ← atom (state_Write data);
      c ← atom file_Close;
      match r with
      | Err err => mret (Some err)
      | Ok _ => mret (err_of c)
      end
  end.
End WriteFile.

Definition put_filter (data : bytes) (s : StateFiles) : StateFiles :=
  mkState (sf_provider s) (Some data) (sf_pid s) (sf_started s).
Definition put_pid (data : bytes) (s : StateFiles) : StateFiles :=
  mkState (sf_provider s) (sf_filter s) (Some (str data)) (sf_started s).
Definition put_started (data : bytes) (s : StateFiles) : StateFiles :=
  mkState (sf_provider s) (sf_filter s) (sf_pid s) (Some (str data)).

(** ** [delivery_filter.go] *)

Definition SaveDeliveryFilter (bf : option BloomFilter) : program (option error) :=
  match bf with
  | None => mret None
  | Some bf =>
      r ← atom (guarded "" (λ w, (Ok tt, w)));   (* os.MkdirAll(runDir, 0o755) *)
      match r with
      | Err err => mret (Some err)
      | Ok _ => state_WriteFile put_filter (MarshalBinary bf)
      end
  end.

(** [UnmarshalBloomFilter] does not panic on a slice ([BloomFilter_roundtrip]);
    the last case is not reached. *)
Definition parse_filter (data : bytes) : result (option BloomFilter) :=
  match UnmarshalBloomFilter data with
  | Some (Ok bf) => Ok (Some bf)
  | Some (Err err) => Err err
  | None => Err errBloomCorrupt
  end.
Definition LoadDeliveryFilter : act (result (option BloomFilter)) := guarded "" (λ w,
  (match sf_filter (w_state w) with
   | None => Ok None
   | Some data => parse_filter data
   end, w)).

(** ** Startup and cleanup *)

(** The deferred calls of [Run] that change something. *)
Inductive cleanup := RemoveStarted | RemovePid | SaveFilter.

Definition run_cleanup (c : cleanup) : program unit :=
  match c with
  | RemoveStarted => atom (λ w, let '(f, w) := fault w in
      (tt, match f with Some _ => w | None =>
             set_state (mkState (sf_provider (w_state w)) (sf_filter (w_state w)) (sf_pid (w_state w)) None) w end))
  | RemovePid => atom (λ w, let '(f, w) := fault w in
      (tt, match f with Some _ => w | None =>
             set_state (mkState (sf_provider (w_state w)) (sf_filter (w_state w)) None (sf_started (w_state w))) w end))
  | SaveFilter => bf ← atom (gets w_bloom); _ ← SaveDeliveryFilter bf; mret tt
  end.

Section Startup.
Context `{Sizing}.
Variable d : Daemon.

Definition load_filter : program unit :=
  r ← atom LoadDeliveryFilter;
  atom (modify (set_bloom (Some match r with
                                | Ok (Some bf) => bf
                                | _ => NewBloomFilter 10000 (1 # 100)
                                end))).

(** [d.watcher.Add] on each outbox. *)
Fixpoint watch_all (dirs : list string) : program (option error) :=
  match dirs with
  | [] => mret None
  | dir :: r =>
      a ← atom (guarded ("watch " +:+ dir +:+ ": ") (λ w, (Ok tt, w)));
      match a with
      | Err err => mret (Some err)
      | Ok _ => watch_all r
      end
  end.

Definition write_pid : program (option error) :=
  state_WriteFile put_pid (raw (Itoa (d_pid d))).
Definition write_started : program (option error) :=
  now ← atom Now; state_WriteFile put_started (raw (format_rfc3339 now)).

(** [Run] up to the startup scan: an error, and the deferred calls so far. *)
Definition startup : program (option error * list cleanup) :=
  l ← atom (guarded "open delivery log: " (λ w, (Ok tt, w)));
  match l with
  | Err err => mret (Some err, [])
  | Ok _ =>
      s ← atom (guarded "open delivery store: " (λ w, (Ok tt, w)));
      match s with
      | Err err => mret (Some err, [])
      | Ok _ =>
          _ ← load_filter;
          _ ← recover_unflushed;
          a ← watch_all (d_OutboxDirs d);
          match a with
          | Some err => mret (Some err, [SaveFilter])
          | None =>
              p ← write_pid;
              match p with
              | Some err => mret (Some (errorf_w "write PID file: " err), [SaveFilter])
              | None =>
                  t ← write_started;
                  match t with
                  | Some err => mret (Some (errorf_w "write started file: " err), [RemovePid; SaveFilter])
                  | None => mret (None, [RemoveStarted; RemovePid; SaveFilter])
                  end
              end
          end
      end
  end.

(** Before the loop: the breaker, and the first published state. *)
Definition enter_loop : program unit :=
  _ ← (if (0 <? d_RetryInterval d)%Z then atom (modify (set_cb (Some NewCircuitBreaker))) else mret tt);
  atom (writeProviderStateSnapshot ActiveProviderState).
End Startup.

(** ** The state of a run *)

(** The loop's variables: the backoff, and when the two timers fire. *)
Record Loop := mkLoop {
  lp_backoff : option RetryBackoff; lp_retryAt : option Time; lp_idleAt : option Time }.

(** Where the main goroutine is. *)
Inductive control :=
  | CStart (p : program (option error * list cleanup))
  | CScan (ds : list cleanup)                                       (* scanGroup.Wait() *)
  | CInit (p : program unit) (lp : Loop) (ds : list cleanup)
  | CLoop (lp : Loop) (ds : list cleanup)                           (* select *)
  | CSend (ev : FsEvent) (lp : Loop) (ds : list cleanup)            (* d.eventCh <- event *)
  | CGate (p : program bool) (lp : Loop) (ds : list cleanup)
  | CClaim (p : program (list ErrorEntry)) (lp : Loop) (ds : list cleanup)
  | CGroup (lp : Loop) (ds : list cleanup)                          (* retryGroup.Wait() *)
  | CAfter (p : program RetryBackoff) (lp : Loop) (ds : list cleanup)
  | CDrain (ds : list cleanup)                                      (* <-workerDone *)
  | CCleanup (p : program unit) (err : option error)
  | CDone (err : option error).

Inductive worker := WNone | WBusy (p : program unit) | WExited.

(** The last three fields are history: events received by the loop, events
    handed to the worker, and when the last activity was. *)
Record Run := mkRun {
  rn_ctl : control; rn_worker : worker; rn_group : list (program bool);
  rn_ch : list FsEvent; rn_closed : bool; rn_now : Time; rn_world : World;
  rn_received : list FsEvent; rn_taken : list FsEvent; rn_active : Time }.

Definition set_ctl (c : control) (s : Run) : Run :=
  mkRun c (rn_worker s) (rn_group s) (rn_ch s) (rn_closed s) (rn_now s) (rn_world s)
    (rn_received s) (rn_taken s) (rn_active s).
Definition set_worker (x : worker) (s : Run) : Run :=
  mkRun (rn_ctl s) x (rn_group s) (rn_ch s) (rn_closed s) (rn_now s) (rn_world s)
    (rn_received s) (rn_taken s) (rn_active s).
Definition set_group (g : list (program bool)) (s : Run) : Run :=
  mkRun (rn_ctl s) (rn_worker s) g (rn_ch s) (rn_closed s) (rn_now s) (rn_world s)
    (rn_received s) (rn_taken s) (rn_active s).
Definition set_ch (l : list FsEvent) (s : Run) : Run :=
  mkRun (rn_ctl s) (rn_worker s) (rn_group s) l (rn_closed s) (rn_now s) (rn_world s)
    (rn_received s) (rn_taken s) (rn_active s).
Definition close_ch (s : Run) : Run :=
  mkRun (rn_ctl s) (rn_worker s) (rn_group s) (rn_ch s) true (rn_now s) (rn_world s)
    (rn_received s) (rn_taken s) (rn_active s).
Definition set_now (t : Time) (s : Run) : Run :=
  mkRun (rn_ctl s) (rn_worker s) (rn_group s) (rn_ch s) (rn_closed s) t (rn_world s)
    (rn_received s) (rn_taken s) (rn_active s).
Definition set_world (w : World) (s : Run) : Run :=
  mkRun (rn_ctl s) (rn_worker s) (rn_group s) (rn_ch s) (rn_closed s) (rn_now s) w
    (rn_received s) (rn_taken s) (rn_active s).
Definition receive (ev : FsEvent) (s : Run) : Run :=
  mkRun (rn_ctl s) (rn_worker s) (rn_group s) (rn_ch s) (rn_closed s) (rn_now s) (rn_world s)
    (rn_received s ++ [ev]) (rn_taken s) (rn_now s).
Definition take_event (ev : FsEvent) (s : Run) : Run :=
  mkRun (rn_ctl s) (rn_worker s) (rn_group s) (rn_ch s) (rn_closed s) (rn_now s) (rn_world s)
    (rn_received s) (rn_taken s ++ [ev]) (rn_active s).
Definition set_active (s : Run) : Run :=
  mkRun (rn_ctl s) (rn_worker s) (rn_group s) (rn_ch s) (rn_closed s) (rn_now s) (rn_world s)
    (rn_received s) (rn_taken s) (rn_now s).

(** ** Labels *)

Inductive label :=
  | LMain | LWorker | LTask (i : nat)   (* the goroutine performs its next action *)
  | LNext (r : Z)                       (* main goes on after a program, a wait or a send; [r] is for the jitter *)
  | LTake                               (* the worker receives from the channel *)
  | LEvent (ev : FsEvent)               (* case event := <-d.watcher.Events *)
  | LWatchError                         (* case err := <-d.watcher.Errors *)
  | LCancel                             (* case <-ctx.Done(), or a closed watcher channel *)
  | LRetry (script : list pass)         (* case <-retryCh *)
  | LIdle                               (* case <-idleCh *)
  | LTick (t : Time)                    (* time passes *)
  | LArrive (p : string) (data : bytes). (* a producer renames a D-Mail into an outbox *)

(** One action of a program, if it has one left. *)
Definition act_of {A} (i : nat) (p : program A) (w : World) : option (program A * World) :=
  match p with
  | Ret _ => None
  | Act m k => Some (k (fst (m i w)), snd (m i w))
  end.

Definition finished {A} (p : program A) : option A := match p with Ret a => Some a | Act _ _ => None end.

(** [d.dlog] is set once the log is open. *)
Definition opened (d : Daemon) : Daemon :=
  mkDaemon (d_Routes d) (d_OutboxDirs d) (d_StateDir d) (d_DryRun d) (d_RetryInterval d) (d_MaxRetries d)
    (d_IdleTimeout d) true (d_session d) (d_ErrorQueue d) (d_Emitter d) (d_dedupStore d) (d_pid d).

Section Run.
Context `{External} `{Sizing}.
Variable d : Daemon.
(** The capacity of the event channel, [runtime.NumCPU()*16]. *)
Variable capacity : nat.

(** The idle deadline after an activity at [now]. *)
Definition idle_deadline (now : Time) : option Time :=
  let eff := EffectiveIdleTimeout (d_IdleTimeout d) in
  if (0 <? eff)%Z then Some (now + eff)%Z else None.

(** [retryTimer.Reset(backoff.Next())]; [None] when [Next] panics. *)
Definition arm_retry (now : Time) (b : RetryBackoff) (r : Z) : option Time :=
  dt ← Next b r; Some (now + dt)%Z.

(** The loop's variables when it is entered. *)
Definition first_loop (now : Time) (r : Z) : option Loop :=
  if (0 <? d_RetryInterval d)%Z then
    let b := NewRetryBackoff (d_RetryInterval d) (i64 (d_RetryInterval d * 32)) in
    at_ ← arm_retry now b r; Some (mkLoop (Some b) (Some at_) (idle_deadline now))
  else Some (mkLoop None None (idle_deadline now)).

Definition reset_idle (now : Time) (lp : Loop) : Loop :=
  mkLoop (lp_backoff lp) (lp_retryAt lp) (idle_deadline now).
Definition rearm (now : Time) (b : RetryBackoff) (r : Z) (lp : Loop) : option Loop :=
  at_ ← arm_retry now b r; Some (mkLoop (Some b) (Some at_) (lp_idleAt lp)).

Definition due (now : Time) (at_ : option Time) : bool :=
  match at_ with Some t => (t <=? now)%Z | None => false end.

Definition scan_group : list (program bool) :=
  (λ dir, _ ← scan_task (opened d) dir; mret false) <$> d_OutboxDirs d.

(** The results of a group whose tasks are all done. *)
Fixpoint group_results (g : list (program bool)) : option nat :=
  match g with
  | [] => Some 0
  | p :: r => b ← finished p; n ← group_results r; Some (if (b : bool) then S n else n)
  end.

Fixpoint cleanup_all (ds : list cleanup) : program unit :=
  match ds with
  | [] => mret tt
  | c :: r => _ ← run_cleanup c; cleanup_all r
  end.

(** Main goes on. *)
Definition next (r : Z) (s : Run) : option Run :=
  match rn_ctl s with
  | CStart p =>
      '(err, ds) ← finished p;
      match err with
      | Some err => Some (set_ctl (CCleanup (cleanup_all ds) (Some err)) s)
      | None => Some (set_group scan_group (set_ctl (CScan ds) s))
      end
  | CScan ds =>
      _ ← group_results (rn_group s);
      lp ← first_loop (rn_now s) r;
      Some (set_active (set_worker (WBusy (mret tt)) (set_group [] (set_ctl (CInit (enter_loop d) lp ds) s))))
  | CInit p lp ds => _ ← finished p; Some (set_ctl (CLoop lp ds) s)
  | CSend ev lp ds =>
      if length (rn_ch s) <? capacity
      then Some (set_ch (rn_ch s ++ [ev]) (set_ctl (CLoop lp ds) s)) else None
  | CGate p lp ds =>
      ok ← finished p; b ← lp_backoff lp;
      if (ok : bool) then Some (set_ctl (CClaim (claim_pending d) lp ds) s)
      else lp' ← rearm (rn_now s) b r lp; Some (set_ctl (CLoop lp' ds) s)
  | CClaim p lp ds =>
      entries ← finished p;
      Some (set_group (retry_entry (opened d) <$> entries) (set_ctl (CGroup lp ds) s))
  | CGroup lp ds =>
      n ← group_results (rn_group s); b ← lp_backoff lp;
      Some (set_group [] (set_ctl (CAfter (after_cycle d b n) lp ds) s))
  | CAfter p lp ds =>
      b ← finished p; lp' ← rearm (rn_now s) b r lp;
      Some (set_ctl (CLoop lp' ds) s)
  | CDrain ds =>
      match rn_worker s with
      | WExited => Some (set_ctl (CCleanup (cleanup_all ds) None) s)
      | _ => None
      end
  | CCleanup p err => _ ← finished p; Some (set_ctl (CDone err) s)
  | CLoop _ _ | CDone _ => None
  end.

(** The next action of the main goroutine. *)
Definition main_act (s : Run) : option Run :=
  let go {A} (p : program A) (mk : program A → control) :=
    '(p', w') ← act_of 0 p (rn_world s); Some (set_world w' (set_ctl (mk p') s)) in
  match rn_ctl s with
  | CStart p => go p CStart
  | CInit p lp ds => go p (λ p', CInit p' lp ds)
  | CGate p lp ds => go p (λ p', CGate p' lp ds)
  | CClaim p lp ds => go p (λ p', CClaim p' lp ds)
  | CAfter p lp ds => go p (λ p', CAfter p' lp ds)
  | CCleanup p err => go p (λ p', CCleanup p' err)
  | _ => None
  end.

(** The worker takes the next event, or exits when the channel is closed and
    empty. *)
Definition worker_take (s : Run) : option Run :=
  match rn_worker s with
  | WBusy (Ret _) =>
      match rn_ch s with
      | ev :: r => Some (take_event ev (set_worker (WBusy (handleEvent (opened d) ev)) (set_ch r s)))
      | [] => if rn_closed s then Some (set_worker WExited s) else None
      end
  | _ => None
  end.

Definition leave_loop (ds : list cleanup) (s : Run) : Run := close_ch (set_ctl (CDrain ds) s).

Definition step (l : label) (s : Run) : option Run :=
  match l with
  | LMain => main_act s
  | LWorker =>
      match rn_worker s with
      | WBusy p => '(p', w') ← act_of 1 p (rn_world s); Some (set_world w' (set_worker (WBusy p') s))
      | _ => None
      end
  | LTask i =>
      p ← rn_group s !! i;
      '(p', w') ← act_of (S (S i)) p (rn_world s);
      Some (set_world w' (set_group (<[i := p']> (rn_group s)) s))
  | LNext r => next r s
  | LTake => worker_take s
  | LEvent ev =>
      match rn_ctl s with
      | CLoop lp ds => Some (receive ev (set_ctl (CSend ev (reset_idle (rn_now s) lp) ds) s))
      | _ => None
      end
  | LWatchError => match rn_ctl s with CLoop _ _ => Some s | _ => None end
  | LCancel => match rn_ctl s with CLoop _ ds => Some (leave_loop ds s) | _ => None end
  | LRetry script =>
      match rn_ctl s with
      | CLoop lp ds =>
          if due (rn_now s) (lp_retryAt lp)
          then Some (set_active (set_ctl (CGate (gate script) (reset_idle (rn_now s) lp) ds) s)) else None
      | _ => None
      end
  | LIdle =>
      match rn_ctl s with
      | CLoop lp ds => if due (rn_now s) (lp_idleAt lp) then Some (leave_loop ds s) else None
      | _ => None
      end
  | LTick t => if (rn_now s <=? t)%Z then Some (set_now t s) else None
  | LArrive p data =>
      Some (set_world (set_fs (<[p := NFile data]> (w_fs (rn_world s))) (rn_world s)) s)
  end.

Fixpoint steps (ls : list label) (s : Run) : option Run :=
  match ls with
  | [] => Some s
  | l :: r => s' ← step l s; steps r s'
  end.

(** [Run] is called at time [now] in world [w]. *)
Definition run_start (now : Time) (w : World) : Run :=
  mkRun (CStart (startup d)) WNone [] [] false now w [] [] now.

(** A new process has no filter and no breaker in memory. *)
Definition fresh_process (w : World) : World := set_cb None (set_bloom None w).

(** Sessions one after the other, each ended or killed where its list of
    moves ends. *)
Fixpoint sessions (ls : list (Time * list label)) (w : World) : option World :=
  match ls with
  | [] => Some w
  | (now, l) :: r => s ← steps l (run_start now (fresh_process w)); sessions r (rn_world s)
  end.
End Run.
