(* ===== verification/RunSafety.v ===== *)
(** * A whole run of the daemon

    Theorems about [DaemonRun.step]: whatever order the goroutines, the
    watcher, the timers and the producers move in, no D-Mail is lost, the
    event worker handles every event the loop has received, a shutdown
    terminates, and the loop is left for idleness only after a full idle
    period. *)
From Stdlib Require Import QArith.
From S2P Require Import Prelude GoStrings GoPath GoTime Sha256 Bloom Provider Breaker DMail Improvement Prog World DeliveryStore ErrorQueue Deliver Safety StoreSafety DeliverSafety Daemon DaemonSafety DaemonRun.

#[local] Open Scope nat_scope.

(** ** Tactics for the step function *)

(** Takes the binds and tests of an equation [... = Some s'] apart. *)
Ltac step_inv H :=
  repeat match type of H with
  | _ ≫= _ = Some _ => apply bind_Some in H; let x := fresh "x" in let E := fresh "E" in destruct H as (x & E & H)
  | Some _ = Some _ => injection H as H
  | None = Some _ => discriminate H
  | (let '(_, _) := ?x in _) = Some _ => destruct x
  | (if ?b then _ else _) = Some _ => destruct b eqn:?
  | match ?x with _ => _ end = Some _ => destruct x eqn:?
  end.

Section Protocol.
Context `{External} `{Sizing}.
Variable d : Daemon.
Variable capacity : nat.
Variable content : string → bytes.
Variable outbox : string → Prop.
Hypothesis routes_clean : routes_ok (d_Routes d) outbox.
Hypothesis watched : Forall (λ dir, outbox (Clean dir)) (d_OutboxDirs d).

#[local] Abbreviation Inv := (Inv (d_Routes d) content outbox).
#[local] Abbreviation Rely := (Rely (d_Routes d) content outbox).
#[local] Abbreviation Guar := (Guar (d_Routes d) content outbox).
#[local] Abbreviation WP := (wp (Safety.Rely (d_Routes d) content outbox) (Safety.Guar (d_Routes d) content outbox)).

(** ** What the outside may do *)

(** The watcher names files of the watched directories. *)
Definition event_ok (ev : FsEvent) : Prop := Clean (ev_Name ev) = ev_Name ev ∧ outbox (Dir (ev_Name ev)).

(** A producer puts the D-Mail of the path there. *)
Definition label_ok (l : label) : Prop :=
  match l with
  | LEvent ev => event_ok ev
  | LArrive p data => mail_path p ∧ outbox (Dir p) ∧ data = content p
  | _ => True
  end.

Lemma arrive_Rely i p w :
  mail_path p → outbox (Dir p) → Rely i w (set_fs (<[p := NFile (content p)]> (w_fs w)) w).
Proof.
  intros Hp Ho Hw. set (w' := set_fs _ _). destruct (Hp) as (_ & Hpt & _).
  assert (evolve outbox w w') as Hev.
  { constructor; cbn; eauto. exists []. split_and!; [done|by intros ? ? ?%elem_of_nil|]. intros c x Hc Hx. left.
    destruct (decide (c = p)) as [->|]; [|by rewrite lookup_insert_ne].
    by rewrite lookup_insert_eq, (inv_source _ _ _ _ Hw p x). }
  split_and!; [|done|].
  - destruct Hw as [I1 I2 I3 I4 I5 IS I6 IE IN I7]. constructor; cbn; [done|done|done|done| | |done|done|done|done].
    + intros n j Hj. destruct (I5 n j Hj) as [Hn [x Hx]]. split; [done|]. exists x.
      rewrite lookup_insert_ne; [done|]. by intros ->.
    + intros q x Hq Hqo. rewrite lookup_insert. case_decide as E; [subst; by intros [= ->]|by apply IS].
  - apply keeps_intro; [done|done|]. intros n Hn. split; [done|]. cbn.
    destruct (inv_owner _ _ _ _ Hw n i Hn) as [Ht _]. rewrite lookup_insert_ne; [done|]. by intros ->.
Qed.

(** ** The programs of the main goroutine keep the protocol *)

Lemma state_act_view {X} (m : act X) :
  (∀ w, ∃ s t, snd (m w) = set_tick t (set_state s w)) → view_act m.
Proof. intros Hm w. destruct (Hm w) as (s & t & ->). by destruct w. Qed.

Lemma Truncate_view put : view_act (state_Truncate put).
Proof.
  apply state_act_view. intros w. unfold state_Truncate, guarded, fault.
  destruct (env_fault _ _); cbn; [exists (w_state w)|eexists]; by exists (S (w_tick w)); destruct w.
Qed.
Lemma Write_view put data : view_act (state_Write put data).
Proof.
  apply state_act_view. intros w. unfold state_Write, fault.
  destruct (env_fault _ _); cbn; eexists; by exists (S (w_tick w)); destruct w.
Qed.
Lemma guarded_ok_view {A} prefix (a : A) : view_act (guarded prefix (λ w, (Ok a, w))).
Proof. intros w. unfold guarded, fault. destruct (env_fault _ _); by destruct w. Qed.
Lemma Load_view : view_act LoadDeliveryFilter.
Proof. intros w. unfold LoadDeliveryFilter, guarded, fault. destruct (env_fault _ _); by destruct w. Qed.
Lemma gets_view {A} (f : World → A) : view_act (gets f).
Proof. by intros w. Qed.
Lemma set_cb_view c : view_act (modify (set_cb c)).
Proof. by intros w. Qed.
Lemma set_bloom_view b : view_act (modify (set_bloom b)).
Proof. by intros w. Qed.
Lemma publish_view s : view_act (writeProviderStateSnapshot s).
Proof.
  apply state_act_view. intros w. unfold writeProviderStateSnapshot, fault.
  destruct (env_fault _ _); cbn; [exists (w_state w)|eexists]; by exists (S (w_tick w)); destruct w.
Qed.
Lemma Pending_view k : view_act (PendingCount k).
Proof. intros w. unfold PendingCount, guarded, fault. destruct (env_fault _ _); by destruct w. Qed.
#[local] Hint Resolve Truncate_view Write_view guarded_ok_view Load_view gets_view set_cb_view set_bloom_view
  publish_view Pending_view cb_success_view cb_error_view Now_view : go.

#[local] Abbreviation Safe p := (∀ i w, Inv w → WP i p (λ _ v, Inv v) w).

Lemma safe_atom {X} (m : act X) : view_act m → Safe (atom m).
Proof. intros Hm i w Hw. by apply view_atom. Qed.
Lemma safe_ret {A} (a : A) : Safe (mret a : program A).
Proof. intros i w Hw. by apply wp_done. Qed.
Lemma safe_seq {A B} (p : program A) (k : A → program B) : Safe p → (∀ a, Safe (k a)) → Safe (p ≫= k).
Proof. intros Hp Hk i w Hw. apply wp_seq; auto. Qed.
#[local] Hint Resolve safe_atom safe_ret : go.

(** Peels a program that only touches state files. *)
Ltac safe_tac := repeat first
  [ solve [auto with go] | apply safe_seq; [|intros ?] | case_match ].

Lemma WriteFile_safe put data : Safe (state_WriteFile put data).
Proof. unfold state_WriteFile, file_Close. safe_tac. Qed.
#[local] Hint Resolve WriteFile_safe : go.
Lemma Save_safe bf : Safe (SaveDeliveryFilter bf).
Proof. destruct bf as [bf|]; unfold SaveDeliveryFilter; [|auto with go]. safe_tac. Qed.
#[local] Hint Resolve Save_safe : go.

Lemma remove_state_view f :
  view_act (λ w, let '(x, w) := fault w in (tt, match x with Some _ => w | None => set_state (f (w_state w)) w end)).
Proof. intros w. unfold fault. destruct (env_fault _ _); by destruct w. Qed.

Lemma run_cleanup_safe c : Safe (run_cleanup c).
Proof.
  destruct c; cbn [run_cleanup].
  - apply safe_atom, (remove_state_view (λ s, mkState (sf_provider s) (sf_filter s) (sf_pid s) None)).
  - apply safe_atom, (remove_state_view (λ s, mkState (sf_provider s) (sf_filter s) None (sf_started s))).
  - safe_tac.
Qed.
Lemma cleanup_all_safe ds : Safe (cleanup_all ds).
Proof. induction ds as [|c ds IH]; cbn [cleanup_all]; [auto with go|]. apply safe_seq; [apply run_cleanup_safe|done]. Qed.

Lemma watch_all_safe dirs : Safe (watch_all dirs).
Proof. induction dirs as [|x dirs IH]; cbn [watch_all]; safe_tac. Qed.
Lemma recover_safe : Safe recover_unflushed.
Proof. intros i w Hw. by apply recover_unflushed_safe. Qed.
#[local] Hint Resolve watch_all_safe recover_safe : go.

Lemma startup_safe : Safe (startup d).
Proof.
  unfold startup, load_filter, write_pid, write_started. safe_tac.
Qed.
Lemma enter_loop_safe : Safe (enter_loop d).
Proof. unfold enter_loop. safe_tac. Qed.
Lemma cb_check_view t1 t2 : view_act (cb_check t1 t2).
Proof. intros w. unfold cb_check. destruct (w_cb w); [case_match|]; by destruct w. Qed.
#[local] Hint Resolve cb_check_view : go.
Lemma cb_Allow_safe script : Safe (cb_Allow script).
Proof. induction script as [|it script IH]; cbn [cb_Allow]; safe_tac. Qed.
#[local] Hint Resolve cb_Allow_safe : go.
Lemma gate_safe script : Safe (gate script).
Proof. unfold gate. safe_tac. Qed.
Lemma after_cycle_safe b n : Safe (after_cycle d b n).
Proof. unfold after_cycle, when. safe_tac. Qed.
(** ** The invariant of a run *)

Definition main_safe (c : control) (w : World) : Prop :=
  match c with
  | CStart p => WP 0 p (λ _ v, Inv v) w
  | CInit p _ _ | CCleanup p _ => WP 0 p (λ _ v, Inv v) w
  | CGate p _ _ => WP 0 p (λ _ v, Inv v) w
  | CClaim p _ _ => WP 0 p (λ es v, Inv v ∧ Forall (entry_ok content) es) w
  | CAfter p _ _ => WP 0 p (λ _ v, Inv v) w
  | CSend ev _ _ => event_ok ev
  | _ => True
  end.
Definition worker_safe (x : worker) (w : World) : Prop :=
  match x with WBusy p => WP 1 p (λ _ v, Inv v) w | _ => True end.
Definition group_safe (g : list (program bool)) (w : World) : Prop :=
  ∀ i p, g !! i = Some p → WP (S (S i)) p (λ _ v, Inv v) w.
Record run_safe (w0 : World) (s : Run) : Prop := mkSafe {
  rs_inv : Inv (rn_world s);
  rs_evolve : evolve outbox w0 (rn_world s);
  rs_main : main_safe (rn_ctl s) (rn_world s);
  rs_worker : worker_safe (rn_worker s) (rn_world s);
  rs_group : group_safe (rn_group s) (rn_world s);
  rs_ch : Forall event_ok (rn_ch s) }.

(** *** Moves of the others *)

Lemma main_stable c w w' : Rely 0 w w' → main_safe c w → main_safe c w'.
Proof. intros HR. destruct c; cbn [main_safe]; try done; apply wp_stable; by try apply _. Qed.
Lemma worker_stable x w w' : Rely 1 w w' → worker_safe x w → worker_safe x w'.
Proof. intros HR. destruct x; cbn [worker_safe]; try done. apply wp_stable; by try apply _. Qed.

(** One action of a program proved safe. *)
Lemma act_of_safe {A} i (p p' : program A) Q w w' :
  act_of i p w = Some (p', w') → WP i p Q w → Guar i w w' ∧ WP i p' Q w'.
Proof.
  destruct p as [a|X m k]; cbn [act_of]; [done|]. intros [= <- <-] Hp. apply (Hp w). reflexivity.
Qed.
Lemma finished_post {A} i (p : program A) a Q w : finished p = Some a → WP i p Q w → Q a w.
Proof. destruct p; cbn [finished]; [|done]. intros [= ->] Hp. apply (Hp w). reflexivity. Qed.

(** A move of goroutine [i] in the world, when [i] itself is dealt with. *)
Lemma world_moved w0 s i w' :
  run_safe w0 s → Guar i (rn_world s) w' →
  Inv w' ∧ evolve outbox w0 w' ∧
  (i ≠ 0 → main_safe (rn_ctl s) w') ∧ (i ≠ 1 → worker_safe (rn_worker s) w') ∧
  ∀ j p, S (S j) ≠ i → rn_group s !! j = Some p → WP (S (S j)) p (λ _ v, Inv v) w'.
Proof.
  intros [HI He Hm Hx Hg Hc] HG. destruct (HG HI) as (HI' & He' & _).
  assert (∀ j, i ≠ j → Rely j (rn_world s) w') as HR by (intros; by eapply Guar_Rely).
  split_and!; [done|by eapply evolve_trans| | |].
  - intros. eapply main_stable; [|done]. by apply HR.
  - intros. eapply worker_stable; [|done]. by apply HR.
  - intros j p Hj Hp. eapply wp_stable; [apply _| |by apply Hg]. apply HR. congruence.
Qed.

Lemma scan_group_safe w : Inv w → group_safe (scan_group d) w.
Proof using routes_clean watched.
  intros Hw i p Hp. unfold scan_group in Hp. rewrite list_lookup_fmap in Hp.
  apply fmap_Some in Hp as (dir & E & ->).
  apply wp_seq; [|intros; by apply wp_done]. apply (scan_task_safe (opened d)); [done|done|].
  by eapply (Forall_lookup_1 _ _ _ _ watched E).
Qed.
Lemma retry_group_safe es w : Forall (entry_ok content) es → Inv w → group_safe (retry_entry (opened d) <$> es) w.
Proof using routes_clean.
  intros Hes Hw i p Hp. rewrite list_lookup_fmap in Hp.
  apply fmap_Some in Hp as (e & E & ->).
  apply (retry_entry_safe (opened d)); [done|done|]. by eapply (Forall_lookup_1 _ _ _ _ Hes E).
Qed.

Lemma event_safe i ev w : Inv w → event_ok ev → WP i (handleEvent (opened d) ev) (λ _ v, Inv v) w.
Proof using routes_clean.
  intros Hw [Hc Ho]. destruct (shouldProcessEvent ev) eqn:Es.
  - apply (handleEvent_safe (opened d)); [done..| |done].
    assert (IsDMailFile (Base (ev_Name ev)) = true) as HD.
    { unfold shouldProcessEvent in Es. case_match; [done|]. unfold IsDMailFile in Es |- *.
      destruct (Base_no_slash (ev_Name ev)) as [E|E]; [by rewrite E in Es|].
      destruct (decide (Base (ev_Name ev) = "" ∨ Base (ev_Name ev) = ".")) as [Hb|Hb].
      { cbv zeta in Es. by rewrite bool_decide_true in Es. }
      destruct (decide (Base (ev_Name ev) = "..")) as [E2|E2]; [by rewrite E2 in Es|].
      rewrite (Base_plain (Base (ev_Name ev))); [done|]. split_and!; tauto. }
    apply eligible_plain in HD as [Hp Ht]. split_and!; [done| |apply Hp..]. unfold temp. by rewrite Ht.
  - unfold handleEvent. rewrite Es. by apply wp_done.
Qed.
(** *** Every move keeps it *)

(** The main goroutine acts and goes on in control point [c']. *)
Lemma main_acted w0 s w' c' :
  run_safe w0 s → Guar 0 (rn_world s) w' → main_safe c' w' → run_safe w0 (set_world w' (set_ctl c' s)).
Proof.
  intros Hs HG Hc. destruct (world_moved w0 s 0 w' Hs HG) as (HI & He & _ & Hx & Hg).
  destruct Hs. constructor; cbn [set_world set_ctl rn_world rn_ctl rn_worker rn_group rn_ch]; auto.
  intros j p. by apply Hg.
Qed.
(** It changes its control point only. *)
Lemma main_moved w0 s c' : run_safe w0 s → main_safe c' (rn_world s) → run_safe w0 (set_ctl c' s).
Proof. intros [] Hc. by constructor. Qed.

Lemma main_act_safe w0 s s' : run_safe w0 s → main_act s = Some s' → run_safe w0 s'.
Proof.
  intros Hs E. pose proof (rs_main w0 s Hs) as Hm. unfold main_act in E.
  destruct (rn_ctl s) eqn:Ec; try discriminate E; cbn [main_safe] in Hm;
    apply bind_Some in E as ([p' w'] & Ea & E'); injection E' as <-;
    destruct (act_of_safe _ _ _ _ _ _ Ea Hm) as [HG Hp]; by apply main_acted.
Qed.

Lemma next_safe w0 r s s' : run_safe w0 s → next d capacity r s = Some s' → run_safe w0 s'.
Proof using routes_clean watched.
  intros Hs E. pose proof (rs_main w0 s Hs) as Hm. pose proof (rs_inv w0 s Hs) as HI.
  unfold next in E. destruct (rn_ctl s) eqn:Ec; cbn [main_safe] in Hm; step_inv E; subst s'.
  - apply main_moved; [done|]. by apply cleanup_all_safe.
  - apply (main_moved w0 s (CScan l)) in Hs as Hs'; [|done]. destruct Hs'. constructor; try done.
    by apply scan_group_safe.
  - destruct Hs. constructor; try done; cbn [main_safe worker_safe rn_world rn_ctl rn_worker set_active set_worker set_group set_ctl].
    + by apply enter_loop_safe.
    + by apply wp_done.
  - by apply main_moved.
  - destruct Hs. constructor; try done. cbn [set_ch rn_ch set_ctl]. apply Forall_app. by split; [|constructor].
  - apply main_moved; [done|]. by apply claim_pending_safe.
  - by apply main_moved.
  - destruct (finished_post _ _ _ _ _ E0 Hm) as [_ Hes]. destruct Hs. constructor; try done.
    by apply retry_group_safe.
  - destruct Hs. constructor; try done. by apply after_cycle_safe.
  - by apply main_moved.
  - apply main_moved; [done|]. by apply cleanup_all_safe.
  - by apply main_moved.
Qed.

Lemma step_safe w0 l s s' :
  run_safe w0 s → label_ok l → step d capacity l s = Some s' → run_safe w0 s'.
Proof using routes_clean watched.
  intros Hs Hl E. pose proof (rs_inv w0 s Hs) as HI. pose proof (rs_worker w0 s Hs) as Hx.
  destruct l as [| |i|r| |ev| | |script| |t|p data]; cbn [step label_ok] in E, Hl.
  - by eapply main_act_safe.
  - destruct (rn_worker s) as [|q|] eqn:Ew; try discriminate E. step_inv E. subst s'. cbn [worker_safe] in Hx.
    destruct (act_of_safe _ _ _ _ _ _ E0 Hx) as [HG Hp].
    destruct (world_moved w0 s 1 _ Hs HG) as (HI' & He & Hm & _ & Hg).
    destruct Hs. constructor; try done; [by apply Hm|]. intros j p'. by apply Hg.
  - step_inv E. subst s'. pose proof (rs_group w0 s Hs i _ E0) as Hi.
    destruct (act_of_safe _ _ _ _ _ _ E1 Hi) as [HG Hp].
    destruct (world_moved w0 s (S (S i)) _ Hs HG) as (HI' & He & Hm & Hx' & Hg).
    destruct Hs. constructor; try done; [by apply Hm|by apply Hx'|].
    intros j q Hq. cbn [rn_group set_world set_group] in Hq. destruct (decide (i = j)) as [<-|Hne].
    + rewrite list_lookup_insert_eq in Hq by (by eapply lookup_lt_Some). by simplify_eq.
    + rewrite list_lookup_insert_ne in Hq by done. apply Hg; [congruence|done].
  - by eapply next_safe.
  - unfold worker_take in E. step_inv E; subst s'.
    + destruct Hs. by constructor.
    + pose proof (rs_ch w0 s Hs) as Hch. rewrite Heql in Hch. apply Forall_cons in Hch as [Hev Hch].
      destruct Hs. constructor; try done. by apply event_safe.
  - step_inv E. subst s'. destruct Hs. by constructor.
  - step_inv E. by subst s'.
  - step_inv E. subst s'. destruct Hs. by constructor.
  - step_inv E. subst s'. destruct Hs. constructor; try done. by apply gate_safe.
  - step_inv E. subst s'. destruct Hs. by constructor.
  - step_inv E. subst s'. destruct Hs. by constructor.
  - destruct Hl as (Hp & Ho & ->). injection E as <-.
    pose proof (λ i, arrive_Rely i p (rn_world s) Hp Ho) as HR. set (w' := set_fs _ _) in *.
    destruct (HR 0 HI) as (HI' & He & _). destruct Hs. constructor; try done.
    + by eapply evolve_trans.
    + eapply main_stable; [apply HR|done].
    + eapply worker_stable; [apply HR|done].
    + intros j q Hq. eapply wp_stable; [apply _| |by apply rs_group0]. apply HR.
Qed.

Lemma steps_safe w0 ls s s' :
  run_safe w0 s → Forall label_ok ls → steps d capacity ls s = Some s' → run_safe w0 s'.
Proof using routes_clean watched.
  revert s. induction ls as [|l ls IH]; intros s Hs Hls E; cbn [steps] in E; [by simplify_eq|].
  apply bind_Some in E as (s1 & E1 & E). apply Forall_cons in Hls as [Hl Hls].
  eapply IH; [|done..]. by eapply step_safe.
Qed.

(** *** Sessions *)

Lemma fresh_process_view w : same_view w (fresh_process w).
Proof. by destruct w. Qed.

Lemma start_safe w0 now w : Inv w → evolve outbox w0 w → run_safe w0 (run_start d now (fresh_process w)).
Proof.
  intros Hw He. destruct (Guar_view (d_Routes d) content outbox 0 _ _ (fresh_process_view w) Hw) as (Hw' & He' & _).
  constructor; try done; [by eapply evolve_trans|by apply startup_safe].
Qed.

Lemma sessions_safe w0 lss w w' :
  Forall (λ l, Forall label_ok (snd l)) lss → Inv w → evolve outbox w0 w →
  sessions d capacity lss w = Some w' → Inv w' ∧ evolve outbox w0 w'.
Proof using routes_clean watched.
  intros Hls. revert w. induction Hls as [|[now l] lss Hl Hls IH]; intros w Hw He E; cbn [sessions] in E.
  - by simplify_eq.
  - apply bind_Some in E as (s & Es & E). cbn [snd] in Hl.
    destruct (steps_safe w0 l _ s (start_safe w0 now w Hw He) Hl Es). by eapply IH.
Qed.

(** A D-Mail that arrives is there in a state from which the rest of the run
    goes on. *)
Lemma steps_arrival w0 ls s s' p data :
  run_safe w0 s → Forall label_ok ls → steps d capacity ls s = Some s' → LArrive p data ∈ ls →
  ∃ w1, run_safe w1 s' ∧ w_fs w1 !! p = Some (NFile data).
Proof using routes_clean watched.
  revert s. induction ls as [|l ls IH]; intros s Hs Hls E Hin; [by apply elem_of_nil in Hin|].
  cbn [steps] in E. apply bind_Some in E as (s1 & E1 & E). apply Forall_cons in Hls as [Hl Hls].
  pose proof (step_safe _ _ _ _ Hs Hl E1) as Hs1. apply elem_of_cons in Hin as [<-|Hin]; [|by eapply IH].
  cbn [step] in E1. injection E1 as <-. eexists. split.
  - eapply (steps_safe (rn_world (set_world _ s))); [|done..]. destruct Hs1. constructor; try done. apply evolve_refl.
  - cbn. apply lookup_insert_eq.
Qed.

Lemma sessions_arrival lss w w' now l p data :
  Forall (λ l, Forall label_ok (snd l)) lss → Inv w → sessions d capacity lss w = Some w' →
  (now, l) ∈ lss → LArrive p data ∈ l →
  ∃ w1, evolve outbox w1 w' ∧ w_fs w1 !! p = Some (NFile data).
Proof using routes_clean watched.
  intros Hls. revert w. induction Hls as [|[t l'] lss Hl Hls IH]; intros w Hw E Hin Hp; [by apply elem_of_nil in Hin|].
  cbn [sessions] in E. apply bind_Some in E as (s & Es & E). cbn [snd] in Hl.
  pose proof (start_safe w t w Hw (evolve_refl _ w)) as Hst.
  apply elem_of_cons in Hin as [[= <- <-]|Hin].
  - destruct (steps_arrival _ _ _ _ _ _ Hst Hl Es Hp) as (w1 & [] & Hf). exists w1. split; [|done].
    by eapply (sessions_safe w1) in E as [_ ?].
  - destruct (steps_safe _ _ _ _ Hst Hl Es). by eapply IH.
Qed.
End Protocol.

(** C1: under two conditions no run of the daemon loses a D-Mail.  The
    conditions: a path of an outbox stands for one and the same content
    whenever a D-Mail is put there, over all sessions; and no two clock readings
    that name queue entries give one name, nor the name of an entry that is
    there at the beginning.  ([Race.same_path_race_loses_dmail] and
    [Findings.queue_name_collision_loses_dmail] lose one where they fail.)
    Then take any number of sessions, one after the other, each from the opening
    of its stores on; in each, any interleaving of the main goroutine (startup,
    crash recovery, event loop, retry cycles, shutdown), the event worker, the
    scan and retry tasks, watcher events, timers and producers that drop
    D-Mails into outboxes; with any failures of system calls and transactions;
    and ended or killed anywhere.  Every D-Mail that was in an outbox at the
    beginning or was put into one at any time is, at the end, still there with
    its content, or into every inbox selected for it a file with the
    idempotency key of its content was renamed, or the error queue has a row
    with its path and content, which is pending, or was resolved by a retry. *)
Theorem run_loses_nothing `{External} `{Sizing} (d : Daemon) (capacity : nat) (content : string → bytes)
    (outbox : string → Prop) (lss : list (Time * list label)) (w0 w : World) :
  routes_ok (d_Routes d) outbox →
  Forall (λ dir, outbox (Clean dir)) (d_OutboxDirs d) →
  Inv (d_Routes d) content outbox w0 →
  Forall (λ l, Forall (label_ok content outbox) (snd l)) lss →
  sessions d capacity lss w0 = Some w →
  Inv (d_Routes d) content outbox w ∧
  ∀ p data, mail_path p → outbox (Dir p) →
    w_fs w0 !! p = Some (NFile data) ∨ (∃ now l, (now, l) ∈ lss ∧ LArrive p data ∈ l) →
    w_fs w !! p = Some (NFile data) ∨ settled (d_Routes d) content w p.
Proof.
  intros Hr Hd Hw Hls E.
  destruct (sessions_safe d capacity content outbox Hr Hd w0 lss w0 w Hls Hw (evolve_refl _ _) E) as [HI Hev].
  split; [done|]. intros p data (Hc & Ht & Hb) Ho [Hf|(now & l & Hl & Hp)]; [by eapply source_conserved|].
  destruct (sessions_arrival d capacity content outbox Hr Hd lss w0 w now l p data Hls Hw E Hl Hp) as (w1 & ? & ?).
  by eapply source_conserved.
Qed.

(** A first session killed in the middle of its startup scan, and a second
    one that scans again, gets one more D-Mail and is cancelled. *)
Definition sample_event : FsEvent := mkFsEvent sample_path true false.
Definition session_startup (tasks : nat) : list label :=
  replicate 13 LMain ++ [LNext 0] ++ replicate tasks (LTask 0).
Definition session_event : list label :=
  [LNext 0; LMain; LMain; LNext 0; LArrive sample_path sample_dmail; LEvent sample_event; LNext 0; LTake] ++
  replicate 8 LWorker.
Definition session_shutdown : list label := [LCancel; LTake; LNext 0] ++ replicate 7 LMain ++ [LNext 0].
Definition sample_sessions : list (Time * list label) :=
  [(0%Z, session_startup 17); (60%Z, session_startup 13 ++ session_event ++ session_shutdown)].

Lemma sample_labels_ok :
  Forall (λ l : Time * list label, Forall (label_ok (λ _, sample_dmail) sample_outbox) (snd l)) sample_sessions.
Proof.
  assert (event_ok sample_outbox sample_event) as Hev by (split; reflexivity).
  unfold sample_sessions, session_startup, session_event, session_shutdown.
  repeat constructor; try apply Hev; apply sample_mail_path.
Qed.

Lemma sample_Inv : Inv (H := sample_external) sample_routes (λ _, sample_dmail) sample_outbox
  (sample_world [(sample_path, sample_dmail)] no_fault_env).
Proof. apply fresh_Inv, sample_fresh. Qed.

Definition sample_start : World := sample_world [(sample_path, sample_dmail)] no_fault_env.
Definition sample_end : World :=
  default sample_start (sessions (H := sample_external) (H0 := daemon_sizing) sample_daemon 4 sample_sessions sample_start).

Lemma run_loses_nothing_witness :
  w_fs sample_end !! sample_path = None ∧
  settled (H := sample_external) sample_routes (λ _, sample_dmail) sample_end sample_path.
Proof.
  assert (w_fs sample_end !! sample_path = None) as Hnone by (vm_compute; reflexivity).
  split; [exact Hnone|].
  destruct (run_loses_nothing (H := sample_external) (H0 := daemon_sizing) sample_daemon 4 (λ _, sample_dmail)
    sample_outbox sample_sessions sample_start sample_end) as (_ & HP).
  - apply sample_routes_ok.
  - by repeat constructor.
  - apply sample_Inv.
  - apply sample_labels_ok.
  - vm_compute. reflexivity.
  - destruct (HP sample_path sample_dmail) as [Hf|Hs].
    + apply sample_mail_path.
    + reflexivity.
    + left. reflexivity.
    + congruence.
    + exact Hs.
Defined.
