(* ===== verification/RunLoop.v ===== *)
(** * Events, timers and termination of a run

    What holds of the control flow of [DaemonRun.step] whatever the
    programs do: every event received is handed to the worker in order, the
    moves of the goroutines terminate, a goroutine can move unless the daemon
    waits in its [select] or has returned, and the idle timer. *)
From Stdlib Require Import QArith.
From S2P Require Import Prelude GoStrings GoPath GoTime Sha256 Bloom Provider Breaker DMail Improvement Prog World DeliveryStore ErrorQueue Deliver DeliverSafety Daemon DaemonSafety DaemonRun RunSafety.

#[local] Open Scope nat_scope.

(** The event the loop is about to send. *)
Definition pending (c : control) : list FsEvent := match c with CSend ev _ _ => [ev] | _ => [] end.

(** The loop's variables, where they are live. *)
Definition loop_of (c : control) : option Loop :=
  match c with
  | CInit _ lp _ | CLoop lp _ | CSend _ lp _ | CGate _ lp _ | CClaim _ lp _ | CGroup lp _ | CAfter _ lp _ => Some lp
  | _ => None
  end.

(** Before the loop, in it, waiting for the worker, after it. *)
Inductive phase := Starting | Running | Draining | Ended.
Definition phase_of (c : control) : phase :=
  match c with
  | CStart _ | CScan _ | CCleanup _ (Some _) | CDone (Some _) => Starting
  | CDrain _ => Draining
  | CCleanup _ None | CDone None => Ended
  | _ => Running
  end.

Definition event_of (l : label) : option FsEvent := match l with LEvent ev => Some ev | _ => None end.

Section Loop.
Context `{External} `{Sizing}.
Variable d : Daemon.
Variable capacity : nat.
(** The backoff's cap can be doubled in an int64. *)
Hypothesis interval_ok : (d_RetryInterval d * 64 < two63)%Z.

#[local] Abbreviation ri := (d_RetryInterval d).

(** ** The invariant *)

Definition backoff_inv (b : RetryBackoff) : Prop := backoff_ok b ∧ rt_max b = (ri * 32)%Z.
Definition loop_ok (lp : Loop) : Prop :=
  if (0 <? ri)%Z then ∃ b t, lp_backoff lp = Some b ∧ backoff_inv b ∧ lp_retryAt lp = Some t
  else lp_backoff lp = None ∧ lp_retryAt lp = None.

Definition retry_ok (c : control) : Prop :=
  match c with
  | CGate _ _ _ | CClaim _ _ _ | CGroup _ _ => (0 < ri)%Z
  | CAfter p _ _ => (0 < ri)%Z ∧ all_ret backoff_inv p
  | _ => True
  end.
Definition has_group (c : control) : bool := match c with CScan _ | CGroup _ _ => true | _ => false end.
Definition worker_ok (s : Run) : Prop :=
  match phase_of (rn_ctl s) with
  | Starting => rn_worker s = WNone ∧ rn_ch s = [] ∧ rn_closed s = false
  | Running => (∃ p, rn_worker s = WBusy p) ∧ rn_closed s = false
  | Draining => rn_worker s ≠ WNone ∧ (rn_worker s = WExited → rn_ch s = []) ∧ rn_closed s = true
  | Ended => rn_worker s = WExited ∧ rn_ch s = [] ∧ rn_closed s = true
  end.

Record run_ok (s : Run) : Prop := mkRunOk {
  ro_events : rn_received s = rn_taken s ++ rn_ch s ++ pending (rn_ctl s);
  ro_bound : length (rn_ch s) ≤ capacity;
  ro_worker : worker_ok s;
  ro_loop : ∀ lp, loop_of (rn_ctl s) = Some lp → loop_ok lp ∧ lp_idleAt lp = idle_deadline d (rn_active s);
  ro_retry : retry_ok (rn_ctl s);
  ro_group : has_group (rn_ctl s) = false → rn_group s = [] }.

Lemma after_cycle_backoff b n : backoff_inv b → all_ret backoff_inv (after_cycle d b n).
Proof.
  intros [Hok Hm]. unfold after_cycle. apply all_ret_bind.
  assert (backoff_inv (Backoff_RecordSuccess b)) as Hs by (split; [by apply RecordSuccess_ok|done]).
  assert (backoff_inv (Backoff_RecordFailure b)) as Hf by (split; [by apply RecordFailure_ok|done]).
  apply (all_ret_mono backoff_inv).
  - intros a Ha. cbn. auto.
  - destruct (0 <? n); cbn; [auto|]. intros cb. apply all_ret_bind.
    eapply all_ret_mono; [|apply all_ret_true]. cbn. auto.
Qed.

Lemma first_loop_ok now r lp :
  first_loop d now r = Some lp → loop_ok lp ∧ lp_idleAt lp = idle_deadline d now.
Proof using interval_ok.
  unfold first_loop, loop_ok. destruct (Z.ltb_spec 0 ri) as [Hr|Hr].
  - intros (t & _ & [= <-])%bind_Some. split; [|done]. eexists _, _. split; [done|]. split; [|done].
    rewrite i64_id by (unfold two63 in *; lia). split; [|done].
    unfold backoff_ok; cbn; lia.
  - intros [= <-]. by split.
Qed.
Lemma rearm_ok now b r lp lp' :
  (0 < ri)%Z → backoff_inv b → rearm now b r lp = Some lp' → loop_ok lp' ∧ lp_idleAt lp' = lp_idleAt lp.
Proof.
  intros Hr Hb. unfold rearm, loop_ok. destruct (Z.ltb_spec 0 ri); [|lia].
  intros (t & _ & [= <-])%bind_Some. split; [|done]. eauto.
Qed.
Lemma loop_backoff lp b : loop_ok lp → lp_backoff lp = Some b → (0 < ri)%Z ∧ backoff_inv b.
Proof.
  unfold loop_ok. destruct (Z.ltb_spec 0 ri).
  - intros (b' & t & -> & Hb & _) [= <-]. done.
  - by intros [-> _].
Qed.
(** ** Every move keeps it *)

Lemma act_of_all_ret {A} i (p p' : program A) P w w' :
  act_of i p w = Some (p', w') → all_ret P p → all_ret P p'.
Proof. destruct p as [a|X m k]; cbn [act_of]; [done|]. intros [= <- <-] Hp. apply Hp. Qed.
Lemma finished_all_ret {A} (p : program A) a P : finished p = Some a → all_ret P p → P a.
Proof. destruct p; cbn [finished]; [|done]. by intros [= ->]. Qed.

(** The main goroutine stays in the same phase and sends nothing. *)
Lemma set_ctl_ok s c w :
  run_ok s → phase_of c = phase_of (rn_ctl s) → pending c = pending (rn_ctl s) →
  loop_of c = loop_of (rn_ctl s) → retry_ok c → has_group c = has_group (rn_ctl s) →
  run_ok (set_world w (set_ctl c s)).
Proof.
  intros [He Hb Hw Hl Hr Hg] Ep En El Hr' Eg.
  constructor; cbn [rn_ctl rn_world rn_received rn_taken rn_ch rn_worker rn_group rn_active set_world set_ctl]; rewrite ?En, ?El, ?Eg; auto.
  unfold worker_ok in *. cbn [rn_ctl rn_worker rn_ch rn_closed set_world set_ctl]. by rewrite Ep.
Qed.

Lemma main_act_ok s s' : run_ok s → main_act s = Some s' → run_ok s'.
Proof.
  intros Hs E. pose proof (ro_retry s Hs) as Hr. unfold main_act in E.
  destruct (rn_ctl s) eqn:Ec; try discriminate E; apply bind_Some in E as ([p' w'] & Ea & E'); injection E' as <-;
    apply set_ctl_ok; rewrite ?Ec; try done.
  destruct Hr as [? Hr]. split; [done|]. by eapply act_of_all_ret.
Qed.

Lemma next_ok r s s' : run_ok s → next d capacity r s = Some s' → run_ok s'.
Proof using interval_ok.
  intros Hs E. destruct (Hs) as [He Hb Hw Hl Hr Hg]. unfold worker_ok in Hw.
  unfold next in E. destruct (rn_ctl s) eqn:Ec; cbn [pending loop_of retry_ok has_group phase_of] in *; step_inv E; subst s'.
  - by constructor.
  - by constructor.
  - destruct Hw as (_ & Ech & Hcl). destruct (first_loop_ok _ _ _ E1) as [Hlp Hid].
    constructor; try done; cbn; [split; [eauto|done]|]. by intros ? [= <-].
  - by constructor.
  - constructor; try done; cbn [set_ch set_ctl rn_received rn_taken rn_ch rn_ctl pending].
    + by rewrite app_nil_r.
    + rewrite length_app. cbn. apply Nat.ltb_lt in Heqb. lia.
  - by constructor.
  - destruct (Hl lp eq_refl) as [Hlp Hid]. destruct (loop_backoff _ _ Hlp E1) as [Hri Hx].
    destruct (rearm_ok _ _ _ _ _ Hri Hx E2) as [Hlp' Hid']. constructor; try done. cbn. intros ? [= <-]. by rewrite Hid'.
  - by constructor.
  - destruct (Hl lp eq_refl) as [Hlp Hid]. destruct (loop_backoff _ _ Hlp E1) as [Hri Hx]. constructor; try done.
    cbn. split; [done|]. by apply after_cycle_backoff.
  - destruct (Hl lp eq_refl) as [Hlp Hid]. destruct Hr as [Hri Hx]. pose proof (finished_all_ret _ _ _ E0 Hx).
    destruct (rearm_ok _ _ _ _ _ Hri ltac:(done) E1) as [Hlp' Hid']. constructor; try done. cbn. intros ? [= <-]. by rewrite Hid'.
  - destruct Hw as (_ & Hch & Hcl). constructor; try done. cbn. auto.
  - destruct err; by constructor.
Qed.

Lemma idle_of_reset now lp : loop_ok lp → loop_ok (reset_idle d now lp) ∧ lp_idleAt (reset_idle d now lp) = idle_deadline d now.
Proof. by split. Qed.

Lemma step_ok l s s' : run_ok s → step d capacity l s = Some s' → run_ok s'.
Proof using interval_ok.
  intros Hs E. destruct l as [| |i|r| |ev| | |script| |t|p data]; cbn [step] in E.
  - by eapply main_act_ok.
  - destruct (rn_worker s) eqn:Ew; try discriminate E. step_inv E. subst s'. destruct Hs as [He Hb Hw Hl Hr Hg].
    constructor; try done. unfold worker_ok in *. cbn. rewrite Ew in Hw.
    destruct (phase_of (rn_ctl s)); [by destruct Hw|destruct Hw; eauto|by destruct Hw as (_ & _ & ?)|by destruct Hw].
  - step_inv E. subst s'. destruct Hs as [He Hb Hw Hl Hr Hg]. constructor; try done. cbn.
    intros Hn. rewrite Hg in E0; done.
  - by eapply next_ok.
  - unfold worker_take in E. destruct Hs as [He Hb Hw Hl Hr Hg]. step_inv E; subst s'.
    + constructor; cbn; rewrite ?Heql; auto. unfold worker_ok in *; cbn. rewrite Heqw in Hw.
      destruct (phase_of (rn_ctl s)); [by destruct Hw|destruct Hw; congruence|by split_and!|by destruct Hw].
    + constructor; cbn; auto; [by rewrite He, <- app_assoc|cbn in Hb; lia|].
      unfold worker_ok in *; cbn. rewrite Heqw, Heql in Hw.
      destruct (phase_of (rn_ctl s)); [by destruct Hw|destruct Hw; eauto|by destruct Hw as (_ & _ & ?)|by destruct Hw].
  - step_inv E. subst s'. destruct Hs as [He Hb Hw Hl Hr Hg]. unfold worker_ok in *. rewrite Heqc in *.
    constructor; cbn; auto; [by rewrite He, app_nil_r, app_assoc|]. intros ? [= <-]. apply idle_of_reset. by apply Hl.
  - step_inv E. by subst s'.
  - step_inv E. subst s'. destruct Hs as [He Hb Hw Hl Hr Hg]. unfold worker_ok in *. rewrite Heqc in *.
    cbn in Hw. destruct Hw as [[q Hq] _]. constructor; try done. cbn. by rewrite Hq.
  - step_inv E. subst s'. destruct Hs as [He Hb Hw Hl Hr Hg]. unfold worker_ok in *. rewrite Heqc in *.
    destruct (Hl _ eq_refl) as [Hlp _]. constructor; cbn; auto.
    + intros ? [= <-]. by apply idle_of_reset.
    + unfold loop_ok in Hlp. destruct (Z.ltb_spec 0 ri); [done|]. destruct Hlp as [_ Hlp]. by rewrite Hlp in Heqb.
  - step_inv E. subst s'. destruct Hs as [He Hb Hw Hl Hr Hg]. unfold worker_ok in *. rewrite Heqc in *.
    cbn in Hw. destruct Hw as [[q Hq] _]. constructor; try done. cbn. by rewrite Hq.
  - step_inv E. subst s'. by destruct Hs.
  - injection E as <-. by destruct Hs.
Qed.

Lemma steps_ok ls s s' : run_ok s → steps d capacity ls s = Some s' → run_ok s'.
Proof using interval_ok.
  revert s. induction ls as [|l ls IH]; intros s Hs E; cbn [steps] in E; [by simplify_eq|].
  apply bind_Some in E as (s1 & E1 & E). eapply IH; [|done]. by eapply step_ok.
Qed.
Lemma start_ok now w : run_ok (run_start d now w).
Proof. constructor; try done. cbn. lia. Qed.
(** ** Progress *)

Definition internal (l : label) : Prop :=
  match l with LMain | LWorker | LTask _ | LNext _ | LTake => True | _ => False end.
Definition can_move (s : Run) : Prop := ∃ l s', internal l ∧ step d capacity l s = Some s'.
(** Waiting in the [select], with nothing left for the worker. *)
Definition waiting (s : Run) : Prop :=
  (∃ lp ds, rn_ctl s = CLoop lp ds) ∧ rn_ch s = [] ∧ ∃ u, rn_worker s = WBusy (Ret u).

Lemma rearm_total now b lp : backoff_inv b → ∃ lp', rearm now b 0 lp = Some lp'.
Proof.
  intros [Hb _]. unfold rearm, arm_retry. pose proof (jitter_bound_pos b Hb).
  destruct (Next_bounds b 0 Hb) as (t & -> & _); [lia|]. cbn. eauto.
Qed.
Lemma first_loop_total now : ∃ lp, first_loop d now 0 = Some lp.
Proof using interval_ok.
  unfold first_loop. destruct (Z.ltb_spec 0 ri) as [Hr|]; [|eauto].
  rewrite i64_id by (unfold two63 in *; lia).
  assert (backoff_inv (NewRetryBackoff ri (ri * 32))) as Hb by (split; [unfold backoff_ok; cbn; lia|done]).
  destruct (rearm_total now _ (mkLoop None None None) Hb) as [lp' E].
  unfold rearm in E. apply bind_Some in E as (t & -> & _). cbn. eauto.
Qed.
Lemma group_moves s : (∃ n, group_results (rn_group s) = Some n) ∨ can_move s.
Proof.
  assert ((∃ n, group_results (rn_group s) = Some n) ∨
          ∃ i X (m : nat → World → X * World) k, rn_group s !! i = Some (Act m k)) as [?|(i & X & m & k & Hi)].
  - induction (rn_group s) as [|[b|X m k] g IH]; [left; by exists 0| |right; by exists 0, X, m, k].
    destruct IH as [[n Hn]|(i & Hi)]; [left|right; by exists (S i)]. cbn. rewrite Hn. eauto.
  - by left.
  - right. eexists (LTask i), _. split; [done|]. cbn [step]. rewrite Hi. reflexivity.
Qed.
Lemma worker_moves s :
  run_ok s → phase_of (rn_ctl s) = Running ∨ phase_of (rn_ctl s) = Draining →
  can_move s ∨ (rn_ch s = [] ∧ ∃ u, rn_worker s = WBusy (Ret u) ∧ rn_closed s = false) ∨ rn_worker s = WExited.
Proof.
  intros Hs Hph. pose proof (ro_worker s Hs) as Hw. unfold worker_ok in Hw.
  destruct (rn_worker s) as [|[u|X m k]|] eqn:Ew; [|destruct (rn_ch s) as [|ev r] eqn:Ech|..].
  - destruct Hph as [-> | ->] in Hw; [destruct Hw as [[? ?] _]; congruence|by destruct Hw].
  - destruct (rn_closed s) eqn:Ecl; [left|right; left; eauto].
    eexists LTake, _. split; [done|]. cbn [step]. unfold worker_take. rewrite Ew, Ech, Ecl. reflexivity.
  - left. eexists LTake, _. split; [done|]. cbn [step]. unfold worker_take. rewrite Ew, Ech. reflexivity.
  - left. eexists LWorker, _. split; [done|]. cbn [step]. rewrite Ew. reflexivity.
  - by right; right.
Qed.

(** Main's own move, when it has one. *)
Lemma main_moves s s' : main_act s = Some s' ∨ (∃ r, next d capacity r s = Some s') → can_move s.
Proof. intros [E|[r E]]; [by exists LMain, s'|by exists (LNext r), s']. Qed.

Ltac go_on := eapply main_moves; right; exists 0%Z; unfold next.

Lemma progress s :
  run_ok s → 0 < capacity → can_move s ∨ waiting s ∨ ∃ err, rn_ctl s = CDone err.
Proof using interval_ok.
  intros Hs Hcap. destruct (rn_ctl s) as [p|ds|p lp ds|lp ds|ev lp ds|p lp ds|p lp ds|lp ds|p lp ds|ds|p err|err] eqn:Ec.
  all: pose proof (ro_retry s Hs) as Hr; pose proof (ro_loop s Hs) as Hl; rewrite Ec in Hr, Hl; cbn in Hr, Hl.
  all: try (destruct p as [a|X m k]; [|left; eapply main_moves; left; unfold main_act; rewrite Ec; reflexivity]).
  - destruct a as [[err|] ds]; left; go_on; rewrite Ec; reflexivity.
  - left. destruct (group_moves s) as [[n Hn]|?]; [|done]. destruct (first_loop_total (rn_now s)) as [lp Hlp].
    go_on. rewrite Ec, Hn. cbn. rewrite Hlp. reflexivity.
  - left; go_on; rewrite Ec; reflexivity.
  - destruct (worker_moves s Hs) as [?|[(Hch & u & Hu & _)|Hx]]; [left; by rewrite Ec|by left| |].
    + right. left. split_and!; eauto.
    + pose proof (ro_worker s Hs) as Hw. unfold worker_ok in Hw. rewrite Ec, Hx in Hw. destruct Hw as [[? ?] _]. done.
  - left. destruct (length (rn_ch s) <? capacity) eqn:Elt.
    + go_on; rewrite Ec, Elt; reflexivity.
    + destruct (worker_moves s Hs) as [?|[(Hch & _)|Hx]]; [left; by rewrite Ec|done| |].
      * rewrite Hch in Elt. apply Nat.ltb_ge in Elt. cbn in Elt. lia.
      * pose proof (ro_worker s Hs) as Hw. unfold worker_ok in Hw. rewrite Ec, Hx in Hw. by destruct Hw as [[? ?] _].
  - left. destruct (Hl lp eq_refl) as [Hlp _]. unfold loop_ok in Hlp. destruct (Z.ltb_spec 0 ri); [|lia].
    destruct Hlp as (b & t & Hb & Hbi & _). destruct (rearm_total (rn_now s) b lp Hbi) as [lp' E].
    destruct a; go_on; rewrite Ec; cbn; rewrite Hb; cbn; [reflexivity|]. rewrite E. reflexivity.
  - left; go_on; rewrite Ec; reflexivity.
  - left. destruct (group_moves s) as [[n Hn]|?]; [|done]. destruct (Hl lp eq_refl) as [Hlp _].
    unfold loop_ok in Hlp. destruct (Z.ltb_spec 0 ri); [|lia]. destruct Hlp as (b & t & Hb & _).
    go_on; rewrite Ec, Hn; cbn. rewrite Hb. reflexivity.
  - left. destruct Hr as [_ Hr]. destruct (rearm_total (rn_now s) a lp Hr) as [lp' E].
    go_on; rewrite Ec; cbn. rewrite E. reflexivity.
  - left. destruct (worker_moves s Hs) as [?|[(_ & u & _ & Hx)|Hx]]; [right; by rewrite Ec|done| |].
    + pose proof (ro_worker s Hs) as Hw. unfold worker_ok in Hw. rewrite Ec, Hx in Hw. by destruct Hw as (_ & _ & ?).
    + go_on; rewrite Ec, Hx; reflexivity.
  - left; go_on; rewrite Ec; reflexivity.
  - right. right. eauto.
Qed.
(** ** Termination *)

(** A move of a goroutine after the rest of the world, the clock and the
    producers did anything. *)
Definition moves (s' s : Run) : Prop :=
  ∃ l w t, internal l ∧ step d capacity l (set_now t (set_world w s)) = Some s'.

Definition child {A} (p' p : program A) : Prop := ∃ i w w', act_of i p w = Some (p', w').
Lemma child_wf {A} (p : program A) : Acc child p.
Proof.
  induction p as [a|X m k IH]; constructor; intros p' (i & w & w' & E); cbn in E; [done|]. by simplify_eq.
Qed.

(** *** The main goroutine *)

Definition main_succ (c' c : control) : Prop :=
  ∃ s s' r, rn_ctl s = c ∧ rn_ctl s' = c' ∧ (main_act s = Some s' ∨ next d capacity r s = Some s').

(** A control point that runs a program and then goes on. *)
Lemma program_wf {A} (mk : program A → control) (p : program A) :
  (∀ q c, main_succ c (mk q) → (∃ q', child q' q ∧ c = mk q') ∨ Acc main_succ c) → Acc main_succ (mk p).
Proof.
  intros Hmk. induction (child_wf p) as [p _ IH]. constructor. intros c Hc.
  destruct (Hmk p c Hc) as [(q' & Hq & ->)|?]; [by apply IH|done].
Qed.

(** Splits a successor of a control point into its cases. *)
Ltac succ_cases :=
  intros (s1 & s2 & r & Hc1 & <- & [E|E]);
  [unfold main_act in E|unfold next in E]; rewrite Hc1 in E; step_inv E; subst s2; cbn.
Ltac by_child := left; eexists; split; [by eexists _, _, _|done].

Lemma done_wf err : Acc main_succ (CDone err).
Proof. constructor. intros c. succ_cases. Qed.
Lemma loop_wf lp ds : Acc main_succ (CLoop lp ds).
Proof. constructor. intros c. succ_cases. Qed.
Lemma cleanup_wf p err : Acc main_succ (CCleanup p err).
Proof. apply (program_wf (λ p, CCleanup p err)). intros q c. succ_cases; [by_child|right; apply done_wf]. Qed.
Lemma drain_wf ds : Acc main_succ (CDrain ds).
Proof. constructor. intros c. succ_cases. apply cleanup_wf. Qed.
Lemma send_wf ev lp ds : Acc main_succ (CSend ev lp ds).
Proof. constructor. intros c. succ_cases. apply loop_wf. Qed.
Lemma after_wf p lp ds : Acc main_succ (CAfter p lp ds).
Proof. apply (program_wf (λ p, CAfter p lp ds)). intros q c. succ_cases; [by_child|right; apply loop_wf]. Qed.
Lemma retries_wf lp ds : Acc main_succ (CGroup lp ds).
Proof. constructor. intros c. succ_cases. apply after_wf. Qed.
Lemma claim_wf p lp ds : Acc main_succ (CClaim p lp ds).
Proof. apply (program_wf (λ p, CClaim p lp ds)). intros q c. succ_cases; [by_child|right; apply retries_wf]. Qed.
Lemma gate_wf p lp ds : Acc main_succ (CGate p lp ds).
Proof. apply (program_wf (λ p, CGate p lp ds)). intros q c. succ_cases; [by_child|right; apply claim_wf|right; apply loop_wf]. Qed.
Lemma init_wf p lp ds : Acc main_succ (CInit p lp ds).
Proof. apply (program_wf (λ p, CInit p lp ds)). intros q c. succ_cases; [by_child|right; apply loop_wf]. Qed.
Lemma scan_wf ds : Acc main_succ (CScan ds).
Proof. constructor. intros c. succ_cases. apply init_wf. Qed.
Lemma start_wf p : Acc main_succ (CStart p).
Proof. apply (program_wf CStart). intros q c. succ_cases; [by_child|right; apply cleanup_wf|right; apply scan_wf]. Qed.

Lemma main_wf c : Acc main_succ c.
Proof.
  destruct c; auto using done_wf, loop_wf, cleanup_wf, drain_wf, send_wf, after_wf, retries_wf, claim_wf, gate_wf,
    init_wf, scan_wf, start_wf.
Qed.

(** *** The worker and the tasks *)

Definition worker_succ (x' x : list FsEvent * worker) : Prop :=
  (∃ p p', snd x = WBusy p ∧ child p' p ∧ x' = (fst x, WBusy p')) ∨
  (∃ ev, fst x = ev :: fst x') ∨
  (fst x' = fst x ∧ snd x' = WExited ∧ snd x ≠ WExited).
Lemma worker_wf ch x : Acc worker_succ (ch, x).
Proof.
  revert x. induction ch as [|ev ch IH].
  all: assert (∀ ch' : list FsEvent, (∀ x, (∃ ev, ch' = ev :: fst x) → Acc worker_succ x) → ∀ x, Acc worker_succ (ch', x))
    as Hfix.
  1,3: intros ch' Htail; assert (Acc worker_succ (ch', WExited)) as He
    by (constructor; intros y [(p & p' & E & _)|[Hy|(_ & _ & ?)]]; [done|by apply Htail|done]);
    intros x; destruct x as [|p|]; [| |done].
  1,3: constructor; intros [l y] [(p & p' & E & _)|[Hy|(E1 & E2 & _)]]; cbn in *; [done|by apply Htail|by subst].
  1,2: induction (child_wf p) as [p _ IHp]; constructor; intros [l y] [(q & q' & [= <-] & Hq & [= -> ->])|[Hy|(E1 & E2 & _)]];
    cbn in *; [by apply IHp|by apply Htail|by subst].
  - apply Hfix. by intros x [ev ?].
  - apply Hfix. intros [l x] [ev' [= _ ->]]. apply IH.
Qed.

Definition group_succ (g' g : list (program bool)) : Prop :=
  ∃ i p p', g !! i = Some p ∧ child p' p ∧ g' = <[i := p']> g.
Lemma group_wf g : Acc group_succ g.
Proof.
  induction g as [|p g IH]; [constructor; by intros g' (i & p & p' & Hp & _)|].
  revert p. induction IH as [g _ IHg]. intros p. induction (child_wf p) as [p Hp IHp].
  constructor. intros g' ([|i] & q & q' & Hq & Hc & ->); cbn in *.
  - simplify_eq. by apply IHp.
  - apply IHg. by exists i, q, q'.
Qed.

(** A move is main's, the worker's or a task's. *)
Lemma moves_cases s' s :
  moves s' s →
  main_succ (rn_ctl s') (rn_ctl s) ∨
  (rn_ctl s' = rn_ctl s ∧ rn_group s' = rn_group s ∧ worker_succ (rn_ch s', rn_worker s') (rn_ch s, rn_worker s)) ∨
  (rn_ctl s' = rn_ctl s ∧ group_succ (rn_group s') (rn_group s) ∧ (rn_ch s', rn_worker s') = (rn_ch s, rn_worker s)).
Proof.
  intros (l & w & t & Hl & E). destruct l; try done; cbn [step] in E.
  - left. by exists (set_now t (set_world w s)), s', 0%Z; auto.
  - right. left. cbn in E. step_inv E. subst s'. split_and!; [done..|]. left.
    eexists _, _. split_and!; [done| |done]. by eexists _, _, _.
  - right. right. cbn in E. step_inv E. subst s'. split_and!; [done| |done].
    eexists _, _, _. split_and!; [done| |done]. by eexists _, _, _.
  - left. exists (set_now t (set_world w s)), s', r. auto.
  - right. left. unfold worker_take in E. cbn in E. step_inv E; subst s'; split_and!; [done..| |done|done|].
    + right. right. cbn. split_and!; congruence.
    + right. left. by eexists.
Qed.

Lemma moves_wf s : Acc moves s.
Proof.
  remember (rn_ctl s) as c eqn:Ec. revert s Ec. induction (main_wf c) as [c _ IHc].
  intros s Ec. remember (rn_ch s, rn_worker s) as x eqn:Ex. revert s Ec Ex.
  destruct x as [ch x]. induction (worker_wf ch x) as [y _ IHx]. intros s Ec Ex.
  remember (rn_group s) as g eqn:Eg. revert s Ec Ex Eg. induction (group_wf g) as [g _ IHg].
  intros s Ec Ex Eg. constructor. intros s' Hm. apply moves_cases in Hm as [Hm|[(E1 & E2 & Hm)|(E1 & Hm & E2)]].
  - eapply IHc; [|done]. by rewrite Ec.
  - eapply IHx; [|congruence|done]. by rewrite Ex.
  - eapply IHg; [|congruence|congruence|done]. by rewrite Eg.
Qed.
(** ** The history of events *)

Lemma step_received l s s' :
  step d capacity l s = Some s' → rn_received s' = rn_received s ++ option_list (event_of l).
Proof.
  intros E. destruct l as [| |i|r| |ev| | |script| |t|p data]; cbn [step event_of option_list] in E |- *; rewrite ?app_nil_r.
  - unfold main_act in E. destruct (rn_ctl s); step_inv E; by subst.
  - step_inv E; by subst.
  - step_inv E; by subst.
  - unfold next in E. destruct (rn_ctl s); step_inv E; by subst.
  - unfold worker_take in E. step_inv E; by subst.
  - step_inv E; by subst.
  - step_inv E; by subst.
  - step_inv E; by subst.
  - step_inv E; by subst.
  - step_inv E; by subst.
  - step_inv E; by subst.
  - by injection E as <-.
Qed.
Lemma steps_received ls s s' :
  steps d capacity ls s = Some s' → rn_received s' = rn_received s ++ omap event_of ls.
Proof.
  revert s. induction ls as [|l ls IH]; intros s E; cbn [steps] in E; [simplify_eq; by rewrite app_nil_r|].
  apply bind_Some in E as (s1 & E1 & E). rewrite (IH _ E), (step_received _ _ _ E1), <- app_assoc.
  by destruct l.
Qed.
Lemma closed_done s err :
  run_ok s → rn_closed s = true → waiting s ∨ rn_ctl s = CDone err →
  rn_ctl s = CDone None ∧ rn_taken s = rn_received s.
Proof.
  intros [He Hb Hw _ _ _] Hc Hr. unfold worker_ok in Hw.
  destruct Hr as [[(lp & ds & Ec) _]|Ec]; rewrite Ec in He, Hw; cbn in He, Hw; [by destruct Hw as [_ ?]; congruence|].
  destruct err; [by destruct Hw as (_ & _ & ?); congruence|]. destruct Hw as (_ & Hch & _).
  by rewrite He, Hch, app_nil_r.
Qed.
End Loop.

(** C2: the event worker handles every event, once and in order.  After any
    moves of a run, the events the loop has received from the watcher are
    those the worker has taken, followed by those in the channel (never more
    than its capacity), followed by the one the loop is sending; and when
    [Run] has returned nil, the worker has taken all of them and has ended. *)
Theorem run_handles_all_events `{External} `{Sizing} (d : Daemon) (capacity : nat) (now : Time) (w : World)
    (ls : list label) (s : Run) :
  (d_RetryInterval d * 64 < two63)%Z →
  steps d capacity ls (run_start d now w) = Some s →
  omap event_of ls = rn_taken s ++ rn_ch s ++ pending (rn_ctl s) ∧
  length (rn_ch s) ≤ capacity ∧
  (rn_ctl s = CDone None → rn_taken s = omap event_of ls ∧ rn_worker s = WExited).
Proof.
  intros Hi E. pose proof (steps_received _ _ _ _ _ E) as Hrec. cbn in Hrec.
  pose proof (steps_ok d capacity Hi ls _ s (start_ok d capacity now w) E) as Hok.
  split_and!; [rewrite <- Hrec; apply Hok|apply Hok|]. intros Ec.
  pose proof (ro_worker _ _ _ Hok) as Hw. unfold worker_ok in Hw. rewrite Ec in Hw. destruct Hw as (Hx & Hch & _).
  split; [|done]. rewrite <- Hrec, (ro_events _ _ _ Hok), Hch, Ec. cbn. by rewrite app_nil_r.
Qed.

Definition second_session : list label := session_startup 26 ++ session_event ++ session_shutdown.
Definition second_run : Run :=
  default (run_start (H0 := daemon_sizing) sample_daemon 60 sample_start)
    (steps (H := sample_external) sample_daemon 4 second_session
       (run_start (H0 := daemon_sizing) sample_daemon 60 sample_start)).

Lemma run_handles_all_events_witness :
  rn_ctl second_run = CDone None ∧ rn_taken second_run = [sample_event].
Proof.
  assert (rn_ctl second_run = CDone None) as Hd by (vm_compute; reflexivity). split; [exact Hd|].
  destruct (run_handles_all_events (H := sample_external) (H0 := daemon_sizing) sample_daemon 4 60 sample_start
    second_session second_run) as (_ & _ & HT).
  - reflexivity.
  - vm_compute. reflexivity.
  - exact (proj1 (HT Hd)).
Defined.

(** C3: a run always comes to rest.  From any state a run can reach, the moves
    of its goroutines terminate, whatever the world, the clock and the
    producers do between them; a goroutine can move unless the daemon waits in
    its [select] with no event left or has returned; and once the loop has
    been left (cancelled, watcher closed, idle), the state of rest is the
    return of [Run] with nil, with every event received handled. *)
Theorem run_comes_to_rest `{External} `{Sizing} (d : Daemon) (capacity : nat) (now : Time) (w : World)
    (ls : list label) (s : Run) :
  (d_RetryInterval d * 64 < two63)%Z → 0 < capacity →
  steps d capacity ls (run_start d now w) = Some s →
  Acc (moves d capacity) s ∧
  (¬ can_move d capacity s → waiting s ∨ ∃ err, rn_ctl s = CDone err) ∧
  (¬ can_move d capacity s → rn_closed s = true → rn_ctl s = CDone None ∧ rn_taken s = omap event_of ls).
Proof.
  intros Hi Hcap E. pose proof (steps_received _ _ _ _ _ E) as Hrec. cbn in Hrec.
  pose proof (steps_ok d capacity Hi ls _ s (start_ok d capacity now w) E) as Hok.
  assert (¬ can_move d capacity s → waiting s ∨ ∃ err, rn_ctl s = CDone err) as Hrest.
  { intros Hno. destruct (progress d capacity Hi s Hok Hcap) as [?|?]; done. }
  split_and!; [apply moves_wf|done|]. intros Hno Hcl. rewrite <- Hrec.
  destruct (Hrest Hno) as [?|[err ?]]; [apply (closed_done d capacity s None)|apply (closed_done d capacity s err)]; auto.
Qed.

Definition draining_run : Run :=
  default second_run
    (steps (H := sample_external) sample_daemon 4 (session_startup 26 ++ session_event ++ [LCancel])
       (run_start (H0 := daemon_sizing) sample_daemon 60 sample_start)).

Lemma run_comes_to_rest_witness :
  rn_closed draining_run = true ∧
  Acc (moves (H := sample_external) sample_daemon 4) draining_run.
Proof.
  split; [vm_compute; reflexivity|].
  apply (run_comes_to_rest (H := sample_external) (H0 := daemon_sizing) sample_daemon 4 60 sample_start
    (session_startup 26 ++ session_event ++ [LCancel]) draining_run).
  - reflexivity.
  - lia.
  - vm_compute. reflexivity.
Defined.
