(* ===== verification/RunIdle.v ===== *)
(** * The idle timer of a run

    The loop is left for idleness only after a whole idle period without an
    event or a retry cycle; but retry cycles count as activity even when
    there is nothing to retry, so with a retry interval that is short against
    the idle timeout the daemon never exits for idleness. *)
From Stdlib Require Import QArith.
From S2P Require Import Prelude GoStrings GoPath GoTime Sha256 Bloom Provider Breaker DMail Improvement Prog World DeliveryStore ErrorQueue Deliver DeliverSafety Daemon DaemonSafety DaemonRun RunSafety RunLoop.

#[local] Open Scope nat_scope.

(** What resets the idle timer. *)
Definition activity (l : label) : bool := match l with LEvent _ | LRetry _ => true | _ => false end.

Section Idle.
Context `{External} `{Sizing}.
Variable d : Daemon.
Variable capacity : nat.
Hypothesis interval_ok : (d_RetryInterval d * 64 < two63)%Z.

#[local] Abbreviation ri := (d_RetryInterval d).
#[local] Abbreviation eff := (EffectiveIdleTimeout (d_IdleTimeout d)).

(** ** The last activity *)

Lemma step_clock l s s' :
  (rn_active s ≤ rn_now s)%Z → step d capacity l s = Some s' →
  (rn_active s ≤ rn_active s' ∧ rn_active s' ≤ rn_now s' ∧ rn_now s ≤ rn_now s')%Z ∧
  (activity l = true → rn_active s' = rn_now s).
Proof.
  intros Ha E. destruct l as [| |i|r| |ev| | |script| |t|p data]; cbn [step activity] in E |- *.
  - unfold main_act in E. destruct (rn_ctl s); step_inv E; subst; cbn; split; lia || done.
  - step_inv E; subst; cbn; split; lia || done.
  - step_inv E; subst; cbn; split; lia || done.
  - unfold next in E. destruct (rn_ctl s); step_inv E; subst; cbn; split; lia || done.
  - unfold worker_take in E. step_inv E; subst; cbn; split; lia || done.
  - step_inv E; subst; cbn; split; lia || done.
  - step_inv E; subst; cbn; split; lia || done.
  - step_inv E; subst; cbn; split; lia || done.
  - step_inv E; subst; cbn; split; lia || done.
  - step_inv E; subst; cbn; split; lia || done.
  - step_inv E; subst; cbn. apply Z.leb_le in Heqb. split; lia || done.
  - injection E as <-. cbn. split; lia || done.
Qed.
Lemma steps_clock ls s s' :
  (rn_active s ≤ rn_now s)%Z → steps d capacity ls s = Some s' →
  (rn_active s ≤ rn_active s' ∧ rn_active s' ≤ rn_now s')%Z.
Proof.
  revert s. induction ls as [|l ls IH]; intros s Ha E; cbn [steps] in E; [simplify_eq; lia|].
  apply bind_Some in E as (s1 & E1 & E). destruct (step_clock _ _ _ Ha E1) as [? _].
  destruct (IH s1) as [? ?]; [lia|done|]. lia.
Qed.
Lemma start_clock now w : (rn_active (run_start d now w) ≤ rn_now (run_start d now w))%Z.
Proof. cbn. lia. Qed.

(** ** Retry cycles that keep the loop awake *)

(** The backoff the retry timer is about to be armed with. *)
Definition arming (c : control) : option RetryBackoff :=
  match c with
  | CScan _ => Some (NewRetryBackoff ri (i64 (ri * 32)))
  | CGate _ lp _ => lp_backoff lp
  | CAfter p _ _ => finished p
  | _ => None
  end.

(** Timers are served when they are due: in its [select] the loop does not
    sleep past the retry timer, and what it does in a case leaves room for
    the longest delay.  A random draw is below its bound. *)
Definition prompt (s : Run) (l : label) : bool :=
  match l with
  | LTick t =>
      match rn_ctl s with
      | CStart _ | CScan _ => true
      | CLoop lp _ => match lp_retryAt lp with Some a => (t <=? Z.max (rn_now s) a)%Z | None => true end
      | _ => (t + 40 * ri <? rn_active s + eff)%Z
      end
  | LNext r =>
      match arming (rn_ctl s) with Some b => (0 <=? r)%Z && (r <? jitter_bound b)%Z | None => true end
  | _ => true
  end.

(** All moves are possible and prompt. *)
Fixpoint promptly (ls : list label) (s : Run) : bool :=
  match ls with
  | [] => true
  | l :: r => prompt s l && match step d capacity l s with Some s' => promptly r s' | None => false end
  end.

(** The idle deadline is out of reach. *)
Definition awake (s : Run) : Prop :=
  match rn_ctl s with
  | CStart _ | CScan _ | CDrain _ | CCleanup _ _ | CDone _ => True
  | CLoop lp _ =>
      (rn_now s < rn_active s + eff)%Z ∧ ∃ a, lp_retryAt lp = Some a ∧ (a < rn_active s + eff)%Z
  | CInit _ lp _ | CSend _ lp _ =>
      (rn_now s + 40 * ri < rn_active s + eff)%Z ∧ ∃ a, lp_retryAt lp = Some a ∧ (a < rn_active s + eff)%Z
  | _ => (rn_now s + 40 * ri < rn_active s + eff)%Z
  end.

Lemma arm_bound now b r t :
  backoff_inv d b → (0 <=? r)%Z && (r <? jitter_bound b)%Z = true → arm_retry now b r = Some t →
  (t ≤ now + 40 * ri)%Z.
Proof.
  intros [Hb Hm] [H1%Z.leb_le H2%Z.ltb_lt]%andb_true_iff. unfold arm_retry.
  destruct (Next_bounds b r Hb) as (dt & -> & ?); [lia|]. cbn. intros [= <-].
  destruct Hb as (_ & ? & _). lia.
Qed.
Lemma rearm_awake now b r lp lp' :
  backoff_inv d b → (0 <=? r)%Z && (r <? jitter_bound b)%Z = true → rearm now b r lp = Some lp' →
  ∃ a, lp_retryAt lp' = Some a ∧ (a ≤ now + 40 * ri)%Z.
Proof.
  intros Hb Hr. unfold rearm. intros (a & Ha & [= <-])%bind_Some. exists a. split; [done|]. by eapply arm_bound.
Qed.
Section Awake.
Hypothesis retries : (0 < ri)%Z.
Hypothesis long_idle : (40 * ri < eff)%Z.

Lemma next_awake r s s' :
  run_ok d capacity s → awake s → prompt s (LNext r) = true → next d capacity r s = Some s' → awake s'.
Proof using interval_ok retries long_idle.
  intros Hs Ha Hp E. pose proof (ro_loop _ _ _ Hs) as Hl. pose proof (ro_retry _ _ _ Hs) as Hr.
  unfold next in E. unfold awake in Ha. unfold prompt in Hp.
  destruct (rn_ctl s) eqn:Ec; cbn [loop_of retry_ok arming] in *; step_inv E; subst s'; cbn; try done.
  - unfold first_loop in E1. destruct (Z.ltb_spec 0 ri); [|lia].
    apply bind_Some in E1 as (a & Ea & [= <-]). cbn. split; [lia|]. exists a. split; [done|].
    eapply arm_bound in Ea; [lia| |exact Hp]. rewrite i64_id by (unfold two63 in *; lia).
    split; [unfold backoff_ok; cbn; lia|done].
  - destruct Ha as [? ?]. split; [lia|done].
  - destruct Ha as [? ?]. split; [lia|done].
  - destruct (Hl lp eq_refl) as [Hlp _]. destruct (loop_backoff _ _ _ Hlp E1) as [_ Hx]. rewrite E1 in Hp.
    destruct (rearm_awake _ _ _ _ _ Hx Hp E2) as (a & ? & ?). split; [lia|]. exists a. split; [done|lia].
  - destruct Hr as [_ Hx]. pose proof (finished_all_ret _ _ _ E0 Hx) as Hb. rewrite E0 in Hp.
    destruct (rearm_awake _ _ _ _ _ Hb Hp E1) as (a & ? & ?). split; [lia|]. exists a. split; [done|lia].
Qed.

Lemma step_awake l s s' :
  run_ok d capacity s → (rn_active s ≤ rn_now s)%Z → awake s → prompt s l = true →
  step d capacity l s = Some s' → awake s'.
Proof using interval_ok retries long_idle.
  intros Hs Hn Ha Hp E. pose proof (ro_loop _ _ _ Hs) as Hl.
  destruct l as [| |i|r| |ev| | |script| |t|p data]; cbn [step] in E.
  - unfold main_act in E. unfold awake in *. destruct (rn_ctl s); step_inv E; by subst.
  - step_inv E; by subst.
  - step_inv E; by subst.
  - by eapply next_awake.
  - unfold worker_take in E. step_inv E; by subst.
  - step_inv E; subst. unfold awake in *. rewrite Heqc in Ha. cbn. destruct Ha as (? & a & ? & ?).
    split; [lia|]. exists a. split; [done|lia].
  - step_inv E; by subst.
  - step_inv E; by subst.
  - step_inv E; subst. unfold awake in *. cbn. lia.
  - step_inv E; by subst.
  - step_inv E; subst. unfold awake, prompt in *. cbn. destruct (rn_ctl s); try done.
    + apply Z.ltb_lt in Hp. destruct Ha as [_ ?]. split; [lia|done].
    + destruct Ha as (? & a & Ea & ?). rewrite Ea in Hp. apply Z.leb_le in Hp. split; [lia|]. by exists a.
    + apply Z.ltb_lt in Hp. destruct Ha as [_ ?]. split; [lia|done].
    + by apply Z.ltb_lt in Hp.
    + by apply Z.ltb_lt in Hp.
    + by apply Z.ltb_lt in Hp.
    + by apply Z.ltb_lt in Hp.
  - by injection E as <-.
Qed.

Lemma steps_awake ls s s' :
  run_ok d capacity s → (rn_active s ≤ rn_now s)%Z → awake s → promptly ls s = true →
  steps d capacity ls s = Some s' → run_ok d capacity s' ∧ awake s'.
Proof using interval_ok retries long_idle.
  revert s. induction ls as [|l ls IH]; intros s Hs Hn Ha Hp E; cbn [steps promptly] in *; [by simplify_eq|].
  apply bind_Some in E as (s1 & E1 & E). rewrite E1 in Hp. apply andb_true_iff in Hp as [Hp1 Hp].
  destruct (step_clock _ _ _ Hn E1) as [? _].
  eapply IH; [by eapply step_ok|lia|by eapply step_awake|done..].
Qed.

Lemma awake_not_idle s : run_ok d capacity s → awake s → step d capacity LIdle s = None.
Proof using retries long_idle.
  intros Hs Ha. cbn [step]. destruct (rn_ctl s) eqn:Ec; try done. unfold awake in Ha. rewrite Ec in Ha.
  destruct (ro_loop _ _ _ Hs lp) as [_ ->]; [by rewrite Ec|]. unfold due, idle_deadline.
  destruct (Z.ltb_spec 0 eff); [|done]. destruct (Z.leb_spec (rn_active s + eff) (rn_now s)); [lia|done].
Qed.
End Awake.
End Idle.

(**  the daemon exits for idleness only when it was idle.  Whenever the idle
    case of the loop can be taken, the idle timeout is enabled and every
    event received and every retry cycle started so far was at least a whole
    effective idle timeout ago; the channel is then closed for the worker. *)
Theorem idle_exit_only_when_idle `{External} `{Sizing} (d : Daemon) (capacity : nat) (now : Time) (w : World)
    (ls1 ls2 : list label) (l : label) (s1 s s' : Run) :
  (d_RetryInterval d * 64 < two63)%Z →
  steps d capacity ls1 (run_start d now w) = Some s1 →
  steps d capacity (l :: ls2) s1 = Some s →
  step d capacity LIdle s = Some s' →
  (0 < EffectiveIdleTimeout (d_IdleTimeout d))%Z ∧
  (activity l = true → rn_now s1 + EffectiveIdleTimeout (d_IdleTimeout d) ≤ rn_now s)%Z ∧
  rn_closed s' = true.
Proof.
  intros Hi E1 E2 E. pose proof (steps_ok d capacity Hi _ _ s1 (start_ok d capacity now w) E1) as Hok1.
  pose proof (steps_ok d capacity Hi _ _ s Hok1 E2) as Hok.
  destruct (steps_clock d capacity _ _ s1 (start_clock d now w) E1) as [_ Hn].
  cbn [steps] in E2. apply bind_Some in E2 as (s2 & E2 & E3). destruct (step_clock d capacity _ _ _ Hn E2) as [Hn2 Hact].
  destruct (steps_clock d capacity ls2 s2 s ltac:(lia) E3) as [Hn3 _].
  cbn [step] in E. destruct (rn_ctl s) eqn:Ec; try discriminate E.
  destruct (ro_loop _ _ _ Hok lp) as [_ Hid]; [by rewrite Ec|]. rewrite Hid in E.
  unfold due, idle_deadline in E.
  destruct (Z.ltb_spec 0 (EffectiveIdleTimeout (d_IdleTimeout d))) as [Heff|]; [|discriminate E].
  destruct (Z.leb_spec (rn_active s + EffectiveIdleTimeout (d_IdleTimeout d)) (rn_now s)); [|discriminate E].
  injection E as <-. split_and!; [done| |done]. intros Hl. specialize (Hact Hl). lia.
Qed.

(** C40: with retries on, the idle timeout may never fire.  When 40 times the
    retry interval is less than the effective idle timeout (the defaults of
    [--retry-interval] with the 24 hours of [--idle-timeout 0], say) and the
    loop serves its timers when they are due, then at no point of a run can
    the idle case be taken, also when no D-Mail ever arrives and the error
    queue is empty: every retry cycle resets the idle timer. *)
Theorem retry_cycles_prevent_idle_exit `{External} `{Sizing} (d : Daemon) (capacity : nat) (now : Time) (w : World)
    (ls : list label) (s : Run) :
  (d_RetryInterval d * 64 < two63)%Z → (0 < d_RetryInterval d)%Z →
  (40 * d_RetryInterval d < EffectiveIdleTimeout (d_IdleTimeout d))%Z →
  promptly d capacity ls (run_start d now w) = true →
  steps d capacity ls (run_start d now w) = Some s →
  step d capacity LIdle s = None.
Proof.
  intros Hi Hr Hl Hp E.
  destruct (steps_awake d capacity Hi Hr Hl ls _ s (start_ok d capacity now w) (start_clock d now w) I Hp E) as [Hok Ha].
  by apply awake_not_idle.
Qed.

(** ** Concrete runs *)

Definition quiet_startup : list label := session_startup 1 ++ [LNext 0; LMain; LMain; LNext 0].
Definition quiet_run (ls : list label) : option Run :=
  steps (H := sample_external) sample_daemon 4 ls
    (run_start (H0 := daemon_sizing) sample_daemon 0 (sample_world [] no_fault_env)).

(** One event, and nothing for 24 hours. *)
Definition one_event : list label :=
  [LEvent sample_event; LNext 0; LTake; LWorker; LTick (24 * Hour)].
Definition idle_run : option Run := s ← quiet_run quiet_startup; steps (H := sample_external) sample_daemon 4 one_event s.
Definition no_run : Run := run_start (H0 := daemon_sizing) sample_daemon 0 (sample_world [] no_fault_env).

Lemma idle_exit_only_when_idle_witness :
  step (H := sample_external) sample_daemon 4 LIdle (default no_run idle_run) ≠ None ∧
  (24 * Hour ≤ rn_now (default no_run idle_run))%Z.
Proof.
  split; [vm_compute; discriminate|].
  destruct (idle_exit_only_when_idle (H := sample_external) (H0 := daemon_sizing) sample_daemon 4 0
    (sample_world [] no_fault_env) quiet_startup (tail one_event) (LEvent sample_event)
    (default no_run (quiet_run quiet_startup)) (default no_run idle_run)
    (default no_run (step (H := sample_external) sample_daemon 4 LIdle (default no_run idle_run)))) as (_ & HP & _).
  - reflexivity.
  - vm_compute. reflexivity.
  - vm_compute. reflexivity.
  - vm_compute. reflexivity.
  - exact (HP eq_refl).
Defined.

(** A retry cycle that finds an empty queue. *)
Definition empty_cycle (t : Time) : list label :=
  [LTick t; LRetry [mkPass false t t WakeTimer]; LMain; LMain; LNext 0; LMain; LNext 0; LNext 0] ++
  replicate 4 LMain ++ [LNext 0].
(** When the retry timer fires, with the least jitter every time. *)
Definition cycle_times : list Time :=
  ((λ t, t * Second) <$> [45; 135; 315; 675; 1395; 2835] ++ ((λ k, 2835 + 1440 * (Z.of_nat k)) <$> seq 1 120))%Z.
Definition quiet_days : list label := quiet_startup ++ mjoin (empty_cycle <$> cycle_times).

Lemma retry_cycles_prevent_idle_exit_witness :
  EffectiveIdleTimeout (d_IdleTimeout sample_daemon) = (24 * Hour)%Z ∧
  (48 * Hour < rn_now (default no_run (quiet_run quiet_days)))%Z ∧ omap event_of quiet_days = [] ∧
  step (H := sample_external) sample_daemon 4 LIdle (default no_run (quiet_run quiet_days)) = None.
Proof.
  split_and!; [reflexivity|vm_compute; reflexivity|vm_compute; reflexivity|].
  apply (retry_cycles_prevent_idle_exit (H := sample_external) (H0 := daemon_sizing) sample_daemon 4 0
    (sample_world [] no_fault_env) quiet_days).
  - reflexivity.
  - reflexivity.
  - reflexivity.
  - vm_compute. reflexivity.
  - vm_compute. reflexivity.
Defined.
