(* ===== verification/FilterSafety.v ===== *)
(** * The delivery filter across restarts

    Theorems about [session/delivery_filter.go]: the filter saved at the end
    of a session is the one the next session starts with, and a save that
    fails or is interrupted never leaves a file that loads as another filter. *)
From Stdlib Require Import QArith.
From S2P Require Import Prelude GoStrings GoPath GoTime Sha256 Bloom Provider Breaker DMail Improvement Prog World DeliveryStore ErrorQueue Deliver DeliverSafety Daemon DaemonSafety DaemonRun.

#[local] Open Scope nat_scope.

Section Filter.
Variable bf : BloomFilter.
Hypothesis bf_wf : wf bf.
Hypothesis bf_size : (Z.of_nat (length (MarshalBinary bf)) < two64)%Z.

(** What the file can hold while the filter is saved over [old]. *)
Definition saving (old : option bytes) (w : World) : Prop :=
  sf_filter (w_state w) = old ∨ ∃ n, sf_filter (w_state w) = Some (take n (MarshalBinary bf)).

Lemma parse_saved n :
  parse_filter (take n (MarshalBinary bf)) = Ok (Some bf) ∨
  parse_filter (take n (MarshalBinary bf)) = Err errBloomCorrupt.
Proof using bf_wf bf_size.
  unfold parse_filter. destruct (Nat.lt_ge_cases n (length (MarshalBinary bf))) as [Hn|Hn].
  - right. by rewrite unmarshal_cut.
  - left. by rewrite firstn_all2, unmarshal_marshal.
Qed.

Lemma bump_filter w : sf_filter (w_state (bump w)) = sf_filter (w_state w).
Proof. by destruct w. Qed.

Lemma Close_same w : sf_filter (w_state (snd (file_Close w))) = sf_filter (w_state w).
Proof. unfold file_Close, guarded, fault. destruct (env_fault _ _); by destruct w. Qed.
Lemma Close_saving old w : saving old w → saving old (snd (file_Close w)).
Proof. unfold saving, file_Close, guarded, fault. destruct (env_fault _ _); by destruct w. Qed.

(** At every crash point the file is as before or a part of the new one, and
    a save that reports no error has written the whole filter. *)
Lemma Save_always w :
  always 0 (SaveDeliveryFilter (Some bf)) (saving (sf_filter (w_state w)))
    (λ err w', err = None → sf_filter (w_state w') = Some (MarshalBinary bf)) w.
Proof.
  set (old := sf_filter (w_state w)). assert (saving old w) as Hw by by left.
  cbn [SaveDeliveryFilter]. split; [done|]. unfold guarded, fault.
  destruct (env_fault (w_env w) (w_tick w)) as [e|]; cbn [fst snd]; [split; [left; by rewrite bump_filter|done]|].
  assert (saving old (bump w)) as H1 by (left; by rewrite bump_filter).
  split; [done|]. unfold state_Truncate, guarded, fault.
  destruct (env_fault (w_env (bump w)) _) as [e|]; cbn [fst snd]; [split; [left; by rewrite !bump_filter|done]|].
  set (w2 := set_state _ _). assert (saving old w2) as H2 by (right; by exists 0). split; [done|].
  assert (saving old (snd (state_Write put_filter (MarshalBinary bf) w2)) ∧
    (fst (state_Write put_filter (MarshalBinary bf) w2) = Ok tt →
     sf_filter (w_state (snd (state_Write put_filter (MarshalBinary bf) w2))) = Some (MarshalBinary bf))) as [H3 H4].
  { unfold state_Write, fault. destruct (env_fault _ _); (split; [right; cbn|done]); [eauto|].
    exists (length (MarshalBinary bf)). by rewrite firstn_all. }
  destruct (state_Write put_filter (MarshalBinary bf) w2) as [r w3]. cbn [fst snd] in *. split; [done|].
  pose proof (Close_saving old w3 H3) as H5. pose proof (Close_same w3) as H6.
  destruct (file_Close w3) as [c w4]. cbn [fst snd] in *.
  destruct r as [[]|]; (split; [done|]); [|done]. intros _. rewrite H6. by apply H4.
Qed.

End Filter.

(** The filter in memory once the next process has started. *)
Definition loaded `{Sizing} (w : World) : option BloomFilter :=
  w_bloom (snd (run 0 load_filter (fresh_process w))).

Lemma load_filter_loads `{Sizing} w data :
  sf_filter (w_state w) = Some data → env_fault (w_env w) (w_tick w) = None →
  loaded w = Some match parse_filter data with Ok (Some bf) => bf | _ => NewBloomFilter 10000 (1 # 100) end.
Proof.
  intros Ef Hn. unfold loaded, load_filter. rewrite run_mbind, run_atom.
  unfold LoadDeliveryFilter, guarded, fault.
  destruct (env_fault _ _) as [e|] eqn:E; [|cbn; by rewrite Ef].
  change (env_fault (w_env w) (w_tick w) = Some e) in E. by rewrite Hn in E.
Qed.

(** C38: the delivery filter survives restarts and crashes.  When the save at
    the end of a session reports no error, a new process that can read the
    file starts with exactly that filter, so it skips exactly the paths the
    old one would have skipped.  Wherever the save fails or the process is
    killed, the file is as it was before, or the next process starts with the
    same filter or, finding it cut short, with an empty one: never with
    another. *)
Theorem delivery_filter_survives `{Sizing} (bf : BloomFilter) (w : World) (n : nat) :
  wf bf → (Z.of_nat (length (MarshalBinary bf)) < two64)%Z →
  (let '(err, w') := run 0 (SaveDeliveryFilter (Some bf)) w in
   err = None → env_fault (w_env w') (w_tick w') = None → loaded w' = Some bf) ∧
  (let w' := run_for n 0 (SaveDeliveryFilter (Some bf)) w in
   env_fault (w_env w') (w_tick w') = None →
   sf_filter (w_state w') = sf_filter (w_state w) ∨
   loaded w' = Some bf ∨ loaded w' = Some (NewBloomFilter 10000 (1 # 100))).
Proof.
  intros Hwf Hsz. split.
  - pose proof (always_run _ _ _ _ _ (Save_always bf w)) as HS. unfold runs in HS. destruct (run 0 _ w) as [err w']. cbn [fst snd] in HS.
    intros -> Hf. rewrite (load_filter_loads w' _ (HS eq_refl) Hf). unfold parse_filter.
    by rewrite unmarshal_marshal.
  - cbv zeta. intros Hf. pose proof (always_run_for n _ _ _ _ _ (Save_always bf w)) as [?|[k Hk]]; [by left|right].
    rewrite (load_filter_loads _ _ Hk Hf). destruct (parse_saved bf Hwf Hsz k) as [-> | ->]; auto.
Qed.

Definition sample_filter : BloomFilter :=
  Eval vm_compute in default (mkBloom [0%Z] 1 64) (Add (mkBloom [0%Z; 0%Z] 3 128) sample_path).
(** The third operation of the save, the write, stores 20 bytes and fails. *)
Definition failing_write_env : Env :=
  mkEnv (λ n, if n =? 2 then Some (errors_New "no space left on device") else None)
    (env_now no_fault_env) (env_stamp no_fault_env) (env_suffix no_fault_env) (λ _, 20).

Lemma sample_filter_wf : wf sample_filter.
Proof. constructor; [unfold two64; cbn; lia..|reflexivity|]. unfold two64. repeat constructor; lia. Qed.

Lemma delivery_filter_survives_witness :
  (let w' := snd (run 0 (SaveDeliveryFilter (Some sample_filter)) (sample_world [] no_fault_env)) in
   loaded (H := daemon_sizing) w' = Some sample_filter) ∧
  (let w' := run_for 3 0 (SaveDeliveryFilter (Some sample_filter)) (sample_world [] failing_write_env) in
   length <$> sf_filter (w_state w') = Some 20 ∧
   loaded (H := daemon_sizing) w' = Some (@NewBloomFilter daemon_sizing 10000 (1 # 100))).
Proof.
  destruct (delivery_filter_survives (H := daemon_sizing) sample_filter (sample_world [] no_fault_env) 0) as [H1 _].
  - exact sample_filter_wf.
  - reflexivity.
  - split; [exact (H1 eq_refl eq_refl)|]. vm_compute. split; reflexivity.
Defined.
