(* ===== verification/Events.v ===== *)
(** * Domain events

    Models [domain/event.go], the payloads of [domain/delivery_aggregate.go]
    and [usecase/policy.go].  [encoding/json] is a parameter, the class [JSON];
    the emitter is in [Emitter]. *)
From S2P Require Import Prelude GoStrings GoTime DMail.

(** ** [domain/event.go] *)

Abbreviation EventType := string (only parsing).
Definition EventDeliveryCompleted : EventType := "delivery.completed".
Definition EventDeliveryFailed : EventType := "delivery.failed".
Definition EventErrorRetried : EventType := "error.retried".
Definition EventScanCompleted : EventType := "scan.completed".
Definition EventSystemCutover : EventType := "system.cutover".

Definition validEventTypes : list EventType :=
  [EventDeliveryCompleted; EventDeliveryFailed; EventErrorRetried; EventScanCompleted; EventSystemCutover].
Definition ValidEventType (t : EventType) : bool := existsb (λ x, bool_decide (x = t)) validEventTypes.

Definition CurrentEventSchemaVersion : Z := 1.

Record Event := mkEvent {
  ev_SchemaVersion : Z; ev_ID : string; ev_Type : EventType; ev_Timestamp : Time; ev_Data : bytes;
  ev_SessionID : string; ev_CorrelationID : string; ev_CausationID : string;
  ev_AggregateID : string; ev_AggregateType : string; ev_SeqNr : Z }.

(** The payloads of [delivery_aggregate.go], and the cutover's map. *)
Inductive payload :=
  | DeliveryCompletedPayload (path : string) (kind : DMailKind)
  | DeliveryFailedPayload (path : string) (kind : DMailKind) (error : string)
  | ErrorRetriedPayload (name : string) (kind : DMailKind)
  | ScanCompletedPayload (outbox : string) (delivered failed : Z)
  | CutoverPayload (count : Z) (aggregate_type : string).

(** [encoding/json] on payloads and on the event envelope.  [json_faithful]
    is what an envelope needs to survive the codec: compact JSON in [Data],
    valid UTF-8 in its strings, a year before 10000, integers in range.
    [Marshal] then gives a non-empty text without control characters, and
    [Unmarshal] reads the envelope back. *)
Class JSON := {
  json_payload : payload → bytes;
  json_event : Event → result bytes;
  json_parse : bytes → option Event;
  json_faithful : Event → Prop }.
Class JSONLaws `{JSON} : Prop := {
  json_payload_nonempty : ∀ p, json_payload p ≠ [];
  json_roundtrip : ∀ e, json_faithful e → ∃ b, json_event e = Ok b ∧ json_parse b = Some e;
  json_event_nonempty : ∀ e b, json_event e = Ok b → b ≠ [];
  json_event_one_line : ∀ e b, json_event e = Ok b → ("010"%char ∉ b) ∧ ("013"%char ∉ b) }.

(** The checks of [ParseEvent], in order; [%d] and [%q] texts included. *)
Definition event_problems `{External} (e : Event) : list string :=
  (if (CurrentEventSchemaVersion <? ev_SchemaVersion e)%Z
   then ["SchemaVersion " +:+ Itoa (ev_SchemaVersion e) +:+ " exceeds current " +:+ Itoa CurrentEventSchemaVersion]
   else []) ++
  (if bool_decide (ev_ID e = "") then ["ID is required"] else []) ++
  (if bool_decide (ev_Type e = "") then ["Type is required"]
   else if negb (ValidEventType (ev_Type e))
        then ["Type " +:+ quote (ev_Type e) +:+ " is not a recognized event type"] else []) ++
  (if IsZero (ev_Timestamp e) then ["Timestamp must not be zero"] else []) ++
  (if bool_decide (ev_Data e = []) then ["Data must not be empty"] else []).

Definition ParseEvent `{External} (e : Event) : result Event :=
  match event_problems e with
  | [] => Ok e
  | errs => Err (errors_New ("invalid event: " +:+ Join errs "; "))
  end.

(** [NewEvent] with the id it draws; [json.Marshal] of a payload cannot fail. *)
Definition NewEvent `{JSON} (id : string) (eventType : EventType) (data : payload) (timestamp : Time) : Event :=
  mkEvent CurrentEventSchemaVersion id eventType timestamp (json_payload data) "" "" "" "" "" 0.

(** What the emitter and the cutover add to an event. *)
Definition with_correlation (id : string) (ev : Event) : Event :=
  if bool_decide (id = "") then ev else
  mkEvent (ev_SchemaVersion ev) (ev_ID ev) (ev_Type ev) (ev_Timestamp ev) (ev_Data ev) (ev_SessionID ev)
    id (ev_CausationID ev) (ev_AggregateID ev) (ev_AggregateType ev) (ev_SeqNr ev).
Definition with_causation (id : string) (ev : Event) : Event :=
  if bool_decide (id = "") then ev else
  mkEvent (ev_SchemaVersion ev) (ev_ID ev) (ev_Type ev) (ev_Timestamp ev) (ev_Data ev) (ev_SessionID ev)
    (ev_CorrelationID ev) id (ev_AggregateID ev) (ev_AggregateType ev) (ev_SeqNr ev).
Definition with_seq (n : Z) (ev : Event) : Event :=
  mkEvent (ev_SchemaVersion ev) (ev_ID ev) (ev_Type ev) (ev_Timestamp ev) (ev_Data ev) (ev_SessionID ev)
    (ev_CorrelationID ev) (ev_CausationID ev) (ev_AggregateID ev) (ev_AggregateType ev) n.

(** ** [policy.go] *)

Section Policy.
Context {S : Type}.
(** A handler acts on the outside state and may report an error. *)
Definition PolicyHandler : Type := Event → S → option error * S.
Definition PolicyEngine : Type := gmap string (list PolicyHandler).

Definition NewPolicyEngine : PolicyEngine := ∅.
Definition Register (trigger : EventType) (h : PolicyHandler) (e : PolicyEngine) : PolicyEngine :=
  <[trigger := default [] (e !! trigger) ++ [h]]> e.
(** Handler errors are logged and dropped; the result is always nil. *)
Definition Dispatch (e : PolicyEngine) (event : Event) (s : S) : option error * S :=
  match e !! ev_Type event with
  | None => (None, s)
  | Some handlers => (None, fold_left (λ s h, snd (h event s)) handlers s)
  end.
End Policy.

(** * A sample codec: in braces, the digits of a number that encodes the event *)

#[export] Instance Event_eq_dec : EqDecision Event.
Proof. solve_decision. Defined.

(** The fields one after the other, so that the code stays short. *)
Definition event_fields (e : Event) : list positive :=
  [encode (ev_SchemaVersion e); encode (ev_ID e); encode (ev_Type e); encode (ev_Timestamp e); encode (ev_Data e);
   encode (ev_SessionID e); encode (ev_CorrelationID e); encode (ev_CausationID e); encode (ev_AggregateID e);
   encode (ev_AggregateType e); encode (ev_SeqNr e)].
Definition event_of_fields (l : list positive) : option Event :=
  match l with
  | [a; b; c; d; e; f; g; h; i; j; k] =>
      a ← decode a; b ← decode b; c ← decode c; d ← decode d; e ← decode e; f ← decode f;
      g ← decode g; h ← decode h; i ← decode i; j ← decode j; k ← decode k;
      Some (mkEvent a b c d e f g h i j k)
  | _ => None
  end.
#[export] Instance Event_countable : Countable Event.
Proof.
  refine (inj_countable event_fields event_of_fields _).
  intros []. unfold event_fields, event_of_fields.
  cbn [ev_SchemaVersion ev_ID ev_Type ev_Timestamp ev_Data ev_SessionID ev_CorrelationID ev_CausationID
       ev_AggregateID ev_AggregateType ev_SeqNr].
  by rewrite !decode_encode.
Defined.

Fixpoint digits (p : positive) : bytes :=
  match p with
  | xH => ["1"%char]
  | xO q => "0"%char :: digits q
  | xI q => "1"%char :: digits q
  end.
Fixpoint undigits (b : bytes) : option positive :=
  match b with
  | [] => None
  | [c] => if bool_decide (c = "1"%char) then Some xH else None
  | c :: r => q ← undigits r;
      if bool_decide (c = "1"%char) then Some (xI q) else if bool_decide (c = "0"%char) then Some (xO q) else None
  end.
Lemma undigits_digits p : undigits (digits p) = Some p.
Proof.
  induction p as [p IH|p IH|]; [| |done]; cbn [digits undigits]; destruct (digits p) as [|c r] eqn:E;
    [by destruct p| |by destruct p|]; by rewrite IH.
Qed.

Definition braces (b : bytes) : bytes := "{"%char :: b ++ ["}"%char].
Definition unbrace (b : bytes) : option bytes :=
  match b with
  | c :: r => if bool_decide (c = "{"%char) && bool_decide (last r = Some "}"%char)
              then Some (take (length r - 1) r) else None
  | [] => None
  end.
Lemma unbrace_braces b : unbrace (braces b) = Some b.
Proof.
  unfold unbrace, braces. rewrite last_snoc, !bool_decide_eq_true_2 by done. cbn [andb]. f_equal.
  rewrite length_app. cbn [length]. replace (length b + 1 - 1) with (length b) by lia. apply take_app_length.
Qed.

Definition sample_JSON : JSON := {|
  json_payload := λ p, raw "{}";
  json_event := λ e, Ok (braces (digits (encode e)));
  json_parse := λ b, d ← unbrace b; p ← undigits d; decode p;
  json_faithful := λ e, True |}.

Lemma digits_bits p c : c ∈ digits p → c = "0"%char ∨ c = "1"%char.
Proof. induction p as [p IH|p IH|]; cbn; rewrite ?elem_of_cons, ?elem_of_nil; naive_solver. Qed.
Lemma braces_no c p : c ≠ "{"%char → c ≠ "}"%char → c ≠ "0"%char → c ≠ "1"%char → c ∉ braces (digits p).
Proof.
  unfold braces. rewrite elem_of_cons, elem_of_app, list_elem_of_singleton.
  intros ???? [?|[?%digits_bits|?]]; naive_solver.
Qed.

Lemma sample_JSONLaws : @JSONLaws sample_JSON.
Proof.
  constructor; cbn.
  - done.
  - intros e _. eexists. split; [done|]. rewrite unbrace_braces. cbn. rewrite undigits_digits. cbn.
    by rewrite decode_encode.
  - by intros e b [= <-].
  - intros e b [= <-]. split; by apply braces_no.
Qed.
