(* ===== verification/Files.v ===== *)
(** * Writing and appending files

    More of package os over the file system of [World]: [MkdirAll], files
    opened for appending, [WriteFile].  The second part is a calculus for runs
    without failures: [does p fs x fs'] says that from the files [fs] the
    program [p] returns [x] and leaves [fs']. *)
From S2P Require Import Prelude GoStrings GoPath DMail Prog World SetupSafety.

(** [os.MkdirAll]: the missing directories from the top down; [fuel] is the
    length of the path, which each parent shortens. *)
Fixpoint mkdir_all (fuel : nat) (p : string) (fs : gmap string node) : result (gmap string node) :=
  if bool_decide (p = "/") || bool_decide (p = ".") then Ok fs else
  match fs !! p with
  | Some NDir => Ok fs
  | Some (NFile _) => Err (errors_New ("mkdir " +:+ p +:+ ": not a directory"))
  | None =>
      match fuel with
      | O => Err (errors_New ("mkdir " +:+ p +:+ ": no such file or directory"))
      | S n => match mkdir_all n (Dir p) fs with
               | Err e => Err e
               | Ok fs' => Ok (<[p := NDir]> fs')
               end
      end
  end.
Definition os_MkdirAll (p : string) : act (result unit) := guarded "" (λ w,
  match mkdir_all (slen p) (Clean p) (w_fs w) with
  | Ok fs => (Ok tt, set_fs fs w)
  | Err e => (Err e, w)
  end).

(** [os.OpenFile(p, os.O_CREATE|os.O_APPEND|os.O_WRONLY, 0o644)] *)
Definition os_OpenAppend (p : string) : act (result unit) := guarded "" (λ w,
  match lookup_path w p with
  | Some (NFile _) => (Ok tt, w)
  | Some NDir => (Err (errors_New ("open " +:+ p +:+ ": is a directory")), w)
  | None =>
      match lookup_path w (Dir p) with
      | Some NDir => (Ok tt, set_fs (<[Clean p := NFile []]> (w_fs w)) w)
      | _ => (Err (enoent "open" p), w)
      end
  end).

(** [File.Write] on a file opened for appending. *)
Definition file_Append (p : string) (data : bytes) : act (result unit) := λ w,
  let short := env_short (w_env w) (w_tick w) in
  let '(f, w) := fault w in
  let put d := match lookup_path w p with
               | Some (NFile old) => set_fs (<[Clean p := NFile (old ++ d)]> (w_fs w)) w
               | _ => w
               end in
  match f with
  | Some e => (Err e, put (take short data))
  | None => (Ok tt, put data)
  end.
Definition file_Sync : act (result unit) := guarded "" (λ w, (Ok tt, w)).

(** [os.WriteFile]: open with truncation, write, close. *)

Definition os_OpenTrunc (p : string) : act (result unit) := guarded "" (λ w,
  match lookup_path w p with
  | Some (NFile _) => (Ok tt, set_fs (<[Clean p := NFile []]> (w_fs w)) w)
  | Some NDir => (Err (errors_New ("open " +:+ p +:+ ": is a directory")), w)
  | None =>
      match lookup_path w (Dir p) with
      | Some NDir => (Ok tt, set_fs (<[Clean p := NFile []]> (w_fs w)) w)
      | _ => (Err (enoent "open" p), w)
      end
  end).

Definition os_WriteFile (p : string) (data : bytes) : program (result unit) :=
  o ← atom (os_OpenTrunc p);
  match o with
  | Err err => mret (Err err)
  | Ok _ =>
      r ← atom (file_Write p data);
      c ← atom file_Close;
      match r with
      | Err err => mret (Err err)
      | Ok _ => mret c
      end
  end.

(** * Lemmas *)

(** The directory is there, or only it is missing. *)
Definition dir_ready (dir : string) (fs : gmap string node) : Prop :=
  Clean dir ≠ "/" ∧ Clean dir ≠ "." ∧
  (fs !! Clean dir = Some NDir ∨ fs !! Clean dir = None ∧ fs !! Dir (Clean dir) = Some NDir).

Lemma mkdir_all_there n p fs : fs !! p = Some NDir → mkdir_all n p fs = Ok fs.
Proof. intros E. destruct n; cbn [mkdir_all]; rewrite E; by destruct (_ || _). Qed.

(** Directories appear, files stay as they are. *)
Lemma mkdir_all_adds n p fs fs' : mkdir_all n p fs = Ok fs' →
  (∀ k v, fs !! k = Some v → fs' !! k = Some v) ∧ (∀ k d, fs' !! k = Some (NFile d) → fs !! k = Some (NFile d)).
Proof.
  revert p fs'. induction n as [|n IH]; intros p fs'; cbn [mkdir_all]; (destruct (_ || _); [by intros [= ->]|]);
    destruct (fs !! p) as [[]|] eqn:E; try done; try (by intros [= ->]).
  destruct (mkdir_all n (Dir p) fs) as [fs1|e] eqn:E1; [|done]. intros [= <-]. destruct (IH _ _ E1) as [K F].
  split; intros k v; destruct (decide (k = p)) as [->|Hk]; rewrite ?lookup_insert_eq, ?lookup_insert_ne by done; try congruence; auto.
Qed.

Lemma mkdir_all_ready dir fs :
  dir_ready dir fs →
  mkdir_all (slen dir) (Clean dir) fs = Ok fs ∧ fs !! Clean dir = Some NDir ∨
  mkdir_all (slen dir) (Clean dir) fs = Ok (<[Clean dir := NDir]> fs).
Proof.
  intros (H1 & H2 & [H3|[H3 H4]]); [left; split; [by apply mkdir_all_there|done]|right].
  destruct dir as [|c d] eqn:Ed; [done|]. rewrite <- Ed in *. rewrite Ed at 1. cbn [slen mkdir_all].
  rewrite !bool_decide_eq_false_2, H3 by done. cbn [orb]. by rewrite mkdir_all_there.
Qed.

(** ** Which files an action touches *)

Definition other_files (x : string) (w w' : World) : Prop :=
  (∀ k, k ≠ x → w_fs w' !! k = w_fs w !! k) ∧ w_env w' = w_env w.

Lemma guarded_same {A} pre (a : A) w x : other_files x w (snd (guarded pre (λ w, (Ok a, w)) w)).
Proof. unfold guarded, fault. destruct (env_fault _ _); by destruct w. Qed.

Lemma file_Write_touches p d w : other_files (Clean p) w (snd (file_Write p d w)).
Proof.
  unfold file_Write, fault. destruct (env_fault _ _); cbn [snd]; unfold lookup_path; cbn;
    (destruct (w_fs w !! Clean p) as [[]|]; split; [|done|..]; try done); intros k Hk; cbn; by rewrite lookup_insert_ne.
Qed.
Lemma os_Remove_touches p w : other_files (Clean p) w (snd (os_Remove p w)).
Proof.
  unfold os_Remove, guarded, fault. destruct (env_fault _ _); [by destruct w|]. unfold lookup_path.
  change (w_fs (bump w)) with (w_fs w).
  destruct (w_fs w !! Clean p) as [[]|]; [|destruct (children _ _)|]; (split; [|done]); intros k Hk;
    [cbn; by rewrite lookup_delete_ne..|done|done].
Qed.

Lemma OpenTrunc_touches p w :
  other_files (Clean p) w (snd (os_OpenTrunc p w)) ∧
  (fst (os_OpenTrunc p w) = Ok tt → w_fs (snd (os_OpenTrunc p w)) !! Clean p = Some (NFile [])).
Proof.
  unfold os_OpenTrunc, guarded, fault. destruct (env_fault _ _); [by destruct w|]. unfold lookup_path.
  change (w_fs (bump w)) with (w_fs w).
  destruct (w_fs w !! Clean p) as [[]|]; [| |destruct (w_fs w !! Clean (Dir p)) as [[]|]]; cbn [fst snd]; try done;
    (split; [split; [|done]; intros k Hk; cbn; by rewrite lookup_insert_ne|]; intros _; cbn; by rewrite lookup_insert_eq).
Qed.
Lemma OpenAppend_touches p w : other_files (Clean p) w (snd (os_OpenAppend p w)).
Proof.
  unfold os_OpenAppend, guarded, fault. destruct (env_fault _ _); [by destruct w|]. unfold lookup_path.
  change (w_fs (bump w)) with (w_fs w).
  destruct (w_fs w !! Clean p) as [[]|]; [done|done|]. destruct (w_fs w !! Clean (Dir p)) as [[]|]; cbn [snd]; try done.
  split; [|done]. intros k Hk. cbn. by rewrite lookup_insert_ne.
Qed.
Lemma other_files_trans x u v w : other_files x u v → other_files x v w → other_files x u w.
Proof. intros [H1 E1] [H2 E2]. split; [|congruence]. intros k Hk. by rewrite H2, H1. Qed.

(** At every crash point of [os.WriteFile] only its file has changed; when it
    returns no error the file has the data. *)
Lemma WriteFile_always {A} i p data (k : result unit → program A) P Q w :
  (∀ v, other_files (Clean p) w v → P v) →
  (∀ r v, other_files (Clean p) w v → (r = Ok tt → w_fs v !! Clean p = Some (NFile data)) → always i (k r) P Q v) →
  always i (os_WriteFile p data ≫= k) P Q w.
Proof.
  intros HP Hk. destruct (OpenTrunc_touches p w) as [Ho Hf]. split; [by apply HP|]. cbn [fst snd].
  destruct (os_OpenTrunc p w) as [[[]|e] w1]; cbn [fst snd] in *; [|by apply Hk].
  specialize (Hf eq_refl). split; [by apply HP|].
  pose proof (other_files_trans _ _ _ _ Ho (file_Write_touches p data w1)) as Ho2.
  assert (fst (file_Write p data w1) = Ok tt → w_fs (snd (file_Write p data w1)) !! Clean p = Some (NFile data)) as Hw.
  { unfold file_Write, fault. destruct (env_fault _ _); [done|]. intros _. unfold lookup_path.
    change (w_fs (bump w1)) with (w_fs w1). rewrite Hf. cbn. by rewrite lookup_insert_eq. }
  destruct (file_Write p data w1) as [r w2]. cbn [fst snd] in *. split; [by apply HP|].
  assert (w_fs (snd (file_Close w2)) = w_fs w2 ∧ w_env (snd (file_Close w2)) = w_env w2) as [Ef Ee].
  { unfold file_Close, guarded, fault. by destruct (env_fault _ _). }
  assert (other_files (Clean p) w (snd (file_Close w2))) as Ho3.
  { destruct Ho2 as [H1 H2]. split; [intros x Hx; rewrite Ef; by apply H1|congruence]. }
  destruct (file_Close w2) as [c w3]. cbn [fst snd] in *. destruct r as [[]|e]; cbn; [|by apply Hk].
  apply Hk; [done|]. intros _. rewrite Ef. by apply Hw.
Qed.

(** ** Runs without failures *)

Section Quiet.
Context {env : Env}.
Hypothesis env_ok : no_faults env.

Definition on (fs : gmap string node) (w : World) : Prop := w_fs w = fs ∧ w_env w = env.
Definition does {A} (p : program A) (fs : gmap string node) (x : A) (fs' : gmap string node) : Prop :=
  ∀ i w, on fs w → fst (run i p w) = x ∧ on fs' (snd (run i p w)).

Lemma does_ret {A} (x : A) fs : does (mret x) fs x fs.
Proof. by intros i w Hw. Qed.
Lemma does_bind {A B} (p : program A) (k : A → program B) fs x fs' y fs'' :
  does p fs x fs' → does (k x) fs' y fs'' → does (p ≫= k) fs y fs''.
Proof.
  intros Hp Hk i w Hw. rewrite run_mbind. destruct (Hp i w Hw) as [E Hv].
  destruct (run i p w) as [a v]. cbn [fst snd] in *. subst a. by apply Hk.
Qed.
Lemma does_atom {A} (m : act A) fs x fs' :
  (∀ w, on fs w → fst (m w) = x ∧ on fs' (snd (m w))) → does (atom m) fs x fs'.
Proof. intros Hm i w Hw. rewrite run_atom. by apply Hm. Qed.
Lemma does_guarded {A} pre (m : act (result A)) fs x fs' :
  (∀ w, on fs w → fst (m w) = x ∧ on fs' (snd (m w))) → does (atom (guarded pre m)) fs x fs'.
Proof using env_ok.
  intros Hm. apply does_atom. intros w [Hf He]. unfold guarded, fault. rewrite He, env_ok. by apply Hm.
Qed.
Lemma does_runs {A} i (p : program A) fs x fs' Q w :
  does p fs x fs' → on fs w → (∀ v, on fs' v → Q x v) → runs i p Q w.
Proof. intros Hp Hw HQ. unfold runs. destruct (Hp i w Hw) as [-> Hv]. by apply HQ. Qed.

(** What a call does, given what it finds at its path. *)
Lemma ReadFile_does p fs :
  does (atom (os_ReadFile p)) fs
    (match fs !! Clean p with
     | Some (NFile b) => Ok b
     | Some NDir => Err (errors_New ("read " +:+ p +:+ ": is a directory"))
     | None => Err (enoent "open" p) end) fs.
Proof using env_ok.
  apply does_guarded. intros w [Hf He]. unfold lookup_path. rewrite Hf. by destruct (fs !! Clean p) as [[]|].
Qed.
Lemma Stat_does p fs :
  does (atom (os_Stat p)) fs
    (match fs !! Clean p with Some _ => Ok tt | None => Err (enoent "stat" p) end) fs.
Proof using env_ok.
  apply does_guarded. intros w [Hf He]. unfold lookup_path. rewrite Hf. by destruct (fs !! Clean p) as [[]|].
Qed.
Lemma Remove_does p d fs : fs !! Clean p = Some (NFile d) → does (atom (os_Remove p)) fs (Ok tt) (delete (Clean p) fs).
Proof using env_ok.
  intros E. apply does_guarded. intros w [Hf He]. unfold lookup_path. rewrite Hf, E. by rewrite <- Hf.
Qed.
Lemma Rename_does src dst d fs :
  fs !! Clean src = Some (NFile d) → fs !! Clean dst ≠ Some NDir →
  does (atom (os_Rename src dst)) fs (Ok tt) (<[Clean dst := NFile d]> (delete (Clean src) fs)).
Proof using env_ok.
  intros E Hd. apply does_guarded. intros w [Hf He]. unfold lookup_path. rewrite Hf, E.
  destruct (fs !! Clean dst) as [[b|]|]; [|done|]; cbn; by rewrite Hf.
Qed.
Lemma MkdirAll_does p fs fs' :
  mkdir_all (slen p) (Clean p) fs = Ok fs' → does (atom (os_MkdirAll p)) fs (Ok tt) fs'.
Proof using env_ok. intros E. apply does_guarded. intros w [Hf He]. by rewrite Hf, E. Qed.

(** A file that can be opened for writing. *)
Definition writable (p : string) (fs : gmap string node) : Prop :=
  match fs !! Clean p with
  | Some (NFile _) => True
  | Some NDir => False
  | None => fs !! Clean (Dir p) = Some NDir
  end.
Definition text_of (p : string) (fs : gmap string node) : bytes :=
  match fs !! Clean p with Some (NFile b) => b | _ => [] end.

Lemma Close_does fs : does (atom file_Close) fs (Ok tt) fs.
Proof using env_ok. by apply does_guarded. Qed.
Lemma WriteFile_does p d fs :
  writable p fs → does (os_WriteFile p d) fs (Ok tt) (<[Clean p := NFile d]> fs).
Proof using env_ok.
  intros Hp. assert (does (atom (os_OpenTrunc p)) fs (Ok tt) (<[Clean p := NFile []]> fs)) as Ho.
  { apply does_guarded. intros w [Hf He]. unfold writable in Hp. unfold lookup_path. rewrite Hf.
    destruct (fs !! Clean p) as [[]|]; [|done|rewrite Hp]; by split. }
  assert (does (atom (file_Write p d)) (<[Clean p := NFile []]> fs) (Ok tt) (<[Clean p := NFile d]> fs)) as Hw.
  2: { eapply does_bind; [exact Ho|]. eapply does_bind; [exact Hw|]. eapply does_bind; [apply Close_does|apply does_ret]. }
  apply does_atom. intros w [Hf He]. unfold file_Write, fault. rewrite He, env_ok. unfold lookup_path.
  change (w_fs (bump w)) with (w_fs w). rewrite Hf, lookup_insert_eq. split; [done|]. split; [|done].
  cbn. by rewrite insert_insert_eq.
Qed.
Lemma WriteFile_clean p d fs : clean p → writable p fs → does (os_WriteFile p d) fs (Ok tt) (<[p := NFile d]> fs).
Proof using env_ok. intros Hc Hp. pose proof (WriteFile_does p d fs Hp) as H. by rewrite Hc in H. Qed.
Lemma OpenAppend_does p fs :
  writable p fs → does (atom (os_OpenAppend p)) fs (Ok tt) (<[Clean p := NFile (text_of p fs)]> fs).
Proof using env_ok.
  intros Hp. apply does_guarded. intros w [Hf He]. unfold writable in Hp. unfold lookup_path, text_of. rewrite Hf.
  destruct (fs !! Clean p) as [[b|]|] eqn:E; [|done|by rewrite Hp].
  by rewrite insert_id.
Qed.
Lemma Append_does p d fs b :
  fs !! Clean p = Some (NFile b) → does (atom (file_Append p d)) fs (Ok tt) (<[Clean p := NFile (b ++ d)]> fs).
Proof using env_ok.
  intros E. apply does_atom. intros w [Hf He]. unfold file_Append, fault. rewrite He, env_ok. unfold lookup_path.
  change (w_fs (bump w)) with (w_fs w). rewrite Hf, E. split; [done|]. split; [|done].
  done.
Qed.
End Quiet.
