(* ===== verification/EventStore.v ===== *)
(** * The event store

    Models [eventsource/store_file.go] over the file system of [World]: one
    JSONL file per day, appended to under [O_APPEND], read back in file-name
    order and stably sorted by time.  One action per system call; a file is
    read in one step, and a failing write may have stored a prefix of its
    line.  The day of an event is that of its timestamp in the timestamp's own
    location, which [Time] does not keep: it is a parameter.  The map of a
    batch by day is a [gmap], ranged over in [map_to_list]'s order. *)
From S2P Require Import Prelude GoStrings GoPath GoTime DMail Router Prog World StoreSpec Events Complete SetupSafety Files.

(** ** [bufio.Scanner] with [ScanLines] *)

Definition nl : ascii := "010".
Definition cr : ascii := "013".

(** The pieces between newlines; a last piece without newline counts when it
    is not empty. *)
Fixpoint split_lines (cur data : bytes) : list bytes :=
  match data with
  | [] => if bool_decide (cur = []) then [] else [cur]
  | c :: r => if bool_decide (c = nl) then cur :: split_lines [] r else split_lines (cur ++ [c]) r
  end.
Definition dropCR (line : bytes) : bytes :=
  if bool_decide (last line = Some cr) then take (length line - 1) line else line.

Definition max_line : Z := 10 * 1024 * 1024.
Definition too_long (line : bytes) : bool := (max_line <=? Z.of_nat (length line))%Z.
Definition ErrTooLong : error := errors_New "bufio.Scanner: token too long".

Definition scan_lines (data : bytes) : result (list bytes) :=
  let lines := split_lines [] data in
  if existsb too_long lines then Err ErrTooLong else Ok (map dropCR lines).

(** ** [FileEventStore] *)

Section Store.
Context `{External} `{JSON}.

(** The directory of the store, and the day of an event. *)
Variable dir : string.
Variable date : Event → string.

Definition event_file (day : string) : string := path_Join [dir; day +:+ ".jsonl"].

Fixpoint validate_batch (events : list Event) : option error :=
  match events with
  | [] => None
  | ev :: r =>
      match ParseEvent ev with
      | Err err => Some (errorf_w ("validate event " +:+ ev_ID ev +:+ ": ") err)
      | Ok _ => validate_batch r
      end
  end.

Definition add_by_date (m : gmap string (list Event)) (ev : Event) : gmap string (list Event) :=
  <[date ev := default [] (m !! date ev) ++ [ev]]> m.
Definition by_date (events : list Event) : gmap string (list Event) := fold_left add_by_date events ∅.

Definition write_event (filename : string) (total : Z) (ev : Event) : program (Z + error) :=
  match json_event ev with
  | Err marshalErr =>
      _ ← atom file_Close;
      mret (inr (errorf_w ("marshal event " +:+ ev_ID ev +:+ ": ") marshalErr))
  | Ok line =>
      let data := line ++ [nl] in
      r ← atom (file_Append filename data);
      match r with
      | Err writeErr =>
          _ ← atom file_Close;
          mret (inr (errorf_w ("write event " +:+ ev_ID ev +:+ ": ") writeErr))
      | Ok _ => mret (inl (total + Z.of_nat (length data))%Z)
      end
  end.

Definition append_day (total : Z) (entry : string * list Event) : program (Z + error) :=
  let '(day, evs) := entry in
  r ← atom (os_OpenAppend (event_file day));
  match r with
  | Err err => mret (inr (errorf_w ("open event file " +:+ day +:+ ": ") err))
  | Ok _ =>
      o ← for_range evs total (write_event (event_file day));
      match o with
      | inr err => mret (inr err)
      | inl total =>
          s ← atom file_Sync;
          match s with
          | Err err => _ ← atom file_Close; mret (inr (errorf_w ("fsync event file " +:+ day +:+ ": ") err))
          | Ok _ =>
              c ← atom file_Close;
              match c with
              | Err err => mret (inr (errorf_w ("close event file " +:+ day +:+ ": ") err))
              | Ok _ => mret (inl total)
              end
          end
      end
  end.

(** The number of bytes written, as in [AppendResult]. *)
Definition Append (events : list Event) : program (result Z) :=
  match validate_batch events with
  | Some err => mret (Err err)
  | None =>
      r ← atom (os_MkdirAll dir);
      match r with
      | Err err => mret (Err (errorf_w "create event store dir: " err))
      | Ok _ =>
          o ← for_range (map_to_list (by_date events)) 0%Z append_day;
          match o with
          | inl total => mret (Ok total)
          | inr err => mret (Err err)
          end
      end
  end.

Record LoadResult := mkLoad { lr_FileCount : nat; lr_CorruptLineCount : nat }.

(** One line: blank lines are skipped, corrupt ones counted, old ones left out. *)
Definition load_line (after : Time) (acc : list Event * nat) (line : bytes) : list Event * nat :=
  match line with
  | [] => acc
  | _ =>
      match json_parse line with
      | None => (fst acc, S (snd acc))
      | Some ev =>
          if negb (IsZero after) && negb (after <? ev_Timestamp ev)%Z then acc
          else (fst acc ++ [ev], snd acc)
      end
  end.

Definition load_file (after : Time) (acc : list Event * nat) (name : string)
    : program ((list Event * nat) + error) :=
  r ← atom (os_ReadFile (path_Join [dir; name]));
  match r with
  | Err openErr => mret (inr (errorf_w ("open " +:+ name +:+ ": ") openErr))
  | Ok data =>
      s ← atom (guarded "" (λ w, (Ok tt, w)));
      match s with
      | Err scanErr => mret (inr (errorf_w ("scan " +:+ name +:+ ": ") scanErr))
      | Ok _ =>
          match scan_lines data with
          | Err scanErr => mret (inr (errorf_w ("scan " +:+ name +:+ ": ") scanErr))
          | Ok lines => mret (inl (fold_left (load_line after) lines acc))
          end
      end
  end.

Definition is_jsonl (entry : string * bool) : bool := negb (snd entry) && HasSuffix (fst entry) ".jsonl".
Definition time_less (a b : Event) : bool := (ev_Timestamp a <? ev_Timestamp b)%Z.

Definition loadEvents (after : Time) : program (result (list Event * LoadResult)) :=
  r ← atom (os_ReadDir dir);
  match r with
  | Err err => if errors_Is err ErrNotExist then mret (Ok ([], mkLoad 0 0))
               else mret (Err (errorf_w "read event store dir: " err))
  | Ok entries =>
      let files := sort_Strings (map fst (List.filter is_jsonl entries)) in
      o ← for_range files ([], 0) (load_file after);
      match o with
      | inr err => mret (Err err)
      | inl (events, corrupt) => mret (Ok (stable_sort time_less events, mkLoad (length files) corrupt))
      end
  end.

Definition LoadAll : program (result (list Event * LoadResult)) := loadEvents 0%Z.
Definition LoadSince (after : Time) : program (result (list Event * LoadResult)) := loadEvents after.

Definition after_seq (afterSeqNr : Z) (ev : Event) : bool :=
  (0 <? ev_SeqNr ev)%Z && (afterSeqNr <? ev_SeqNr ev)%Z.
Definition seq_less (a b : Event) : bool := (ev_SeqNr a <? ev_SeqNr b)%Z.

Definition LoadAfterSeqNr (afterSeqNr : Z) : program (result (list Event * LoadResult)) :=
  r ← loadEvents 0%Z;
  match r with
  | Err err => mret (Err err)
  | Ok (all, res) => mret (Ok (stable_sort seq_less (List.filter (after_seq afterSeqNr) all), res))
  end.

Definition store_LatestSeqNr : program (result Z) :=
  r ← loadEvents 0%Z;
  match r with
  | Err err => mret (Err err)
  | Ok (all, _) =>
      mret (Ok (fold_left (λ m ev, if (m <? ev_SeqNr ev)%Z then ev_SeqNr ev else m) all 0%Z))
  end.
End Store.

(** * Theorems *)

(** ** Grouping a list by key *)

Lemma filter_none {A} (P : A → bool) l : (∀ x, x ∈ l → P x = false) → List.filter P l = [].
Proof.
  induction l as [|x l IH]; intros Hl; cbn; [done|]. rewrite (Hl x) by (by left).
  apply IH. intros y Hy. apply Hl. by right.
Qed.

(** When only the group of [k0] has elements that satisfy the predicate, the
    concatenation of the groups has exactly those of that group. *)
Lemma filter_groups {A K} (P : A → bool) (g : K → list A) (k0 : K) (keys : list K) :
  NoDup keys → (∀ k x, k ∈ keys → x ∈ g k → P x = true → k = k0) →
  k0 ∈ keys ∨ List.filter P (g k0) = [] →
  List.filter P (mjoin (g <$> keys)) = List.filter P (g k0).
Proof.
  assert (∀ keys, (∀ k x, k ∈ keys → x ∈ g k → P x = true → k = k0) → k0 ∉ keys ∨ List.filter P (g k0) = [] →
    List.filter P (mjoin (g <$> keys)) = []) as Hnone.
  { intros ks Hk Hn. apply filter_none. intros x (l & Hx & Hl)%list_elem_of_join.
    apply list_elem_of_fmap in Hl as (k & -> & Hin). destruct (P x) eqn:E; [|done].
    rewrite <- (Hk k x) in Hn by done. destruct Hn as [Hn|Hn]; [done|].
    assert (x ∈ List.filter P (g k)) as Hf by (by rewrite elem_of_bfilter).
    rewrite Hn in Hf. by apply elem_of_nil in Hf. }
  intros Hnd Hk [Hin|Hz]; [|rewrite Hz; by apply Hnone; [|right]].
  apply list_elem_of_split in Hin as (l1 & l2 & ->). apply NoDup_app in Hnd as (_ & Hd & Hnd).
  apply NoDup_cons in Hnd as [Hn2 _].
  rewrite fmap_app, fmap_cons, join_app, mjoin_cons, !List.filter_app.
  rewrite (Hnone l1), (Hnone l2), app_nil_r; [done| |by left| |].
  - intros k x Hk1. apply Hk. apply elem_of_app. right. by right.
  - intros k x Hk1. apply Hk. apply elem_of_app. by left.
  - left. intros Hk1. apply (Hd k0 Hk1). by left.
Qed.

Lemma groups_perm {A K} `{EqDecision K} (key : A → K) (keys : list K) (l : list A) :
  NoDup keys → (∀ x, x ∈ l → key x ∈ keys) →
  mjoin ((λ k, List.filter (λ x, bool_decide (key x = k)) l) <$> keys) ≡ₚ l.
Proof.
  intros Hnd. revert l. induction Hnd as [|k keys Hk _ IH]; intros l Hl.
  - destruct l as [|x l]; [done|]. assert (key x ∈ []) as []%elem_of_nil by (apply Hl; by left).
  - rewrite fmap_cons, mjoin_cons.
    assert ((λ k', List.filter (λ x, bool_decide (key x = k')) l) <$> keys =
            (λ k', List.filter (λ x, bool_decide (key x = k'))
                     (List.filter (λ x, negb (bool_decide (key x = k))) l)) <$> keys) as ->.
    { apply list_fmap_ext. intros n k' Hk'%list_elem_of_lookup_2. symmetry. apply filter_filter_disjoint.
      intros x Hx%bool_decide_eq_true_1. rewrite bool_decide_eq_false_2; [done|]. congruence. }
    rewrite IH.
    + clear. induction l as [|x l IHl]; [done|]. cbn [List.filter].
      destruct (bool_decide (key x = k)); cbn [negb]; [by rewrite <- app_comm_cons, IHl|].
      by rewrite <- Permutation_middle, IHl.
    + intros x [Hx Hn]%elem_of_bfilter. destruct (proj1 (elem_of_cons _ _ _) (Hl x Hx)) as [E|]; [|done].
      by rewrite bool_decide_eq_true_2 in Hn.
Qed.

Lemma filter_comm {A} (f g : A → bool) l : List.filter f (List.filter g l) = List.filter g (List.filter f l).
Proof. induction l as [|x l IH]; [done|]. cbn. destruct (f x) eqn:F, (g x) eqn:G; cbn; rewrite ?F, ?G, IH; done. Qed.

Lemma filter_all {A} (f : A → bool) l : (∀ x, f x = true) → List.filter f l = l.
Proof. intros Hf. induction l as [|x l IH]; [done|]. cbn. by rewrite Hf, IH. Qed.

(** ** Lines *)

Lemma split_lines_line cur line rest :
  nl ∉ line → split_lines cur (line ++ nl :: rest) = (cur ++ line) :: split_lines [] rest.
Proof.
  revert cur. induction line as [|c line IH]; intros cur Hn; cbn [app split_lines].
  - by rewrite bool_decide_eq_true_2, app_nil_r.
  - apply not_elem_of_cons in Hn as [Hc Hn]. rewrite bool_decide_eq_false_2 by congruence.
    rewrite IH by done. by rewrite <- app_assoc.
Qed.

Lemma dropCR_id line : cr ∉ line → dropCR line = line.
Proof.
  intros Hn. unfold dropCR. rewrite bool_decide_eq_false_2; [done|]. intros Hl. apply Hn.
  by apply last_Some_elem_of.
Qed.

(** The lines of a file that was written line by line. *)
Lemma scan_lines_text (ls : list bytes) :
  Forall (λ l, (nl ∉ l) ∧ (cr ∉ l) ∧ too_long l = false) ls →
  scan_lines (mjoin ((λ l, l ++ [nl]) <$> ls)) = Ok ls.
Proof.
  intros Hls. unfold scan_lines.
  assert (split_lines [] (mjoin ((λ l, l ++ [nl]) <$> ls)) = ls) as ->.
  { induction Hls as [|l ls (Hn & _) _ IH]; [done|]. rewrite fmap_cons, mjoin_cons, <- app_assoc. cbn [app].
    rewrite split_lines_line by done. by rewrite IH. }
  replace (existsb too_long ls) with false.
  - f_equal. induction Hls as [|l ls (_ & Hc & _) _ IH]; [done|]. cbn. by rewrite dropCR_id, IH.
  - induction Hls as [|l ls (_ & _ & Ht) _ IH]; [done|]. cbn. by rewrite Ht, <- IH.
Qed.

Lemma HasSuffix_app s p : HasSuffix (s +:+ p) p = true.
Proof.
  induction s as [|c s IH]; cbn [append].
  - change ("" +:+ p) with p. destruct p as [|c p]; [done|]. cbn [HasSuffix].
    by rewrite bool_decide_eq_true_2.
  - change (String c s +:+ p) with (String c (s +:+ p)). cbn [HasSuffix]. rewrite IH. by case_bool_decide.
Qed.

Lemma app_str_inj_l s t p : s +:+ p = t +:+ p → s = t.
Proof.
  intros E. apply (f_equal raw) in E. rewrite !raw_app in E. apply app_inv_tail in E.
  by apply raw_inj.
Qed.

Section Refinement.
Context `{External} `{JL : JSONLaws}.
Variable dir : string.
Variable date : Event → string.
Hypothesis date_plain : ∀ e, plain (date e +:+ ".jsonl").

#[local] Abbreviation file := (λ e, date e +:+ ".jsonl").

(** An event the codec keeps, on a line the reader accepts. *)
Definition storable (e : Event) : Prop :=
  ParseEvent e = Ok e ∧ json_faithful e ∧ ∀ b, json_event e = Ok b → too_long b = false.

Definition encoded (e : Event) : bytes := match json_event e with Ok b => b | Err _ => [] end.
Definition text (evs : list Event) : bytes := mjoin ((λ e, encoded e ++ [nl]) <$> evs).

Lemma storable_encoded e : storable e →
  json_event e = Ok (encoded e) ∧ json_parse (encoded e) = Some e ∧ encoded e ≠ [] ∧
  (nl ∉ encoded e) ∧ (cr ∉ encoded e) ∧ too_long (encoded e) = false.
Proof.
  intros (_ & Hf & Ht). destruct (json_roundtrip e Hf) as (b & Eb & Ep). unfold encoded. rewrite Eb.
  destruct (json_event_one_line e b Eb). split_and!; auto. by eapply json_event_nonempty.
Qed.

Lemma scan_text evs : Forall storable evs → scan_lines (text evs) = Ok (encoded <$> evs).
Proof.
  intros Hs. unfold text. rewrite <- (scan_lines_text (encoded <$> evs)).
  - f_equal. f_equal. by rewrite <- list_fmap_compose.
  - apply Forall_fmap. eapply Forall_impl; [exact Hs|]. intros e He. cbn.
    by destruct (storable_encoded e He) as (_ & _ & _ & ?).
Qed.

Lemma text_app l k : text (l ++ k) = text l ++ text k.
Proof. unfold text. by rewrite fmap_app, join_app. Qed.

(** What [loadEvents] keeps. *)
Definition newer (after : Time) (e : Event) : bool := IsZero after || (after <? ev_Timestamp e)%Z.

Lemma load_lines after evs acc n :
  Forall storable evs →
  fold_left (load_line after) (encoded <$> evs) (acc, n) = (acc ++ List.filter (newer after) evs, n).
Proof.
  intros Hs. revert acc. induction Hs as [|e evs He _ IH]; intros acc; cbn [fold_left fmap list_fmap List.filter];
    [by rewrite app_nil_r|].
  assert (load_line after (acc, n) (encoded e) = (acc ++ (if newer after e then [e] else []), n)) as ->.
  { destruct (storable_encoded e He) as (_ & Hp & Hne & _). unfold load_line, newer.
    destruct (encoded e); [done|]. rewrite Hp. cbn [fst snd].
    destruct (IsZero after), (after <? ev_Timestamp e)%Z; cbn [negb andb orb]; by rewrite ?app_nil_r. }
  rewrite IH. destruct (newer after e); [by rewrite <- app_assoc|by rewrite app_nil_r].
Qed.

(** ** The store as a list of events *)

Definition in_file (name : string) (evs : list Event) : list Event :=
  List.filter (λ e, bool_decide (file e = name)) evs.

(** The directory holds the events [evs], each in the file of its day; the
    file [opened] exists even when it has none yet. *)
Record rep (opened : option string) (evs : list Event) (fs : gmap string node) : Prop := {
  rep_dir : fs !! Clean dir = Some NDir;
  rep_file : ∀ name, plain name → HasSuffix name ".jsonl" = true →
    fs !! path_Join [dir; name] =
      if bool_decide (in_file name evs = [] ∧ opened ≠ Some name) then None
      else Some (NFile (text (in_file name evs)));
  rep_keys : ∀ k, is_Some (fs !! k) → Dir k = Clean dir → k ≠ Clean dir →
    ∃ name, plain name ∧ k = path_Join [dir; name];
  rep_storable : Forall storable evs }.

Lemma in_file_app name l k : in_file name (l ++ k) = in_file name l ++ in_file name k.
Proof. apply List.filter_app. Qed.

Lemma file_suffix e : HasSuffix (file e) ".jsonl" = true.
Proof. apply HasSuffix_app. Qed.

(** The contents of two event lists are the same when each file's are. *)
Lemma rep_ext opened evs evs' fs :
  rep opened evs fs → (∀ name, in_file name evs' = in_file name evs) → Forall storable evs' → rep opened evs' fs.
Proof. intros [R1 R2 R3 R4] He Hs. constructor; auto. intros name Hp Hn. by rewrite He, R2. Qed.

(** Writing the whole content of one day's file. *)
Lemma rep_write name evs evs' fs :
  rep None evs fs ∨ rep (Some name) evs fs → plain name →
  (∀ name', name' ≠ name → in_file name' evs' = in_file name' evs) → Forall storable evs' →
  rep (Some name) evs' (<[path_Join [dir; name] := NFile (text (in_file name evs'))]> fs).
Proof.
  intros HR Hp Ho Hs.
  assert (∀ name', name' ≠ name → plain name' → HasSuffix name' ".jsonl" = true → fs !! path_Join [dir; name'] =
      if bool_decide (in_file name' evs = []) then None else Some (NFile (text (in_file name' evs)))) as Hf.
  { destruct HR as [HR|HR]; intros name' Hne Hp' Hn';
      rewrite (rep_file _ _ _ HR name' Hp' Hn'); apply (f_equal (λ b : bool, if b then _ else _));
      apply bool_decide_ext; naive_solver. }
  constructor; [| | |done].
  - rewrite lookup_insert_ne by (by apply path_Join_ne). by destruct HR as [[]|[]].
  - intros name' Hp' Hn'. destruct (decide (name' = name)) as [->|Hne].
    + rewrite lookup_insert_eq, bool_decide_eq_false_2; [done|]. naive_solver.
    + rewrite lookup_insert_ne by (intros [? _]%path_Join_inj; [|done..]; congruence).
      rewrite Ho, Hf by done. apply (f_equal (λ b : bool, if b then _ else _)).
      apply bool_decide_ext. naive_solver.
  - intros k Hk Hd Hne. destruct (decide (k = path_Join [dir; name])) as [->|Hk']; [by exists name|].
    rewrite lookup_insert_ne in Hk by done. destruct HR as [HR|HR]; by apply HR.
Qed.

Lemma rep_close name evs fs : rep (Some name) evs fs → in_file name evs ≠ [] → rep None evs fs.
Proof.
  intros [R1 R2 R3 R4] Hne. constructor; auto. intros name' Hp Hn. rewrite R2 by done.
  apply (f_equal (λ b : bool, if b then _ else _)). apply bool_decide_ext. naive_solver.
Qed.

(** ** Appending *)

Variable env : Env.
Hypothesis env_ok : no_faults env.

Lemma guarded_run {A} pre (m : act (result A)) w : w_env w = env → guarded pre m w = m (bump w).
Proof using env_ok. intros Hw. unfold guarded, fault. by rewrite Hw, env_ok. Qed.

(** The store holds these events, and nothing fails. *)
Definition holds_events (opened : option string) (evs : list Event) (w : World) : Prop :=
  rep opened evs (w_fs w) ∧ w_env w = env.

Lemma lookup_day name w : plain name → lookup_path w (path_Join [dir; name]) = w_fs w !! path_Join [dir; name].
Proof. intros Hp. unfold lookup_path. by rewrite (Clean_Join dir name Hp). Qed.

Lemma OpenAppend_ok i day evs w :
  plain (day +:+ ".jsonl") → holds_events None evs w →
  runs i (atom (os_OpenAppend (event_file dir day)))
    (λ r v, r = Ok tt ∧ holds_events (Some (day +:+ ".jsonl")) evs v) w.
Proof using env_ok.
  intros Hp [HR Hw]. apply runs_atom. unfold os_OpenAppend. rewrite guarded_run by done. unfold event_file.
  set (name := day +:+ ".jsonl") in *. rewrite (lookup_day name) by done. change (w_fs (bump w)) with (w_fs w).
  pose proof (rep_file _ _ _ HR name Hp (HasSuffix_app day ".jsonl")) as Hf. rewrite Hf.
  assert (rep (Some name) evs (<[path_Join [dir; name] := NFile (text (in_file name evs))]> (w_fs w))) as HI
    by (apply (rep_write name evs); [by left|done|done|apply HR]).
  destruct (bool_decide _) eqn:E; cbn [fst snd].
  - rewrite Dir_Join by done. unfold lookup_path. rewrite Clean_idem. change (w_fs (bump w)) with (w_fs w).
    rewrite (rep_dir _ _ _ HR). cbn [fst snd]. split; [done|]. split; [|done]. cbn [w_fs set_fs].
    rewrite (Clean_Join dir name Hp). apply bool_decide_eq_true_1 in E as [E _]. by rewrite E in HI.
  - split; [done|]. split; [|done]. change (w_fs (bump w)) with (w_fs w). by rewrite insert_id in HI.
Qed.

Lemma write_event_ok i day total e evs w :
  date e = day → storable e → holds_events (Some (file e)) evs w →
  runs i (write_event (event_file dir day) total e)
    (λ o v, ∃ t, o = inl t ∧ holds_events (Some (file e)) (evs ++ [e]) v) w.
Proof using JL env_ok date_plain.
  intros <- He [HR Hw]. unfold write_event. destruct (storable_encoded e He) as (-> & _). cbv zeta.
  apply runs_bind, runs_atom. unfold file_Append, fault. rewrite Hw, env_ok. cbn [fst snd].
  unfold event_file. rewrite (lookup_day (file e)) by done. change (w_fs (bump w)) with (w_fs w).
  rewrite (rep_file _ _ _ HR (file e) (date_plain e) (file_suffix e)), bool_decide_eq_false_2 by naive_solver.
  eexists. split; [done|]. split; [|done]. cbn [w_fs set_fs]. rewrite (Clean_Join dir (file e)) by done.
  assert (in_file (file e) (evs ++ [e]) = in_file (file e) evs ++ [e]) as Hin.
  { rewrite in_file_app. unfold in_file at 2. cbn. by rewrite bool_decide_eq_true_2. }
  replace (text (in_file (file e) evs) ++ encoded e ++ [nl]) with (text (in_file (file e) (evs ++ [e]))).
  - apply (rep_write (file e) evs); [by right|done| |].
    + intros name' Hne. rewrite in_file_app. unfold in_file at 2. cbn. rewrite bool_decide_eq_false_2 by congruence.
      apply app_nil_r.
    + apply Forall_app. split; [apply HR|by constructor].
  - rewrite Hin, text_app. f_equal. unfold text. cbn. by rewrite app_nil_r.
Qed.

Lemma in_file_same name l : Forall (λ e, file e = name) l → in_file name l = l.
Proof.
  intros Hl. unfold in_file. induction Hl as [|e l He _ IH]; [done|]. cbn. by rewrite bool_decide_eq_true_2, IH.
Qed.

Lemma append_day_ok i total day l evs w :
  l ≠ [] → Forall (λ e, date e = day ∧ storable e) l → plain (day +:+ ".jsonl") → holds_events None evs w →
  runs i (append_day dir total (day, l)) (λ o v, ∃ t, o = inl t ∧ holds_events None (evs ++ l) v) w.
Proof using JL env_ok date_plain.
  intros Hne Hl Hp Hw. unfold append_day. apply runs_bind.
  eapply runs_mono; [|by apply OpenAppend_ok]. cbn beta. intros r v [-> Hv]. apply runs_bind.
  eapply runs_mono; [|apply (runs_for_range i _
    (λ done _ u, holds_events (Some (day +:+ ".jsonl")) (evs ++ done) u) l [] total v); [|by rewrite app_nil_r]].
  - cbn beta. intros o u (t & -> & [HR Hu]). cbn [app] in HR.
    apply runs_bind, runs_atom. unfold file_Sync. rewrite guarded_run by done. cbn [fst snd].
    apply runs_bind, runs_atom. unfold file_Close. rewrite guarded_run by done. cbn [fst snd].
    exists t. split; [done|]. split; [|done]. apply (rep_close (day +:+ ".jsonl")); [done|].
    rewrite in_file_app, (in_file_same _ l).
    + by destruct (in_file _ evs), l.
    + eapply Forall_impl; [exact Hl|]. by intros e [-> _].
  - intros dn e s u He Hu. rewrite Forall_forall in Hl. destruct (Hl e He) as [Hd Hs].
    eapply runs_mono; [|apply (write_event_ok i day s e (evs ++ dn)); [done|done|by rewrite Hd]].
    cbn beta. intros o u' (t & -> & Hu'). exists t. rewrite Hd, <- app_assoc in Hu'. by split.
Qed.

(** ** A batch by day *)

Definition on_day (day : string) (l : list Event) : list Event :=
  List.filter (λ e, bool_decide (date e = day)) l.

Lemma by_date_lookup l day :
  by_date date l !! day = match on_day day l with [] => None | k => Some k end.
Proof.
  induction l as [|e l IH] using rev_ind; [done|].
  unfold by_date in *. rewrite fold_left_app. cbn [fold_left]. unfold add_by_date at 1.
  unfold on_day in *. rewrite List.filter_app. cbn [List.filter]. rewrite lookup_insert.
  case_decide as Hd.
  - rewrite bool_decide_eq_true_2 by done. subst day. rewrite IH. by destruct (List.filter _ l).
  - rewrite bool_decide_eq_false_2 by done. by rewrite app_nil_r, IH.
Qed.

Lemma elem_of_by_date l day k :
  (day, k) ∈ map_to_list (by_date date l) ↔ k = on_day day l ∧ k ≠ [].
Proof.
  rewrite elem_of_map_to_list, by_date_lookup. destruct (on_day day l); naive_solver.
Qed.

(** The days one after the other hold the same events per file as the batch. *)
Lemma in_file_by_date name l :
  in_file name (mjoin (snd <$> map_to_list (by_date date l))) = in_file name l.
Proof.
  set (es := map_to_list (by_date date l)).
  assert (snd <$> es = (λ day, on_day day l) <$> (fst <$> es)) as ->.
  { rewrite <- list_fmap_compose. apply list_fmap_ext. intros n [day k] Hn%list_elem_of_lookup_2.
    by apply elem_of_by_date in Hn as [-> _]. }
  destruct (in_file name l) as [|e r] eqn:E.
  - apply filter_none. intros x (k & Hx & Hk)%list_elem_of_join. apply list_elem_of_fmap in Hk as (day & -> & _).
    unfold on_day in Hx. rewrite elem_of_bfilter in Hx. destruct Hx as [Hx _].
    apply not_true_iff_false. intros Hb. assert (x ∈ in_file name l) as Hin
      by (unfold in_file; by rewrite elem_of_bfilter).
    rewrite E in Hin. by apply elem_of_nil in Hin.
  - rewrite <- E. assert (e ∈ in_file name l) as He by (rewrite E; by left).
    unfold in_file in He. rewrite elem_of_bfilter in He.
    destruct He as [Hel Hen%bool_decide_eq_true_1].
    unfold in_file at 1. rewrite (filter_groups _ _ (date e)).
    + unfold on_day. rewrite filter_filter_disjoint; [done|]. intros x Hx%bool_decide_eq_true_1.
      apply bool_decide_eq_true_2. rewrite <- Hen in Hx. by eapply app_str_inj_l.
    + apply NoDup_fst_map_to_list.
    + intros day x _ Hx Hn%bool_decide_eq_true_1. unfold on_day in Hx.
      rewrite elem_of_bfilter in Hx. destruct Hx as [_ Hx%bool_decide_eq_true_1].
      subst day. rewrite <- Hen in Hn. by eapply app_str_inj_l.
    + left. apply list_elem_of_fmap. exists (date e, on_day (date e) l). split; [done|].
      apply elem_of_by_date. split; [done|]. intros Hz.
      assert (e ∈ on_day (date e) l) as Hin.
      { unfold on_day. rewrite elem_of_bfilter. split; [done|].
        by apply bool_decide_eq_true_2. }
      rewrite Hz in Hin. by apply elem_of_nil in Hin.
Qed.

(** ** The whole batch *)

(** Before the first append the directory may be missing; its parent is not. *)
Definition missing (fs : gmap string node) : Prop :=
  Clean dir ≠ "/" ∧ Clean dir ≠ "." ∧ fs !! Clean dir = None ∧ fs !! Dir (Clean dir) = Some NDir ∧
  ∀ k, is_Some (fs !! k) → Dir k = Clean dir → k = Clean dir.

Definition store_at (evs : list Event) (w : World) : Prop :=
  holds_events None evs w ∨ evs = [] ∧ missing (w_fs w) ∧ w_env w = env.

Lemma rep_created fs : missing fs → rep None [] (<[Clean dir := NDir]> fs).
Proof.
  intros (_ & _ & _ & _ & Hk). constructor; [by rewrite lookup_insert_eq| | |done].
  - intros name Hp _. rewrite lookup_insert_ne by (intros E; by apply (path_Join_ne dir name)).
    rewrite bool_decide_eq_true_2 by done. destruct (fs !! _) eqn:E; [|done].
    destruct (path_Join_ne dir name Hp). apply Hk; [by eexists|by apply Dir_Join].
  - intros k Hs Hd Hne. rewrite lookup_insert_ne in Hs by done. by destruct Hne; apply Hk.
Qed.

Lemma MkdirAll_ok i evs w :
  store_at evs w → runs i (atom (os_MkdirAll dir)) (λ r v, r = Ok tt ∧ holds_events None evs v) w.
Proof using env_ok.
  intros Hs. assert (w_env w = env) as Hw by (by destruct Hs as [[_ ?]|(_ & _ & ?)]).
  apply runs_atom. unfold os_MkdirAll. rewrite guarded_run by done. change (w_fs (bump w)) with (w_fs w).
  destruct Hs as [[HR _]|(-> & Hm & _)].
  - assert (∀ n, mkdir_all n (Clean dir) (w_fs w) = Ok (w_fs w)) as ->.
    { intros [|n]; cbn [mkdir_all]; rewrite (rep_dir _ _ _ HR); by destruct (_ || _). }
    cbn. by split.
  - pose proof Hm as (H1 & H2 & H3 & H4 & _). destruct dir as [|c d] eqn:Ed; [done|]. rewrite <- Ed in *.
    assert (mkdir_all (slen dir) (Clean dir) (w_fs w) = Ok (<[Clean dir := NDir]> (w_fs w))) as ->.
    { rewrite Ed at 1. cbn [slen mkdir_all]. rewrite !bool_decide_eq_false_2, H3 by done. cbn [orb].
      assert (∀ n, mkdir_all n (Dir (Clean dir)) (w_fs w) = Ok (w_fs w)) as ->; [|done].
      intros [|n]; cbn [mkdir_all]; rewrite H4; by destruct (_ || _). }
    cbn [fst snd]. split; [done|]. split; [|done]. by apply rep_created.
Qed.

Lemma validate_batch_ok l : Forall storable l → validate_batch l = None.
Proof. induction 1 as [|e l (Hv & _) _ IH]; [done|]. cbn. by rewrite Hv. Qed.

Lemma Append_ok i batch evs w :
  Forall storable batch → store_at evs w →
  runs i (Append dir date batch) (λ r v, ∃ n, r = Ok n ∧ holds_events None (evs ++ batch) v) w.
Proof using JL env_ok date_plain.
  intros Hb Hs. unfold Append. rewrite validate_batch_ok by done. apply runs_bind.
  eapply runs_mono; [|by apply MkdirAll_ok]. cbn beta. intros r v [-> Hv]. apply runs_bind.
  eapply runs_mono; [|apply (runs_for_range i _
    (λ dn _ u, holds_events None (evs ++ mjoin (snd <$> dn)) u) _ [] 0%Z v); [|by rewrite app_nil_r]].
  - cbn beta. intros o u (n & -> & [HR Hu]). exists n. split; [done|]. split; [|done].
    cbn [app] in HR. eapply rep_ext; [exact HR| |].
    + intros name. by rewrite !in_file_app, in_file_by_date.
    + apply Forall_app. split; [|done]. by pose proof (rep_storable _ _ _ HR) as [? _]%Forall_app.
  - intros dn [day l] s u [-> Hne]%elem_of_by_date Hu.
    eapply runs_mono; [|apply (append_day_ok i s day); [done| | |exact Hu]].
    + cbn beta. intros o u' (n & -> & Hu'). exists n. split; [done|]. cbn [app] in *.
      rewrite fmap_app, join_app. cbn. by rewrite app_nil_r, app_assoc.
    + apply Forall_forall. intros e [He Hd%bool_decide_eq_true_1]%elem_of_bfilter. split; [done|].
      by eapply Forall_forall in Hb.
    + destruct (on_day day batch) as [|e r] eqn:E; [done|].
      assert (e ∈ on_day day batch) as [_ Hd%bool_decide_eq_true_1]%elem_of_bfilter by (rewrite E; by left).
      rewrite <- Hd. apply date_plain.
Qed.

(** ** Loading *)

Lemma ReadDir_ok w evs :
  holds_events None evs w → ∃ entries, os_ReadDir dir w = (Ok entries, bump w) ∧ NoDup entries.*1 ∧
    ∀ n b, (n, b) ∈ entries ↔
      plain n ∧ ∃ nd, w_fs w !! path_Join [dir; n] = Some nd ∧ b = match nd with NDir => true | NFile _ => false end.
Proof using env_ok.
  intros [HR Hw]. unfold os_ReadDir. rewrite guarded_run by done. unfold lookup_path.
  change (w_fs (bump w)) with (w_fs w). rewrite (rep_dir _ _ _ HR). eexists. split; [done|].
  assert (∀ k nd, (k, nd) ∈ children (w_fs w) dir ↔
    ∃ n, plain n ∧ k = path_Join [dir; n] ∧ w_fs w !! k = Some nd) as Hc.
  { intros k nd. unfold children. rewrite list_elem_of_filter, elem_of_map_to_list. cbn [fst]. split.
    - intros [[Hd Hne] Hk]. destruct (rep_keys _ _ _ HR k) as (n & Hp & ->); [by eexists|done|done|]. by exists n.
    - intros (n & Hp & -> & Hk). split; [|done]. split; [by apply Dir_Join|by apply path_Join_ne]. }
  split.
  - rewrite merge_sort_Permutation, <- list_fmap_compose. apply NoDup_fmap_2_strong.
    + intros [k1 n1] [k2 n2] H1 H2. cbn. apply Hc in H1 as (a & Ha & -> & L1). apply Hc in H2 as (b & Hb & -> & L2).
      rewrite !Base_Join by done. intros ->. rewrite L1 in L2. by injection L2 as ->.
    + apply NoDup_filter, NoDup_map_to_list.
  - intros n b. rewrite merge_sort_Permutation, list_elem_of_fmap. split.
    + intros ([k nd] & [= -> ->] & (a & Ha & -> & L)%Hc). cbn [fst snd] in *. rewrite Base_Join by done. eauto.
    + intros (Hp & nd & L & ->). exists (path_Join [dir; n], nd). cbn [fst snd]. rewrite Base_Join by done.
      split; [done|]. apply Hc. eauto.
Qed.

(** The event files in the order they are read. *)
Definition files_of (evs : list Event) : list string := sort_Strings (remove_dups (file <$> evs)).

Lemma in_file_nonempty name evs : in_file name evs ≠ [] ↔ name ∈ file <$> evs.
Proof.
  rewrite list_elem_of_fmap. split.
  - destruct (in_file name evs) as [|e r] eqn:E; [done|]. intros _. exists e.
    assert (e ∈ in_file name evs) as [? ?%bool_decide_eq_true_1]%elem_of_bfilter by (rewrite E; by left). done.
  - intros (e & -> & He) Hz. assert (e ∈ in_file (date e +:+ ".jsonl") evs) as Hin.
    { apply elem_of_bfilter. split; [done|]. by apply bool_decide_eq_true_2. }
    rewrite Hz in Hin. by apply elem_of_nil in Hin.
Qed.

Lemma dir_files w evs entries :
  rep None evs (w_fs w) → NoDup entries.*1 →
  (∀ n b, (n, b) ∈ entries ↔ plain n ∧ ∃ nd, w_fs w !! path_Join [dir; n] = Some nd ∧
     b = match nd with NDir => true | NFile _ => false end) →
  sort_Strings (map fst (List.filter is_jsonl entries)) = files_of evs.
Proof using date_plain.
  intros HR Hnd He. apply sort_Strings_canonical, NoDup_Permutation.
  - clear -Hnd. induction entries as [|[n b] l IH]; [constructor|]. cbn in Hnd |- *.
    apply NoDup_cons in Hnd as [Hn Hl]. destruct (is_jsonl (n, b)); [|by apply IH]. cbn. constructor; [|by apply IH].
    intros (y & Hy & [Hin _]%elem_of_bfilter)%list_elem_of_fmap. apply Hn, list_elem_of_fmap. by exists y.
  - apply NoDup_remove_dups.
  - intros name. rewrite elem_of_remove_dups, <- in_file_nonempty.
    change (map fst ?l) with (fst <$> l). rewrite list_elem_of_fmap. split.
    + intros ([n b] & -> & [Hin Hj]%elem_of_bfilter). unfold is_jsonl in Hj. cbn [fst snd] in *.
      apply andb_true_iff in Hj as [_ Hj]. apply He in Hin as (Hp & nd & L & _).
      rewrite (rep_file _ _ _ HR n Hp Hj) in L. intros Hz. rewrite Hz, bool_decide_eq_true_2 in L by done. done.
    + intros Hne. assert (plain name ∧ HasSuffix name ".jsonl" = true) as [Hp Hj].
      { apply in_file_nonempty, list_elem_of_fmap in Hne as (e & -> & _). split; [done|apply file_suffix]. }
      exists (name, false). split; [done|]. apply elem_of_bfilter. split; [|done]. apply He. split; [done|].
      rewrite (rep_file _ _ _ HR name Hp Hj), bool_decide_eq_false_2 by naive_solver. by eexists.
Qed.

Lemma load_file_ok i after name acc n evs w :
  name ∈ file <$> evs → holds_events None evs w →
  runs i (load_file dir after (acc, n) name) (λ o v,
    o = inl (acc ++ List.filter (newer after) (in_file name evs), n) ∧ holds_events None evs v) w.
Proof using JL env_ok date_plain.
  intros Hn [HR Hw]. unfold load_file. apply runs_bind, runs_atom. unfold os_ReadFile. rewrite guarded_run by done.
  assert (plain name ∧ HasSuffix name ".jsonl" = true) as [Hp Hj].
  { apply list_elem_of_fmap in Hn as (e & -> & _). split; [done|apply file_suffix]. }
  rewrite (lookup_day name) by done. change (w_fs (bump w)) with (w_fs w).
  rewrite (rep_file _ _ _ HR name Hp Hj), bool_decide_eq_false_2.
  2:{ intros [Hz _]. by apply in_file_nonempty in Hn. }
  cbn [fst snd]. apply runs_bind, runs_atom. rewrite guarded_run by done. cbn [fst snd].
  assert (Forall storable (in_file name evs)) as Hs.
  { apply Forall_forall. intros e [He _]%elem_of_bfilter. pose proof (rep_storable _ _ _ HR) as Hs.
    by eapply Forall_forall in Hs. }
  rewrite scan_text, load_lines by done. by split.
Qed.

(** What is read, in reading order. *)
Definition loaded (after : Time) (evs : list Event) : list Event :=
  mjoin ((λ name, List.filter (newer after) (in_file name evs)) <$> files_of evs).

Lemma elem_of_files_of name evs : name ∈ files_of evs ↔ name ∈ file <$> evs.
Proof. unfold files_of. by rewrite elem_of_sort_Strings, elem_of_remove_dups. Qed.
Lemma files_of_NoDup evs : NoDup (files_of evs).
Proof. unfold files_of. rewrite sort_Strings_perm. apply NoDup_remove_dups. Qed.

Lemma loadEvents_ok i after evs w :
  store_at evs w →
  runs i (loadEvents dir after) (λ r v,
    r = Ok (stable_sort time_less (loaded after evs), mkLoad (length (files_of evs)) 0) ∧ store_at evs v) w.
Proof using JL env_ok date_plain.
  intros [Hw|(-> & Hm & Hw)]; unfold loadEvents; apply runs_bind, runs_atom.
  - destruct (ReadDir_ok w evs Hw) as (entries & -> & Hnd & He). cbn [fst snd].
    rewrite (dir_files w evs entries) by (done || apply Hw). apply runs_bind.
    eapply runs_mono; [|apply (runs_for_range i _
      (λ dn acc u, acc = (mjoin ((λ name, List.filter (newer after) (in_file name evs)) <$> dn), 0) ∧
                   holds_events None evs u) _ [] ([], 0)); [|by split]].
    + cbn beta. intros o u (acc & -> & -> & Hu). cbn [app]. split; [done|by left].
    + intros dn name acc u Hn%elem_of_files_of [-> Hu].
      eapply runs_mono; [|by apply (load_file_ok i after name _ 0 evs)]. cbn beta. intros o v [-> Hv].
      eexists. split; [done|]. split; [|done]. rewrite fmap_app, join_app. cbn. by rewrite app_nil_r.
  - destruct Hm as (? & ? & E & Hm). unfold os_ReadDir. rewrite guarded_run by done. unfold lookup_path.
    change (w_fs (bump w)) with (w_fs w). rewrite E. cbn. split; [done|]. right. split; [done|]. done.
Qed.

Lemma loaded_groups after evs :
  loaded after evs = mjoin ((λ name, in_file name (List.filter (newer after) evs)) <$> files_of evs).
Proof.
  unfold loaded. f_equal. apply list_fmap_ext. intros ? name _. unfold in_file. apply filter_comm.
Qed.

Lemma loaded_perm after evs : loaded after evs ≡ₚ List.filter (newer after) evs.
Proof.
  rewrite loaded_groups. unfold in_file. apply (groups_perm file); [apply files_of_NoDup|].
  intros e [He _]%elem_of_bfilter. apply elem_of_files_of, list_elem_of_fmap. by exists e.
Qed.

(** Events of one instant are in one file, so they keep their order. *)
Hypothesis date_of_time : ∀ e e', ev_Timestamp e = ev_Timestamp e' → date e = date e'.

Lemma loaded_order after evs t :
  List.filter (λ e, (ev_Timestamp e =? t)%Z) (loaded after evs) =
  List.filter (λ e, (ev_Timestamp e =? t)%Z) (List.filter (newer after) evs).
Proof using date_of_time.
  rewrite loaded_groups. set (L := List.filter (newer after) evs).
  destruct (List.filter (λ e, (ev_Timestamp e =? t)%Z) L) as [|e r] eqn:E.
  - apply filter_none. intros x (k & Hx & Hk)%list_elem_of_join. apply list_elem_of_fmap in Hk as (name & -> & _).
    apply elem_of_bfilter in Hx as [Hx _]. destruct (ev_Timestamp x =? t)%Z eqn:Ht; [|done].
    assert (x ∈ List.filter (λ e, (ev_Timestamp e =? t)%Z) L) as Hin by (by apply elem_of_bfilter).
    rewrite E in Hin. by apply elem_of_nil in Hin.
  - rewrite <- E. assert (e ∈ List.filter (λ e, (ev_Timestamp e =? t)%Z) L) as [He Et]%elem_of_bfilter
      by (rewrite E; by left).
    assert (∀ x, (ev_Timestamp x =? t)%Z = true → file x = file e) as Hf.
    { intros x Hx. f_equal. apply date_of_time. lia. }
    rewrite (filter_groups _ _ (file e)).
    + unfold in_file. apply filter_filter_disjoint. intros x Hx. apply bool_decide_eq_true_2. by apply Hf.
    + apply files_of_NoDup.
    + intros name x _ [_ Hx%bool_decide_eq_true_1]%elem_of_bfilter Ht. rewrite <- Hx. by apply Hf.
    + left. apply elem_of_files_of, list_elem_of_fmap. exists e. split; [done|].
      by apply elem_of_bfilter in He as [? _].
Qed.
End Refinement.

(** Batches one after the other. *)
Fixpoint append_all `{External} `{JSON} (dir : string) (date : Event → string) (batches : list (list Event))
    : program (list (result Z)) :=
  match batches with
  | [] => mret []
  | b :: r => x ← Append dir date b; xs ← append_all dir date r; mret (x :: xs)
  end.

Lemma append_all_ok `{External} `{JL : JSONLaws} dir date env i batches evs w :
  (∀ e, plain (date e +:+ ".jsonl")) → no_faults env → Forall (Forall storable) batches →
  store_at dir date env evs w →
  runs i (append_all dir date batches) (λ rs v,
    Forall (λ r, is_ok r = true) rs ∧ store_at dir date env (evs ++ mjoin batches) v) w.
Proof.
  intros Hd He Hb. revert evs w. induction Hb as [|b bs Hb _ IH]; intros evs w Hw; cbn [append_all].
  all: rewrite ?mjoin_cons.
  - split; [constructor|]. by rewrite app_nil_r.
  - apply runs_bind. eapply runs_mono; [|by apply (Append_ok dir date Hd env He i b evs w)].
    cbn beta. intros r v (n & -> & Hv). apply runs_bind.
    eapply runs_mono; [|apply (IH (evs ++ b) v); by left]. cbn beta. intros rs u [Hr Hu].
    apply runs_ret. rewrite <- app_assoc in Hu. split; [by constructor|done].
Qed.

Lemma max_seq_spec (l : list Event) m0 :
  let m := fold_left (λ m ev, if (m <? ev_SeqNr ev)%Z then ev_SeqNr ev else m) l m0 in
  (m0 ≤ m)%Z ∧ (∀ e, e ∈ l → (ev_SeqNr e ≤ m)%Z) ∧ (m = m0 ∨ ∃ e, e ∈ l ∧ ev_SeqNr e = m).
Proof.
  revert m0. induction l as [|x l IH]; intros m0; cbn [fold_left].
  { split_and!; [done| |by left]. by intros e ?%elem_of_nil. }
  destruct (IH (if (m0 <? ev_SeqNr x)%Z then ev_SeqNr x else m0)) as (I1 & I2 & I3).
  cbv zeta in *. set (m := fold_left _ l _) in *. destruct (m0 <? ev_SeqNr x)%Z eqn:E.
  - split_and!; [lia| |].
    + intros e [->|He]%elem_of_cons; [lia|by apply I2].
    + right. destruct I3 as [->|(e & ? & ?)]; [exists x|exists e]; (split; [|done]); [by left|by right].
  - split_and!; [lia| |].
    + intros e [->|He]%elem_of_cons; [lia|by apply I2].
    + destruct I3 as [->|(e & ? & ?)]; [by left|]. right. exists e. split; [by right|done].
Qed.

(** C17: the event store refines an append-only log.  Start from an empty or
    missing directory and append any batches of valid events without failures.
    Every append succeeds.  [LoadAll] and [LoadSince] then return exactly the
    logged events (those newer than the bound), with no corrupt line, sorted
    by time, and events of one instant in the order they were appended;
    [LoadAfterSeqNr] returns exactly those with a greater sequence number, in
    its order; and [LatestSeqNr] is the greatest one, or 0. *)
Theorem event_store_refines_log `{External} `{JSONLaws} (dir : string) (date : Event → string) (i : nat)
    (batches : list (list Event)) (w : World) :
  (∀ e, plain (date e +:+ ".jsonl")) →
  (∀ e e', ev_Timestamp e = ev_Timestamp e' → date e = date e') →
  no_faults (w_env w) → store_at dir date (w_env w) [] w → Forall (Forall storable) batches →
  let '(rs, v) := run i (append_all dir date batches) w in
  let log := mjoin batches in
  Forall (λ r, is_ok r = true) rs ∧
  (∀ after, ∃ evs n, fst (run i (loadEvents dir after) v) = Ok (evs, mkLoad n 0) ∧
     evs ≡ₚ List.filter (newer after) log ∧
     StronglySorted (λ a b, (ev_Timestamp a ≤ ev_Timestamp b)%Z) evs ∧
     ∀ t, List.filter (λ e, (ev_Timestamp e =? t)%Z) evs =
          List.filter (λ e, (ev_Timestamp e =? t)%Z) (List.filter (newer after) log)) ∧
  (∀ k, ∃ evs res, fst (run i (LoadAfterSeqNr dir k) v) = Ok (evs, res) ∧
     evs ≡ₚ List.filter (after_seq k) log ∧ StronglySorted (λ a b, (ev_SeqNr a ≤ ev_SeqNr b)%Z) evs) ∧
  (∃ m, fst (run i (store_LatestSeqNr dir) v) = Ok m ∧ (∀ e, e ∈ log → (ev_SeqNr e ≤ m)%Z) ∧
     (m = 0%Z ∨ ∃ e, e ∈ log ∧ ev_SeqNr e = m)).
Proof.
  intros Hd Ht He Hw Hb.
  pose proof (append_all_ok dir date (w_env w) i batches [] w Hd He Hb Hw) as HA. unfold runs in HA.
  destruct (run i (append_all dir date batches) w) as [rs v]. cbn [fst snd app] in HA. destruct HA as [Hrs Hv].
  cbv zeta. set (log := mjoin batches) in *. clearbody log.
  assert (∀ after, fst (run i (loadEvents dir after) v) =
    Ok (stable_sort time_less (loaded date after log), mkLoad (length (files_of date log)) 0)) as HL.
  { intros after. by destruct (loadEvents_ok dir date Hd (w_env w) He i after log v Hv). }
  assert (∀ after, stable_sort time_less (loaded date after log) ≡ₚ List.filter (newer after) log) as HP.
  { intros after. by rewrite stable_sort_perm, loaded_perm. }
  split; [done|]. split; [|split].
  - intros after. eexists _, _. split; [apply HL|]. split_and!; [apply HP|apply (stable_sort_sorted ev_Timestamp)|].
    intros t. by rewrite (stable_sort_stable ev_Timestamp), (loaded_order date Ht).
  - intros k. unfold LoadAfterSeqNr. run_bind. specialize (HL 0%Z).
    destruct (run i (loadEvents dir 0%Z) v) as [r v1]. cbn [fst] in HL. subst r. cbn.
    eexists _, _. split; [done|]. split; [|apply (stable_sort_sorted ev_SeqNr)].
    by rewrite stable_sort_perm, (HP 0%Z), (filter_all (newer 0)).
  - unfold store_LatestSeqNr. run_bind. specialize (HL 0%Z).
    destruct (run i (loadEvents dir 0%Z) v) as [r v1]. cbn [fst] in HL. subst r. cbn [run mret prog_mret fst].
    eexists. split; [done|]. destruct (max_seq_spec (stable_sort time_less (loaded date 0 log)) 0) as (_ & M2 & M3).
    assert (∀ e, e ∈ stable_sort time_less (loaded date 0 log) ↔ e ∈ log) as Hin.
    { intros e. by rewrite (HP 0%Z), (filter_all (newer 0)). }
    setoid_rewrite Hin in M2. setoid_rewrite Hin in M3. by split.
Qed.

(** ** A concrete store *)

Definition store_world (env : Env) : World :=
  mkWorld {[ "/s" := NDir ]} ∅ [] [] [] [] [] None None no_state [] [] 0 env.
Definition quiet_env : Env := mkEnv (λ _, None) (λ _, 0%Z) (λ _, 0%Z) (λ _, "x") (λ _, 0).
Definition utc_date (e : Event) : string := format_date (ev_Timestamp e).
Definition sample_ev (id : string) (t : Time) (n : Z) : Event :=
  mkEvent 1 id EventDeliveryCompleted t (raw "{}") "" "" "" "" "" n.

Lemma utc_date_plain e : plain (utc_date e +:+ ".jsonl").
Proof.
  unfold utc_date. pose proof (format_date_no_slash (ev_Timestamp e)) as Hs. unfold plain.
  assert (5 < slen (format_date (ev_Timestamp e) +:+ ".jsonl")) as Hl by (rewrite slen_app; cbn; lia).
  split_and!; [intros E; rewrite E in Hl; cbn in Hl; lia..|]. by rewrite has_byte_app, Hs.
Qed.

Lemma event_store_refines_log_witness :
  let batches := [[sample_ev "a" 20 2; sample_ev "b" 10 1]; [sample_ev "c" 20 3]] in
  let '(rs, v) := run 0 (@append_all sample_external sample_JSON "/s/events" utc_date batches) (store_world quiet_env) in
  (∃ evs n, fst (run 0 (@loadEvents sample_JSON "/s/events" 15%Z) v) = Ok (evs, mkLoad n 0) ∧
     evs ≡ₚ [sample_ev "a" 20 2; sample_ev "c" 20 3]) ∧
  ev_ID <$> match fst (run 0 (@loadEvents sample_JSON "/s/events" 0%Z) v) with Ok (evs, _) => evs | Err _ => [] end
    = ["b"; "a"; "c"].
Proof.
  intros batches.
  pose proof (@event_store_refines_log sample_external sample_JSON sample_JSONLaws "/s/events" utc_date 0 batches
    (store_world quiet_env)) as HE.
  assert (ev_ID <$> match fst (run 0 (@loadEvents sample_JSON "/s/events" 0%Z)
      (snd (run 0 (@append_all sample_external sample_JSON "/s/events" utc_date batches) (store_world quiet_env))))
    with Ok (evs, _) => evs | Err _ => [] end = ["b"; "a"; "c"]) as Hc by (vm_compute; reflexivity).
  destruct (run 0 (append_all "/s/events" utc_date batches) (store_world quiet_env)) as [rs v]. cbn [snd] in Hc.
  destruct HE as (_ & HL & _).
  - apply utc_date_plain.
  - intros e e' E. unfold utc_date. by rewrite E.
  - done.
  - right. split; [done|]. split; [|done]. split_and!; [done|done|done|done|].
    intros k [n Hk]. cbn in Hk. apply lookup_singleton_Some in Hk as [<- _]. done.
  - repeat constructor; try done; intros b [= <-]; vm_compute; reflexivity.
  - split; [|exact Hc]. destruct (HL 15%Z) as (evs & n & E & HP & _). exists evs, n. by split.
Defined.

(** ** A torn line *)

(**  an append that fails in the middle of a line makes the next one lose
    its event.  The first [Append] fails after a few bytes and says so; the
    second [Append] of the same day succeeds, but its line continues the torn
    one, and [LoadAll] skips the merged line as corrupt: the event whose
    append reported success is gone. *)
Theorem torn_append_loses_event :
  let env := mkEnv (λ n, if bool_decide (n = 2) then Some (errors_New "no space left") else None)
               (λ _, 0%Z) (λ _, 0%Z) (λ _, "x") (λ _, 3) in
  let append e := @Append sample_external sample_JSON "/s/events" utc_date [e] in
  let '(r1, w1) := run 0 (append (sample_ev "a" 20 1)) (store_world env) in
  let '(r2, w2) := run 0 (append (sample_ev "b" 30 2)) w1 in
  is_ok r1 = false ∧ is_ok r2 = true ∧ fst (run 0 (@LoadAll sample_JSON "/s/events") w2) = Ok ([], mkLoad 1 1).
Proof. vm_compute. split_and!; reflexivity. Qed.
