(* ===== verification/Emitter.v ===== *)
(** * The event emitter

    Models [usecase/emitter.go], the recording part of
    [domain/delivery_aggregate.go] and [eventsource/seq_counter.go], over the
    event store of [EventStore] with the system calls of its [Append].  An
    emit is a [prog] over the state the daemon's goroutines share (the
    aggregate's counter, the emitter's previous id, the sequence counter, the
    files), one step per access, because the emitter has no lock.  The UUID
    generator and the failures of the counter's database are oracles; those of
    the files are the ones of their [World]. *)
From S2P Require Import Prelude GoStrings GoPath GoTime DMail Prog World StoreSpec Events Complete SetupSafety Files EventStore.

#[local] Open Scope nat_scope.

(** ** Shared state *)

Record EventEnv := mkEventEnv { ee_fault : nat → option error; ee_uuid : nat → string }.

Record EState := mkES {
  es_seqNr : Z;              (* DeliveryAggregate.seqNr *)
  es_prevID : string;        (* deliveryEventEmitter.prevID *)
  es_next_seq : Z;           (* seq_counter.next_seq *)
  es_files : World;          (* where the event store writes *)
  es_dispatched : list Event;
  es_tick : nat;
  es_env : EventEnv }.

Definition es_bump (s : EState) : EState :=
  mkES (es_seqNr s) (es_prevID s) (es_next_seq s) (es_files s) (es_dispatched s) (S (es_tick s)) (es_env s).
Definition set_seqNr (n : Z) (s : EState) : EState :=
  mkES n (es_prevID s) (es_next_seq s) (es_files s) (es_dispatched s) (es_tick s) (es_env s).
Definition set_prevID (id : string) (s : EState) : EState :=
  mkES (es_seqNr s) id (es_next_seq s) (es_files s) (es_dispatched s) (es_tick s) (es_env s).
Definition set_next_seq (n : Z) (s : EState) : EState :=
  mkES (es_seqNr s) (es_prevID s) n (es_files s) (es_dispatched s) (es_tick s) (es_env s).
Definition set_files (w : World) (s : EState) : EState :=
  mkES (es_seqNr s) (es_prevID s) (es_next_seq s) w (es_dispatched s) (es_tick s) (es_env s).
Definition add_dispatched (e : Event) (s : EState) : EState :=
  mkES (es_seqNr s) (es_prevID s) (es_next_seq s) (es_files s) (es_dispatched s ++ [e]) (es_tick s) (es_env s).

Definition eact (A : Type) : Type := EState → A * EState.
Abbreviation eprog := (prog EState).

Definition e_guarded {A} (prefix : string) (m : eact (result A)) : eact (result A) := λ s,
  match ee_fault (es_env s) (es_tick s) with
  | Some e => (Err (errorf_w prefix e), es_bump s)
  | None => m (es_bump s)
  end.

(** A program on the files, step by step. *)
Fixpoint on_files {A} (p : program A) : eprog A :=
  match p with
  | Ret a => Ret a
  | Act m k => Act (λ i s, (fst (m i (es_files s)), set_files (snd (m i (es_files s))) s)) (λ x, on_files (k x))
  end.

(** ** [seq_counter.go]: a counter row, incremented by one statement *)

Definition AllocSeqNr : eact (result Z) :=
  e_guarded "seq counter: alloc: " (λ s, (Ok (es_next_seq s), set_next_seq (u64 (es_next_seq s + 1)) s)).

Definition LatestSeqNr : eact (result Z) :=
  e_guarded "seq counter: latest: "
    (λ s, (Ok (if (es_next_seq s <=? 1)%Z then 0%Z else (es_next_seq s - 1)%Z), s)).

Definition InitializeAt (startAt : Z) : eact (result unit) :=
  e_guarded "seq counter: initialize: "
    (λ s, (Ok tt, if (es_next_seq s <=? startAt + 1)%Z then set_next_seq (startAt + 1) s else s)).

Section Emitter.
Context `{External} `{JSON}.
(** The directory of the event store, and the day of an event. *)
Variable dir : string.
Variable date : Event → string.

(** ** [delivery_aggregate.go] *)

Definition AggregateTypeDelivery : string := "delivery".

(** The identity of the aggregate; its counter is in the shared state. *)
Variable aggID : string.

(** Draws an id and stamps the event with the aggregate's identity. *)
Definition nextEvent (eventType : EventType) (data : payload) (now : Time) : eact Event := λ s,
  let seqNr := u64 (es_seqNr s + 1) in
  let ev := NewEvent (ee_uuid (es_env s) (es_tick s)) eventType data now in
  (mkEvent (ev_SchemaVersion ev) (ev_ID ev) (ev_Type ev) (ev_Timestamp ev) (ev_Data ev)
     (ev_SessionID ev) (ev_CorrelationID ev) (ev_CausationID ev) aggID AggregateTypeDelivery seqNr,
   es_bump (set_seqNr seqNr s)).

Definition RecordDelivery_event (path : string) (kind : DMailKind) (now : Time) : eact Event :=
  nextEvent EventDeliveryCompleted (DeliveryCompletedPayload path kind) now.
Definition RecordFailure (path : string) (kind : DMailKind) (errMsg : string) (now : Time) : eact Event :=
  nextEvent EventDeliveryFailed (DeliveryFailedPayload path kind errMsg) now.
Definition RecordRetry (name : string) (kind : DMailKind) (now : Time) : eact Event :=
  nextEvent EventErrorRetried (ErrorRetriedPayload name kind) now.
Definition RecordScan (outbox : string) (delivered failed : Z) (now : Time) : eact Event :=
  nextEvent EventScanCompleted (ScanCompletedPayload outbox delivered failed) now.

(** ** [emitter.go] *)

(** Whether a sequence allocator is attached; store and dispatcher are. *)
Variable hasAlloc : bool.

Definition emit (ev : Event) : eprog (option error) :=
  prevID ← atom (λ s, (es_prevID s, s));
  let ev := with_causation prevID (with_correlation aggID ev) in
  seq ← (if hasAlloc then atom AllocSeqNr else mret (Ok (ev_SeqNr ev)));
  match seq with
  | Err err => mret (Some err)
  | Ok n =>
      let ev := with_seq n ev in
      r ← on_files (Append dir date [ev]);
      match r with
      | Err err => mret (Some err)
      | Ok _ =>
          _ ← atom (λ s, (tt, set_prevID (ev_ID ev) s));
          _ ← atom (λ s, (tt, add_dispatched ev s));
          mret None
      end
  end.

(** A call of the emitter: which record it makes, at which time. *)
Inductive emit_call :=
  | CallDelivery (path : string) (kind : DMailKind)
  | CallFailure (path : string) (kind : DMailKind) (msg : string)
  | CallScan (outbox : string) (delivered errors : Z)
  | CallRetry (name : string) (kind : DMailKind).

Definition record (c : emit_call) (now : Time) : eact Event :=
  match c with
  | CallDelivery path kind => RecordDelivery_event path kind now
  | CallFailure path kind msg => RecordFailure path kind msg now
  | CallScan outbox d f => RecordScan outbox d f now
  | CallRetry name kind => RecordRetry name kind now
  end.

(** [EmitDelivery], [EmitFailure], [EmitScan], [EmitRetry]. *)
Definition Emit (c : emit_call) (now : Time) : eprog (option error) :=
  ev ← atom (record c now); emit ev.

(** Calls one after the other. *)
Fixpoint emit_all (cs : list (emit_call * Time)) : eprog (list (option error)) :=
  match cs with
  | [] => mret []
  | (c, now) :: r => e ← Emit c now; es ← emit_all r; mret (e :: es)
  end.
End Emitter.

(** * Theorems *)

Lemma runs_files {A} i (p : program A) (Q : A → EState → Prop) s :
  runs i p (λ a w, Q a (set_files w s)) (es_files s) → runs i (on_files p) Q s.
Proof.
  unfold runs. assert (∀ s, run i (on_files p) s = (fst (run i p (es_files s)), set_files (snd (run i p (es_files s))) s)) as ->; [|done].
  induction p as [a|X m k IH]; intros [? ? ? w ? ? ?]; cbn; [done|]. rewrite IH. cbn. by destruct (m i w).
Qed.

(** ** What one append writes *)

Section Line.
Context `{External} `{JSON}.
Variable dir : string.
Variable date : Event → string.

(** The line of an event, and the part of it that lands at a path. *)
Definition line_of (e : Event) : bytes := encoded e ++ [nl].
Definition file_of (e : Event) : string := Clean (event_file dir (date e)).
Definition landed (e : Event) (k : nat) (q : string) : bytes := if bool_decide (Clean q = file_of e) then take k (line_of e) else [].

Lemma landed_none e q : landed e 0 q = [].
Proof. unfold landed. by case_bool_decide. Qed.

Definition texts_kept (w w' : World) : Prop := w_env w' = w_env w ∧ ∀ q, text_of q (w_fs w') = text_of q (w_fs w).
Lemma MkdirAll_texts p w : texts_kept w (snd (os_MkdirAll p w)).
Proof.
  unfold os_MkdirAll, guarded, fault. destruct (env_fault _ _); [done|]. change (w_fs (bump w)) with (w_fs w).
  destruct (mkdir_all _ _ _) as [fs|e] eqn:E; [|done]. destruct (mkdir_all_adds _ _ _ _ E) as [K F]. split; [done|].
  intros q. cbn. unfold text_of. destruct (fs !! Clean q) as [[d|]|] eqn:Eq.
  - by rewrite (F _ _ Eq).
  - destruct (w_fs w !! Clean q) as [[d|]|] eqn:Ew; [|done..]. apply K in Ew. congruence.
  - destruct (w_fs w !! Clean q) as [[d|]|] eqn:Ew; [|done..]. apply K in Ew. congruence.
Qed.
Lemma OpenAppend_texts p w : texts_kept w (snd (os_OpenAppend p w)) ∧
  (is_ok (fst (os_OpenAppend p w)) = true → ∃ d, w_fs (snd (os_OpenAppend p w)) !! Clean p = Some (NFile d)).
Proof.
  unfold os_OpenAppend, guarded, fault. destruct (env_fault _ _); [done|]. unfold lookup_path. change (w_fs (bump w)) with (w_fs w).
  destruct (w_fs w !! Clean p) as [[d|]|] eqn:E; cbn [fst snd].
  - split; [done|]. intros _. by exists d.
  - done.
  - destruct (w_fs w !! Clean (Dir p)) as [[]|]; cbn [fst snd]; [done| |done]. split.
    + split; [done|]. intros q. cbn. unfold text_of. destruct (decide (Clean q = Clean p)) as [->|Hq].
      * by rewrite lookup_insert_eq, E.
      * by rewrite lookup_insert_ne.
    + intros _. exists []. apply lookup_insert_eq.
Qed.
Lemma guarded_texts {X} (a : X) w : texts_kept w (snd (guarded "" (λ w, (Ok a, w)) w)).
Proof. destruct (guarded_cases "" (λ w, (Ok a, w)) w) as [[e ->]| ->]; done. Qed.
Lemma texts_trans u v w : texts_kept u v → texts_kept v w → texts_kept u w.
Proof. intros [E1 T1] [E2 T2]. split; [congruence|]. intros q. by rewrite T2. Qed.

(** From [w] to [w'] a part of the line of [e] was added to its file, all of
    it when [ok]. *)
Definition lands (e : Event) (ok : bool) (w w' : World) : Prop := w_env w' = w_env w ∧
  ∃ k, (ok = true → k = length (line_of e)) ∧ ∀ q, text_of q (w_fs w') = text_of q (w_fs w) ++ landed e k q.
Lemma lands_nothing e w w' : texts_kept w w' → lands e false w w'.
Proof. intros [He Ht]. split; [done|]. exists 0. split; [done|]. intros q. by rewrite Ht, landed_none, app_nil_r. Qed.
Lemma lands_kept e ok u v w x : texts_kept u v → lands e ok v w → texts_kept w x → lands e ok u x.
Proof.
  intros [E1 T1] [E2 (k & Hk & T2)] [E3 T3]. split; [congruence|]. exists k. split; [done|]. intros q. by rewrite T3, T2, T1.
Qed.
Lemma lands_less e ok w w' : lands e ok w w' → lands e false w w'.
Proof. intros [E (k & _ & T)]. split; [done|]. by exists k. Qed.

Definition is_inl {A B} (o : A + B) : bool := match o with inl _ => true | inr _ => false end.
Lemma write_lands i e total d w : w_fs w !! file_of e = Some (NFile d) →
  runs i (write_event (event_file dir (date e)) total e) (λ o w', lands e (is_inl o) w w') w.
Proof.
  intros Hd. unfold write_event. destruct (json_event e) as [b|err] eqn:Ej; last first.
  { apply runs_bind, runs_atom, runs_ret. apply lands_nothing, guarded_texts. }
  assert (b ++ [nl] = line_of e) as -> by (unfold line_of, encoded; by rewrite Ej).
  cbv zeta. apply runs_bind, runs_atom. unfold file_Append, fault, lookup_path. change (Clean (event_file dir (date e))) with (file_of e).
  change (w_fs (bump w)) with (w_fs w). rewrite Hd.
  assert (∀ k q, text_of q (<[file_of e := NFile (d ++ take k (line_of e))]> (w_fs w)) = text_of q (w_fs w) ++ landed e k q) as Ht.
  { intros k q. unfold text_of, landed. case_bool_decide as Hq; [by rewrite Hq, lookup_insert_eq, Hd|].
    by rewrite lookup_insert_ne, app_nil_r. }
  destruct (env_fault _ _); cbn [fst snd].
  - apply runs_bind, runs_atom, runs_ret. eapply (lands_kept e _ w w); [done| |apply guarded_texts].
    split; [done|]. exists (env_short (w_env w) (w_tick w)). split; [by intros [=]|]. by apply Ht.
  - apply runs_ret. split; [done|]. exists (length (line_of e)). split; [done|]. intros q. rewrite <- Ht, firstn_all. done.
Qed.

(** An append of one event that reports no error has put its line into the
    file of its day; one that reports an error a part of it, maybe all. *)
Lemma Append_lands i e w : ParseEvent e = Ok e → runs i (Append dir date [e]) (λ r w', lands e (is_ok r) w w') w.
Proof.
  intros Hv. unfold Append, validate_batch. rewrite Hv. apply runs_bind, runs_atom. pose proof (MkdirAll_texts dir w) as H1.
  destruct (os_MkdirAll dir w) as [[u|err] w1]; cbn [fst snd] in *; [|by apply runs_ret, lands_nothing].
  assert (by_date date [e] = {[date e := [e]]}) as -> by done. rewrite map_to_list_singleton.
  cbn [for_range]. apply runs_bind, runs_bind. unfold append_day. apply runs_bind, runs_atom.
  destruct (OpenAppend_texts (event_file dir (date e)) w1) as [H2 Ho].
  destruct (os_OpenAppend _ w1) as [[u'|err] w2]; cbn [fst snd] in *;
    [|apply runs_ret, runs_ret, runs_ret, lands_nothing; by eapply texts_trans].
  destruct (Ho eq_refl) as [d Hd]. cbn [for_range]. apply runs_bind, runs_bind.
  eapply runs_mono; [|by apply (write_lands i e _ d w2)]. cbn beta. intros o w3 H3.
  apply (lands_kept e _ w w2 w3 w3) in H3; [|by eapply texts_trans|done].
  destruct o as [total|err]; [|by apply runs_ret, runs_ret, runs_ret]. apply runs_ret.
  apply runs_bind, runs_atom. pose proof (guarded_texts tt w3) as H4. change (guarded "" _ w3) with (file_Sync w3) in H4.
  destruct (file_Sync w3) as [[u4|err] w4]; cbn [fst snd] in *; last first.
  { apply runs_bind, runs_atom, runs_ret, runs_ret, runs_ret. apply (lands_less e true). eapply lands_kept; [|exact H3|]; [done|].
    eapply texts_trans; [exact H4|apply guarded_texts]. }
  apply runs_bind, runs_atom. pose proof (guarded_texts tt w4) as H5. change (guarded "" _ w4) with (file_Close w4) in H5.
  pose proof (texts_trans _ _ _ H4 H5) as H6.
  destruct (file_Close w4) as [[u5|err] w5]; cbn [fst snd] in *; apply runs_ret, runs_ret, runs_ret.
  - by eapply lands_kept; [|exact H3|].
  - apply (lands_less e true). by eapply lands_kept; [|exact H3|].
Qed.
End Line.

(** ** The causation chain *)

(** Each event names the one before it as its cause. *)
Fixpoint chained (prev : string) (l : list Event) : Prop :=
  match l with
  | [] => True
  | e :: r => ev_CausationID e = prev ∧ chained (ev_ID e) r
  end.
Definition last_id (prev : string) (l : list Event) : string := default prev (ev_ID <$> last l).

Lemma chained_snoc prev l e :
  chained prev l → ev_CausationID e = last_id prev l → chained prev (l ++ [e]).
Proof.
  revert prev. induction l as [|x l IH]; intros prev; cbn [app chained]; [unfold last_id; by intros _ ->|].
  intros [Hx Hl] He. split; [done|]. apply IH; [done|]. rewrite He. unfold last_id.
  destruct l as [|y l]; [done|]. rewrite last_cons_cons. destruct (last (y :: l)) eqn:E; [done|].
  apply (proj1 (last_None (y :: l))) in E. done.
Qed.

Lemma last_id_snoc prev l e : last_id prev (l ++ [e]) = ev_ID e.
Proof. unfold last_id. by rewrite last_snoc. Qed.

Lemma StronglySorted_snoc (R : Event → Event → Prop) l e :
  StronglySorted R l → Forall (λ x, R x e) l → StronglySorted R (l ++ [e]).
Proof.
  induction 1 as [|x l Hl IH Hx]; intros HF; [by repeat constructor|]. apply Forall_cons in HF as [HF1 HF2].
  constructor; [by apply IH|]. apply Forall_app. split; [done|by repeat constructor].
Qed.

Section EmitterSafety.
Context `{External} `{JL : JSONLaws}.
Variable dir : string.
Variable date : Event → string.
Variable aggID : string.
Variable hasAlloc : bool.
Variable env : EventEnv.
Hypothesis uuids : ∀ k, ee_uuid env k ≠ "".

(** The event of a call: its id is one that was drawn, and so is its cause. *)
Definition call_type (c : emit_call) : EventType :=
  match c with
  | CallDelivery _ _ => EventDeliveryCompleted
  | CallFailure _ _ _ => EventDeliveryFailed
  | CallScan _ _ _ => EventScanCompleted
  | CallRetry _ _ => EventErrorRetried
  end.
Definition call_payload (c : emit_call) : payload :=
  match c with
  | CallDelivery path kind => DeliveryCompletedPayload path kind
  | CallFailure path kind msg => DeliveryFailedPayload path kind msg
  | CallScan outbox d f => ScanCompletedPayload outbox d f
  | CallRetry name kind => ErrorRetriedPayload name kind
  end.
Record event_of (c : emit_call * Time) (e : Event) : Prop := {
  eo_version : ev_SchemaVersion e = CurrentEventSchemaVersion;
  eo_id : ∃ k, ev_ID e = ee_uuid env k;
  eo_cause : ev_CausationID e = "" ∨ ∃ k, ev_CausationID e = ee_uuid env k;
  eo_seq : (0 ≤ ev_SeqNr e < two64)%Z;
  eo_type : ev_Type e = call_type (fst c);
  eo_time : ev_Timestamp e = snd c;
  eo_data : ev_Data e = json_payload (call_payload (fst c));
  eo_session : ev_SessionID e = "" ∧ ev_CorrelationID e = aggID;
  eo_aggregate : ev_AggregateID e = aggID ∧ ev_AggregateType e = AggregateTypeDelivery }.
Lemma event_of_valid c e : snd c ≠ 0%Z → event_of c e → ParseEvent e = Ok e.
Proof using JL uuids.
  intros Hnow [E1 [k E2] _ _ E3 E4 E5 _ _]. assert (ev_ID e ≠ "") as Hid by (rewrite E2; apply uuids). unfold ParseEvent, event_problems. rewrite E1, E3, E4.
  assert (ValidEventType (call_type (fst c)) = true ∧ call_type (fst c) ≠ "") as [-> Hne] by by destruct (fst c).
  rewrite (bool_decide_eq_false_2 (ev_ID e = "")), (bool_decide_eq_false_2 (call_type (fst c) = "")) by done.
  rewrite (bool_decide_eq_false_2 (ev_Data e = [])) by (rewrite E5; apply json_payload_nonempty). cbn [negb].
  unfold IsZero. by replace (snd c =? 0)%Z with false by (symmetry; lia).
Qed.

(** How far a call came: it got no number, or it made an event and put so many
    bytes of its line into the file of its day. *)
Definition attempt : Type := option (Event * nat).
Definition attempt_of (c : emit_call * Time) (err : option error) (a : attempt) : Prop :=
  match a with
  | None => err ≠ None
  | Some (e, k) => event_of c e ∧ (err = None → k = length (line_of e))
  end.
(** The event of a call without an error, and what a call left in a file. *)
Definition sent (x : option error * attempt) : option Event :=
  match x with (None, Some (e, _)) => Some e | _ => None end.
Definition left_at (q : string) (a : attempt) : bytes :=
  match a with Some (e, k) => landed dir date e k q | None => [] end.

(** What the calls [cs] do to the files: they leave these attempts, and on
    files without failures they keep the event store a log. *)
Record wrote_files (cs : list (emit_call * Time)) (new : list Event) (as_ : list attempt) (w w' : World) : Prop := {
  wf_env : w_env w' = w_env w;
  wf_text : ∀ q, text_of q (w_fs w') = text_of q (w_fs w) ++ mjoin (left_at q <$> as_);
  wf_log : (∀ e, plain (date e +:+ ".jsonl")) → no_faults (w_env w) → Forall (λ c, ∀ e, event_of c e → storable e) cs →
           ∀ log, store_at dir date (w_env w) log w → store_at dir date (w_env w) (log ++ new) w' }.
Lemma wrote_nothing c w : wrote_files [c] [] [None] w w.
Proof using. constructor; [done|intros q; cbn; by rewrite app_nil_r|]. intros _ _ _ log. by rewrite app_nil_r. Qed.
Lemma wrote_app cs1 cs2 n1 n2 a1 a2 u v w :
  wrote_files cs1 n1 a1 u v → wrote_files cs2 n2 a2 v w → wrote_files (cs1 ++ cs2) (n1 ++ n2) (a1 ++ a2) u w.
Proof using.
  intros [E1 T1 L1] [E2 T2 L2]. constructor; [congruence| |].
  - intros q. by rewrite T2, T1, fmap_app, join_app, app_assoc.
  - intros Hp Hf [Hs1 Hs2]%Forall_app log Hl. rewrite app_assoc. rewrite E1 in L2. auto.
Qed.

(** The highest number given out so far by whoever numbers the events. *)
Definition counter (s : EState) : Z := if hasAlloc then (es_next_seq s - 1)%Z else es_seqNr s.

Record log_ok (room : Z) (s : EState) : Prop := {
  lo_chain : chained "" (es_dispatched s);
  lo_prev : es_prevID s = last_id "" (es_dispatched s);
  lo_sorted : StronglySorted (λ a b, (ev_SeqNr a < ev_SeqNr b)%Z) (es_dispatched s);
  lo_below : Forall (λ e, (ev_SeqNr e ≤ counter s)%Z) (es_dispatched s);
  lo_room : (0 ≤ counter s)%Z ∧ (counter s + room < two64 - 1)%Z;
  lo_env : es_env s = env;
  lo_id : es_prevID s = "" ∨ ∃ k, es_prevID s = ee_uuid env k }.

(** A call that gave out a number and reported an error. *)
Lemma log_ok_skip room room' s s' : log_ok room s → es_dispatched s' = es_dispatched s → es_prevID s' = es_prevID s →
  es_env s' = es_env s → (counter s ≤ counter s')%Z → (counter s' + room' < two64 - 1)%Z → log_ok room' s'.
Proof using.
  intros [L1 L2 L3 L4 L5 L6 L7] E1 E2 E3 Hc Hr. constructor; rewrite ?E1, ?E2, ?E3; try done; [|lia].
  eapply Forall_impl; [exact L4|]. cbn beta. lia.
Qed.
(** One that went through. *)
Lemma log_ok_sent room room' s s' e : log_ok room s → es_dispatched s' = es_dispatched s ++ [e] → es_prevID s' = ev_ID e →
  es_env s' = es_env s → (∃ k, ev_ID e = ee_uuid env k) → ev_CausationID e = es_prevID s → (counter s < ev_SeqNr e)%Z → ev_SeqNr e = counter s' →
  (counter s' + room' < two64 - 1)%Z → log_ok room' s'.
Proof using.
  intros [L1 L2 L3 L4 L5 L6 L7] E1 E2 E3 Hid Ec Hs Hc Hr. constructor; rewrite ?E1, ?E2, ?E3; try done.
  - apply chained_snoc; [done|congruence].
  - by rewrite last_id_snoc.
  - apply StronglySorted_snoc; [done|]. eapply Forall_impl; [exact L4|]. cbn beta. lia.
  - apply Forall_app. split; [|constructor; [lia|constructor]]. eapply Forall_impl; [exact L4|]. cbn beta. lia.
  - lia.
  - by right.
Qed.

Lemma record_shape c now s : record aggID c now s = nextEvent aggID (call_type c) (call_payload c) now s.
Proof using. by destruct c. Qed.

(** One append of the event of a call. *)
Lemma Append_wrote i c e w : snd c ≠ 0%Z → event_of c e →
  runs i (Append dir date [e]) (λ r w', ∃ k, (is_ok r = true → k = length (line_of e)) ∧
    wrote_files [c] (if is_ok r then [e] else []) [Some (e, k)] w w') w.
Proof using JL uuids.
  intros Hn He. destruct (Append_lands dir date i e w) as [E (k & Hk & HT)]; [by eapply event_of_valid|].
  unfold runs. destruct (run i (Append dir date [e]) w) as [r w'] eqn:Er. cbn [fst snd] in *. exists k. split; [done|].
  constructor; [done|intros q; cbn; by rewrite HT, app_nil_r|]. intros Hp Hf [Hs _]%Forall_cons log Hl.
  destruct (Append_ok dir date Hp (w_env w) Hf i [e] log w) as (n & Hr & Hv); [constructor; [by apply Hs|constructor]|done|].
  rewrite Er in Hr, Hv. cbn [fst snd] in Hr, Hv. subst r. by left.
Qed.

(** What one call of the emitter does. *)
Definition emits (room : Z) (c : emit_call * Time) (s : EState) (err : option error) (s' : EState) : Prop :=
  log_ok room s' ∧ ∃ a new, attempt_of c err a ∧ new = omap sent [(err, a)] ∧
    es_dispatched s' = es_dispatched s ++ new ∧ wrote_files [c] new [a] (es_files s) (es_files s').

(** From the number on. *)
Lemma emit_tail i c e room room' s0 s : snd c ≠ 0%Z → event_of c e → log_ok room s0 → es_dispatched s = es_dispatched s0 →
  es_prevID s = es_prevID s0 → es_env s = es_env s0 → es_files s = es_files s0 → ev_CausationID e = es_prevID s0 →
  (counter s0 < ev_SeqNr e)%Z → ev_SeqNr e = counter s → (counter s + room' < two64 - 1)%Z →
  runs i (r ← on_files (Append dir date [e]);
    match r with
    | Err err => mret (Some err)
    | Ok _ => _ ← atom (λ s, (tt, set_prevID (ev_ID e) s)); _ ← atom (λ s, (tt, add_dispatched e s)); mret None
    end) (emits room' c s0) s.
Proof using JL uuids.
  intros Hn He HL E1 E2 E3 E4 Ec Hlt Hc Hr. apply runs_bind, runs_files. eapply runs_mono; [|by apply (Append_wrote i c e)].
  cbn beta. rewrite E4. intros r w' (k & Hk & HW). destruct r as [n|err]; cbn [is_ok] in *.
  - apply runs_bind, runs_atom. cbn [fst snd]. apply runs_bind, runs_atom. cbn [fst snd]. apply runs_ret. split.
    + apply (log_ok_sent room room' s0 _ e); [done|cbn; by rewrite E1|done|done|apply He|done..].
    + exists (Some (e, k)), [e]. split; [split; [done|auto]|]. split; [done|]. split; [cbn; by rewrite E1|done].
  - apply runs_ret. split.
    + eapply (log_ok_skip room room' s0); cbn; try done; change (counter (set_files w' s)) with (counter s); lia.
    + exists (Some (e, k)), []. split; [split; [done|by intros [=]]|]. split; [done|]. split; [cbn; by rewrite app_nil_r|done].
Qed.

Lemma Emit_ok i c now room s :
  now ≠ 0%Z → (1 ≤ room)%Z → log_ok room s →
  runs i (Emit dir date aggID hasAlloc c now) (emits (room - 1) (c, now) s) s.
Proof using JL uuids.
  intros Hnow Hroom HL. unfold Emit. apply runs_bind, runs_atom. rewrite record_shape. unfold nextEvent. cbn [fst snd].
  set (s1 := es_bump _). set (ev0 := mkEvent _ _ _ _ _ _ _ _ _ _ _).
  unfold emit. apply runs_bind, runs_atom. cbn [fst snd]. change (es_prevID s1) with (es_prevID s).
  set (ev1 := with_causation _ _).
  assert (ev_CausationID ev1 = es_prevID s ∧ ev_SeqNr ev1 = u64 (es_seqNr s + 1) ∧
    ∀ n, (0 ≤ n < two64)%Z → event_of (c, now) (with_seq n ev1)) as (A1 & A2 & A3).
  { pose proof (lo_id _ _ HL) as Hp. pose proof (lo_env _ _ HL) as Hv. subst ev1 ev0. rewrite Hv.
    unfold with_causation, with_correlation.
    case_bool_decide as C1; case_bool_decide as C2; cbn [ev_CausationID ev_SeqNr];
      (split_and!; [done..|]; intros n Hn; constructor; cbn; first [by eexists|done|by left|by split]). }
  pose proof (lo_room _ _ HL) as [R1 R2]. unfold two64 in R2. apply runs_bind. unfold counter in R1, R2.
  destruct hasAlloc eqn:Ha.
  - apply runs_atom. unfold AllocSeqNr, e_guarded. destruct (ee_fault _ _) as [e|]; cbn [fst snd].
    + apply runs_ret. split.
      * eapply (log_ok_skip room); [exact HL|done|done|done|..]; unfold counter; rewrite Ha; cbn; unfold two64; lia.
      * exists None, []. split; [by intros [=]|]. split; [done|]. split; [cbn; by rewrite app_nil_r|apply wrote_nothing].
    + assert (u64 (es_next_seq s + 1) = es_next_seq s + 1)%Z as Eu by (rewrite u64_mod; apply Z.mod_small; unfold two64; lia).
      change (es_next_seq (es_bump s1)) with (es_next_seq s). rewrite Eu.
      eapply (emit_tail i (c, now) _ room (room - 1) s); try done; try apply A3; unfold counter; rewrite ?Ha; cbn; unfold two64; lia.
  - apply runs_ret. rewrite A2.
    assert (u64 (es_seqNr s + 1) = es_seqNr s + 1)%Z as Eu by (rewrite u64_mod; apply Z.mod_small; unfold two64; lia).
    eapply (emit_tail i (c, now) _ room (room - 1) s); try done; try apply A3; unfold counter; rewrite ?Ha; cbn; rewrite Eu; unfold two64; lia.
Qed.

(** What a sequence of calls does. *)
Definition emits_all (room : Z) (cs : list (emit_call * Time)) (s : EState) (errs : list (option error)) (s' : EState) : Prop :=
  log_ok room s' ∧ ∃ as_, Forall3 attempt_of cs errs as_ ∧
    es_dispatched s' = es_dispatched s ++ omap sent (zip errs as_) ∧
    wrote_files cs (omap sent (zip errs as_)) as_ (es_files s) (es_files s').
Lemma emit_all_ok i cs room s :
  Forall (λ c, snd c ≠ 0%Z) cs → (Z.of_nat (length cs) ≤ room)%Z → log_ok room s →
  runs i (emit_all dir date aggID hasAlloc cs) (emits_all (room - Z.of_nat (length cs)) cs s) s.
Proof using JL uuids.
  revert room s. induction cs as [|[c now] cs IH]; intros room s Hn Hr HL; cbn [emit_all].
  { apply runs_ret. split; [by rewrite Z.sub_0_r|]. exists []. split; [constructor|]. cbn. rewrite app_nil_r. split; [done|].
    constructor; [done|intros q; by rewrite app_nil_r|]. intros _ _ _ log. by rewrite app_nil_r. }
  apply Forall_cons in Hn as [Hnow Hn]. cbn [length] in Hr. apply runs_bind.
  eapply runs_mono; [|apply (Emit_ok i c now room s); [done|lia|done]].
  intros err s1 (HL1 & a & new & Ha & -> & Ed & Hw). apply runs_bind.
  eapply runs_mono; [|apply (IH (room - 1)%Z s1); [done|lia|done]].
  intros errs s2 (HL2 & as_ & Has & Eds & Hws). apply runs_ret. split.
  { replace (room - Z.of_nat (length ((c, now) :: cs)))%Z with (room - 1 - Z.of_nat (length cs))%Z; [done|]. cbn [length]. lia. }
  exists (a :: as_). split; [by constructor|].
  assert (omap sent (zip (err :: errs) (a :: as_)) = omap sent [(err, a)] ++ omap sent (zip errs as_)) as ->
    by (by destruct err as [err|], a as [[e k]|]).
  split; [by rewrite Eds, Ed, app_assoc|]. by apply (wrote_app [(c, now)] cs _ _ [a] as_ _ (es_files s1)).
Qed.
End EmitterSafety.

(** The state of a new emitter over a counter that has given out [n] numbers. *)
Definition new_emitter (n : Z) (env : EventEnv) (w : World) : EState := mkES 0 "" (n + 1) w [] 0 env.

(** C39: the emitter keeps one causal chain of the events it reports as stored.
    Let one goroutine make any sequence of emitter calls, with any failures of
    the counter and of the files.  The dispatched events are exactly those of
    the calls that reported no error, in order and with the type, time and
    payload of their calls; every one passes [ParseEvent], carries the session
    as its correlation id, and names the event before it as its cause (the
    first has none); and their sequence numbers strictly increase, with or
    without a global counter.  The files grow, call by call, by the whole line
    of each of these events, in the file of its day, and by whatever part of
    its line a call that reported an error had written, maybe all of it.  While
    the files do not fail (the counter may), the event store holds exactly the
    dispatched events after those it had. *)
Theorem emitter_keeps_chain `{External} `{JL : JSONLaws} (i : nat) (dir : string) (date : Event → string) (aggID : string) (hasAlloc : bool)
    (cs : list (emit_call * Time)) (n : Z) (env : EventEnv) (w : World) :
  Forall (λ c, snd c ≠ 0%Z) cs →
  (0 ≤ n)%Z → (n + Z.of_nat (length cs) < two64 - 1)%Z → (∀ k, ee_uuid env k ≠ "") →
  let '(errs, s) := run i (emit_all dir date aggID hasAlloc cs) (new_emitter n env w) in
  let events := es_dispatched s in
  chained "" events ∧
  Forall (λ e, ParseEvent e = Ok e ∧ ev_CorrelationID e = aggID) events ∧
  StronglySorted (λ a b, (ev_SeqNr a < ev_SeqNr b)%Z) events ∧
  (∃ attempts, Forall3 (attempt_of aggID env) cs errs attempts ∧ events = omap sent (zip errs attempts) ∧
     ∀ q, text_of q (w_fs (es_files s)) = text_of q (w_fs w) ++ mjoin (left_at dir date q <$> attempts)) ∧
  ((∀ e, plain (date e +:+ ".jsonl")) → no_faults (w_env w) → Forall (λ c, ∀ e, event_of aggID env c e → storable e) cs →
   ∀ log, store_at dir date (w_env w) log w → store_at dir date (w_env w) (log ++ events) (es_files s)).
Proof.
  intros Hcs Hn Hb Hu.
  assert (log_ok hasAlloc env (Z.of_nat (length cs)) (new_emitter n env w)) as HL.
  { constructor; try done; try (by left); try constructor; unfold counter; destruct hasAlloc; cbn; unfold two64 in *; lia. }
  pose proof (emit_all_ok dir date aggID hasAlloc env Hu i cs _ (new_emitter n env w) Hcs (Z.le_refl _) HL) as HR.
  unfold runs in HR. destruct (run i _ _) as [errs s]. cbn [fst snd] in HR.
  destruct HR as ([L1 _ L3 _ _ _ _] & attempts & HA & E & [_ HT HS]). cbn [new_emitter es_dispatched es_files app] in E, HT, HS.
  cbv zeta. rewrite <- E in HS. split_and!; [done| |done|by exists attempts|done].
  rewrite E. clear -HA Hcs JL Hu. induction HA as [|c err a cs errs as_ Ha _ IH]; [constructor|].
  apply Forall_cons in Hcs as [Hc Hcs]. specialize (IH Hcs). cbn [zip zip_with omap list_omap].
  destruct err as [err|]; [done|]. destruct a as [[e k]|]; [|done]. cbn [sent]. destruct Ha as [Ha _].
  constructor; [|done]. split; [by eapply event_of_valid|apply Ha].
Qed.

(** ** A sample: the lines of the sample codec are short *)

#[local] Abbreviation size p := (length (digits p)).
Lemma size_app p q : size (Pos.app p q) + 1 = size p + size q.
Proof. induction q as [q IH|q IH|]; cbn [Pos.app digits length]; lia. Qed.
Lemma size_dup p : size (Pos.dup p) + 1 = 2 * size p.
Proof. induction p as [p IH|p IH|]; cbn [Pos.dup digits length]; lia. Qed.
Lemma size_reverse p : size (Pos.reverse p) = size p.
Proof.
  enough (∀ q, size (Pos.reverse_go q p) + 1 = size q + size p) as H by (specialize (H 1%positive); cbn in H; unfold Pos.reverse; lia).
  induction p as [p IH|p IH|]; intros q; cbn [Pos.reverse_go digits length]; [| |lia].
  - specialize (IH (q~1)%positive). cbn [digits length] in IH. lia.
  - specialize (IH (q~0)%positive). cbn [digits length] in IH. lia.
Qed.
Lemma size_flatten xs : size (positives_flatten xs) = 1 + 2 * sum_list ((λ p, size p) <$> xs).
Proof.
  unfold positives_flatten. enough (∀ acc, size (positives_flatten_go xs acc) = size acc + 2 * sum_list ((λ p, size p) <$> xs)) as H by apply H.
  induction xs as [|x xs IH]; intros acc; cbn [positives_flatten_go fmap list_fmap sum_list]; [cbn; lia|]. rewrite IH.
  pose proof (size_app (acc~1~0) (Pos.reverse (Pos.dup x))) as H. rewrite size_reverse in H. pose proof (size_dup x). cbn [digits length] in H.
  unfold sum_list, sum_list_with in *. cbn. lia.
Qed.
Lemma size_pos (k : nat) p : (Z.pos p < 2 ^ Z.of_nat k)%Z → size p ≤ k.
Proof.
  revert p. induction k as [|k IH]; intros p Hp; [cbn in Hp; lia|]. rewrite Nat2Z.inj_succ, Z.pow_succ_r in Hp by lia.
  destruct p as [p|p|]; cbn [digits length]; [| |lia]; (enough (size p ≤ k) by lia; apply IH; lia).
Qed.
Lemma size_Z (k : nat) z : (0 ≤ z < 2 ^ Z.of_nat k)%Z → size (encode z) ≤ S k.
Proof.
  intros Hz. destruct z as [|p|p]; [change (1 ≤ S k); lia| |lia]. change (encode (Z.pos p)) with (p~0)%positive. cbn [digits length].
  apply le_n_S, size_pos. lia.
Qed.

(** A call of the sample, its events, and the environment that draws one id. *)
Definition sample_calls : list (emit_call * Time) :=
  [(CallDelivery "/o/a.md" "report", 7%Z); (CallRetry "b.md" "report", 8%Z); (CallScan "/o" 1 0, 9%Z)].
Definition sample_event_env : EventEnv :=
  mkEventEnv (λ n, if bool_decide (n = 3) then Some (errors_New "database is locked") else None)
    (λ n, if n <? 3 then "id-1" else "id-2").
Lemma sample_storable : Forall (λ c, ∀ e, event_of (H0 := sample_JSON) "session-1" sample_event_env c e →
  storable (H := sample_external) (H0 := sample_JSON) e) sample_calls.
Proof.
  assert (∀ k, ee_uuid sample_event_env k ∈ ["id-1"; "id-2"]) as Hid.
  { intros k. cbn [ee_uuid sample_event_env]. destruct (k <? 3); [by left|right; by left]. }
  apply Forall_forall. intros c Hc e He. split; [|split; [exact I|]].
  - apply (@event_of_valid sample_external sample_JSON sample_JSONLaws "session-1" sample_event_env) with c; [| |done].
    + intros k. specialize (Hid k). rewrite !elem_of_cons, elem_of_nil in Hid. by destruct Hid as [->|[->|[]]].
    + unfold sample_calls in Hc. rewrite !elem_of_cons, elem_of_nil in Hc. by destruct Hc as [->|[->|[->|[]]]].
  - intros b [= <-]. unfold too_long. apply Z.leb_gt. unfold braces. cbn [length]. rewrite length_app. cbn [length].
    enough (Z.of_nat (size (encode e)) < 10000)%Z by (unfold max_line; lia).
    change (encode e) with (positives_flatten (event_fields e)). rewrite size_flatten.
    destruct He as [E1 [k1 E2] E3 E4 E5 E6 E7 [E8 E9] [E10 E11]]. unfold event_fields. rewrite E1, E5, E6, E7, E8, E9, E10, E11.
    pose proof (size_Z 64 _ E4) as Hn. cbn [fmap list_fmap]. unfold sum_list, sum_list_with. cbn [foldr].
    assert (∀ k, size (encode (ee_uuid sample_event_env k)) ≤ 100) as Hs.
    { intros k. specialize (Hid k). rewrite !elem_of_cons, elem_of_nil in Hid.
      destruct Hid as [->|[->|[]]]; apply Nat.leb_le; vm_compute; reflexivity. }
    assert (size (encode (ev_CausationID e)) ≤ 100) as Hcz.
    { destruct E3 as [->|[k ->]]; [apply Nat.leb_le; vm_compute; reflexivity|apply Hs]. }
    assert (size (encode (ev_ID e)) ≤ 100) as Hi by (rewrite E2; apply Hs).
    set (n := size (encode (ev_SeqNr e))) in *. set (ci := size (encode (ev_CausationID e))) in *. set (ii := size (encode (ev_ID e))) in *.
    clearbody n ci ii. unfold sample_calls in Hc. rewrite !elem_of_cons, elem_of_nil in Hc.
    destruct Hc as [->|[->|[->|[]]]]; cbn [fst snd call_type call_payload];
      (repeat match goal with |- context [size (encode ?x)] =>
         let m := fresh in let Hm := fresh in
         assert (size (encode x) ≤ 400) as Hm by (apply Nat.leb_le; vm_compute; reflexivity);
         set (m := size (encode x)) in *; clearbody m end); unfold id; lia.
Qed.

Definition sample_emits : eprog (list (option error)) :=
  emit_all (H := sample_external) (H0 := sample_JSON) "/s/events" utc_date "session-1" true sample_calls.

(** The second call gets no number. *)
Lemma emitter_keeps_chain_witness :
  let '(errs, s) := run 0 sample_emits (new_emitter 0 sample_event_env (store_world quiet_env)) in
  length (es_dispatched s) = 2 ∧ chained "" (es_dispatched s) ∧
  @store_at sample_external sample_JSON "/s/events" utc_date quiet_env (es_dispatched s) (es_files s).
Proof.
  assert (length (es_dispatched (snd (run 0 sample_emits (new_emitter 0 sample_event_env (store_world quiet_env))))) = 2) as Hlen
    by (vm_compute; reflexivity).
  pose proof (@emitter_keeps_chain sample_external sample_JSON sample_JSONLaws 0 "/s/events" utc_date "session-1" true
    sample_calls 0 sample_event_env (store_world quiet_env)) as HE. fold sample_emits in HE.
  destruct (run 0 sample_emits _) as [errs s]. destruct HE as (HC & _ & _ & _ & HS).
  - by repeat constructor.
  - done.
  - done.
  - intros k. cbn [ee_uuid sample_event_env]. by destruct (k <? 3).
  - split; [exact Hlen|]. split; [exact HC|]. apply (HS utc_date_plain ltac:(by intros n) sample_storable []).
    right. split; [done|]. split; [|done]. split_and!; [done|done|done|done|].
    intros k [n Hk]. cbn in Hk. apply lookup_singleton_Some in Hk as [<- _]. done.
Defined.

(** ** When the files fail *)

Definition numbered_ids : EventEnv := mkEventEnv (λ _, None) (λ n, Itoa (Z.of_nat n)).
(** The system call with that number fails. *)
Definition failing_env (k : nat) : Env :=
  mkEnv (λ n, if bool_decide (n = k) then Some (errors_New "input/output error") else None) (λ _, 0%Z) (λ _, 0%Z) (λ _, "x") (λ _, 3).
Definition stored_causes (w : World) : result (list string) :=
  match fst (run 0 (@LoadAll sample_JSON "/s/events") w) with Ok (evs, _) => Ok (ev_CausationID <$> evs) | Err err => Err err end.

(**  a failing [fsync] forks the stored chain.  The line of the first event
    is in its file when [Sync] fails, so the event is stored, but its call
    reports an error and the next event does not name it: both are read back,
    and both name no cause. *)
Theorem failed_sync_forks_chain :
  let x := run 0 sample_emits (new_emitter 0 numbered_ids (store_world (failing_env 3))) in
  (λ err, bool_decide (err = None)) <$> fst x = [false; true; true] ∧
  length (es_dispatched (snd x)) = 2 ∧ stored_causes (es_files (snd x)) = Ok [""; ""; "2"].
Proof. cbv zeta. split_and!; vm_compute; reflexivity. Qed.

(** ** Without a lock *)

(**  concurrent emits can break the chain.  The emitter reads its previous
    id before it writes the event and sets it afterwards, without a lock; in
    the daemon the event worker and the retry tasks share one emitter.  There
    is an interleaving of two emits, without any failure, after which both
    events are stored and neither names a cause: the second one is not linked
    to the first. *)
Theorem concurrent_emits_fork_chain :
  ∃ c, rtc pool_step
    ([Emit (H := sample_external) (H0 := sample_JSON) "/s/events" utc_date "session-1" true (CallDelivery "/o/a.md" "report") 7;
      Emit (H := sample_external) (H0 := sample_JSON) "/s/events" utc_date "session-1" true (CallRetry "b.md" "report") 8],
     new_emitter 0 numbered_ids (store_world quiet_env)) c ∧
    (∃ a b, fst c = [Ret a; Ret b] ∧ a = None ∧ b = None) ∧
    stored_causes (es_files (snd c)) = Ok [""; ""] ∧ ¬ chained "" (es_dispatched (snd c)).
Proof.
  eexists (sched _ ([0; 0; 1; 1] ++ replicate 8 0 ++ replicate 8 1)). split; [apply sched_reachable|].
  split_and!.
  - eexists _, _. split; [vm_compute; reflexivity|]. done.
  - vm_compute. reflexivity.
  - vm_compute. intros (_ & E & _). discriminate E.
Qed.
