(* ===== verification/Cutover.v ===== *)
(** * Snapshots and the one-time cutover

    Models [eventsource/store_snapshot.go], [eventsource/cutover.go] and
    [eventsource/lifecycle.go], over the event store of [EventStore] and a
    sequence counter.  The envelope's JSON form is a parameter; so is the time
    a file was last written, which the file system of [World] does not keep. *)
From S2P Require Import Prelude GoStrings GoPath GoTime Bloom DMail Prog World StoreSpec Events Complete SetupSafety Files EventStore.

#[local] Open Scope nat_scope.

(** ** [store_snapshot.go] *)

(** [json.Marshal] and [json.Unmarshal] of a [snapshotEnvelope]; [json_raw]
    holds of compact JSON values, which pass through a [RawMessage] as they
    are. *)
Class SnapshotJSON := {
  json_envelope : Z → string → Time → bytes → result bytes;
  json_unenvelope : bytes → option (Z * bytes);
  json_raw : bytes → Prop }.
Class SnapshotLaws `{SnapshotJSON} : Prop := {
  envelope_roundtrip : ∀ n ty t state, (0 ≤ n < two64)%Z → json_raw state →
    ∃ b, json_envelope n ty t state = Ok b ∧ json_unenvelope b = Some (n, state);
  json_raw_null : json_raw (raw "null") }.

(** [os.CreateTemp(dir, "snapshot-*.tmp")] *)
Definition snapshot_temp (dir rnd : string) : string := path_Join [dir; ("snapshot-" +:+ rnd) +:+ ".tmp"].
Fixpoint create_snapshot_temp (fuel : nat) (dir : string) (w : World) : result string * World :=
  match fuel with
  | O => (Err (errors_New ("createtemp " +:+ dir +:+ "/snapshot-*.tmp: file exists")), w)
  | S n =>
      let name := snapshot_temp dir (env_suffix (w_env w) (w_tick w)) in
      match lookup_path w name with
      | Some _ => create_snapshot_temp n dir (bump w)
      | None => (Ok name, set_fs (<[Clean name := NFile []]> (w_fs w)) (bump w))
      end
  end.
Definition CreateTemp_snapshot (dir : string) : act (result string) := guarded "" (λ w,
  match lookup_path w dir with
  | Some NDir => create_snapshot_temp temp_attempts dir w
  | Some (NFile _) => (Err (errors_New ("open " +:+ dir +:+ ": not a directory")), w)
  | None => (Err (enoent "open" dir), w)
  end).

Section Snapshots.
Context `{SnapshotJSON}.
Variable dir : string.

Definition snapshot_file (aggregateType : string) : string := path_Join [dir; aggregateType +:+ ".json"].

(** Drops the temporary file and reports. *)
Definition drop_temp (tmpName prefix : string) (err : error) (close : bool) : program (option error) :=
  _ ← (if close then _ ← atom file_Close; mret tt else mret tt);
  _ ← atom (os_Remove tmpName);
  mret (Some (errorf_w prefix err)).

Definition Save (aggregateType : string) (seqNr : Z) (state : bytes) : program (option error) :=
  r ← atom (os_MkdirAll dir);
  match r with
  | Err err => mret (Some (errorf_w "snapshot store: create dir: " err))
  | Ok _ =>
      now ← atom Now;
      match json_envelope seqNr aggregateType now state with
      | Err err => mret (Some (errorf_w "snapshot store: marshal: " err))
      | Ok data =>
          t ← atom (CreateTemp_snapshot dir);
          match t with
          | Err err => mret (Some (errorf_w "snapshot store: create temp: " err))
          | Ok tmpName =>
              r ← atom (file_Write tmpName data);
              match r with
              | Err err => drop_temp tmpName "snapshot store: write temp: " err true
              | Ok _ =>
                  r ← atom file_Sync;
                  match r with
                  | Err err => drop_temp tmpName "snapshot store: sync temp: " err true
                  | Ok _ =>
                      r ← atom file_Close;
                      match r with
                      | Err err => drop_temp tmpName "snapshot store: close temp: " err false
                      | Ok _ =>
                          r ← atom (os_Rename tmpName (snapshot_file aggregateType));
                          match r with
                          | Err err => drop_temp tmpName "snapshot store: rename: " err false
                          | Ok _ => mret None
                          end
                      end
                  end
              end
          end
      end
  end.

(** [Load]: the sequence number and the state; [None] for a nil state. *)
Definition Load (aggregateType : string) : act (result (Z * option bytes)) := λ w,
  let '(r, w) := os_ReadFile (snapshot_file aggregateType) w in
  match r with
  | Err err => if errors_Is err ErrNotExist then (Ok (0%Z, None), w)
               else (Err (errorf_w "snapshot store: read: " err), w)
  | Ok data =>
      match json_unenvelope data with
      | None => (Err (errors_New "snapshot store: unmarshal"), w)
      | Some (n, state) => (Ok (n, Some state), w)
      end
  end.
End Snapshots.

(** ** [cutover.go] *)

(** The files and the row of [seq.db]. *)
Record Store := mkStore { st_world : World; st_next : Z }.

Fixpoint lift {A} (p : program A) : prog Store A :=
  match p with
  | Ret a => Ret a
  | Act m k => Act (λ i s, (fst (m i (st_world s)), mkStore (snd (m i (st_world s))) (st_next s))) (λ x, lift (k x))
  end.

(** A statement on the counter, which may fail. *)
Definition on_counter {A} (prefix : string) (f : Z → A * Z) : Store → result A * Store := λ s,
  let '(e, w) := fault (st_world s) in
  match e with
  | Some err => (Err (errorf_w prefix err), mkStore w (st_next s))
  | None => let '(a, n) := f (st_next s) in (Ok a, mkStore w n)
  end.
Definition counter_Latest : Store → result Z * Store :=
  on_counter "seq counter: latest: " (λ n, (if (n <=? 1)%Z then 0%Z else (n - 1)%Z, n)).
Definition counter_Alloc : Store → result Z * Store :=
  on_counter "seq counter: alloc: " (λ n, (n, u64 (n + 1))).

Record CutoverResult := mkCutover { cr_AlreadyDone : bool; cr_EventCount : nat; cr_CutoverSeqNr : Z }.
Definition zero_result : CutoverResult := mkCutover false 0 0.
Definition already_done : CutoverResult := mkCutover true 0 0.

Section Cutover.
Context `{External} `{JSON} `{SnapshotJSON}.
Variable stateDir : string.
Variable date : Event → string.
(** The id a new event draws, by step. *)
Variable uuid : nat → string.

Definition EventsDir : string := path_Join [stateDir; "events"].
Definition SnapshotsDir : string := path_Join [stateDir; "snapshots"].

Definition cutover_event (w : World) (count : nat) (aggregateType : string) (now : Time) : Event :=
  NewEvent (uuid (w_tick w)) EventSystemCutover (CutoverPayload (Z.of_nat count) aggregateType) now.

Definition RunCutover (aggregateType : string) : prog Store (CutoverResult * option error) :=
  l ← atom counter_Latest;
  match l with
  | Err err => mret (zero_result, Some (errorf_w "cutover: check seq counter: " err))
  | Ok latest =>
      if (0 <? latest)%Z then mret (already_done, None) else
      r ← lift (LoadAll EventsDir);
      match r with
      | Err err => mret (zero_result, Some (errorf_w "cutover: load all events: " err))
      | Ok (events, _) =>
          if bool_decide (events = []) then mret (already_done, None) else
          e ← lift (Save SnapshotsDir aggregateType 0 (raw "null"));
          match e with
          | Some err => mret (zero_result, Some (errorf_w "cutover: save sentinel snapshot: " err))
          | None =>
              ev ← lift (atom (λ w, let '(now, w') := Now w in (cutover_event w (length events) aggregateType now, w')));
              s ← atom counter_Alloc;
              match s with
              | Err err => mret (zero_result, Some (errorf_w "cutover: alloc seq nr: " err))
              | Ok seq =>
                  a ← lift (Append EventsDir date [with_seq seq ev]);
                  match a with
                  | Err err => mret (zero_result, Some (errorf_w "cutover: append cutover event: " err))
                  | Ok _ => mret (mkCutover false (length events) seq, None)
                  end
              end
          end
      end
  end.

(** ** [lifecycle.go] *)

(** When a file was last written, if that can be found out. *)
Variable ModTime : string → option Time.

Definition Day : Duration := (24 * Hour)%Z.

Definition is_expired (cutoff : Time) (e : string * bool) : bool :=
  is_jsonl e && match ModTime (path_Join [EventsDir; fst e]) with
                | None => false                 (* e.Info() failed *)
                | Some t => (t <? cutoff)%Z
                end.

(** The days multiply as int64. *)
Definition cutoff_for (now : Time) (days : Z) : Time := (now + i64 (i64 (i64 (- days) * 24) * Hour))%Z.

Definition ListExpiredEventFiles (days : Z) : program (result (list string)) :=
  if (days <? 0)%Z then mret (Err (errors_New ("days must be non-negative, got " +:+ Itoa days))) else
  r ← atom (os_ReadDir EventsDir);
  match r with
  | Err err => if errors_Is err ErrNotExist then mret (Ok []) else mret (Err err)
  | Ok entries =>
      now ← atom Now;
      mret (Ok (fst <$> List.filter (is_expired (cutoff_for now days)) entries))
  end.

Definition prune_file (deleted : list string) (name : string) : program (list string + (list string * error)) :=
  r ← atom (os_Remove (path_Join [EventsDir; name]));
  match r with
  | Err err => if errors_Is err ErrNotExist then mret (inl (deleted ++ [name])) else mret (inr (deleted, err))
  | Ok _ => mret (inl (deleted ++ [name]))
  end.
Definition PruneEventFiles (files : list string) : program (list string * option error) :=
  o ← for_range files [] prune_file;
  match o with
  | inl deleted => mret (deleted, None)
  | inr (deleted, err) => mret (deleted, Some err)
  end.
End Cutover.

(** * Theorems *)

(** ** Saving a snapshot is atomic *)

Section SnapshotSafety.
Context `{SL : SnapshotLaws}.
Variable dir ty : string.
Variable n : Z.
Variable state : bytes.
Hypothesis ty_plain : plain (ty +:+ ".json").

#[local] Abbreviation tgt := (snapshot_file dir ty).

Lemma temp_plain x : has_byte slash x = false → plain (("snapshot-" +:+ x) +:+ ".tmp").
Proof. intros Hx. split_and!; [done..|]. rewrite !has_byte_app, Hx. done. Qed.

Lemma temp_ne x : has_byte slash x = false → snapshot_temp dir x ≠ tgt.
Proof using ty_plain.
  intros Hx E. apply path_Join_inj in E as [E _]; [|by apply temp_plain|done].
  apply (f_equal (λ s, last (raw s))) in E. rewrite !raw_app, !last_app in E. done.
Qed.

(** At a crash point the snapshot is the old one or a complete new one. *)
Definition intact (old : option node) (w : World) : Prop :=
  w_fs w !! tgt = old ∨
  ∃ t data, json_envelope n ty t state = Ok data ∧ w_fs w !! tgt = Some (NFile data).

Lemma other_intact old x w w' : x ≠ tgt → other_files x w w' → intact old w → intact old w'.
Proof. intros Hx [Ho _]. unfold intact. by rewrite Ho. Qed.

(** What a save that reports no error has done. *)
Definition saved (err : option error) (w : World) : Prop :=
  err = None → ∃ t data, json_envelope n ty t state = Ok data ∧ w_fs w !! tgt = Some (NFile data).

Lemma drop_temp_always old x pre err b w :
  Clean x ≠ tgt → intact old w → always 0 (drop_temp x pre err b) (intact old) saved w.
Proof.
  intros Hx Hw.
  assert (∀ w, intact old w → always 0 (_ ← atom (os_Remove x); mret (Some (errorf_w pre err))) (intact old) saved w) as Hrm.
  { intros v Hv. split; [done|]. split; [|done]. eapply other_intact; [exact Hx|apply os_Remove_touches|done]. }
  destruct b; cbn; [|by apply Hrm]. split; [done|]. apply Hrm.
  eapply other_intact; [exact Hx|apply guarded_same|done].
Qed.
Lemma Clean_temp x : has_byte slash x = false → Clean (snapshot_temp dir x) = snapshot_temp dir x.
Proof. intros Hx. by apply Clean_Join, temp_plain. Qed.

Lemma create_temp_cases fuel w r w' :
  (∀ k, has_byte slash (env_suffix (w_env w) k) = false) →
  create_snapshot_temp fuel dir w = (r, w') →
  w_env w' = w_env w ∧
  ((∃ e, r = Err e) ∧ w_fs w' = w_fs w ∨
   ∃ x, r = Ok (snapshot_temp dir x) ∧ has_byte slash x = false ∧
     w_fs w' = <[snapshot_temp dir x := NFile []]> (w_fs w)).
Proof.
  revert w. induction fuel as [|m IH]; intros w Hs; cbn [create_snapshot_temp]; [intros [= <- <-]; eauto|].
  destruct (lookup_path w _) eqn:E.
  - intros Ec. by apply (IH (bump w)) in Ec.
  - intros [= <- <-]. split; [done|]. right. eexists. split; [done|]. split; [apply Hs|].
    cbn [set_fs w_fs bump set_tick]. by rewrite Clean_temp by apply Hs.
Qed.

Lemma CreateTemp_cases w :
  (∀ k, has_byte slash (env_suffix (w_env w) k) = false) →
  w_env (snd (CreateTemp_snapshot dir w)) = w_env w ∧
  ((∃ e, fst (CreateTemp_snapshot dir w) = Err e) ∧ w_fs (snd (CreateTemp_snapshot dir w)) = w_fs w ∨
   ∃ x, fst (CreateTemp_snapshot dir w) = Ok (snapshot_temp dir x) ∧ has_byte slash x = false ∧
     w_fs (snd (CreateTemp_snapshot dir w)) = <[snapshot_temp dir x := NFile []]> (w_fs w)).
Proof.
  intros Hs. unfold CreateTemp_snapshot, guarded, fault.
  destruct (env_fault _ _); cbn [fst snd]; [eauto|].
  destruct (lookup_path (bump w) dir) as [[]|]; cbn [fst snd]; [eauto| |eauto].
  destruct (create_snapshot_temp temp_attempts dir (bump w)) as [r w'] eqn:E. cbn [fst snd].
  by apply (create_temp_cases _ (bump w)) in E.
Qed.

(** The write either fails or fills the temporary file. *)
Lemma Write_temp x d w :
  has_byte slash x = false → is_Some (w_fs w !! snapshot_temp dir x) →
  w_fs w !! snapshot_temp dir x ≠ Some NDir →
  fst (file_Write (snapshot_temp dir x) d w) = Ok tt →
  w_fs (snd (file_Write (snapshot_temp dir x) d w)) !! snapshot_temp dir x = Some (NFile d).
Proof.
  intros Hx [nd Hn] Hnd. unfold file_Write, fault. destruct (env_fault _ _); [done|]. cbn [fst snd].
  unfold lookup_path. rewrite Clean_temp by done. change (w_fs (bump w)) with (w_fs w).
  rewrite Hn in Hnd |- *. destruct nd as [old|]; [|done]. intros _. cbn. by rewrite lookup_insert_eq.
Qed.

Lemma Clean_tgt : Clean tgt = tgt.
Proof using ty_plain. by apply Clean_Join. Qed.

Lemma Rename_cases x d w :
  has_byte slash x = false → w_fs w !! snapshot_temp dir x = Some (NFile d) →
  let '(r, w') := os_Rename (snapshot_temp dir x) tgt w in
  w_env w' = w_env w ∧
  ((∃ e, r = Err e) ∧ w_fs w' = w_fs w ∨
   r = Ok tt ∧ w_fs w' = <[tgt := NFile d]> (delete (snapshot_temp dir x) (w_fs w))).
Proof using ty_plain.
  intros Hx Hd. unfold os_Rename, guarded, fault. destruct (env_fault _ _); [eauto|]. unfold lookup_path.
  rewrite Clean_temp, Clean_tgt by done. change (w_fs (bump w)) with (w_fs w). rewrite Hd.
  destruct (w_fs w !! tgt) as [[]|]; eauto.
Qed.

(** From the temporary file on. *)
Lemma Save_temp_always old x t data w :
  has_byte slash x = false → json_envelope n ty t state = Ok data →
  w_fs w !! snapshot_temp dir x = Some (NFile []) → intact old w →
  always 0 (r ← atom (file_Write (snapshot_temp dir x) data);
            match r with
            | Err err => drop_temp (snapshot_temp dir x) "snapshot store: write temp: " err true
            | Ok _ =>
                r ← atom file_Sync;
                match r with
                | Err err => drop_temp (snapshot_temp dir x) "snapshot store: sync temp: " err true
                | Ok _ =>
                    r ← atom file_Close;
                    match r with
                    | Err err => drop_temp (snapshot_temp dir x) "snapshot store: close temp: " err false
                    | Ok _ =>
                        r ← atom (os_Rename (snapshot_temp dir x) tgt);
                        match r with
                        | Err err => drop_temp (snapshot_temp dir x) "snapshot store: rename: " err false
                        | Ok _ => mret None
                        end
                    end
                end
            end) (intact old) saved w.
Proof using ty_plain.
  intros Hx Hd Ht Hw. set (p := snapshot_temp dir x) in *.
  assert (Clean p = p) as Hc by (by apply Clean_temp). assert (p ≠ tgt) as Hne by (by apply temp_ne).
  assert (∀ w w', other_files p w w' → intact old w → intact old w') as Hi by (intros ??; by apply other_intact).
  pose proof (file_Write_touches p data w) as Hwr. rewrite Hc in Hwr. apply always_atom; [done|].
  pose proof (Write_temp x data w Hx) as Hput. fold p in Hput. rewrite Ht in Hput.
  specialize (Hput (ex_intro _ _ eq_refl)). specialize (Hput ltac:(done)).
  destruct (file_Write p data w) as [[[]|e] w1]; cbn [fst snd] in *.
  2: { apply drop_temp_always; [by rewrite Hc|by eapply Hi]. }
  specialize (Hput eq_refl). assert (intact old w1) as I1 by (by eapply Hi). apply always_atom; [done|].
  unfold file_Sync, file_Close. destruct (guarded_cases "" (λ w, (Ok tt, w)) w1) as [[e ->]| ->]; cbn [fst snd].
  { by apply drop_temp_always; [rewrite Hc|]. }
  apply always_atom; [done|]. destruct (guarded_cases "" (λ w, (Ok tt, w)) (bump w1)) as [[e ->]| ->]; cbn [fst snd].
  { by apply drop_temp_always; [rewrite Hc|]. }
  apply always_atom; [done|]. pose proof (Rename_cases x data (bump (bump w1)) Hx Hput) as HR. fold p in HR.
  destruct (os_Rename p tgt (bump (bump w1))) as [r w4]. cbn [fst snd]. destruct HR as [_ [[[e ->] E]|[-> E]]].
  - apply drop_temp_always; [by rewrite Hc|]. unfold intact. rewrite E. exact I1.
  - assert (w_fs w4 !! tgt = Some (NFile data)) as Hf by (rewrite E; apply lookup_insert_eq).
    apply always_ret; [right; eauto|]. intros _. eauto.
Qed.

Lemma Save_crash_safe w :
  dir_ready dir (w_fs w) → (∀ k, has_byte slash (env_suffix (w_env w) k) = false) →
  always 0 (Save dir ty n state) (intact (w_fs w !! tgt)) saved w.
Proof using ty_plain.
  intros Hd Hs. set (old := w_fs w !! tgt). assert (intact old w) as Hw by (by left).
  unfold Save. apply always_atom; [done|]. unfold os_MkdirAll.
  destruct (guarded_cases "" (λ w, match mkdir_all (slen dir) (Clean dir) (w_fs w) with
    | Ok fs => (Ok tt, set_fs fs w) | Err e => (Err e, w) end) w) as [[e ->]| ->]; cbn [fst snd]; [by apply always_ret|].
  change (w_fs (bump w)) with (w_fs w).
  assert (∃ fs, mkdir_all (slen dir) (Clean dir) (w_fs w) = Ok fs ∧ fs !! tgt = old) as (fs & -> & Hfs).
  { destruct (mkdir_all_ready dir (w_fs w) Hd) as [[-> _]| ->]; eexists; (split; [done|]); [done|].
    rewrite lookup_insert_ne; [done|]. intros E. by apply (path_Join_ne dir (ty +:+ ".json")). }
  cbn [fst snd]. set (w1 := set_fs fs (bump w)). assert (intact old w1) as I1 by (by left). apply always_atom; [done|].
  unfold Now. cbn [fst snd]. set (t := env_now _ _).
  destruct (json_envelope n ty t state) as [data|e] eqn:Ej; [|by apply always_ret]. apply always_atom; [done|].
  destruct (CreateTemp_cases (bump w1) Hs) as [_ HC].
  destruct (CreateTemp_snapshot dir (bump w1)) as [r w2]. cbn [fst snd] in *.
  destruct HC as [[[e ->] E]|(x & -> & Hx & E)].
  - apply always_ret; [|done]. left. by rewrite E.
  - eapply Save_temp_always; [done|exact Ej|rewrite E; apply lookup_insert_eq|].
    left. rewrite E, lookup_insert_ne by (by apply temp_ne). done.
Qed.

Lemma Load_saved w data :
  w_fs w !! tgt = Some (NFile data) → env_fault (w_env w) (w_tick w) = None →
  fst (Load dir ty w) = match json_unenvelope data with
                        | None => Err (errors_New "snapshot store: unmarshal")
                        | Some (m, st) => Ok (m, Some st)
                        end.
Proof using ty_plain.
  intros Hf He. unfold Load, os_ReadFile, guarded, fault. rewrite He. unfold lookup_path. rewrite Clean_tgt.
  change (w_fs (bump w)) with (w_fs w). rewrite Hf. by destruct (json_unenvelope data) as [[]|].
Qed.
End SnapshotSafety.

(**  snapshots are saved atomically and read back.  Wherever a save fails
    or the process is killed, a reader finds the snapshot that was there
    before or a complete new one; when the save reports no error, [Load]
    returns the sequence number and the state that were saved. *)
Theorem snapshot_save_atomic `{SL : SnapshotLaws} (dir ty : string) (n : Z) (state : bytes) (w : World) (k : nat) :
  plain (ty +:+ ".json") → (0 ≤ n < two64)%Z → json_raw state → dir_ready dir (w_fs w) →
  (∀ m, has_byte slash (env_suffix (w_env w) m) = false) →
  (let w' := run_for k 0 (Save dir ty n state) w in
   env_fault (w_env w') (w_tick w') = None →
   w_fs w' !! snapshot_file dir ty = w_fs w !! snapshot_file dir ty ∨
   fst (Load dir ty w') = Ok (n, Some state)) ∧
  (let '(err, w') := run 0 (Save dir ty n state) w in
   err = None → env_fault (w_env w') (w_tick w') = None → fst (Load dir ty w') = Ok (n, Some state)).
Proof.
  intros Hty Hn Hr Hd Hs. pose proof (Save_crash_safe dir ty n state Hty w Hd Hs) as HA.
  assert (∀ v t data, json_envelope n ty t state = Ok data → w_fs v !! snapshot_file dir ty = Some (NFile data) →
    env_fault (w_env v) (w_tick v) = None → fst (Load dir ty v) = Ok (n, Some state)) as HL.
  { intros v t data Ej Hv He. rewrite (Load_saved dir ty Hty v data Hv He).
    destruct (envelope_roundtrip n ty t state Hn Hr) as (b & Eb & Eu). rewrite Ej in Eb. simplify_eq. by rewrite Eu. }
  split.
  - cbv zeta. intros He. destruct (always_run_for k _ _ _ _ _ HA) as [?|(t & data & Ej & Hv)]; [by left|right; eauto].
  - pose proof (always_run _ _ _ _ _ HA) as HR. unfold runs in HR. destruct (run 0 _ w) as [err w'].
    cbn [fst snd] in HR. intros Herr He. destruct (HR Herr) as (t & data & Ej & Hv). eauto.
Qed.

(** ** The cutover happens once *)

(** Loading events writes nothing. *)
Definition same_fs (w w' : World) : Prop := w_fs w' = w_fs w.
#[export] Instance same_fs_preorder : PreOrder same_fs.
Proof. split; [by intros w|intros w1 w2 w3; unfold same_fs; congruence]. Qed.

Lemma same_fs_ReadFile p w : same_fs w (snd (os_ReadFile p w)).
Proof.
  unfold os_ReadFile, guarded, fault, same_fs. destruct (env_fault _ _); [done|].
  by destruct (lookup_path (bump w) p) as [[]|].
Qed.
Lemma same_fs_ReadDir p w : same_fs w (snd (os_ReadDir p w)).
Proof.
  unfold os_ReadDir, guarded, fault, same_fs. destruct (env_fault _ _); [done|].
  by destruct (lookup_path (bump w) p) as [[]|].
Qed.
Lemma same_fs_noop {A} pre (a : A) w : same_fs w (snd (guarded pre (λ w, (Ok a, w)) w)).
Proof. unfold guarded, fault, same_fs. by destruct (env_fault _ _). Qed.

Lemma loadEvents_reads `{JSON} dir after : acts same_fs (loadEvents dir after).
Proof.
  unfold loadEvents. apply acts_bind; [apply acts_atom, same_fs_ReadDir|]. intros [entries|e]; [|by destruct (errors_Is _ _)].
  apply acts_bind; [|by intros [[]|]]. apply acts_for_range. intros acc name. unfold load_file.
  apply acts_bind; [apply acts_atom, same_fs_ReadFile|]. intros [data|e]; [|done].
  apply acts_bind; [apply acts_atom, same_fs_noop|]. intros [[]|e]; [|done]. by destruct (scan_lines data).
Qed.

Lemma runs_lift {A} i (p : program A) (Q : A → Store → Prop) s :
  runs i p (λ a w, Q a (mkStore w (st_next s))) (st_world s) → runs i (lift p) Q s.
Proof.
  unfold runs. revert s. induction p as [a|X m k IH]; intros [w n]; cbn; [done|].
  destruct (m i w) as [x w'] eqn:E. cbn. rewrite ?E. cbn. intros HQ. by apply IH.
Qed.

(** Files outside a directory. *)
Definition outside (dir : string) (fs fs' : gmap string node) : Prop :=
  ∀ k, k ≠ Clean dir → Dir k ≠ Clean dir → fs' !! k = fs !! k.

Section SaveCompletes.
Context `{SL : SnapshotLaws}.
Variable env : Env.
Hypothesis env_ok : no_faults env.
Variable dir ty : string.
Hypothesis ty_plain : plain (ty +:+ ".json").

#[local] Abbreviation tgt := (snapshot_file dir ty).

Lemma run_guarded {A} pre (m : act (result A)) w : w_env w = env → guarded pre m w = m (bump w).
Proof using env_ok. intros Hw. unfold guarded, fault. by rewrite Hw, env_ok. Qed.

Lemma CreateTemp_ok w :
  w_env w = env → (∀ k, has_byte slash (env_suffix env k) = false) → w_fs w !! Clean dir = Some NDir →
  (∀ x, has_byte slash x = false → w_fs w !! snapshot_temp dir x = None) →
  ∃ x, has_byte slash x = false ∧ CreateTemp_snapshot dir w =
    (Ok (snapshot_temp dir x), set_fs (<[snapshot_temp dir x := NFile []]> (w_fs w)) (bump (bump w))).
Proof using env_ok.
  intros Hw Hs Hd Hfree. unfold CreateTemp_snapshot. rewrite run_guarded by done. unfold lookup_path at 1.
  change (w_fs (bump w)) with (w_fs w). rewrite Hd.
  change temp_attempts with (S (Z.to_nat 9999)). cbn [create_snapshot_temp].
  set (x := env_suffix (w_env (bump w)) (w_tick (bump w))).
  assert (has_byte slash x = false) as Hx by (subst x; change (w_env (bump w)) with (w_env w); by rewrite Hw).
  unfold lookup_path. rewrite Clean_temp by done. change (w_fs (bump w)) with (w_fs w). rewrite Hfree by done. eauto.
Qed.

(** Without failures a save succeeds and touches its own directory only. *)
Lemma Save_completes i n state w :
  (0 ≤ n < two64)%Z → json_raw state → w_env w = env → (∀ k, has_byte slash (env_suffix env k) = false) → dir_ready dir (w_fs w) →
  (∀ x, has_byte slash x = false → w_fs w !! snapshot_temp dir x = None) → w_fs w !! tgt ≠ Some NDir →
  runs i (Save dir ty n state) (λ err v,
    err = None ∧ w_env v = env ∧ outside dir (w_fs w) (w_fs v)) w.
Proof using env_ok ty_plain SL.
  intros Hz Hr Hw Hs Hd Hfree Htgt. unfold Save. apply runs_bind, runs_atom. unfold os_MkdirAll. rewrite run_guarded by done.
  change (w_fs (bump w)) with (w_fs w).
  assert (∃ fs, mkdir_all (slen dir) (Clean dir) (w_fs w) = Ok fs ∧ fs !! Clean dir = Some NDir ∧
    ∀ k, k ≠ Clean dir → fs !! k = w_fs w !! k) as (fs & -> & Hfd & Hfs).
  { destruct (mkdir_all_ready dir (w_fs w) Hd) as [[-> ?]| ->]; eexists; (split; [done|]); [done|].
    split; [apply lookup_insert_eq|]. intros k Hk. by rewrite lookup_insert_ne. }
  cbn [fst snd]. apply runs_bind, runs_atom. unfold Now. cbn [fst snd]. set (w1 := bump (set_fs fs (bump w))).
  destruct (envelope_roundtrip n ty (env_now (w_env (set_fs fs (bump w))) (w_tick (set_fs fs (bump w)))) state Hz Hr)
    as (data & -> & _). apply runs_bind, runs_atom.
  assert (∀ f, plain f → path_Join [dir; f] ≠ Clean dir) as Hne by (intros; by apply path_Join_ne).
  destruct (CreateTemp_ok w1) as (x & Hx & ->); [done|done|done| |].
  { intros x Hx. change (fs !! snapshot_temp dir x = None). rewrite Hfs; [by apply Hfree|]. by apply Hne, temp_plain. }
  cbn [fst snd]. set (p := snapshot_temp dir x). set (w2 := set_fs _ _).
  assert (Clean p = p) as Hc by (by apply Clean_temp).
  apply runs_bind, runs_atom. unfold file_Write, fault. change (w_env w2) with (w_env w). rewrite Hw, env_ok.
  unfold lookup_path. rewrite Hc. change (w_fs (bump w2)) with (<[p := NFile []]> fs). rewrite lookup_insert_eq. cbn [fst snd].
  set (w3 := set_fs _ _). unfold file_Sync, file_Close.
  apply runs_bind, runs_atom. rewrite run_guarded by done. apply runs_bind, runs_atom. cbn [snd].
  rewrite run_guarded by done. cbn [fst snd]. apply runs_bind, runs_atom.
  unfold os_Rename. rewrite run_guarded by done. unfold lookup_path. rewrite Hc, Clean_tgt by done.
  change (w_fs (bump (bump (bump w3)))) with (<[p := NFile data]> (<[p := NFile []]> fs)).
  rewrite lookup_insert_eq, lookup_insert_ne, lookup_insert_ne by (by apply temp_ne).
  rewrite Hfs by (by apply Hne).
  assert (∀ k, k ≠ Clean dir → Dir k ≠ Clean dir →
    (<[tgt := NFile data]> (delete p (<[p := NFile data]> (<[p := NFile []]> fs)))) !! k = w_fs w !! k) as Hout.
  { intros k Hk1 Hk2. assert (tgt ≠ k) by (intros <-; by apply Hk2, Dir_Join).
    assert (p ≠ k) by (intros <-; by apply Hk2, Dir_Join, temp_plain).
    by rewrite lookup_insert_ne, lookup_delete_ne, !lookup_insert_ne, Hfs. }
  destruct (w_fs w !! tgt) as [[]|]; [|done|]; by apply runs_ret.
Qed.
End SaveCompletes.

Section CutoverOnce.
Context `{EX : External} `{JL : JSONLaws} `{SL : SnapshotLaws}.
Variable stateDir ty : string.
Variable date : Event → string.
Variable uuid : nat → string.
Hypothesis date_plain : ∀ e, plain (date e +:+ ".jsonl").
Hypothesis ty_plain : plain (ty +:+ ".json").
Variable env : Env.
Hypothesis env_ok : no_faults env.
Hypothesis suffix_ok : ∀ k, has_byte slash (env_suffix env k) = false.
(** The cutover event of a store with these events survives the codec. *)
Definition cutover_storable (log : list Event) : Prop :=
  ∀ w k, storable (with_seq 1 (cutover_event uuid w (length log) ty (env_now env k))).

#[local] Abbreviation events := (EventsDir stateDir).
#[local] Abbreviation snapshots := (SnapshotsDir stateDir).

Lemma dirs_apart :
  Clean events = events ∧ Clean snapshots = snapshots ∧ events ≠ snapshots ∧
  Dir events ≠ snapshots ∧ Dir snapshots ≠ events.
Proof.
  assert (plain "events") as He by by split_and!. assert (plain "snapshots") as Hs by by split_and!.
  unfold EventsDir, SnapshotsDir. rewrite !Dir_Join by done. split_and!; [by apply Clean_Join..| | |].
  - intros [E _]%path_Join_inj; done.
  - intros E. by apply (path_Join_ne stateDir "snapshots").
  - intros E. by apply (path_Join_ne stateDir "events").
Qed.

Lemma rep_outside opened evs fs fs' :
  outside snapshots fs fs' → rep events date opened evs fs → rep events date opened evs fs'.
Proof.
  destruct dirs_apart as (Ee & Es & Hne & H1 & H2). unfold outside. rewrite Es. intros Ho [R1 R2 R3 R4].
  rewrite Ee in R1, R3. constructor; rewrite ?Ee; [by rewrite Ho| | |done].
  - intros name Hp Hn. pose proof (Dir_Join events name Hp) as Hd. rewrite Ee in Hd.
    rewrite Ho; [by apply R2| |congruence]. intros E. rewrite E in Hd. done.
  - intros k Hk Hd Hke. apply R3; [|done|done]. rewrite Ho in Hk; [done| |congruence]. intros ->. done.
Qed.

(** A store that can be cut over: the events, the counter at its start, and
    room for the snapshot. *)
Definition before_cutover (log : list Event) (s : Store) : Prop :=
  store_at events date env log (st_world s) ∧ st_next s = 1%Z ∧ dir_ready snapshots (w_fs (st_world s)) ∧
  (∀ x, has_byte slash x = false → w_fs (st_world s) !! snapshot_temp snapshots x = None) ∧
  w_fs (st_world s) !! snapshot_file snapshots ty ≠ Some NDir.

Lemma on_counter_ok {A} prefix (f : Z → A * Z) s :
  w_env (st_world s) = env → on_counter prefix f s = (Ok (fst (f (st_next s))), mkStore (bump (st_world s)) (snd (f (st_next s)))).
Proof using env_ok. intros Hw. unfold on_counter, fault. rewrite Hw, env_ok. by destruct (f (st_next s)). Qed.

Lemma store_env log w : store_at events date env log w → w_env w = env.
Proof. by intros [[_ ?]|(_ & _ & ?)]. Qed.

(** After the first allocation the cutover does nothing. *)
Lemma RunCutover_done i log s :
  store_at events date env log (st_world s) → (1 < st_next s)%Z →
  run i (RunCutover stateDir date uuid ty) s = ((already_done, None), mkStore (bump (st_world s)) (st_next s)).
Proof using env_ok.
  intros Hs Hn. unfold RunCutover. rewrite run_mbind, run_atom. unfold counter_Latest.
  rewrite on_counter_ok by (by eapply store_env). cbn [fst snd].
  destruct (Z.leb_spec (st_next s) 1); [lia|]. destruct (Z.ltb_spec 0 (st_next s - 1)); [done|lia].
Qed.

Lemma loaded_nil log : stable_sort time_less (loaded date 0 log) = [] ↔ log = [].
Proof.
  assert (stable_sort time_less (loaded date 0 log) ≡ₚ log) as HP
    by (by rewrite stable_sort_perm, loaded_perm, (filter_all (newer 0))).
  split; [intros E; rewrite E in HP; by apply Permutation_nil in HP|by intros ->].
Qed.
Lemma loaded_length log : length (stable_sort time_less (loaded date 0 log)) = length log.
Proof. apply Permutation_length. by rewrite stable_sort_perm, loaded_perm, (filter_all (newer 0)). Qed.

Lemma RunCutover_once i log s :
  before_cutover log s → cutover_storable log → log ≠ [] →
  runs i (RunCutover stateDir date uuid ty) (λ o s',
    o = (mkCutover false (length log) 1, None) ∧ st_next s' = 2%Z ∧
    ∃ w m now, store_at events date env (log ++ [with_seq 1 (cutover_event uuid w m ty now)]) (st_world s')) s.
Proof using env_ok suffix_ok date_plain ty_plain JL SL.
  intros (Hs & Hn & Hd & Hf & Ht) event_ok Hne. pose proof (store_env _ _ Hs) as Henv.
  unfold RunCutover. apply runs_bind, runs_atom. unfold counter_Latest. rewrite on_counter_ok by done. rewrite Hn.
  cbn [fst snd Z.leb Z.compare Z.ltb]. apply runs_bind, runs_lift. cbn [st_world st_next].
  pose proof (acts_run same_fs i _ (bump (st_world s)) (loadEvents_reads events 0)) as Hfs. unfold same_fs in Hfs.
  pose proof (loadEvents_ok events date date_plain env env_ok i 0 log (bump (st_world s))) as HL.
  unfold LoadAll, runs at 1. unfold runs in HL. destruct (run i (loadEvents events 0) (bump (st_world s))) as [r v]. cbn [fst snd] in *.
  destruct HL as [-> Hv]; [by destruct Hs as [[? ?]|(? & ? & ?)]; [left|right]|].
  rewrite bool_decide_eq_false_2 by (by rewrite loaded_nil). rewrite loaded_length.
  change (w_fs (bump (st_world s))) with (w_fs (st_world s)) in Hfs.
  apply runs_bind, runs_lift. cbn [st_world st_next].
  eapply runs_mono; [|apply (Save_completes env env_ok snapshots ty ty_plain i 0 (raw "null") v);
    [by unfold two64|apply json_raw_null|by eapply store_env|done|by rewrite Hfs..]].
  cbn beta. intros e u (-> & Hu & Hout). apply runs_bind, runs_lift, runs_atom. unfold Now. cbn [fst snd st_world st_next].
  apply runs_bind, runs_atom. unfold counter_Alloc. rewrite on_counter_ok by done.
  cbn [fst snd st_world st_next]. apply runs_bind, runs_lift. cbn [st_world st_next].
  assert (store_at events date env log u) as Hsu.
  { left. destruct Hv as [[HR _]|(-> & _)]; [|done]. split; [|done]. by eapply rep_outside. }
  eapply runs_mono; [|apply (Append_ok events date date_plain env env_ok i [with_seq 1 _] log)].
  - cbn beta. intros r' v' (m & -> & Hv'). apply runs_ret. split_and!; [done|done|].
    eexists _, _, _. left. exact Hv'.
  - constructor; [|done]. rewrite Hu. apply event_ok.
  - by destruct Hsu as [[? ?]|(? & ? & ?)]; [left|right].
Qed.

Lemma RunCutover_fresh i s :
  store_at events date env [] (st_world s) → st_next s = 1%Z →
  runs i (RunCutover stateDir date uuid ty) (λ o s',
    o = (already_done, None) ∧ st_next s' = 1%Z ∧ w_fs (st_world s') = w_fs (st_world s)) s.
Proof using env_ok date_plain JL.
  intros Hs Hn. unfold RunCutover. apply runs_bind, runs_atom. unfold counter_Latest.
  rewrite on_counter_ok by (by eapply store_env). rewrite Hn.
  cbn [fst snd Z.leb Z.compare Z.ltb]. apply runs_bind, runs_lift. cbn [st_world st_next].
  pose proof (acts_run same_fs i _ (bump (st_world s)) (loadEvents_reads events 0)) as Hfs. unfold same_fs in Hfs.
  pose proof (loadEvents_ok events date date_plain env env_ok i 0 [] (bump (st_world s))) as HL.
  unfold LoadAll, runs at 1. unfold runs in HL.
  destruct (run i (loadEvents events 0) (bump (st_world s))) as [r v]. cbn [fst snd] in *.
  destruct HL as [-> Hv]; [by destruct Hs as [[? ?]|(? & ? & ?)]; [left|right]|]. by apply runs_ret.
Qed.
End CutoverOnce.

(** C36: the cutover happens once.  On a store with legacy events and a counter
    that has given out nothing, [RunCutover] reports how many there are,
    appends the cutover event with sequence number 1 and moves the counter; a
    second run reports that it was done before and changes no file and no
    counter.  On an empty store it changes nothing. *)
Theorem cutover_runs_once `{External} `{JL : JSONLaws} `{SL : SnapshotLaws} (stateDir ty : string)
    (date : Event → string) (uuid : nat → string) (i : nat) (log : list Event) (s : Store) :
  (∀ e, plain (date e +:+ ".jsonl")) → plain (ty +:+ ".json") → no_faults (w_env (st_world s)) →
  (∀ k, has_byte slash (env_suffix (w_env (st_world s)) k) = false) →
  cutover_storable ty uuid (w_env (st_world s)) log →
  before_cutover stateDir ty date (w_env (st_world s)) log s →
  let '(o1, s1) := run i (RunCutover stateDir date uuid ty) s in
  let '(o2, s2) := run i (RunCutover stateDir date uuid ty) s1 in
  if bool_decide (log = []) then
    o1 = (already_done, None) ∧ st_next s1 = st_next s ∧ w_fs (st_world s1) = w_fs (st_world s)
  else
    o1 = (mkCutover false (length log) 1, None) ∧
    (∃ e, ev_Type e = EventSystemCutover ∧ ev_SeqNr e = 1%Z ∧
       store_at (EventsDir stateDir) date (w_env (st_world s)) (log ++ [e]) (st_world s1)) ∧
    o2 = (already_done, None) ∧ st_next s2 = st_next s1 ∧ w_fs (st_world s2) = w_fs (st_world s1).
Proof.
  intros Hd Hty He Hx Hev Hb. pose proof (RunCutover_once stateDir ty date uuid Hd Hty _ He Hx i log s Hb Hev) as HO.
  pose proof (RunCutover_fresh stateDir ty date uuid Hd _ He i s) as HF.
  destruct Hb as (Hs & Hn & _). unfold runs in HF, HO. destruct (run i (RunCutover stateDir date uuid ty) s) as [o1 s1].
  cbn [fst snd] in *. case_bool_decide as El.
  - subst log. destruct (HF Hs Hn) as (-> & E & ?). destruct (run i _ s1). by rewrite E, Hn.
  - destruct (HO El) as (-> & E & w & m & now & Hst).
    rewrite (RunCutover_done stateDir ty date uuid _ He i _ s1 Hst) by lia. split_and!; [done| |done|done|done].
    eexists. split_and!; [| |exact Hst]; done.
Qed.

(** ** Concrete stores *)

Definition sample_snapshots : SnapshotJSON := {|
  json_envelope := λ n _ _ state, Ok (PutUint64 n ++ state);
  json_unenvelope := λ b, n ← Uint64 b; Some (n, drop 8 b);
  json_raw := λ _, True |}.
Lemma sample_SnapshotLaws : @SnapshotLaws sample_snapshots.
Proof.
  constructor; [|done]. intros n ty t state Hn _. eexists. split; [done|].
  cbn [json_unenvelope sample_snapshots]. rewrite Uint64_PutUint64 by done. by cbn [mbind option_bind].
Qed.

Lemma snapshot_save_atomic_witness :
  let w := snd (run 0 (@Save sample_snapshots "/s/snapshots" "delivery" 7 (raw "null")) (store_world quiet_env)) in
  fst (@Load sample_snapshots "/s/snapshots" "delivery" w) = Ok (7%Z, Some (raw "null")).
Proof.
  set (p := @Save sample_snapshots "/s/snapshots" "delivery" 7 (raw "null")).
  assert (fst (run 0 p (store_world quiet_env)) = None) as Herr by (vm_compute; reflexivity).
  assert (env_fault (w_env (snd (run 0 p (store_world quiet_env)))) (w_tick (snd (run 0 p (store_world quiet_env)))) = None)
    as Hf by (vm_compute; reflexivity).
  destruct (@snapshot_save_atomic sample_snapshots sample_SnapshotLaws "/s/snapshots" "delivery" 7 (raw "null")
    (store_world quiet_env) 3) as [_ HR].
  - by split_and!.
  - unfold two64. lia.
  - exact I.
  - split_and!; [discriminate|discriminate|right; split; reflexivity].
  - reflexivity.
  - fold p in HR. destruct (run 0 p (store_world quiet_env)) as [err w']. exact (HR Herr Hf).
Defined.

(** A clock that shows one time after the epoch. *)
Definition legacy_env (fault : nat → option error) : Env := mkEnv fault (λ _, 5%Z) (λ _, 5%Z) (λ _, "x") (λ _, 0).
Definition legacy_event : Event := sample_ev "a" 3 0.
Definition legacy_store (fault : nat → option error) : Store :=
  mkStore (snd (run 0 (@append_all sample_external sample_JSON "/s/events" utc_date [[legacy_event]])
                  (store_world (legacy_env fault)))) 1.
Definition sample_cutover : prog Store (CutoverResult * option error) :=
  @RunCutover sample_external sample_JSON sample_snapshots "/s" utc_date (λ _, "id") "delivery".

Lemma legacy_store_ready :
  @before_cutover sample_external sample_JSON "/s" "delivery" utc_date (legacy_env (λ _, None)) [legacy_event]
    (legacy_store (λ _, None)).
Proof.
  split_and!.
  - destruct (@append_all_ok sample_external sample_JSON sample_JSONLaws "/s/events" utc_date (legacy_env (λ _, None)) 0
      [[legacy_event]] [] (store_world (legacy_env (λ _, None)))) as [_ HS]; [apply utc_date_plain|done| | |exact HS].
    + repeat constructor; try done. intros b [= <-]. vm_compute. reflexivity.
    + right. split; [done|]. split; [|done]. split_and!; [done|done|done|done|].
      intros k [n Hk]. cbn in Hk. apply lookup_singleton_Some in Hk as [<- _]. done.
  - reflexivity.
  - split_and!; [discriminate|discriminate|right; split; vm_compute; reflexivity].
  - intros x Hx. set (fs := w_fs _).
    assert (Forall (λ kv : string * node, Dir (fst kv) ≠ "/s/snapshots") (map_to_list fs)) as HF
      by (apply (bool_decide_unpack _); vm_compute; exact I).
    destruct (fs !! _) as [nd|] eqn:E; [|done]. apply elem_of_map_to_list in E.
    eapply Forall_forall in HF; [|exact E]. destruct HF. unfold snapshot_temp. cbn [fst].
    by rewrite Dir_Join by (by apply temp_plain).
  - vm_compute. discriminate.
Qed.

Lemma cutover_runs_once_witness :
  let '(o1, s1) := run 0 sample_cutover (legacy_store (λ _, None)) in
  let '(o2, s2) := run 0 sample_cutover s1 in
  o1 = (mkCutover false 1 1, None) ∧ o2 = (already_done, None) ∧ st_next s2 = 2%Z.
Proof.
  pose proof (@cutover_runs_once sample_external sample_JSON sample_JSONLaws sample_snapshots sample_SnapshotLaws "/s" "delivery"
    utc_date (λ _, "id") 0 [legacy_event] (legacy_store (λ _, None)) utc_date_plain) as HC.
  assert (st_next (snd (run 0 sample_cutover (snd (run 0 sample_cutover (legacy_store (λ _, None)))))) = 2%Z) as Hn
    by (vm_compute; reflexivity).
  fold sample_cutover in HC. destruct (run 0 sample_cutover (legacy_store (λ _, None))) as [o1 s1]. cbn [snd] in Hn.
  destruct (run 0 sample_cutover s1) as [o2 s2]. cbn [snd] in Hn.
  destruct HC as (H1 & _ & H2 & _).
  - by split_and!.
  - done.
  - reflexivity.
  - intros w k. repeat constructor. intros b [= <-]. vm_compute. reflexivity.
  - exact legacy_store_ready.
  - split_and!; [exact H1|exact H2|exact Hn].
Defined.

(**  a cutover whose last step fails is never made up for.  When the append
    of the cutover event fails, [RunCutover] returns the error; but the counter
    has moved, so the next run reports that the cutover is done, and the log
    has no cutover event. *)
Theorem interrupted_cutover_is_not_repeated :
  let fault n := if bool_decide (n = 20) then Some (errors_New "no space left on device") else None in
  let '(o1, s1) := run 0 sample_cutover (legacy_store fault) in
  let '(o2, s2) := run 0 sample_cutover s1 in
  cr_AlreadyDone (fst o1) = false ∧ is_Some (snd o1) ∧ o2 = (already_done, None) ∧
  fst (run 0 (@LoadAll sample_JSON "/s/events") (st_world s2)) = Ok ([legacy_event], mkLoad 1 0).
Proof. vm_compute. split_and!; [reflexivity|eexists; reflexivity|reflexivity|reflexivity]. Qed.

(** ** Expired event files *)

Section Retention.
Variable stateDir : string.
Variable ModTime : string → option Time.
Variable env : Env.
Hypothesis env_ok : no_faults env.

#[local] Abbreviation events := (EventsDir stateDir).

(** A file of the events directory, by name. *)
Definition event_file_named (w : World) (name : string) : Prop :=
  HasSuffix name ".jsonl" = true ∧
  ∃ k data, w_fs w !! k = Some (NFile data) ∧ Dir k = Clean events ∧ k ≠ Clean events ∧ Base k = name.

Lemma cutoff_exact now days : (0 ≤ days ≤ 106751)%Z → cutoff_for now days = (now - days * Day)%Z.
Proof.
  intros Hd. unfold cutoff_for, Day, Hour, Minute, Second.
  rewrite (i64_id (- days)), (i64_id (- days * 24)), i64_id; [lia|unfold two63; lia..].
Qed.

Lemma ListExpired_ok i days w :
  w_env w = env → w_fs w !! Clean events = Some NDir → (0 ≤ days ≤ 106751)%Z →
  runs i (ListExpiredEventFiles stateDir ModTime days) (λ r v, ∃ names now,
    r = Ok names ∧ w_fs v = w_fs w ∧ w_env v = env ∧ now = env_now env (S (w_tick w)) ∧
    ∀ name, name ∈ names ↔ event_file_named w name ∧
      ∃ t, ModTime (path_Join [events; name]) = Some t ∧ (t + days * Day < now)%Z) w.
Proof using env_ok.
  intros Hw Hd Hdays. unfold ListExpiredEventFiles. destruct (Z.ltb_spec days 0); [lia|].
  apply runs_bind, runs_atom. unfold os_ReadDir, guarded, fault. rewrite Hw, env_ok. unfold lookup_path.
  change (w_fs (bump w)) with (w_fs w). rewrite Hd. cbn [fst snd].
  apply runs_bind, runs_atom. unfold Now. cbn [fst snd]. apply runs_ret. eexists _, _.
  change (w_env (bump w)) with (w_env w). rewrite Hw. change (w_tick (bump w)) with (S (w_tick w)).
  split_and!; [done|done|done|done|].
  intros name. rewrite list_elem_of_fmap, cutoff_exact by done. split.
  - intros ([n b] & -> & [He Hx]%elem_of_bfilter). cbn [fst] in *.
    rewrite merge_sort_Permutation in He. apply list_elem_of_fmap in He as ([k nd] & [= -> ->] & Hk).
    unfold children in Hk. apply list_elem_of_filter in Hk as [[Hdir Hne] Hk%elem_of_map_to_list]. cbn [fst snd] in *.
    unfold is_expired, is_jsonl in Hx. cbn [fst snd] in Hx.
    destruct nd as [data|]; [|done]. cbn [negb andb] in Hx. apply andb_true_iff in Hx as [Hsuf Hx].
    split; [split; [done|]; by exists k, data|]. destruct (ModTime _) as [t|]; [|done]. exists t. split; [done|].
    apply Z.ltb_lt in Hx. lia.
  - intros [[Hsuf (k & data & Hk & Hdir & Hne & <-)] (t & Ht & Hlt)]. exists (Base k, false). split; [done|].
    apply elem_of_bfilter. split.
    + rewrite merge_sort_Permutation. apply list_elem_of_fmap. exists (k, NFile data). split; [done|].
      unfold children. apply list_elem_of_filter. split; [by split|]. by apply elem_of_map_to_list.
    + unfold is_expired, is_jsonl. cbn [fst snd negb andb]. rewrite Hsuf, Ht. apply Z.ltb_lt. lia.
Qed.

(** [fs'] is [fs] without these paths. *)
Definition without (ps : list string) (fs fs' : gmap string node) : Prop :=
  ∀ k, fs' !! k = if bool_decide (k ∈ ps) then None else fs !! k.

Lemma PruneEventFiles_ok i files w :
  w_env w = env → Forall plain files →
  (∀ name, name ∈ files → w_fs w !! path_Join [events; name] ≠ Some NDir) →
  runs i (PruneEventFiles stateDir files) (λ o v,
    o = (files, None) ∧ without ((λ name, path_Join [events; name]) <$> files) (w_fs w) (w_fs v)) w.
Proof using env_ok.
  clear ModTime. intros Hw Hp Hdir. unfold PruneEventFiles. apply runs_bind.
  eapply runs_mono; [|apply (runs_for_range i _ (λ dn acc u, acc = dn ∧ w_env u = env ∧
    without ((λ name, path_Join [events; name]) <$> dn) (w_fs w) (w_fs u)) files [] [] w)].
  - cbn beta. intros o v (s & -> & -> & _ & Hv). by apply runs_ret.
  - intros dn name acc u Hin (-> & Hu & Hwo). rewrite Forall_forall in Hp. specialize (Hp name Hin).
    unfold prune_file. apply runs_bind, runs_atom. unfold os_Remove, guarded, fault. rewrite Hu, env_ok.
    unfold lookup_path. rewrite (Clean_Join events name Hp). change (w_fs (bump u)) with (w_fs u).
    pose proof (Hwo (path_Join [events; name])) as Hk. rewrite fmap_app. unfold without in *. cbn [fmap list_fmap].
    destruct (w_fs u !! path_Join [events; name]) as [[data|]|] eqn:E; cbn [fst snd].
    + apply runs_ret. eexists. split_and!; [done|done|done|]. intros k. cbn [w_fs add_effect unlink set_fs set_owner].
      rewrite (Clean_Join events name Hp). destruct (decide (path_Join [events; name] = k)) as [<-|Hkk].
      { rewrite lookup_delete_eq, bool_decide_eq_true_2; [done|set_solver]. }
      rewrite lookup_delete_ne by done. change (w_fs (bump u)) with (w_fs u). rewrite Hwo. apply (f_equal (λ b : bool, if b then _ else _)).
      apply bool_decide_ext. set_solver.
    + case_bool_decide; [done|]. by destruct (Hdir name Hin).
    + change (errors_Is _ ErrNotExist) with true. cbn match. apply runs_ret. eexists. split_and!; [done|done|done|].
      intros k. change (w_fs (bump u)) with (w_fs u). destruct (decide (k = path_Join [events; name])) as [->|Hkk].
      * rewrite E, bool_decide_eq_true_2; [done|set_solver].
      * rewrite Hwo. apply (f_equal (λ b : bool, if b then _ else _)). apply bool_decide_ext. set_solver.
  - split_and!; [done|done|]. intros k. by rewrite bool_decide_eq_false_2 by (by apply not_elem_of_nil).
Qed.
End Retention.

(** C37: pruning removes exactly the expired event files.  For a retention of up
    to 106751 days (the days that fit an int64 of nanoseconds), and without
    failures, the files listed are the [.jsonl] files of the events directory
    last written more than that many days ago, and pruning them removes them
    and nothing else.  One day more wraps around: the cutoff is then in the
    future, and a file written this moment counts as expired. *)
Theorem expired_files_pruned (stateDir : string) (ModTime : string → option Time) (i : nat) (days : Z) (w : World) :
  no_faults (w_env w) → w_fs w !! Clean (EventsDir stateDir) = Some NDir → (0 ≤ days ≤ 106751)%Z →
  (∀ name, event_file_named stateDir w name → plain name ∧ w_fs w !! path_Join [EventsDir stateDir; name] ≠ Some NDir) →
  (let '(r, w1) := run i (ListExpiredEventFiles stateDir ModTime days) w in
   ∃ names, r = Ok names ∧ w_fs w1 = w_fs w ∧
     (∀ name, name ∈ names ↔ event_file_named stateDir w name ∧
        ∃ t, ModTime (path_Join [EventsDir stateDir; name]) = Some t ∧
             (t + days * Day < env_now (w_env w) (S (w_tick w)))%Z) ∧
     let '(o, w2) := run i (PruneEventFiles stateDir names) w1 in
     o = (names, None) ∧
     without ((λ name, path_Join [EventsDir stateDir; name]) <$> names) (w_fs w) (w_fs w2)) ∧
  (∀ now, now < cutoff_for now 106752)%Z.
Proof.
  intros He Hd Hdays Hfiles. split; [|intros now; unfold cutoff_for;
    assert (0 < i64 (i64 (i64 (Z.opp 106752) * 24) * Hour))%Z by (vm_compute; reflexivity); lia].
  pose proof (ListExpired_ok stateDir ModTime (w_env w) He i days w eq_refl Hd Hdays) as HL. unfold runs in HL.
  destruct (run i (ListExpiredEventFiles stateDir ModTime days) w) as [r w1]. cbn [fst snd] in HL.
  destruct HL as (names & now & -> & Hfs & Henv & -> & Hn). exists names. split_and!; [done|done|done|].
  pose proof (PruneEventFiles_ok stateDir (w_env w) He i names w1 Henv) as HP. unfold runs in HP.
  destruct (run i (PruneEventFiles stateDir names) w1) as [o w2]. cbn [fst snd] in HP. rewrite Hfs in HP. apply HP.
  - apply Forall_forall. intros name [Hx _]%Hn. by apply Hfiles.
  - intros name [Hx _]%Hn. by apply Hfiles.
Qed.

(** A file last written at time 3, seen 40 days later. *)
Definition old_files (w : World) : World :=
  set_fs {[ "/s" := NDir; "/s/events" := NDir; "/s/events/a.jsonl" := NFile []; "/s/events/b.txt" := NFile [] ]} w.
Definition late_env : Env := mkEnv (λ _, None) (λ _, 40 * Day)%Z (λ _, 0%Z) (λ _, "x") (λ _, 0).
Definition late_world : World := old_files (store_world late_env).

Lemma late_files name : event_file_named "/s" late_world name → name = "a.jsonl".
Proof.
  intros (Hs & k & data & Hk & _ & _ & <-). unfold late_world, old_files in Hk. cbn [w_fs set_fs] in Hk.
  repeat (apply lookup_insert_Some in Hk as [[<- E]|[_ Hk]]; [try discriminate E; done|]).
  apply lookup_singleton_Some in Hk as [<- _]. done.
Qed.

Lemma expired_files_pruned_witness :
  let '(r, w1) := run 0 (ListExpiredEventFiles "/s" (λ _, Some 3%Z) 30) late_world in
  ∃ names, r = Ok names ∧ ∀ name, name ∈ names → name = "a.jsonl".
Proof.
  destruct (expired_files_pruned "/s" (λ _, Some 3%Z) 0 30 late_world) as [HE _].
  - intros n. reflexivity.
  - reflexivity.
  - lia.
  - intros name ->%late_files. split; [by split_and!|]. vm_compute. discriminate.
  - destruct (run 0 (ListExpiredEventFiles "/s" (λ _, Some 3%Z) 30) late_world) as [r w1].
    destruct HE as (names & -> & _ & Hn & _). exists names. split; [done|]. intros name [Hx _]%Hn. by apply late_files.
Defined.
