(* ===== verification/StateDirs.v ===== *)
(** * The state directory

    Models [session/init_dirs.go], [session/init_gitignore.go] and
    [session/state.go]: the directories of [.phonewave] and the entries of its
    [.gitignore]. *)
From S2P Require Import Prelude GoStrings GoPath DMail Prog World Setup SetupSafety Files.

#[local] Open Scope nat_scope.

Definition ConfigFile : string := "config.yaml".
Definition LegacyConfigFile : string := "phonewave.yaml".

(** ** [init_dirs.go] *)

Inductive InitAction := InitCreated | InitSkipped | InitUpdated | InitWarning.
Record InitEntry := mkInitEntry { ie_Path : string; ie_Action : InitAction; ie_Detail : string }.

(** The directories of a state directory, [WithMailDirs] and [WithExtraDirs]
    given as values. *)
Definition state_dirs (stateDir : string) (mailDirs : bool) (extraDirs : list string) : list string :=
  [stateDir; path_Join [stateDir; ".run"]; path_Join [stateDir; "events"]; path_Join [stateDir; "insights"]] ++
  (if mailDirs then (λ sub, path_Join [stateDir; sub]) <$> ["inbox"; "outbox"; "archive"] else []) ++
  ((λ d, path_Join [stateDir; d]) <$> extraDirs).

Definition dirExists (p : string) : act bool := λ w,
  let '(f, w) := fault w in
  match f with
  | Some _ => (false, w)
  | None => (match lookup_path w p with Some NDir => true | _ => false end, w)
  end.

Definition relOrBase (stateDir path base : string) : string :=
  if bool_decide (path = stateDir) then base +:+ "/" else
  match Rel (Dir stateDir) path with
  | Err _ => Base path
  | Ok rel => rel +:+ "/"
  end.

Definition ensure_dir (stateDir : string) (entries : list InitEntry) (d : string) :
    program (list InitEntry + (list InitEntry * error)) :=
  existed ← atom (dirExists d);
  r ← atom (os_MkdirAll d);
  match r with
  | Err err => mret (inr (entries, err))
  | Ok _ =>
      mret (inl (entries ++ [mkInitEntry (relOrBase stateDir d (Base stateDir))
                               (if existed : bool then InitSkipped else InitCreated) ""]))
  end.

(** The entries recorded so far come back beside an error. *)
Definition EnsureStateDir (stateDir : string) (mailDirs : bool) (extraDirs : list string) :
    program (list InitEntry * option error) :=
  o ← for_range (state_dirs stateDir mailDirs extraDirs) [] (ensure_dir stateDir);
  match o with
  | inl entries => mret (entries, None)
  | inr (entries, err) => mret (entries, Some err)
  end.

(** ** [init_gitignore.go] *)

Definition missing_entries (existing : string) (required : list string) : list string :=
  List.filter (λ entry, negb (Contains existing entry)) required.

Definition newline : string := String "010" "".

Definition gitignore_append (existing : string) (missing : list string) : string :=
  (if negb (bool_decide (existing = "")) && negb (HasSuffix existing newline) then newline else "") +:+
  Join missing newline +:+ newline.

Definition EnsureGitignoreEntries (path : string) (required : list string) : program (option error) :=
  r ← atom (os_ReadFile path);
  let existing := match r with Ok data => str data | Err _ => "" end in
  let missing := missing_entries existing required in
  if bool_decide (missing = []) then mret None else
  o ← atom (os_OpenAppend path);
  match o with
  | Err err => mret (Some err)
  | Ok _ =>
      a ← atom (file_Append path (raw (gitignore_append existing missing)));
      _ ← atom file_Close;
      mret (err_of a)
  end.

(** ** [state.go] *)

Definition phonewaveGitignoreEntries : list string :=
  ["watch.pid"; "watch.started"; "provider-state.json"; "delivery.log"; "events/"; ".run/"; ".otel.env"; "!config.yaml"].

Definition EnsurePhonewaveStateDir (base : string) : program (option error) :=
  let stateDir := path_Join [base; StateDir] in
  e ← EnsureStateDir stateDir false [];
  match snd e with
  | Some err => mret (Some err)
  | None => EnsureGitignoreEntries (path_Join [stateDir; ".gitignore"]) phonewaveGitignoreEntries
  end.

(** * Theorems *)

(** ** The entries of [.gitignore] *)

Lemma Contains_refl s : Contains s s = true.
Proof. apply Contains_spec. exists "", "". by rewrite app_str_nil_r. Qed.
Lemma Contains_Join_elem e l sep : e ∈ l → Contains (Join l sep) e = true.
Proof.
  induction l as [|x l IH]; [by intros ?%elem_of_nil|]. intros [->|Hin]%elem_of_cons.
  - destruct l as [|y l]; [apply Contains_refl|]. rewrite Join_cons. apply Contains_app_r, Contains_refl.
  - destruct l as [|y l]; [by apply elem_of_nil in Hin|]. rewrite Join_cons. by apply Contains_app_l, Contains_app_l, IH.
Qed.

Lemma missing_spec existing required :
  missing_entries existing required = [] ↔ ∀ e, e ∈ required → Contains existing e = true.
Proof.
  unfold missing_entries. split.
  - intros E e He. destruct (Contains existing e) eqn:Ec; [done|]. destruct (proj1 (elem_of_nil e)).
    rewrite <- E. apply elem_of_bfilter. by rewrite Ec.
  - intros Hc. destruct (List.filter _ _) as [|e l] eqn:E; [done|].
    assert (e ∈ List.filter (λ entry, negb (Contains existing entry)) required) as He by (rewrite E; by left).
    apply elem_of_bfilter in He as [He Hn]. by rewrite Hc in Hn.
Qed.

(** Appending what is missing leaves nothing missing. *)
Lemma appended_complete existing required :
  missing_entries (existing +:+ gitignore_append existing (missing_entries existing required)) required = [].
Proof.
  apply missing_spec. intros e He. destruct (Contains existing e) eqn:Ec; [by apply Contains_app_r|].
  apply Contains_app_l. unfold gitignore_append. apply Contains_app_l, Contains_app_r, Contains_Join_elem.
  unfold missing_entries. apply elem_of_bfilter. by rewrite Ec.
Qed.

Section State.
Context {env : Env}.
Hypothesis env_ok : no_faults env.
#[local] Abbreviation does := (does (env := env)).

(** The file after [EnsureGitignoreEntries]. *)
Definition with_entries (p : string) (required : list string) (fs : gmap string node) : gmap string node :=
  let existing := str (text_of p fs) in
  let missing := missing_entries existing required in
  if bool_decide (missing = []) then fs
  else <[p := NFile (text_of p fs ++ raw (gitignore_append existing missing))]> fs.

Lemma EnsureGitignore_does p required fs :
  clean p → writable p fs → does (EnsureGitignoreEntries p required) fs None (with_entries p required fs).
Proof using env_ok.
  intros Hc Hp. unfold EnsureGitignoreEntries. eapply does_bind; [apply (ReadFile_does env_ok)|]. cbv zeta.
  rewrite Hc.
  assert (match match fs !! p with
          | Some (NFile b) => Ok b
          | Some NDir => Err (errors_New ("read " +:+ p +:+ ": is a directory"))
          | None => Err (enoent "open" p) end with Ok data => str data | Err _ => "" end = str (text_of p fs)) as ->.
  { unfold text_of. rewrite Hc. by destruct (fs !! p) as [[]|]. }
  unfold with_entries. case_bool_decide as Em; [apply does_ret|].
  eapply does_bind; [by apply (OpenAppend_does env_ok)|]. cbn beta iota.
  eapply does_bind; [apply (Append_does env_ok); by rewrite lookup_insert_eq|].
  rewrite Hc, insert_insert_eq. eapply does_bind; [apply (Close_does env_ok)|]. apply does_ret.
Qed.

Lemma with_entries_idem p required fs :
  clean p → with_entries p required (with_entries p required fs) = with_entries p required fs.
Proof.
  intros Hc. unfold with_entries at 2 3. case_bool_decide as Em; [unfold with_entries; by rewrite bool_decide_true|].
  unfold with_entries. assert (text_of p (<[p := NFile (text_of p fs ++ raw (gitignore_append (str (text_of p fs))
    (missing_entries (str (text_of p fs)) required)))]> fs) = text_of p fs ++ raw (gitignore_append (str (text_of p fs))
    (missing_entries (str (text_of p fs)) required))) as ->.
  { unfold text_of at 1. by rewrite Hc, lookup_insert_eq. }
  rewrite bool_decide_true; [done|]. rewrite str_app, string_of_list_ascii_of_string.
  apply appended_complete.
Qed.

(** ** The state directory *)

Lemma dirExists_does p fs :
  does (atom (dirExists p)) fs (match fs !! Clean p with Some NDir => true | _ => false end) fs.
Proof using env_ok.
  apply does_atom. intros w [Hf He]. unfold dirExists, fault. rewrite He, env_ok. unfold lookup_path.
  change (w_fs (bump w)) with (w_fs w). by rewrite Hf.
Qed.

Lemma mkdir_does d fs : clean d → dir_ready d fs → does (atom (os_MkdirAll d)) fs (Ok tt) (<[d := NDir]> fs).
Proof using env_ok.
  intros Hc Hd. apply (MkdirAll_does env_ok). destruct (mkdir_all_ready d fs Hd) as [[E1 E2]|E1]; rewrite E1, Hc in *; [|done].
  by rewrite insert_id.
Qed.

Lemma ensure_dir_does sd acc d fs :
  clean d → dir_ready d fs → ∃ en, does (ensure_dir sd acc d) fs (inl (acc ++ [en])) (<[d := NDir]> fs).
Proof using env_ok.
  intros Hc Hd. eexists. eapply does_bind; [apply dirExists_does|]. eapply does_bind; [by apply mkdir_does|]. apply does_ret.
Qed.

Variable root : string.
Hypothesis root_clean : clean root.

#[local] Abbreviation S := (path_Join [root; StateDir]).
#[local] Abbreviation sub x := (path_Join [S; x]).
#[local] Abbreviation gitignore := (sub ".gitignore").

Lemma plain_names : Forall plain [StateDir; ".run"; "events"; "insights"; ".gitignore"; ConfigFile; LegacyConfigFile].
Proof. repeat constructor; done. Qed.
Lemma plain_name x : x ∈ [StateDir; ".run"; "events"; "insights"; ".gitignore"; ConfigFile; LegacyConfigFile] → plain x.
Proof. intros Hx. eapply Forall_forall; [apply plain_names|done]. Qed.
Lemma plain_State : plain StateDir.
Proof. by split_and!. Qed.

Lemma S_clean : clean S.
Proof. apply Clean_Join, plain_State. Qed.
Lemma Dir_S : Dir S = root.
Proof using root_clean. rewrite Dir_Join by apply plain_State. done. Qed.

(** The root is there; no file is where a directory should be, and no
    directory where [.gitignore] should be. *)
Definition state_ready (fs : gmap string node) : Prop :=
  fs !! root = Some NDir ∧
  (∀ d, d ∈ [S; sub ".run"; sub "events"; sub "insights"] → fs !! d = None ∨ fs !! d = Some NDir) ∧
  fs !! gitignore ≠ Some NDir.

Lemma named_ready d x fs :
  plain x → clean d → fs !! d = Some NDir → fs !! path_Join [d; x] = None ∨ fs !! path_Join [d; x] = Some NDir →
  dir_ready (path_Join [d; x]) fs.
Proof.
  intros Hx Hc Hd Hr. unfold dir_ready. rewrite (Clean_Join d x Hx), Dir_Join by done. rewrite Hc.
  pose proof (Base_Join d x Hx) as Hb. assert (x ≠ "/" ∧ x ≠ ".") as [N1 N2].
  { split; [intros ->; by destruct Hx as (_ & _ & _ & ?)|apply Hx]. }
  split; [intros E; rewrite E in Hb; by apply N1|]. split; [intros E; rewrite E in Hb; by apply N2|].
  destruct Hr; [right|left]; done.
Qed.

Lemma sub_ne_S x : plain x → sub x ≠ S.
Proof. intros Hx E. rewrite <- S_clean in E at 2. by apply path_Join_ne in E. Qed.
Lemma sub_inj x y : plain x → plain y → sub x = sub y → x = y.
Proof. intros Hx Hy E. by apply path_Join_inj in E as [??]. Qed.

(** The four directories. *)
Definition with_dirs (fs : gmap string node) : gmap string node :=
  <[sub "insights" := NDir]> (<[sub "events" := NDir]> (<[sub ".run" := NDir]> (<[S := NDir]> fs))).

Lemma with_dirs_lookup fs k :
  with_dirs fs !! k =
    if bool_decide (k ∈ [S; sub ".run"; sub "events"; sub "insights"]) then Some NDir else fs !! k.
Proof.
  unfold with_dirs. case_bool_decide as Hk; rewrite !elem_of_cons, elem_of_nil in Hk.
  - destruct (decide (k = sub "insights")) as [->|]; [by rewrite lookup_insert_eq|rewrite lookup_insert_ne by done].
    destruct (decide (k = sub "events")) as [->|]; [by rewrite lookup_insert_eq|rewrite lookup_insert_ne by done].
    destruct (decide (k = sub ".run")) as [->|]; [by rewrite lookup_insert_eq|rewrite lookup_insert_ne by done].
    destruct (decide (k = S)) as [->|]; [by rewrite lookup_insert_eq|tauto].
  - rewrite !lookup_insert_ne by (intros <-; tauto). done.
Qed.

Lemma dir_ready_insert d d' fs : dir_ready d fs → dir_ready d (<[d' := NDir]> fs).
Proof.
  intros (N1 & N2 & Hd). split_and!; [done|done|]. destruct (decide (d' = Clean d)) as [->|]; [left; by rewrite lookup_insert_eq|].
  rewrite !(lookup_insert_ne _ d' (Clean d)) by done. destruct Hd as [Hd|[Hd Hp]]; [by left|right]. split; [done|].
  destruct (decide (d' = Dir (Clean d))) as [->|]; [by rewrite lookup_insert_eq|by rewrite lookup_insert_ne].
Qed.
Hint Resolve dir_ready_insert : core.

Lemma sub_ready x fs :
  plain x → fs !! sub x = None ∨ fs !! sub x = Some NDir → dir_ready (sub x) (<[S := NDir]> fs).
Proof.
  intros Hx Hf. apply named_ready; [done|apply S_clean|by rewrite lookup_insert_eq|].
  by rewrite lookup_insert_ne by (intros E; symmetry in E; by apply sub_ne_S in E).
Qed.

Lemma EnsureStateDir_does fs :
  state_ready fs → ∃ entries, does (EnsureStateDir S false []) fs (entries, None) (with_dirs fs).
Proof using env_ok root_clean.
  intros (Hroot & Hd & _).
  assert (∀ x, x ∈ [".run"; "events"; "insights"] → clean (sub x) ∧ dir_ready (sub x) (<[S := NDir]> fs)) as Hsub.
  { intros x Hx. assert (plain x) by (apply plain_name; set_solver).
    split; [by apply Clean_Join|]. apply sub_ready; [done|]. apply Hd. set_solver. }
  assert (dir_ready S fs) as HS by (apply named_ready; [apply plain_State|done|done|apply Hd; by left]).
  destruct (Hsub ".run") as [C1 R1]; [set_solver|]. destruct (Hsub "events") as [C2 R2]; [set_solver|].
  destruct (Hsub "insights") as [C3 R3]; [set_solver|].
  destruct (ensure_dir_does S [] S fs S_clean HS) as [e1 H1].
  destruct (ensure_dir_does S ([] ++ [e1]) _ _ C1 R1) as [e2 H2].
  destruct (ensure_dir_does S (([] ++ [e1]) ++ [e2]) _ _ C2 (dir_ready_insert _ (sub ".run") _ R2)) as [e3 H3].
  destruct (ensure_dir_does S ((([] ++ [e1]) ++ [e2]) ++ [e3]) _ _ C3
    (dir_ready_insert _ (sub "events") _ (dir_ready_insert _ (sub ".run") _ R3))) as [e4 H4].
  exists (((([] ++ [e1]) ++ [e2]) ++ [e3]) ++ [e4]). unfold EnsureStateDir, state_dirs. cbn [app fmap list_fmap].
  eapply (does_bind _ _ _ (inl ((((([] ++ [e1]) ++ [e2]) ++ [e3]) ++ [e4])))); [|apply does_ret]. cbn [for_range].
  eapply does_bind; [exact H1|]. eapply does_bind; [exact H2|]. eapply does_bind; [exact H3|].
  eapply does_bind; [exact H4|]. apply does_ret.
Qed.

(** The state directory is complete: its directories, and the entries of
    [.gitignore]. *)
Definition state_complete (fs : gmap string node) : Prop :=
  (∀ d, d ∈ [S; sub ".run"; sub "events"; sub "insights"] → fs !! d = Some NDir) ∧
  ∀ e, e ∈ phonewaveGitignoreEntries → Contains (str (text_of gitignore fs)) e = true.
Definition ensured (fs : gmap string node) : gmap string node :=
  with_entries gitignore phonewaveGitignoreEntries (with_dirs fs).

Lemma gitignore_clean : clean gitignore.
Proof. by apply Clean_Join. Qed.
Lemma gitignore_not_dir : gitignore ∉ [S; sub ".run"; sub "events"; sub "insights"].
Proof.
  rewrite !elem_of_cons. intros [E|[E|[E|[E|E%elem_of_nil]]]]; [by apply sub_ne_S in E|by apply sub_inj in E..|done].
Qed.
Lemma gitignore_writable fs : state_ready fs → writable gitignore (with_dirs fs).
Proof using root_clean.
  intros (_ & _ & Hg). unfold writable. rewrite gitignore_clean, !with_dirs_lookup.
  rewrite bool_decide_false by apply gitignore_not_dir.
  rewrite Dir_Join, Clean_idem, S_clean, bool_decide_true by (done || by left). by destruct (fs !! gitignore) as [[]|].
Qed.

Lemma Ensure_does fs : state_ready fs → does (EnsurePhonewaveStateDir root) fs None (ensured fs).
Proof using env_ok root_clean.
  intros Hr. destruct (EnsureStateDir_does fs Hr) as [en He]. eapply does_bind; [exact He|]. cbn [snd].
  apply EnsureGitignore_does; [apply gitignore_clean|by apply gitignore_writable].
Qed.

Lemma with_entries_lookup p required fs k : k ≠ p → with_entries p required fs !! k = fs !! k.
Proof. intros Hk. unfold with_entries. case_bool_decide; [done|]. by rewrite lookup_insert_ne. Qed.
Lemma with_entries_complete p required fs e :
  clean p → e ∈ required → Contains (str (text_of p (with_entries p required fs))) e = true.
Proof.
  intros Hc He. apply (missing_spec _ required); [|done]. pose proof (with_entries_idem p required fs Hc) as Hi.
  unfold with_entries at 1 in Hi. case_bool_decide as Em; [done|]. apply (f_equal (lookup p)) in Hi.
  rewrite lookup_insert_eq in Hi. symmetry in Hi.
  assert (text_of p (with_entries p required fs) = text_of p (with_entries p required fs) ++
    raw (gitignore_append (str (text_of p (with_entries p required fs)))
      (missing_entries (str (text_of p (with_entries p required fs))) required))) as E.
  { unfold text_of at 1. by rewrite Hc, Hi. }
  apply (f_equal length) in E. rewrite length_app, length_raw in E. exfalso.
  unfold gitignore_append in E. rewrite !slen_app in E. change (slen newline) with 1 in E. lia.
Qed.

Lemma ensured_complete fs : state_complete (ensured fs).
Proof.
  split.
  - intros d Hd. unfold ensured. rewrite with_entries_lookup by (intros ->; by apply gitignore_not_dir).
    by rewrite with_dirs_lookup, bool_decide_true.
  - intros e He. apply with_entries_complete; [apply gitignore_clean|done].
Qed.
Lemma ensured_lookup fs k :
  k ∉ [S; sub ".run"; sub "events"; sub "insights"] → k ≠ gitignore → ensured fs !! k = fs !! k.
Proof. intros H1 H2. unfold ensured. by rewrite with_entries_lookup, with_dirs_lookup, bool_decide_false. Qed.

Lemma ensured_text fs : ∃ added, text_of gitignore (ensured fs) = text_of gitignore fs ++ added.
Proof.
  assert (text_of gitignore (with_dirs fs) = text_of gitignore fs) as E.
  { unfold text_of. by rewrite gitignore_clean, with_dirs_lookup, bool_decide_false by apply gitignore_not_dir. }
  unfold ensured, with_entries. rewrite E. case_bool_decide; [exists []; by rewrite E, app_nil_r|].
  eexists. unfold text_of at 1. by rewrite gitignore_clean, lookup_insert_eq.
Qed.

Lemma ensured_ready fs : state_ready fs → state_ready (ensured fs).
Proof.
  intros (Hroot & _ & Hg). destruct (ensured_complete fs) as [Hc _]. split_and!.
  - unfold ensured. rewrite with_entries_lookup; [|intros E; apply (f_equal (λ p, length (elems p))) in E;
      rewrite !elems_Join, !length_app in E by (by split_and!); cbn in E; lia].
    rewrite with_dirs_lookup. by case_bool_decide.
  - intros d Hd. right. by apply Hc.
  - unfold ensured, with_entries. case_bool_decide; [|by rewrite lookup_insert_eq].
    by rewrite with_dirs_lookup, bool_decide_false by apply gitignore_not_dir.
Qed.

Lemma ensured_idem fs : ensured (ensured fs) = ensured fs.
Proof.
  assert (with_dirs (ensured fs) = ensured fs) as E.
  { destruct (ensured_complete fs) as [Hc _]. apply map_eq. intros k. rewrite with_dirs_lookup.
    case_bool_decide as Hk; [|done]. symmetry. by apply Hc. }
  unfold ensured at 1. rewrite E. unfold ensured. apply with_entries_idem, gitignore_clean.
Qed.
End State.

(**  the state directory is completed and nothing of it is lost.  Without
    failures, [EnsurePhonewaveStateDir] succeeds on any root where no file is
    in the way: the directories are there, every required entry occurs in
    [.gitignore], whose old text is kept as a prefix, no other path changes,
    and doing it again changes nothing. *)
Theorem state_dir_ensured (root : string) (i : nat) (w : World) :
  clean root → no_faults (w_env w) → state_ready root (w_fs w) →
  let gitignore := path_Join [path_Join [root; StateDir]; ".gitignore"] in
  let '(e, w1) := run i (EnsurePhonewaveStateDir root) w in
  let '(e2, w2) := run i (EnsurePhonewaveStateDir root) w1 in
  e = None ∧ state_complete root (w_fs w1) ∧
  (∃ added, text_of gitignore (w_fs w1) = text_of gitignore (w_fs w) ++ added) ∧
  (∀ k, k ∉ state_dirs (path_Join [root; StateDir]) false [] → k ≠ gitignore → w_fs w1 !! k = w_fs w !! k) ∧
  e2 = None ∧ w_fs w2 = w_fs w1.
Proof.
  intros Hc He Hr gitignore. destruct (Ensure_does He root Hc (w_fs w) Hr i w) as [E1 [E2 E3]]; [done|].
  destruct (run i (EnsurePhonewaveStateDir root) w) as [e w1]. cbn [fst snd] in *.
  destruct (Ensure_does He root Hc (w_fs w1)) with (i := i) (w := w1) as [F1 [F2 _]];
    [rewrite E2; by apply ensured_ready|done|].
  destruct (run i (EnsurePhonewaveStateDir root) w1) as [e2 w2]. cbn [fst snd] in *.
  rewrite E2 in *. split_and!; [done|apply ensured_complete|apply ensured_text| |done|].
  - intros k Hk Hg. by apply ensured_lookup.
  - rewrite F2. apply ensured_idem.
Qed.

Lemma state_dir_ensured_witness :
  let w := mkWorld {[ "/p" := NDir ]} ∅ [] [] [] [] [] None None no_state [] [] 0
             (mkEnv (λ _, None) (λ _, 0%Z) (λ _, 0%Z) (λ _, "x") (λ _, 0)) in
  let '(e, w1) := run 0 (EnsurePhonewaveStateDir "/p") w in e = None ∧ state_complete "/p" (w_fs w1).
Proof.
  intros w. pose proof (state_dir_ensured "/p" 0 w) as HS. cbv zeta in HS.
  destruct (run 0 (EnsurePhonewaveStateDir "/p") w) as [e w1]. destruct (run 0 (EnsurePhonewaveStateDir "/p") w1) as [e2 w2].
  destruct HS as (H1 & H2 & _).
  - reflexivity.
  - intros n. reflexivity.
  - split_and!; [reflexivity| |vm_compute; discriminate]. intros d Hd. left.
    rewrite !elem_of_cons, elem_of_nil in Hd. destruct Hd as [->|[->|[->|[->|[]]]]]; reflexivity.
  - split; [exact H1|exact H2].
Defined.

(** An entry that is part of another line counts as present. *)
Example gitignore_substring : missing_entries "old-events/" ["events/"] = [].
Proof. reflexivity. Qed.
