(* ===== verification/ConfigFile.v ===== *)
(** * The configuration on disk

    Models [session/config.go], [session/init_adapter.go] and the bodies of
    the commands [init], [add], [remove] and [sync] ([cmd/init.go],
    [cmd/add.go], [cmd/remove.go], [cmd/sync.go]) without their flags and
    output.  The YAML library is a class of parameters. *)
From S2P Require Import Prelude GoStrings GoPath GoTime DMail Router Prog World Deliver Safety DeliverSafety Setup SetupSafety Files StateDirs.

#[local] Open Scope nat_scope.

(** ** [config.go] *)

(** [yaml.Marshal] and [yaml.Unmarshal] at the types the file uses:
    [manifest], [domain.ResolvedState] and [domain.Config]. *)
Class YAML := {
  yaml_manifest : list RepoConfig → result bytes;
  yaml_resolved : Time → list RouteConfig → result bytes;
  yaml_config : bytes → result Config;
  yaml_state : bytes → result (Time * list RouteConfig);
  yaml_time : Time → Prop }.

Definition config_header : string :=
  "# phonewave configuration" +:+ newline +:+ "# Run 'phonewave init --force' to regenerate" +:+ newline +:+ newline.

(** A manifest reads back as a configuration without routes, comments are
    skipped, and an empty document leaves the zero value. *)
Class YAMLLaws `{YAML} : Prop := {
  manifest_roundtrip : ∀ repos, ∃ b, yaml_manifest repos = Ok b ∧
    yaml_config (raw config_header ++ b) = Ok (mkConfig 0 repos []);
  state_roundtrip : ∀ t routes, yaml_time t → ∃ b, yaml_resolved t routes = Ok b ∧ yaml_state b = Ok (t, routes);
  yaml_empty : yaml_config [] = Ok (mkConfig 0 [] []) }.

Definition ResolvedStateFile : string := "resolved.yaml".
Definition DefaultConfigPath (projectRoot : string) : string := path_Join [projectRoot; StateDir; ConfigFile].

Definition toRel (base target : string) : string :=
  if bool_decide (target = "") then "" else
  match Rel base target with
  | Err _ => target
  | Ok rel => rel
  end.
Definition toAbs (base target : string) : string :=
  if bool_decide (target = "") || IsAbs target then target else path_Join [base; target].

Definition map_paths (f : string → string) (c : Config) : Config :=
  mkConfig (cfg_LastSynced c) ((λ r, mkRepo (f (rc_Path r)) (rc_Endpoints r)) <$> cfg_Repositories c)
    ((λ r, mkRouteConfig (rtc_Kind r) (rtc_From r) (rtc_To r) (rtc_Scope r) (f (rtc_RepoPath r))) <$> cfg_Routes c).
Definition convertToRelPaths (cfg : Config) (configDir : string) : Config := map_paths (toRel configDir) cfg.
Definition resolveRelPaths (cfg : Config) (configDir : string) : Config := map_paths (toAbs configDir) cfg.

Definition resolvedStatePath (cfgPath : string) : string := path_Join [Dir cfgPath; ".run"; ResolvedStateFile].

Definition ResolvedStateExists (cfgPath : string) : act bool := λ w,
  let '(r, w) := os_Stat (resolvedStatePath cfgPath) w in
  (match r with Ok _ => true | Err err => negb (errors_Is err ErrNotExist) end, w).

Section Files.
Context `{YAML}.

Definition LoadConfig (path : string) : program (result Config) :=
  r ← atom (os_ReadFile path);
  match r with
  | Err err => mret (Err err)
  | Ok data =>
      match yaml_config data with
      | Err err => mret (Err (errorf_w ("parse " +:+ path +:+ ": ") err))
      | Ok cfg =>
          let configDir := Dir path in
          let projectRoot := Dir configDir in
          let cfg := resolveRelPaths cfg projectRoot in
          if negb (bool_decide (cfg_Routes cfg = [])) then mret (Ok cfg) else
          r ← atom (os_ReadFile (path_Join [configDir; ".run"; ResolvedStateFile]));
          let cfg :=
            match r with
            | Ok rdata =>
                match yaml_state rdata with
                | Ok (lastSynced, routes) =>
                    resolveRelPaths (mkConfig lastSynced (cfg_Repositories cfg) routes) projectRoot
                | Err _ => cfg
                end
            | Err _ => cfg
            end in
          if bool_decide (cfg_Routes cfg = []) && negb (bool_decide (cfg_Repositories cfg = []))
          then mret (Ok (UpdateRoutes cfg)) else mret (Ok cfg)
      end
  end.

(** The tail of [WriteConfig], which is also that of [WriteResolvedOnly]. *)
Definition write_resolved (stateDir : string) (rel : Config) : program (option error) :=
  let runDir := path_Join [stateDir; ".run"] in
  r ← atom (os_MkdirAll runDir);
  match r with
  | Err err => mret (Some (errorf_w "create .run dir: " err))
  | Ok _ =>
      match yaml_resolved (cfg_LastSynced rel) (cfg_Routes rel) with
      | Err err => mret (Some err)
      | Ok rsdata =>
          r ← os_WriteFile (path_Join [runDir; ResolvedStateFile]) rsdata;
          match r with
          | Err err => mret (Some (errorf_w "write resolved state: " err))
          | Ok _ => mret None
          end
      end
  end.

Definition WriteConfig (path : string) (cfg : Config) : program (option error) :=
  let configDir := Dir path in
  let rel := convertToRelPaths cfg (Dir configDir) in
  match yaml_manifest (cfg_Repositories rel) with
  | Err err => mret (Some err)
  | Ok mdata =>
      r ← os_WriteFile path (raw config_header ++ mdata);
      match r with
      | Err err => mret (Some err)
      | Ok _ => write_resolved configDir rel
      end
  end.

Definition WriteResolvedOnly (stateDir : string) (cfg : Config) : program (option error) :=
  write_resolved stateDir (convertToRelPaths cfg (Dir stateDir)).
End Files.

Definition MigrateConfigIfNeeded (projectRoot : string) : program (option error) :=
  let legacyPath := path_Join [projectRoot; LegacyConfigFile] in
  let newPath := DefaultConfigPath projectRoot in
  s ← atom (os_Stat legacyPath);
  match s with
  | Err err => if errors_Is err ErrNotExist then mret None
               else mret (Some (errorf_w ("check legacy config " +:+ legacyPath +:+ ": ") err))
  | Ok _ =>
      n ← atom (os_Stat newPath);
      match n with
      | Ok _ =>
          r ← atom (os_Remove legacyPath);
          match r with
          | Err err => mret (Some (errorf_w ("remove stale legacy config " +:+ legacyPath +:+ ": ") err))
          | Ok _ => mret None
          end
      | Err _ =>
          m ← atom (os_MkdirAll (path_Join [projectRoot; StateDir]));
          match m with
          | Err err => mret (Some (errorf_w "create state dir for migration: " err))
          | Ok _ =>
              d ← atom (os_ReadFile legacyPath);
              match d with
              | Err err => mret (Some (errorf_w "read legacy config: " err))
              | Ok data =>
                  r ← os_WriteFile newPath data;
                  match r with
                  | Err err => mret (Some (errorf_w "write migrated config: " err))
                  | Ok _ =>
                      r ← atom (os_Remove legacyPath);
                      match r with
                      | Err err => mret (Some (errorf_w "remove legacy config: " err))
                      | Ok _ =>
                          e ← EnsurePhonewaveStateDir projectRoot;
                          match e with
                          | Some err => mret (Some (errorf_w "update state dir gitignore: " err))
                          | None => mret None
                          end
                      end
                  end
              end
          end
      end
  end.

(** ** The commands *)

Section Commands.
Context `{External} `{YAML}.
Variable cwd : string.
Variable validateEndpointSkills : string → EndpointConfig → list string.

(** [InitAdapter.ScanAndInit] *)
Definition ScanAndInit (repoPaths : list string) (cfgPath : string) : program (result InitResult) :=
  r ← Init cwd validateEndpointSkills repoPaths;
  match r with
  | Err err => mret (Err err)
  | Ok result =>
      e ← EnsurePhonewaveStateDir (Dir (Dir cfgPath));
      match e with
      | Some err => mret (Err (errorf_w "create state dir: " err))
      | None =>
          e ← WriteConfig cfgPath (ir_Config result);
          match e with
          | Some err => mret (Err (errorf_w "write config: " err))
          | None => mret (Ok result)
          end
      end
  end.

(** Load, change, write back: what [add], [remove] and [sync] share. *)
Definition edit_config {A} (cfgPath : string) (wrap : error → error) (change : Config → program (result A * Config)) :
    program (result (A * Config)) :=
  l ← LoadConfig cfgPath;
  match l with
  | Err err => mret (Err (errorf_w "load config: " err))
  | Ok cfg =>
      rc ← change cfg;
      match rc with
      | (Err err, _) => mret (Err (wrap err))
      | (Ok a, cfg) =>
          e ← WriteConfig cfgPath cfg;
          match e with
          | Some err => mret (Err (errorf_w "write config: " err))
          | None => mret (Ok (a, cfg))
          end
      end
  end.

(** [add] and [remove] end with the absolute path for their message. *)
Definition with_abs {A} (arg : string) (r : result A) : program (result A) :=
  match r with
  | Err err => mret (Err err)
  | Ok a =>
      p ← atom (Abs cwd arg);
      match p with
      | Err err => mret (Err (errorf_w "resolve absolute path: " err))
      | Ok _ => mret (Ok a)
      end
  end.
Definition add_cmd (cfgPath arg : string) : program (result (AddResult * Config)) :=
  r ← edit_config cfgPath id (λ cfg, Add cwd validateEndpointSkills cfg arg);
  with_abs arg r.
Definition remove_cmd (cfgPath arg : string) : program (result (OrphanReport * Config)) :=
  r ← edit_config cfgPath id (λ cfg, Remove cwd cfg arg);
  with_abs arg r.
Definition sync_cmd (cfgPath : string) : program (result (SyncReport * Config)) :=
  edit_config cfgPath (errorf_w "sync: ") (λ cfg, Sync validateEndpointSkills cfg).
End Commands.

(** * Theorems *)

(** ** Relative paths *)

(** A repository path as [filepath.Abs] makes them; the empty path stays. *)
Definition rooted_path (p : string) : Prop := p = "" ∨ IsAbs p = true ∧ clean p.
Definition rooted_paths (c : Config) : Prop :=
  Forall rooted_path (paths c) ∧ Forall rooted_path (rtc_RepoPath <$> cfg_Routes c).

Lemma toAbs_rooted base p : rooted_path p → toAbs base p = p.
Proof. intros [->|[Ha _]]; unfold toAbs; [done|]. by rewrite Ha, orb_true_r. Qed.

Lemma toAbs_toRel base p : rooted_path p → toAbs base (toRel base p) = p.
Proof.
  intros [->|[Ha Hc]]; [done|]. assert (p ≠ "") as Hne by (by destruct p).
  unfold toRel. rewrite bool_decide_false by done. destruct (IsAbs base) eqn:Eb.
  - destruct (Join_Rel base p Eb Ha) as (r & -> & Hr & Hra & HJ). unfold toAbs.
    rewrite (bool_decide_false (r = "")), Hra by done. cbn [orb]. by rewrite HJ.
  - assert (∃ e, Rel base p = Err e) as [e ->]; [|by apply toAbs_rooted; right].
    unfold Rel. rewrite bool_decide_false; cycle 1.
    { intros E. apply (f_equal IsAbs) in E. by rewrite !(proj2 (elems_Clean _)), Ha, Eb in E. }
    set (b := if bool_decide (Clean base = ".") then "" else Clean base).
    assert (IsAbs b = false) as Hb.
    { unfold b. case_bool_decide; [done|]. by rewrite (proj2 (elems_Clean base)). }
    rewrite Hb, (proj2 (elems_Clean p)), Ha. by eexists.
Qed.

Lemma map_paths_fixed f c :
  Forall (λ p, f p = p) (paths c) → Forall (λ p, f p = p) (rtc_RepoPath <$> cfg_Routes c) → map_paths f c = c.
Proof.
  intros H1 H2. destruct c as [t repos routes]. unfold map_paths, paths in *. cbn in *. f_equal.
  - rewrite <- (list_fmap_id repos) at 2. apply list_fmap_ext. intros k r Hr.
    rewrite Forall_fmap in H1. eapply Forall_lookup in H1; [|exact Hr]. destruct r. cbn in *. by rewrite H1.
  - rewrite <- (list_fmap_id routes) at 2. apply list_fmap_ext. intros k r Hr.
    rewrite Forall_fmap in H2. eapply Forall_lookup in H2; [|exact Hr]. destruct r. cbn in *. by rewrite H2.
Qed.
Lemma map_paths_compose f g c : map_paths f (map_paths g c) = map_paths (λ p, f (g p)) c.
Proof. destruct c. unfold map_paths. cbn. by rewrite <- !list_fmap_compose. Qed.

Lemma resolve_convert c d : rooted_paths c → resolveRelPaths (convertToRelPaths c d) d = c.
Proof.
  intros [H1 H2]. unfold resolveRelPaths, convertToRelPaths. rewrite map_paths_compose.
  apply map_paths_fixed; eapply Forall_impl; try eassumption; apply toAbs_toRel.
Qed.
Lemma resolve_rooted c d : rooted_paths c → resolveRelPaths c d = c.
Proof. intros [H1 H2]. apply map_paths_fixed; eapply Forall_impl; try eassumption; apply toAbs_rooted. Qed.

(** ** The files of a configuration *)

Section Store.
Context `{YL : YAMLLaws} {env : Env}.
Hypothesis env_ok : no_faults env.
Variable path : string.
Hypothesis path_clean : clean path.
Hypothesis path_name : plain (Base path).

#[local] Abbreviation configDir := (Dir path).
#[local] Abbreviation runDir := (path_Join [Dir path; ".run"]).
#[local] Abbreviation resolvedPath := (resolvedStatePath path).
#[local] Abbreviation does := (does (env := env)).

Lemma plain_run : plain ".run".
Proof. by split_and!. Qed.
Lemma plain_resolved : plain ResolvedStateFile.
Proof. by split_and!. Qed.
#[local] Hint Resolve plain_run plain_resolved : core.

Lemma resolved_Join : resolvedPath = path_Join [runDir; ResolvedStateFile].
Proof. unfold resolvedStatePath. by apply path_Join_3. Qed.
Lemma run_clean : clean runDir.
Proof. by apply Clean_Join. Qed.
Lemma resolved_clean : clean resolvedPath.
Proof. rewrite resolved_Join. by apply Clean_Join. Qed.
Lemma path_Join_eq : path_Join [configDir; Base path] = path.
Proof using path_clean path_name. by apply Join_Dir_Base. Qed.
Lemma dir_clean : clean configDir.
Proof using path_clean path_name. rewrite <- path_Join_eq, Dir_Join by done. apply Clean_clean. Qed.

(** The state directory is there, and no directory is in the way. *)
Definition config_dir (fs : gmap string node) : Prop :=
  fs !! configDir = Some NDir ∧ fs !! path ≠ Some NDir ∧ fs !! resolvedPath ≠ Some NDir ∧
  (fs !! runDir = None ∨ fs !! runDir = Some NDir).

(** The two files hold this configuration. *)
Definition stored (c : Config) (fs : gmap string node) : Prop :=
  let rel := convertToRelPaths c (Dir configDir) in
  (∃ b, yaml_manifest (cfg_Repositories rel) = Ok b ∧ fs !! path = Some (NFile (raw config_header ++ b))) ∧
  (∃ b, yaml_resolved (cfg_LastSynced rel) (cfg_Routes rel) = Ok b ∧ fs !! resolvedPath = Some (NFile b)).

(** Routes that are missing are derived on loading. *)
Definition settle (c : Config) : Config :=
  if bool_decide (cfg_Routes c = []) && negb (bool_decide (cfg_Repositories c = [])) then UpdateRoutes c else c.

Lemma Load_stored c fs :
  rooted_paths c → yaml_time (cfg_LastSynced c) → stored c fs → does (LoadConfig path) fs (Ok (settle c)) fs.
Proof using YL env_ok path_clean.
  intros Hc Ht [(b1 & Em & E1) (b2 & Es & E2)].
  destruct (manifest_roundtrip (cfg_Repositories (convertToRelPaths c (Dir configDir)))) as (b & Eb & Ey).
  rewrite Em in Eb. injection Eb as <-.
  destruct (state_roundtrip (cfg_LastSynced c) (cfg_Routes (convertToRelPaths c (Dir configDir))) Ht) as (b' & Eb & Es').
  change (cfg_LastSynced (convertToRelPaths c (Dir configDir))) with (cfg_LastSynced c) in Es.
  rewrite Es in Eb. injection Eb as <-.
  eapply does_bind; [apply (ReadFile_does env_ok)|]. rewrite path_clean, E1. cbn beta iota. rewrite Ey. cbv zeta.
  set (rel := convertToRelPaths c (Dir configDir)) in *.
  rewrite bool_decide_true by done. cbn [negb].
  eapply does_bind; [apply (ReadFile_does env_ok)|]. change (path_Join [configDir; ".run"; ResolvedStateFile]) with resolvedPath.
  rewrite resolved_clean, E2. cbn beta iota. rewrite Es'. cbn beta iota.
  assert (resolveRelPaths (mkConfig (cfg_LastSynced c) (cfg_Repositories (resolveRelPaths (mkConfig 0 (cfg_Repositories rel) [])
    (Dir configDir))) (cfg_Routes rel)) (Dir configDir) = c) as ->.
  { pose proof (f_equal cfg_Repositories (resolve_convert c (Dir configDir) Hc)) as E1'.
    pose proof (f_equal cfg_Routes (resolve_convert c (Dir configDir) Hc)) as E2'.
    pose proof (f_equal cfg_Repositories (resolve_rooted c (Dir configDir) Hc)) as E3'.
    fold rel in E1', E2'. unfold resolveRelPaths, map_paths in *. cbn [cfg_Repositories cfg_Routes cfg_LastSynced] in *.
    rewrite E1', E2', E3'. by destruct c. }
  unfold settle. destruct (_ && _); apply does_ret.
Qed.

Hypothesis path_not_run : Base path ≠ ".run".

(** Three different files, all different from the directory. *)
Lemma path_elems : elems path = elems configDir ++ [Base path].
Proof using path_clean path_name. rewrite <- path_Join_eq at 1. by apply elems_Join. Qed.
Lemma run_elems : elems runDir = elems configDir ++ [".run"].
Proof. by apply elems_Join. Qed.
Lemma resolved_elems : elems resolvedPath = elems configDir ++ [".run"; ResolvedStateFile].
Proof. by rewrite resolved_Join, elems_Join, run_elems, <- app_assoc. Qed.

Lemma paths_distinct :
  path ≠ runDir ∧ path ≠ resolvedPath ∧ runDir ≠ resolvedPath ∧ configDir ≠ path ∧ configDir ≠ runDir ∧ configDir ≠ resolvedPath.
Proof using path_clean path_name path_not_run.
  split_and!; intros E; apply (f_equal elems) in E; rewrite ?path_elems, ?run_elems, ?resolved_elems in E;
    try (apply app_inv_head in E; congruence);
    (apply (f_equal length) in E; rewrite length_app in E; cbn in E; lia).
Qed.

(** Nothing else is touched. *)
Definition others_same (fs fs' : gmap string node) : Prop :=
  ∀ k, k ≠ path → k ≠ runDir → k ≠ resolvedPath → fs' !! k = fs !! k.

Lemma run_ready fs :
  fs !! configDir = Some NDir → fs !! runDir = None ∨ fs !! runDir = Some NDir → dir_ready runDir fs.
Proof using path_clean path_name.
  intros Hd Hr. unfold dir_ready. rewrite run_clean, Dir_Join, dir_clean by done.
  assert (Base runDir = ".run") as Hb by by apply Base_Join.
  split; [intros E; by rewrite E in Hb|]. split; [intros E; by rewrite E in Hb|]. destruct Hr; [right|left]; done.
Qed.

Lemma resolved_does rel fs b :
  fs !! configDir = Some NDir → fs !! runDir = None ∨ fs !! runDir = Some NDir → fs !! resolvedPath ≠ Some NDir →
  yaml_resolved (cfg_LastSynced rel) (cfg_Routes rel) = Ok b →
  ∃ fs', does (write_resolved configDir rel) fs None fs' ∧
    fs' !! resolvedPath = Some (NFile b) ∧ fs' !! runDir = Some NDir ∧
    ∀ k, k ≠ runDir → k ≠ resolvedPath → fs' !! k = fs !! k.
Proof using YL env_ok path_clean path_name path_not_run.
  intros Hd Hr Hn Hb. destruct paths_distinct as (_ & _ & Hrr & _).
  assert (∃ fs1, mkdir_all (slen runDir) (Clean runDir) fs = Ok fs1 ∧ fs1 !! runDir = Some NDir ∧
    ∀ k, k ≠ runDir → fs1 !! k = fs !! k) as (fs1 & Em & Er & Es).
  { destruct (mkdir_all_ready runDir fs (run_ready fs Hd Hr)) as [[E1 E2]|E1]; rewrite E1, run_clean in *.
    - by exists fs.
    - eexists. split; [done|]. rewrite lookup_insert_eq. split; [done|]. intros k Hk. by rewrite lookup_insert_ne. }
  exists (<[resolvedPath := NFile b]> fs1). split_and!.
  - eapply does_bind; [by apply (MkdirAll_does env_ok)|]. rewrite Hb, <- resolved_Join.
    eapply (does_bind _ _ _ (Ok tt)); [|apply does_ret]. apply (WriteFile_clean env_ok); [by apply resolved_clean|]. unfold writable.
    rewrite resolved_clean, resolved_Join, Dir_Join, Clean_idem, run_clean by done. rewrite <- resolved_Join.
    rewrite Er, Es by done. destruct (fs !! resolvedPath) as [[]|]; done.
  - by rewrite lookup_insert_eq.
  - by rewrite lookup_insert_ne.
  - intros k H1 H2. rewrite lookup_insert_ne by done. by apply Es.
Qed.

Lemma Write_stores c fs :
  yaml_time (cfg_LastSynced c) → config_dir fs →
  ∃ fs', does (WriteConfig path c) fs None fs' ∧ stored c fs' ∧ config_dir fs' ∧ others_same fs fs'.
Proof using YL env_ok path_clean path_name path_not_run.
  intros Ht (Hd & Hp & Hn & Hr). destruct paths_distinct as (D1 & D2 & D3 & D4 & D5 & D6).
  set (rel := convertToRelPaths c (Dir configDir)).
  destruct (manifest_roundtrip (cfg_Repositories rel)) as (b1 & E1 & _).
  destruct (state_roundtrip (cfg_LastSynced rel) (cfg_Routes rel) Ht) as (b2 & E2 & _).
  set (fs1 := <[path := NFile (raw config_header ++ b1)]> fs).
  destruct (resolved_does rel fs1 b2) as (fs' & Hw & F1 & F2 & F3);
    [unfold fs1; by rewrite lookup_insert_ne..|exact E2|].
  exists fs'. split_and!.
  - unfold WriteConfig. fold rel. cbv zeta. rewrite E1. eapply (does_bind _ _ _ (Ok tt)); [|exact Hw]. unfold fs1.
    apply (WriteFile_clean env_ok); [done|]. unfold writable. rewrite path_clean, dir_clean, Hd.
    by destruct (fs !! path) as [[]|].
  - split; [exists b1|exists b2; done]. split; [done|]. rewrite F3 by done. unfold fs1. by rewrite lookup_insert_eq.
  - split_and!; [rewrite F3 by done; unfold fs1; by rewrite lookup_insert_ne| |by rewrite F1|by right].
    rewrite F3 by done. unfold fs1. by rewrite lookup_insert_eq.
  - intros k H1 H2 H3. rewrite F3 by done. unfold fs1. by rewrite lookup_insert_ne.
Qed.
End Store.

(** C27: a configuration survives being written and loaded.  Without failures, and
    with the state directory there, [WriteConfig] succeeds and touches only
    the two configuration files and [.run]; loading then gives the same
    configuration, paths included, with its routes derived if it had none.
    This holds for absolute and relative configuration paths. *)
Theorem config_roundtrip `{YAMLLaws} (path : string) (c : Config) (i : nat) (w : World) :
  clean path → plain (Base path) → Base path ≠ ".run" → no_faults (w_env w) → config_dir path (w_fs w) →
  rooted_paths c → yaml_time (cfg_LastSynced c) →
  let '(e, w1) := run i (WriteConfig path c) w in
  e = None ∧ others_same path (w_fs w) (w_fs w1) ∧ fst (run i (LoadConfig path) w1) = Ok (settle c).
Proof.
  intros H1 H2 H3 He Hd Hc Ht. destruct (Write_stores He path H1 H2 H3 c (w_fs w) Ht Hd) as (fs' & Hw & Hs & _ & Ho).
  destruct (Hw i w) as [Er Hon]; [done|]. destruct (run i (WriteConfig path c) w) as [e w1]. cbn [fst snd] in *.
  split_and!; [done|by destruct Hon as [-> _]|].
  by apply (Load_stored He path H1 c fs' Hc Ht Hs).
Qed.

(** ** The commands on disk *)

Definition is_err {A} (r : result A) : bool := match r with Ok _ => false | Err _ => true end.

(** A setup command as the shell runs it, and whether it failed. *)
Definition command `{External} `{YAML} (cwd : string) (validate : string → EndpointConfig → list string)
    (cfgPath : string) (op : setup_op) : program bool :=
  match op with
  | SAdd p => r ← add_cmd cwd validate cfgPath p; mret (is_err r)
  | SRemove p => r ← remove_cmd cwd cfgPath p; mret (is_err r)
  | SSync => r ← sync_cmd validate cfgPath; mret (is_err r)
  end.

(** Files and environment stay as they are. *)
Definition keeps (w w' : World) : Prop := w_fs w' = w_fs w ∧ w_env w' = w_env w.
#[export] Instance keeps_PreOrder : PreOrder keeps.
Proof. split; [done|]. intros u v w [E1 E2] [E3 E4]. by split; etrans. Qed.

Lemma reads_keeps {A} (p : program A) : reads p → acts keeps p.
Proof. induction 1 as [a|X m k [Hm _] _ IH]; cbn; [done|]. split; [|done]. intros _ w. apply Hm. Qed.
Lemma Abs_keeps cwd p : acts keeps (atom (Abs cwd p)).
Proof.
  apply acts_atom. intros w. unfold Abs. destruct (IsAbs p); [done|].
  match goal with |- context [guarded "" ?m w] => destruct (guarded_cases "" m w) as [[? ->]| ->] end; done.
Qed.

Section CommandSpec.
Context `{External} `{YL : YAMLLaws}.
Variables (cwd : string) (validate : string → EndpointConfig → list string).
Hypothesis cwd_abs : IsAbs cwd = true.

Lemma Add_keeps c p : acts keeps (Add cwd validate c p).
Proof.
  apply acts_bind; [apply Abs_keeps|]. intros [a|e]; [|done]. destruct (existsb _ _); [done|].
  apply acts_bind; [apply reads_keeps, ScanRepository_reads|]. intros [eps|e]; [|done].
  apply acts_bind; [by apply acts_atom|]. done.
Qed.
Lemma Remove_keeps c p : acts keeps (Remove cwd c p).
Proof.
  apply acts_bind; [apply Abs_keeps|]. intros [a|e]; [|done]. destruct (RemoveRepository c a) as [[] c']; [|done].
  apply acts_bind; [by apply acts_atom|]. done.
Qed.
Lemma Sync_keeps c : acts keeps (Sync validate c).
Proof.
  apply acts_bind; [apply reads_keeps, reads_run_all, rescan_reads|]. intros rs. destruct (collect id rs); [|done].
  apply acts_bind; [by apply acts_atom|]. done.
Qed.

(** The paths stay rooted, and the time comes from the clock. *)
Definition config_fit (clock : Time → Prop) (c : Config) : Prop :=
  config_ok c ∧ Forall rooted_path (paths c) ∧ clock (cfg_LastSynced c).

Lemma fit_rooted clock c : config_fit clock c → rooted_paths c.
Proof.
  intros ([_ _ Hr] & Hp & _). split; [done|]. rewrite Hr. apply Forall_fmap, Forall_forall.
  intros rt (repo & r & Hrepo & _ & ->)%elem_of_UpdateRoutes. cbn. unfold paths in Hp. rewrite Forall_fmap, Forall_forall in Hp.
  by apply Hp.
Qed.
Lemma fit_settled clock c : config_fit clock c → settle c = c.
Proof.
  intros ([_ _ Hr] & _). unfold settle. destruct (_ && _); [|done]. destruct c as [t repos routes]. cbn in Hr.
  unfold UpdateRoutes. cbn. by rewrite <- Hr.
Qed.

Lemma Abs_rooted p w a : fst (Abs cwd p w) = Ok a → rooted_path a.
Proof using cwd_abs.
  unfold Abs. destruct (IsAbs p) eqn:Ep.
  - intros [= <-]. right. by rewrite (proj2 (elems_Clean p)), Ep; split; [|apply Clean_clean].
  - match goal with |- context [guarded "" ?m w] => destruct (guarded_cases "" m w) as [[? ->]| ->] end; [done|].
    intros [= <-]. right. assert (cwd ≠ "") as Hne by (intros E; by rewrite E in cwd_abs).
    cbn [path_Join]. rewrite bool_decide_false by done. split; [|apply Clean_clean].
    rewrite (proj2 (elems_Clean _)). destruct cwd as [|ch s]; [done|]. rewrite IsAbs_cons in cwd_abs.
    destruct (bool_decide (p = "")); rewrite ?Join_cons; cbn [Join]; rewrite ?app_str_cons; by rewrite IsAbs_cons.
Qed.

Variable clock : Time → Prop.
#[local] Abbreviation ticks w := (∀ n, clock (env_now (w_env w) n)).

(** What a command may do to the parts of [config_fit] that [config_ok] lacks. *)
Definition partly_fit (c : Config) : Prop := Forall rooted_path (paths c) ∧ clock (cfg_LastSynced c).

Lemma Add_fit i c p w : partly_fit c → ticks w → partly_fit (snd (fst (run i (Add cwd validate c p) w))).
Proof using cwd_abs.
  intros Hc Hck. unfold Add. run_bind. rewrite run_atom. pose proof (Abs_rooted p w) as Ha.
  pose proof (acts_run keeps i _ w (Abs_keeps cwd p)) as [_ Ke]. rewrite run_atom in Ke.
  destruct (Abs cwd p w) as [[a|e] w1]; cbn [fst snd] in *; [|done].
  destruct (existsb _ _); [done|]. run_bind.
  pose proof (acts_run keeps i _ w1 (reads_keeps _ (ScanRepository_reads a))) as [_ Ks].
  destruct (run i (ScanRepository a) w1) as [[eps|e] w2]; [|done]. cbn [snd] in Ks.
  run_bind. rewrite run_atom. cbn. split; [|cbn; rewrite Ks, Ke; by apply Hck].
  unfold paths. cbn. rewrite fmap_app. apply Forall_app. split; [apply Hc|].
  constructor; [by apply Ha|constructor].
Qed.
Lemma Remove_fit i c p w : partly_fit c → ticks w → partly_fit (snd (fst (run i (Remove cwd c p) w))).
Proof.
  intros Hc Hck. unfold Remove. run_bind. rewrite run_atom.
  pose proof (acts_run keeps i _ w (Abs_keeps cwd p)) as [_ Ke]. rewrite run_atom in Ke.
  destruct (Abs cwd p w) as [[a|e] w1]; cbn [fst snd] in *; [|done].
  unfold RemoveRepository. pose proof (remove_repo_spec a (cfg_Repositories c)) as Hr.
  destruct (remove_repo a (cfg_Repositories c)) as [rest|]; [|done].
  destruct Hr as (l1 & r & l2 & E1 & -> & _). run_bind. rewrite run_atom. cbn. split; [|cbn; rewrite Ke; by apply Hck].
  destruct Hc as [Hc _]. unfold paths in *. cbn. rewrite E1 in Hc. rewrite fmap_app, Forall_app in *. cbn in Hc.
  destruct Hc as [Hc1 [_ Hc2]%Forall_cons]. done.
Qed.
Lemma Sync_fit i c w :
  fs_rooted (w_fs w) → config_ok c → partly_fit c → ticks w → partly_fit (snd (fst (run i (Sync validate c) w))).
Proof.
  intros Hfs Hok Hc Hck. pose proof (sync_ok validate i c w Hfs Hok) as HS.
  assert (clock (cfg_LastSynced (snd (fst (run i (Sync validate c) w))))) as Ht.
  { unfold Sync. cbv zeta. run_bind.
    pose proof (acts_run keeps i _ w (reads_keeps _ (reads_run_all rescan (cfg_Repositories c) rescan_reads))) as [_ Ke].
    destruct (run i (run_all rescan _) w) as [rs w1]. cbn [snd] in Ke. destruct (collect id rs); [|apply Hc].
    run_bind. rewrite run_atom. cbn. rewrite Ke. apply Hck. }
  destruct (run i (Sync validate c) w) as [[r c'] w1]. destruct HS as (_ & E & _). split; [|done].
  cbn [fst snd]. rewrite E. apply Hc.
Qed.
End CommandSpec.

(** ** A command on disk is a setup step on the configuration it holds *)

Section OnDisk.
Context `{External} `{YL : YAMLLaws}.
Variables (cwd : string) (validate : string → EndpointConfig → list string).
Hypothesis cwd_abs : IsAbs cwd = true.

Variable path : string.
Hypothesis path_abs : IsAbs path = true.
Hypothesis path_clean : clean path.
Hypothesis path_name : plain (Base path).
Hypothesis path_not_run : Base path ≠ ".run".

Definition holds_config (c : Config) (fs : gmap string node) : Prop :=
  fs_rooted fs ∧ config_dir path fs ∧ stored path c fs ∧ config_fit yaml_time c.

Lemma rooted_join d f : IsAbs d = true → plain f → clean (path_Join [d; f]) ∧ IsAbs (path_Join [d; f]) = true.
Proof.
  intros Hd Hf. split; [by apply Clean_Join|]. rewrite path_Join_plain by done.
  pose proof (IsAbs_render _ _ (elems_snoc_nf d f Hf)) as E. rewrite reverse_cons in E. unfold elems. by rewrite E, Hd.
Qed.

Lemma written_rooted fs fs' : fs_rooted fs → others_same path fs fs' → fs_rooted fs'.
Proof using path_abs path_clean path_name.
  intros Hfs Ho k nd Hk.
  assert (IsAbs (Dir path) = true) as Hd.
  { pose proof (path_Join_eq path path_clean path_name) as E. pose proof (dir_clean path path_clean path_name) as Hdc.
    apply (f_equal IsAbs) in E. rewrite path_Join_plain, path_abs in E by done.
    pose proof (IsAbs_render _ _ (elems_snoc_nf (Dir path) (Base path) path_name)) as Er.
    rewrite reverse_cons in Er. unfold elems in E. congruence. }
  destruct (decide (k = path)) as [->|N1]; [done|].
  destruct (decide (k = path_Join [Dir path; ".run"])) as [->|N2]; [by apply rooted_join|].
  destruct (decide (k = resolvedStatePath path)) as [->|N3].
  { rewrite resolved_Join. apply rooted_join; [|done]. by apply rooted_join. }
  apply (Hfs k nd). by rewrite <- (Ho k).
Qed.

(** Load, change, write back: the change runs on the configuration the files
    hold, and its result is what they hold afterwards. *)
Lemma edit_holds {A} i wrap (change : Config → program (result A * Config)) c w :
  no_faults (w_env w) → holds_config c (w_fs w) → acts keeps (change c) →
  (∀ v, keeps w v → config_fit yaml_time (snd (fst (run i (change c) v))) ∧
                    ∀ e, fst (fst (run i (change c) v)) = Err e → snd (fst (run i (change c) v)) = c) →
  ∃ v, keeps w v ∧
    let '((r, c'), _) := run i (change c) v in
    let '(r', w') := run i (edit_config path wrap change) w in
    is_err r' = is_err r ∧ w_env w' = w_env w ∧ holds_config c' (w_fs w') ∧ others_same path (w_fs w) (w_fs w') ∧
    (is_err r = true → w_fs w' = w_fs w).
Proof using YL path_abs path_clean path_name path_not_run.
  intros He (Hfs & Hcd & Hst & Hfit) Hk Hch. unfold edit_config.
  pose proof (Load_stored He path path_clean c (w_fs w) (fit_rooted _ _ Hfit) (proj2 (proj2 Hfit)) Hst i w) as HL.
  destruct HL as [EL [EF EE]]; [done|]. rewrite run_mbind. destruct (run i (LoadConfig path) w) as [l v].
  cbn [fst snd] in *. subst l. rewrite (fit_settled _ _ Hfit). exists v. split; [done|].
  specialize (Hch v (conj EF EE)). rewrite run_mbind.
  pose proof (acts_run keeps i _ v Hk) as [KF KE]. destruct (run i (change c) v) as [[r c'] u]. cbn [fst snd] in *.
  destruct Hch as [Hfit' Herr]. destruct r as [a|e].
  2: { cbn. rewrite (Herr e eq_refl), KF, EF. split_and!; [done|congruence|done|done|done]. }
  rewrite run_mbind.
  destruct (Write_stores He path path_clean path_name path_not_run c' (w_fs w) (proj2 (proj2 Hfit')) Hcd) as (fs' & Hw & Hs & Hd & Ho).
  destruct (Hw i u) as [Er [Hf Hen]]; [split; congruence|].
  destruct (run i (WriteConfig path c') u) as [e w']. cbn [fst snd] in *. subst e. cbn. rewrite Hf.
  split_and!; [done|done| |done|done]. split_and!; [by eapply written_rooted|done|done|done].
Qed.

Lemma with_abs_run {A} i arg (r : result A) w :
  no_faults (w_env w) → fst (run i (with_abs cwd arg r) w) = r ∧ keeps w (snd (run i (with_abs cwd arg r) w)).
Proof.
  intros He. destruct r as [a|e]; [|done]. unfold with_abs. rewrite run_mbind, run_atom. unfold Abs.
  destruct (IsAbs arg); [done|]. unfold guarded, fault. rewrite He. done.
Qed.

(** The command, and the setup step it stands for. *)
Lemma command_holds i op c w :
  no_faults (w_env w) → (∀ n, yaml_time (env_now (w_env w) n)) → holds_config c (w_fs w) →
  ∃ v, keeps w v ∧
    let '((failed, c'), _) := run i (setup_step cwd validate op c) v in
    let '(failed', w') := run i (command cwd validate path op) w in
    failed' = failed ∧ w_env w' = w_env w ∧ holds_config c' (w_fs w') ∧ others_same path (w_fs w) (w_fs w') ∧
    (failed = true → w_fs w' = w_fs w).
Proof using YL cwd_abs path_abs path_clean path_name path_not_run.
  intros He Hck Hh. assert (cwd ≠ "") as Hne by (intros E; by rewrite E in cwd_abs).
  pose proof Hh as (Hfs & _ & _ & (Hok & Hp & Ht)).
  assert (∀ v, keeps w v → fs_rooted (w_fs v) ∧ (∀ n, yaml_time (env_now (w_env v) n))) as Hv by (intros v [-> ->]; done).
  destruct op as [p|p|]; cbn [setup_step command].
  - destruct (edit_holds i id (λ c, Add cwd validate c p) c w He Hh (Add_keeps _ _ _ _)) as (v & Hk & HE).
    { intros v [Hr Hn]%Hv. pose proof (add_ok cwd Hne validate i c p v Hr Hok) as HA.
      pose proof (Add_fit cwd validate cwd_abs yaml_time i c p v (conj Hp Ht) Hn) as HF. destruct (run i (Add _ _ _ _) v) as [[r c'] v'].
      destruct HA as [HA1 HA2]. by split. }
    exists v. split; [done|]. rewrite run_mbind. destruct (run i (Add cwd validate c p) v) as [[r c'] v'].
    unfold add_cmd. rewrite !run_mbind. destruct (run i (edit_config _ _ _) w) as [r' w']. destruct HE as (E1 & E2 & E3).
    pose proof (with_abs_run i p r' w') as HW. rewrite E2 in HW. destruct (HW He) as [E4 [E5 E6]].
    destruct (run i (with_abs cwd p r') w') as [r'' w'']. cbn in *. subst r''. rewrite E5, E6. by destruct r, r'.
  - destruct (edit_holds i id (λ c, Remove cwd c p) c w He Hh (Remove_keeps _ _ _)) as (v & Hk & HE).
    { intros v [Hr Hn]%Hv. pose proof (remove_ok cwd validate i c p v Hok) as HA.
      pose proof (Remove_fit cwd yaml_time i c p v (conj Hp Ht) Hn) as HF. destruct (run i (Remove _ _ _) v) as [[r c'] v'].
      destruct HA as [HA1 HA2]. by split. }
    exists v. split; [done|]. rewrite run_mbind. destruct (run i (Remove cwd c p) v) as [[r c'] v'].
    unfold remove_cmd. rewrite !run_mbind. destruct (run i (edit_config _ _ _) w) as [r' w']. destruct HE as (E1 & E2 & E3).
    pose proof (with_abs_run i p r' w') as HW. rewrite E2 in HW. destruct (HW He) as [E4 [E5 E6]].
    destruct (run i (with_abs cwd p r') w') as [r'' w'']. cbn in *. subst r''. rewrite E5, E6. by destruct r, r'.
  - destruct (edit_holds i (errorf_w "sync: ") (λ c, Sync validate c) c w He Hh (Sync_keeps _ _)) as (v & Hk & HE).
    { intros v [Hr Hn]%Hv. pose proof (sync_ok validate i c v Hr Hok) as HA.
      pose proof (Sync_fit validate yaml_time i c v Hr Hok (conj Hp Ht) Hn) as HF. destruct (run i (Sync _ _) v) as [[r c'] v'].
      destruct HA as (HA1 & _ & HA2). by split. }
    exists v. split; [done|]. rewrite run_mbind. destruct (run i (Sync validate c) v) as [[r c'] v'].
    unfold sync_cmd. rewrite !run_mbind. destruct (run i (edit_config _ _ _) w) as [r' w']. destruct HE as (E1 & E2 & E3).
    by destruct r, r'.
Qed.
End OnDisk.

(** C25: the commands refine the setup operations.  The shell commands [add],
    [remove] and [sync] read the configuration from its two files, change it,
    and write it back.  On a disk that holds a consistent configuration with
    rooted paths, and without failures of the file system, a command fails
    exactly when the operation on that configuration fails; afterwards the
    disk holds the operation's result, consistent again; nothing but the two
    files and [.run] has changed, and nothing at all if it failed. *)
Theorem commands_refine_setup `{External} `{YAMLLaws} (cwd path : string)
    (validate : string → EndpointConfig → list string) (i : nat) (op : setup_op) (c : Config) (w : World) :
  IsAbs cwd = true → IsAbs path = true → clean path → plain (Base path) → Base path ≠ ".run" →
  no_faults (w_env w) → (∀ n, yaml_time (env_now (w_env w) n)) → holds_config path c (w_fs w) →
  ∃ v, keeps w v ∧
    let '((failed, c'), _) := run i (setup_step cwd validate op c) v in
    let '(failed', w') := run i (command cwd validate path op) w in
    failed' = failed ∧ holds_config path c' (w_fs w') ∧ others_same path (w_fs w) (w_fs w') ∧
    (failed = true → w_fs w' = w_fs w).
Proof.
  intros Hcwd Ha Hpc Hpn Hpr He Hck Hh.
  destruct (command_holds cwd validate Hcwd path Ha Hpc Hpn Hpr i op c w He Hck Hh) as (v & Hv & HC). exists v.
  split; [done|]. destruct (run i (setup_step _ _ _ _) v) as [[failed c'] v']. destruct (run i (command _ _ _ _) w).
  tauto.
Qed.

(** ** Migrating the configuration *)

Section Migration.
Context {env : Env}.
Hypothesis env_ok : no_faults env.
Variable root : string.
Hypothesis root_clean : clean root.

#[local] Abbreviation does := (does (env := env)).
#[local] Abbreviation S := (path_Join [root; StateDir]).
#[local] Abbreviation sub x := (path_Join [S; x]).
#[local] Abbreviation gitignore := (sub ".gitignore").

#[local] Abbreviation legacyPath := (path_Join [root; LegacyConfigFile]).
#[local] Abbreviation newPath := (DefaultConfigPath root).

Lemma newPath_sub : newPath = sub ConfigFile.
Proof. unfold DefaultConfigPath. apply path_Join_3; by split_and!. Qed.
Lemma newPath_clean : clean newPath.
Proof. rewrite newPath_sub. by apply Clean_Join. Qed.
Lemma legacy_clean : clean legacyPath.
Proof. by apply Clean_Join. Qed.

(** The legacy file is none of the other paths. *)
Lemma legacy_ne_sub x : plain x → legacyPath ≠ sub x.
Proof.
  intros Hx E. apply (f_equal elems) in E. rewrite !elems_Join in E by (done || by split_and!).
  rewrite <- app_assoc in E. apply app_inv_head in E. done.
Qed.
Lemma root_ne x : plain x → root ≠ path_Join [root; x].
Proof. intros Hx E. apply (f_equal (λ p, length (elems p))) in E. rewrite elems_Join, length_app in E by done. cbn in E. lia. Qed.
Lemma legacy_ne_S : legacyPath ≠ S.
Proof. intros E. by apply path_Join_inj in E as [??]; [|by split_and!..]. Qed.
Lemma new_ne_S : newPath ≠ S.
Proof. rewrite newPath_sub. apply (sub_ne_S root). by split_and!. Qed.

Lemma legacy_others : (legacyPath ∉ [S; sub ".run"; sub "events"; sub "insights"]) ∧ legacyPath ≠ gitignore.
Proof.
  rewrite !elem_of_cons, elem_of_nil. split; [|by apply legacy_ne_sub].
  intros [E|[E|[E|[E|[]]]]]; [by apply legacy_ne_S in E|by apply legacy_ne_sub in E..].
Qed.
Lemma new_others : (newPath ∉ [S; sub ".run"; sub "events"; sub "insights"]) ∧ newPath ≠ gitignore.
Proof.
  rewrite newPath_sub, !elem_of_cons, elem_of_nil. split; [|intros E; by apply sub_inj in E].
  intros [E|[E|[E|[E|[]]]]]; [by apply sub_ne_S in E|by apply sub_inj in E..].
Qed.

Definition migrated (data : bytes) (fs : gmap string node) : gmap string node :=
  ensured root (delete legacyPath (<[newPath := NFile data]> (<[S := NDir]> fs))).

Lemma Migrate_does data fs :
  state_ready root fs → fs !! legacyPath = Some (NFile data) → fs !! newPath = None →
  does (MigrateConfigIfNeeded root) fs None (migrated data fs).
Proof using env_ok root_clean.
  intros Hr HL HN. pose proof Hr as (Hroot & Hd & Hg). unfold MigrateConfigIfNeeded. cbv zeta.
  eapply does_bind; [apply (Stat_does env_ok)|]. rewrite legacy_clean, HL. cbn beta iota.
  eapply does_bind; [apply (Stat_does env_ok)|]. rewrite newPath_clean, HN. cbn beta iota.
  assert (dir_ready S fs) as HS by (apply named_ready; [apply plain_State|done|done|apply Hd; by left]).
  eapply does_bind; [apply (mkdir_does env_ok); [apply (S_clean root)|exact HS]|]. cbn beta iota.
  eapply does_bind; [apply (ReadFile_does env_ok)|].
  rewrite legacy_clean, lookup_insert_ne, HL by (apply not_eq_sym, legacy_ne_S). cbn beta iota.
  eapply does_bind; [apply (WriteFile_clean env_ok); [apply newPath_clean|]|].
  { unfold writable. rewrite newPath_clean, lookup_insert_ne, HN by (apply not_eq_sym, new_ne_S).
    rewrite newPath_sub, Dir_Join, Clean_idem, (S_clean root) by (by split_and!). by rewrite lookup_insert_eq. }
  cbn beta iota. assert (newPath ≠ legacyPath) as Hne.
  { rewrite newPath_sub. apply not_eq_sym, legacy_ne_sub. by split_and!. }
  eapply does_bind; [apply (Remove_does env_ok _ data); rewrite legacy_clean|].
  { rewrite lookup_insert_ne by done. by rewrite lookup_insert_ne by (apply not_eq_sym, legacy_ne_S). }
  cbn beta iota. rewrite legacy_clean.
  eapply does_bind; [apply (Ensure_does env_ok root root_clean)|apply does_ret].
  set (fs1 := delete legacyPath _).
  assert (∀ k, k ≠ legacyPath → k ≠ newPath → fs1 !! k = if bool_decide (k = S) then Some NDir else fs !! k) as Hk.
  { intros k H1 H2. unfold fs1. rewrite lookup_delete_ne, lookup_insert_ne by done.
    case_bool_decide as Es; [subst k; by rewrite lookup_insert_eq|by rewrite lookup_insert_ne]. }
  destruct legacy_others as [L1 L2], new_others as [N1 N2]. split_and!.
  - rewrite Hk; [|by apply root_ne|].
    + rewrite bool_decide_false; [done|]. apply root_ne, plain_State.
    + intros E. apply (f_equal (λ p, length (elems p))) in E.
      rewrite newPath_sub, !elems_Join, !length_app in E by (by split_and!). cbn in E. lia.
  - intros d Hin. rewrite Hk by (intros ->; done). case_bool_decide; [by right|by apply Hd].
  - rewrite Hk by done. rewrite bool_decide_false; [done|]. apply sub_ne_S. by split_and!.
Qed.
End Migration.

(**  the legacy configuration is moved once.  Without failures, a legacy
    [phonewave.yaml] with no new configuration beside it ends up, byte for
    byte, as [.phonewave/config.yaml]; the old file is gone, the state
    directory is complete with its [.gitignore] entries, every other path is
    as it was, and running the migration again changes nothing. *)
Theorem migration_moves_config (root : string) (data : bytes) (i : nat) (w : World) :
  clean root → no_faults (w_env w) → state_ready root (w_fs w) →
  w_fs w !! path_Join [root; LegacyConfigFile] = Some (NFile data) → w_fs w !! DefaultConfigPath root = None →
  let '(e, w1) := run i (MigrateConfigIfNeeded root) w in
  let '(e2, w2) := run i (MigrateConfigIfNeeded root) w1 in
  e = None ∧ w_fs w1 !! DefaultConfigPath root = Some (NFile data) ∧
  w_fs w1 !! path_Join [root; LegacyConfigFile] = None ∧ state_complete root (w_fs w1) ∧
  e2 = None ∧ w_fs w2 = w_fs w1.
Proof.
  intros Hc He Hr HL HN. destruct (Migrate_does He root Hc data (w_fs w) Hr HL HN i w) as [E1 [E2 E3]]; [done|].
  destruct (run i (MigrateConfigIfNeeded root) w) as [e w1]. cbn [fst snd] in *.
  assert (w_fs w1 !! path_Join [root; LegacyConfigFile] = None) as HL1.
  { rewrite E2. unfold migrated. destruct (legacy_others root) as [L1 L2].
    by rewrite ensured_lookup, lookup_delete_eq. }
  assert (does (env := w_env w) (MigrateConfigIfNeeded root) (w_fs w1) None (w_fs w1)) as Hagain.
  { eapply does_bind; [apply (Stat_does He)|]. rewrite legacy_clean, HL1. cbn beta iota. apply does_ret. }
  destruct (Hagain i w1) as [F1 [F2 _]]; [done|]. destruct (run i (MigrateConfigIfNeeded root) w1) as [e2 w2].
  cbn [fst snd] in *. split_and!; [done| |done| |done|done].
  - rewrite E2. unfold migrated. destruct (new_others root) as [N1 N2].
    rewrite ensured_lookup, lookup_delete_ne, lookup_insert_eq; [done| |done|done].
    rewrite newPath_sub. apply legacy_ne_sub. by split_and!.
  - rewrite E2. unfold migrated. apply ensured_complete.
Qed.

(** ** Interrupted writes *)

(** An empty configuration file beside a readable resolved state. *)
Lemma Load_truncated `{YL : YAMLLaws} {env : Env} (env_ok : no_faults env) (path : string) t routes b fs :
  clean path → fs !! path = Some (NFile []) → fs !! resolvedStatePath path = Some (NFile b) →
  yaml_state b = Ok (t, routes) →
  does (env := env) (LoadConfig path) fs
    (Ok (resolveRelPaths (mkConfig t [] routes) (Dir (Dir path)))) fs.
Proof.
  intros Hp E1 E2 Es. eapply does_bind; [apply (ReadFile_does env_ok)|]. rewrite Hp, E1. cbn beta iota.
  rewrite yaml_empty. cbv zeta. rewrite bool_decide_true by done. cbn [negb].
  eapply does_bind; [apply (ReadFile_does env_ok)|].
  change (path_Join [Dir path; ".run"; ResolvedStateFile]) with (resolvedStatePath path).
  rewrite resolved_clean, E2. cbn beta iota. rewrite Es. cbn beta iota.
  change (cfg_Repositories (resolveRelPaths (mkConfig 0 [] []) (Dir (Dir path)))) with (@nil RepoConfig).
  rewrite (bool_decide_true (cfg_Repositories _ = [])) by done. cbn [negb]. rewrite andb_false_r. apply does_ret.
Qed.

(**  writing the configuration is not atomic.  If the process stops after
    [WriteConfig] has opened [config.yaml], which truncates it, the next
    [LoadConfig] does not fail: it returns a configuration without any
    repository, but with the old routes, so that a daemon started on it watches
    no outbox. *)
Theorem interrupted_write_drops_repositories `{External} `{YAMLLaws} (path : string) (c c' : Config) (i : nat) (w : World) :
  clean path → plain (Base path) → Base path ≠ ".run" → no_faults (w_env w) →
  config_dir path (w_fs w) → stored path c (w_fs w) → rooted_paths c → yaml_time (cfg_LastSynced c) →
  let w1 := run_for 1 i (WriteConfig path c') w in
  fst (run i (LoadConfig path) w1) = Ok (mkConfig (cfg_LastSynced c) [] (cfg_Routes c)) ∧
  CollectOutboxDirs (mkConfig (cfg_LastSynced c) [] (cfg_Routes c)) = [].
Proof.
  intros Hp Hn Hr He (Hd & Hnd & _) [(b1 & _ & E1) (b2 & Es & E2)] Hc Ht. split; [|done].
  set (rel := convertToRelPaths c (Dir (Dir path))) in *.
  destruct (manifest_roundtrip (cfg_Repositories (convertToRelPaths c' (Dir (Dir path))))) as (b & Eb & _).
  assert (on (env := w_env w) (<[path := NFile []]> (w_fs w)) (run_for 1 i (WriteConfig path c') w)) as Hon.
  { unfold WriteConfig. cbv zeta. rewrite Eb. cbn. unfold os_OpenTrunc, guarded, fault. rewrite He. unfold lookup_path.
    rewrite Hp. change (w_fs (bump w)) with (w_fs w). by rewrite E1. }
  destruct (state_roundtrip (cfg_LastSynced c) (cfg_Routes rel) Ht) as (b' & Eb' & Ey).
  change (cfg_LastSynced rel) with (cfg_LastSynced c) in Es. rewrite Es in Eb'. injection Eb' as <-.
  pose proof (paths_distinct path Hp Hn Hr) as (_ & Hne & _).
  destruct (Load_truncated He path (cfg_LastSynced c) (cfg_Routes rel) b2 (<[path := NFile []]> (w_fs w)) Hp) with
    (i := i) (w := run_for 1 i (WriteConfig path c') w) as [EL _]; [by rewrite lookup_insert_eq| |done|done|].
  { by rewrite lookup_insert_ne. }
  rewrite EL. f_equal. unfold resolveRelPaths, map_paths. cbn. f_equal.
  exact (f_equal cfg_Routes (resolve_convert c (Dir (Dir path)) Hc)).
Qed.

(** A project with a legacy configuration, on a disk that is full when the
    migration writes. *)
Definition legacy_config : bytes := raw "repositories: [{path: /r}]".
Definition full_disk : Env :=
  mkEnv (λ n, if bool_decide (n = 5) then Some (errors_New "no space left on device") else None)
    (λ _, 0%Z) (λ _, 0%Z) (λ _, "x") (λ _, 0).
Definition legacy_world : World :=
  mkWorld {[ "/p" := NDir; "/p/phonewave.yaml" := NFile legacy_config ]} ∅ [] [] [] [] [] None None no_state [] [] 0 full_disk.

(**  a failed migration loses the configuration.  When writing the new file
    fails, the migration reports it and the legacy file is still there; but
    the truncated new file is there too, so the next command takes the legacy
    file for stale and removes it, without an error, and loads an empty
    configuration. *)
Theorem failed_migration_loses_config `{YAMLLaws} :
  let '(e1, w1) := run 0 (MigrateConfigIfNeeded "/p") legacy_world in
  is_Some e1 ∧ w_fs w1 !! "/p/phonewave.yaml" = Some (NFile legacy_config) ∧
  ∀ w, w_fs w = w_fs w1 → no_faults (w_env w) →
    let '(e2, w2) := run 0 (MigrateConfigIfNeeded "/p") w in
    e2 = None ∧ w_fs w2 !! "/p/phonewave.yaml" = None ∧
    fst (run 0 (LoadConfig (DefaultConfigPath "/p")) w2) = Ok (mkConfig 0 [] []).
Proof.
  set (fs1 := w_fs (snd (run 0 (MigrateConfigIfNeeded "/p") legacy_world))).
  assert (fs1 !! "/p/phonewave.yaml" = Some (NFile legacy_config)) as HL by (vm_compute; reflexivity).
  assert (fs1 !! "/p/.phonewave/config.yaml" = Some (NFile [])) as HN by (vm_compute; reflexivity).
  assert (fs1 !! "/p/.phonewave/.run/resolved.yaml" = None) as HR by (vm_compute; reflexivity).
  assert (is_Some (fst (run 0 (MigrateConfigIfNeeded "/p") legacy_world))) as HE by (vm_compute; eauto).
  unfold fs1 in HL, HN, HR. clear fs1. destruct (run 0 (MigrateConfigIfNeeded "/p") legacy_world) as [e1 w1].
  cbn [fst snd] in *. split; [done|]. split; [done|]. intros w Hw He.
  assert (does (env := w_env w) (MigrateConfigIfNeeded "/p") (w_fs w1) None (delete "/p/phonewave.yaml" (w_fs w1))) as HM.
  { eapply does_bind; [apply (Stat_does He)|]. change (Clean _) with "/p/phonewave.yaml". rewrite HL. cbn beta iota.
    eapply does_bind; [apply (Stat_does He)|]. change (Clean _) with "/p/.phonewave/config.yaml". rewrite HN. cbn beta iota.
    eapply does_bind; [apply (Remove_does He _ legacy_config); change (Clean _) with "/p/phonewave.yaml"; exact HL|].
    apply does_ret. }
  destruct (HM 0 w) as [E2 Hon]; [done|]. destruct (run 0 (MigrateConfigIfNeeded "/p") w) as [e2 w2]. cbn [fst snd] in *.
  split; [done|]. split; [destruct Hon as [-> _]; by rewrite lookup_delete_eq|].
  assert (does (env := w_env w) (LoadConfig (DefaultConfigPath "/p")) (delete "/p/phonewave.yaml" (w_fs w1))
    (Ok (mkConfig 0 [] [])) (delete "/p/phonewave.yaml" (w_fs w1))) as HC; [|by apply (HC 0 w2)].
  eapply does_bind; [apply (ReadFile_does He)|]. change (Clean _) with "/p/.phonewave/config.yaml".
  rewrite lookup_delete_ne, HN by done. cbn beta iota. rewrite yaml_empty. cbv zeta.
  rewrite bool_decide_true by done. cbn [negb]. eapply does_bind; [apply (ReadFile_does He)|].
  change (Clean _) with "/p/.phonewave/.run/resolved.yaml". rewrite lookup_delete_ne, HR by done. apply does_ret.
Qed.

(** ** Duplicates, and a sample encoding *)

(** A repository named twice on the command line of [init] is in the
    configuration twice. *)
Example init_twice :
  match fst (run 0 (@Init sample_external "/" no_warnings ["/r"; "/r"]) setup_world) with
  | Ok res => paths (ir_Config res) = ["/r"; "/r"]
  | Err _ => False
  end.
Proof. vm_compute. reflexivity. Qed.

#[export] Instance EndpointConfig_eq_dec : EqDecision EndpointConfig.
Proof. solve_decision. Defined.
#[export] Instance RepoConfig_eq_dec : EqDecision RepoConfig.
Proof. solve_decision. Defined.
#[export] Instance RouteConfig_eq_dec : EqDecision RouteConfig.
Proof. solve_decision. Defined.
#[export] Instance EndpointConfig_countable : Countable EndpointConfig.
Proof.
  refine (inj_countable' (λ e, (epc_Dir e, epc_Produces e, epc_Consumes e)) (λ '(d, p, c), mkEndpointConfig d p c) _).
  by intros [].
Defined.
#[export] Instance RepoConfig_countable : Countable RepoConfig.
Proof. refine (inj_countable' (λ r, (rc_Path r, rc_Endpoints r)) (λ '(p, e), mkRepo p e) _). by intros []. Defined.
#[export] Instance RouteConfig_countable : Countable RouteConfig.
Proof.
  refine (inj_countable' (λ r, (rtc_Kind r, rtc_From r, rtc_To r, rtc_Scope r, rtc_RepoPath r))
    (λ '(k, f, t, s, p), mkRouteConfig k f t s p) _).
  by intros [].
Defined.

Definition sample_YAML : YAML := {|
  yaml_manifest := λ repos, Ok (bits (encode repos));
  yaml_resolved := λ t routes, Ok (bits (encode (t, routes)));
  yaml_config := λ b,
    if bool_decide (b = []) then Ok (mkConfig 0 [] []) else
    match decode (unbits (drop (length (raw config_header)) b)) with
    | Some repos => Ok (mkConfig 0 repos [])
    | None => Err (errors_New "yaml: unmarshal")
    end;
  yaml_state := λ b,
    match decode (unbits b) with Some s => Ok s | None => Err (errors_New "yaml: unmarshal") end;
  yaml_time := λ _, True |}.
Lemma sample_YAMLLaws : @YAMLLaws sample_YAML.
Proof.
  constructor; [| |done].
  - intros repos. eexists. split; [done|]. cbn [yaml_config sample_YAML]. rewrite bool_decide_false by done.
    by rewrite drop_app_length, unbits_bits, decode_encode.
  - intros t routes _. eexists. split; [done|]. cbn [yaml_state sample_YAML]. by rewrite unbits_bits, decode_encode.
Qed.

(** A project next to the sample repository, with an empty configuration. *)
Definition project_path : string := "/p/.phonewave/config.yaml".
Definition manifest_bytes (repos : list RepoConfig) : bytes := raw config_header ++ bits (encode repos).
Definition project_world : World :=
  set_fs (<["/p" := NDir]> (<["/p/.phonewave" := NDir]> (<["/p/.phonewave/.run" := NDir]>
    (<[project_path := NFile (manifest_bytes [])]> (<["/p/.phonewave/.run/resolved.yaml" :=
      NFile (bits (encode (0%Z, @nil RouteConfig)))]> setup_fs))))) (sample_world [] no_fault_env).

Lemma project_holds : @holds_config sample_YAML project_path empty_config (w_fs project_world).
Proof.
  split_and!.
  - intros k n Hk. change (w_fs project_world) with (<["/p" := NDir]> (<["/p/.phonewave" := NDir]> (<["/p/.phonewave/.run" := NDir]>
      (<[project_path := NFile (manifest_bytes [])]> (<["/p/.phonewave/.run/resolved.yaml" :=
        NFile (bits (encode (0%Z, @nil RouteConfig)))]> setup_fs))))) in Hk.
    do 5 (apply lookup_insert_Some in Hk as [[<- _]|[_ Hk]]; [split; reflexivity|]).
    by apply setup_fs_rooted in Hk.
  - split_and!; [reflexivity|vm_compute; discriminate..|right; reflexivity].
  - split; eexists; (split; reflexivity).
  - split_and!; [|constructor|done]. constructor; [by intros r ?%elem_of_nil|constructor|done].
Qed.

Lemma commands_refine_setup_witness :
  let '(_, w') := run 0 (@command sample_external sample_YAML "/" no_warnings project_path (SAdd "/r")) project_world in
  ∃ c', @holds_config sample_YAML project_path c' (w_fs w').
Proof.
  destruct (@commands_refine_setup sample_external sample_YAML sample_YAMLLaws "/" project_path no_warnings 0 (SAdd "/r")
    empty_config project_world) as (v & _ & HC).
  - reflexivity.
  - reflexivity.
  - reflexivity.
  - by split_and!.
  - discriminate.
  - intros n. reflexivity.
  - intros n. exact I.
  - exact project_holds.
  - destruct (run 0 (setup_step _ _ _ _) v) as [[failed c'] v']. destruct (run 0 (command _ _ _ _) project_world) as [f w'].
    exists c'. apply HC.
Defined.

Lemma config_roundtrip_witness :
  let '(e, w1) := run 0 (@WriteConfig sample_YAML project_path sample_config) project_world in
  e = None ∧ fst (run 0 (@LoadConfig sample_YAML project_path) w1) = Ok (UpdateRoutes sample_config).
Proof.
  pose proof (@config_roundtrip sample_YAML sample_YAMLLaws project_path sample_config 0 project_world) as HC.
  destruct (run 0 (@WriteConfig sample_YAML project_path sample_config) project_world) as [e w1].
  destruct HC as (H1 & _ & H2).
  - reflexivity.
  - by split_and!.
  - discriminate.
  - intros n. reflexivity.
  - apply project_holds.
  - split; [|constructor]. constructor; [right; split; reflexivity|constructor].
  - exact I.
  - split; [exact H1|exact H2].
Defined.

Lemma interrupted_write_drops_repositories_witness :
  fst (run 0 (@LoadConfig sample_YAML project_path)
    (run_for 1 0 (@WriteConfig sample_YAML project_path sample_config) project_world)) = Ok empty_config.
Proof.
  destruct (@interrupted_write_drops_repositories sample_external sample_YAML sample_YAMLLaws project_path empty_config
    sample_config 0 project_world) as [HC _].
  - reflexivity.
  - by split_and!.
  - discriminate.
  - intros n. reflexivity.
  - apply project_holds.
  - apply project_holds.
  - split; constructor.
  - exact I.
  - exact HC.
Defined.

Lemma failed_migration_loses_config_witness :
  is_Some (fst (run 0 (MigrateConfigIfNeeded "/p") legacy_world)).
Proof.
  pose proof (@failed_migration_loses_config sample_YAML sample_YAMLLaws) as HF.
  destruct (run 0 (MigrateConfigIfNeeded "/p") legacy_world) as [e1 w1]. exact (proj1 HF).
Defined.

Definition migration_world : World := set_fs (w_fs legacy_world) (sample_world [] no_fault_env).
Lemma migration_moves_config_witness :
  let '(e, w1) := run 0 (MigrateConfigIfNeeded "/p") migration_world in
  e = None ∧ w_fs w1 !! "/p/.phonewave/config.yaml" = Some (NFile legacy_config).
Proof.
  pose proof (migration_moves_config "/p" legacy_config 0 migration_world) as HM.
  destruct (run 0 (MigrateConfigIfNeeded "/p") migration_world) as [e w1]. destruct (run 0 _ w1) as [e2 w2].
  destruct HM as (H1 & H2 & _).
  - reflexivity.
  - intros n. reflexivity.
  - split_and!; [reflexivity| |vm_compute; discriminate]. intros d Hd. left.
    rewrite !elem_of_cons, elem_of_nil in Hd. destruct Hd as [->|[->|[->|[->|[]]]]]; reflexivity.
  - reflexivity.
  - reflexivity.
  - split; [exact H1|exact H2].
Defined.
