(* ===== verification/Insight.v ===== *)
(** * The insight ledger

    Models [domain/insight.go], [session/insight_writer.go] and
    [session/insight_lock_unix.go].  The two regular expressions are matched
    by hand: [insightHeadingRe] matches whole lines, [insightFieldRe] starts at
    the beginning of a line, its key may run over line ends, its value may
    not.  The YAML form of the frontmatter, and the RFC 3339 form of a time in
    the local zone, which [Time] does not keep, are parameters. *)
From S2P Require Import Prelude GoStrings GoPath GoTime Prog World SetupSafety Files.

#[local] Open Scope nat_scope.

(** ** [domain/insight.go] *)

Definition InsightSchemaVersion : string := "1".

Record InsightEntry := mkInsight {
  in_Title : string; in_What : string; in_Why : string; in_How : string; in_When : string; in_Who : string;
  in_Constraints : string; in_Extra : gmap string string }.
Record InsightFile := mkInsightFile {
  if_SchemaVersion : string; if_Kind : string; if_Tool : string; if_UpdatedAt : Time; if_entries : list InsightEntry }.
Record insightFrontmatter := mkFrontmatter {
  fm_SchemaVersion : string; fm_Kind : string; fm_Tool : string; fm_UpdatedAt : string; fm_EntryCount : nat }.

Definition set_entries (l : list InsightEntry) (f : InsightFile) : InsightFile :=
  mkInsightFile (if_SchemaVersion f) (if_Kind f) (if_Tool f) (if_UpdatedAt f) l.
Definition set_updated (t : Time) (f : InsightFile) : InsightFile :=
  mkInsightFile (if_SchemaVersion f) (if_Kind f) (if_Tool f) t (if_entries f).

Definition AddEntry (f : InsightFile) (entry : InsightEntry) : bool * InsightFile :=
  if existsb (λ existing, bool_decide (in_Title existing = in_Title entry)) (if_entries f) then (false, f)
  else (true, set_entries (if_entries f ++ [entry]) f).

Definition nl : ascii := "010".
Definition line (s : string) : string := s +:+ String nl "".
Definition heading (title : string) : string := "## Insight: " +:+ title.
Definition field (kv : string * string) : string := "- **" +:+ fst kv +:+ "**: " +:+ snd kv.

Definition axes (e : InsightEntry) : list (string * string) :=
  [("what", in_What e); ("why", in_Why e); ("how", in_How e); ("when", in_When e); ("who", in_Who e);
   ("constraints", in_Constraints e)].
Definition extras (e : InsightEntry) : list (string * string) :=
  (λ k, (k, default "" (in_Extra e !! k))) <$> sort_Strings (fst <$> map_to_list (in_Extra e)).

Definition lines_text (ls : list string) : string := String.concat "" (line <$> ls).
Definition Format (e : InsightEntry) : string :=
  lines_text ([heading (in_Title e); ""] ++ (field <$> axes e ++ extras e)).

Class InsightText := {
  yaml_frontmatter : insightFrontmatter → result string;
  yaml_unfrontmatter : string → result insightFrontmatter;
  rfc3339 : Time → string;
  parse_rfc3339 : string → option Time;
  frontmatter_plain : insightFrontmatter → Prop;
  four_digit_year : Time → Prop }.

(** [strings.Cut]; two of them are [strings.SplitN] with 3. *)
Definition Cut (s sep : string) : option (string * string) :=
  n ← Index s sep; Some (String.substring 0 n s, String.substring (n + slen sep) (slen s - (n + slen sep)) s).
Definition fence : string := line "---".

(** Frontmatters of plain scalars are written one line per key, none of which
    ends like a fence, and read back; an error of the YAML reader is not a
    missing file; times keep their seconds. *)
Class InsightTextLaws `{InsightText} : Prop := {
  frontmatter_roundtrip : ∀ fm, frontmatter_plain fm → ∃ h, yaml_frontmatter fm = Ok h ∧
    yaml_unfrontmatter h = Ok fm ∧ ∀ rest, Index (h +:+ fence +:+ rest) fence = Some (slen h);
  yaml_error_other : ∀ h e, yaml_unfrontmatter h = Err e → errors_Is e ErrNotExist = false;
  rfc3339_seconds : ∀ t, four_digit_year t → parse_rfc3339 (rfc3339 t) = Some (t / Second * Second)%Z }.

(** *** Matching [insightFieldRe] *)

Fixpoint strip (p s : bytes) : option bytes :=
  match p, s with
  | [], _ => Some s
  | c :: p', d :: s' => if bool_decide (c = d) then strip p' s' else None
  | _ :: _, [] => None
  end.
Fixpoint span (c : ascii) (s : bytes) : bytes * bytes :=
  match s with
  | [] => ([], [])
  | d :: r => if bool_decide (c = d) then ([], s) else let '(a, b) := span c r in (d :: a, b)
  end.

(** At a line start: the key, the value, and what follows. *)
Definition match_field (s : bytes) : option (bytes * bytes * bytes) :=
  s1 ← strip (raw "- **") s;
  let '(key, s2) := span "*" s1 in
  s3 ← strip (raw "**: ") s2;
  let '(value, rest) := span nl s3 in
  if bool_decide (key = []) || bool_decide (value = []) then None else Some (key, value, rest).

Fixpoint fields (fuel : nat) (line_start : bool) (s : bytes) : list (string * string) :=
  match fuel with
  | O => []
  | S n =>
      match (if line_start then match_field s else None) with
      | Some (key, value, rest) => (str key, str value) :: fields n false rest
      | None =>
          match s with
          | [] => []
          | c :: r => fields n (bool_decide (c = nl)) r
          end
      end
  end.

(** *** Sections *)

(** The title of a line that [insightHeadingRe] matches. *)
Definition title_of (l : string) : option string :=
  if HasPrefix l (heading "") then
    let t := TrimPrefix l (heading "") in if bool_decide (t = "") then None else Some t
  else None.

(** The lines before the first heading, and the titles with their lines. *)
Fixpoint sections (ls : list string) : list string * list (string * list string) :=
  match ls with
  | [] => ([], [])
  | l :: r =>
      let '(pre, secs) := sections r in
      match title_of l with
      | Some t => ([], (t, pre) :: secs)
      | None => (l :: pre, secs)
      end
  end.

(** The text between the end of a heading and the next one, or the end. *)
Definition entry_body (final : bool) (ls : list string) : bytes :=
  raw (String.concat "" ((λ l, String nl l) <$> ls)) ++ (if final then [] else [nl]).

Definition set_field (e : InsightEntry) (kv : string * string) : InsightEntry :=
  let '(key, value) := kv in
  let 'mkInsight t what why how when who cs extra := e in
  if bool_decide (key = "what") then mkInsight t value why how when who cs extra
  else if bool_decide (key = "why") then mkInsight t what value how when who cs extra
  else if bool_decide (key = "how") then mkInsight t what why value when who cs extra
  else if bool_decide (key = "when") then mkInsight t what why how value who cs extra
  else if bool_decide (key = "who") then mkInsight t what why how when value cs extra
  else if bool_decide (key = "constraints") then mkInsight t what why how when who value extra
  else mkInsight t what why how when who cs (<[key := value]> extra).

Definition parse_entry (title : string) (body : bytes) : InsightEntry :=
  fold_left set_field (fields (S (length body)) true body) (mkInsight title "" "" "" "" "" "" ∅).

Fixpoint parse_entries (secs : list (string * list string)) : list InsightEntry :=
  match secs with
  | [] => []
  | (t, ls) :: r => parse_entry t (entry_body (bool_decide (r = [])) ls) :: parse_entries r
  end.

Section Text.
Context `{InsightText}.

Definition body_text (entries : list InsightEntry) : string :=
  String.concat "" (imap (λ i e, (if (0 <? i) then line "" else "") +:+ line "" +:+ Format e) entries).

Definition Marshal (f : InsightFile) : result bytes :=
  match yaml_frontmatter (mkFrontmatter (if_SchemaVersion f) (if_Kind f) (if_Tool f) (rfc3339 (if_UpdatedAt f))
          (length (if_entries f))) with
  | Err err => Err (errorf_w "marshal insight frontmatter: " err)
  | Ok header => Ok (raw (fence +:+ header +:+ fence +:+ body_text (if_entries f)))
  end.

Definition UnmarshalInsightFile (data : bytes) : result InsightFile :=
  match (r ← Cut (str data) fence; Cut (snd r) fence) with
  | None => Err (errors_New "invalid insight file: missing YAML frontmatter delimiters")
  | Some (header, body) =>
      match yaml_unfrontmatter header with
      | Err err => Err (errorf_w "unmarshal insight frontmatter: " err)
      | Ok fm =>
          match parse_rfc3339 (fm_UpdatedAt fm) with
          | None => Err (errors_New ("parse updated_at: " +:+ fm_UpdatedAt fm))
          | Some updatedAt =>
              Ok (mkInsightFile (fm_SchemaVersion fm) (fm_Kind fm) (fm_Tool fm) updatedAt
                    (parse_entries (snd (sections (Split body nl)))))
          end
      end
  end.

(** ** [session/insight_writer.go] *)

Variables insightsDir runDir : string.

(** [os.OpenFile] with [O_CREATE|O_RDWR] makes a missing file, as opening for
    appending does; the blocking [Flock] then waits for its turn. *)
Definition lock : program (result unit) :=
  let lockPath := path_Join [runDir; "insights.lock"] in
  o ← atom (os_OpenAppend lockPath);
  match o with
  | Err err => mret (Err (errorf_w ("open lock file " +:+ lockPath +:+ ": ") err))
  | Ok _ =>
      l ← atom (guarded "" (λ w, (Ok tt, w)));
      match l with
      | Err err => _ ← atom file_Close; mret (Err (errorf_w ("flock " +:+ lockPath +:+ ": ") err))
      | Ok _ => mret (Ok tt)
      end
  end.

Definition readFile (path : string) : act (result InsightFile) := λ w,
  let '(r, w) := os_ReadFile path w in
  (match r with Err err => Err err | Ok data => UnmarshalInsightFile data end, w).

Definition Read (filename : string) : act (result InsightFile) := readFile (path_Join [insightsDir; filename]).

Definition insight_temp (filename : string) : string := path_Join [insightsDir; ("." +:+ filename) +:+ ".tmp"].

(** The rewrite of the ledger, under the lock. *)
Definition write_insights (filename : string) (data : bytes) : program (option error) :=
  let path := path_Join [insightsDir; filename] in
  let tmpPath := insight_temp filename in
  r ← os_WriteFile tmpPath data;
  match r with
  | Err err => mret (Some (errorf_w "write temp insight file: " err))
  | Ok _ =>
      r ← atom (os_Rename tmpPath path);
      match r with
      | Err err => _ ← atom (os_Remove tmpPath); mret (Some (errorf_w "rename insight file: " err))
      | Ok _ => mret None
      end
  end.

Definition AppendInsight (filename kind tool : string) (entry : InsightEntry) : program (option error) :=
  let path := path_Join [insightsDir; filename] in
  l ← lock;
  match l with
  | Err err => mret (Some (errorf_w "acquire insight lock: " err))
  | Ok _ =>
      r ← atom (readFile path);
      match (match r with
             | Ok file => inl file
             | Err err => if errors_Is err ErrNotExist then inl (mkInsightFile InsightSchemaVersion kind tool 0 [])
                          else inr err
             end) with
      | inr err => mret (Some (errorf_w ("read existing insight file " +:+ path +:+ ": ") err))
      | inl file =>
          let '(added, file) := AddEntry file entry in
          if negb added then mret None else
          now ← atom Now;
          match Marshal (set_updated now file) with
          | Err err => mret (Some (errorf_w "marshal insight file: " err))
          | Ok data => write_insights filename data
          end
      end
  end.
End Text.

(** * Theorems *)

(** ** Scanning fields *)

Lemma strip_app p s : strip p (p ++ s) = Some s.
Proof. induction p as [|c p IH]; [done|]. cbn. by rewrite bool_decide_true. Qed.
Lemma span_app c a s : c ∉ a → s = [] ∨ (∃ r, s = c :: r) → span c (a ++ s) = (a, s).
Proof.
  intros Ha Hs. induction a as [|d a IH]; cbn [app span].
  - destruct Hs as [->|[r ->]]; [done|]. cbn. by rewrite bool_decide_true.
  - rewrite not_elem_of_cons in Ha. destruct Ha as [Hd Ha]. rewrite bool_decide_false by done. by rewrite IH.
Qed.
Lemma span_length c s : length (snd (span c s)) ≤ length s.
Proof.
  induction s as [|d s IH]; [done|]. cbn. case_bool_decide; [done|]. destruct (span c s) as [a b]. cbn in *. lia.
Qed.
Lemma strip_length p s r : strip p s = Some r → length s = length p + length r.
Proof.
  revert s. induction p as [|c p IH]; intros [|d s]; cbn; try done; [by intros [= <-]..|].
  case_bool_decide; [|done]. intros E%IH. by rewrite E.
Qed.

Lemma match_field_shorter s k v r : match_field s = Some (k, v, r) → length r < length s.
Proof.
  unfold match_field. destruct (strip (raw "- **") s) as [s1|] eqn:E1; [|done]. cbn [mbind option_bind].
  pose proof (span_length "*" s1) as L1. destruct (span "*" s1) as [a s2]. cbn [snd] in L1.
  destruct (strip (raw "**: ") s2) as [s3|] eqn:E2; [|done]. cbn [mbind option_bind].
  pose proof (span_length nl s3) as L2. destruct (span nl s3) as [b s4]. cbn [snd] in L2.
  destruct (_ || _); [done|]. intros [= <- <- <-]. apply strip_length in E1, E2. rewrite E1, length_raw. cbn. lia.
Qed.

(** More fuel than text makes no difference. *)
Lemma fields_fuel n m b s : length s < n → length s < m → fields n b s = fields m b s.
Proof.
  revert m b s. induction n as [|n IH]; intros [|m] b s Hn Hm; [lia..|]. cbn [fields].
  destruct (if b then match_field s else None) as [[[k v] r]|] eqn:E.
  - destruct b; [|done]. apply match_field_shorter in E. f_equal. apply IH; lia.
  - destruct s as [|c s]; [done|]. cbn in *. apply IH; lia.
Qed.

(** What follows a line: nothing, or a line end. *)
Definition at_end (s : bytes) : Prop := s = [] ∨ ∃ r, s = nl :: r.

Definition key_plain (k : string) : Prop := k ≠ "" ∧ ("*"%char ∉ raw k) ∧ has_byte nl k = false.
Definition value_plain (v : string) : Prop := has_byte nl v = false.

Lemma has_byte_raw c s : has_byte c s = false ↔ c ∉ raw s.
Proof.
  induction s as [|d s IH]; cbn; [rewrite elem_of_nil; split; auto|].
  rewrite orb_false_iff, bool_decide_eq_false, not_elem_of_cons, IH. intuition congruence.
Qed.
Lemma raw_nonempty s : s ≠ "" → raw s ≠ [].
Proof. by destruct s. Qed.

Lemma match_field_line k v rest :
  key_plain k → value_plain v → at_end rest →
  match_field (raw (field (k, v)) ++ rest) = if bool_decide (v = "") then None else Some (raw k, raw v, rest).
Proof.
  intros (Hk & Hs & _) Hv Hr. unfold field. cbn [fst snd]. unfold match_field.
  rewrite !raw_app, <- !app_assoc, strip_app. cbn [mbind option_bind].
  rewrite span_app; [|done|right; eexists; reflexivity]. change (raw "**: " ++ raw v ++ rest) with (raw "**: " ++ (raw v ++ rest)).
  rewrite strip_app. cbn [mbind option_bind]. rewrite span_app; [|by apply has_byte_raw|exact Hr].
  rewrite (bool_decide_false (raw k = [])) by (by apply raw_nonempty). cbn [orb].
  case_bool_decide as E1; case_bool_decide as E2; try done; [destruct v; done|by subst v].
Qed.

Lemma skip_line n a rest :
  nl ∉ a → length (a ++ rest) < n → fields n false (a ++ rest) = fields n false rest.
Proof.
  revert n. induction a as [|c a IH]; intros n Ha Hn; [done|]. rewrite not_elem_of_cons in Ha. destruct Ha as [Hc Ha].
  destruct n as [|n]; [cbn in Hn; lia|].
  change (fields (S n) false ((c :: a) ++ rest)) with (fields n (bool_decide (c = nl)) (a ++ rest)).
  rewrite bool_decide_false by congruence. rewrite IH by (try done; cbn in Hn; lia).
  rewrite length_app in Hn. cbn in Hn. apply fields_fuel; lia.
Qed.

(** Lines that are blank or fields. *)
Definition render_line (o : option (string * string)) : string := match o with None => "" | Some kv => field kv end.
Definition filled (o : option (string * string)) : option (string * string) :=
  match o with Some kv => if bool_decide (snd kv = "") then None else Some kv | None => None end.
Definition line_plain (o : option (string * string)) : Prop :=
  match o with Some (k, v) => key_plain k ∧ value_plain v | None => True end.

Lemma field_no_nl k v : key_plain k → value_plain v → has_byte nl (field (k, v)) = false.
Proof. intros (_ & _ & Hk) Hv. unfold field. cbn [fst snd]. rewrite !has_byte_app, Hk, Hv. done. Qed.

Lemma entry_body_cons final l ls : entry_body final (l :: ls) = nl :: raw l ++ entry_body final ls.
Proof.
  unfold entry_body. cbn [fmap list_fmap]. set (rest := (λ l, String nl l) <$> ls).
  assert (String.concat "" (String nl l :: rest) = String nl l +:+ String.concat "" rest) as ->.
  { destruct rest; [by rewrite app_str_nil_r|done]. }
  rewrite raw_app. cbn. by rewrite <- app_assoc.
Qed.
Lemma entry_body_end final ls : at_end (entry_body final ls).
Proof. destruct ls as [|l ls]; [destruct final; [by left|right; by eexists]|]. rewrite entry_body_cons. right. by eexists. Qed.

Lemma fields_lines final os n b :
  Forall line_plain os → length (entry_body final (render_line <$> os)) < n →
  fields n b (entry_body final (render_line <$> os)) = omap filled os.
Proof.
  intros Hos. revert n b. induction Hos as [|o os Ho Hos IH]; intros n b Hn.
  - destruct n as [|n]; [cbn in Hn; lia|]. destruct final; cbn; [by destruct b|].
    destruct n as [|n]; [cbn in Hn; lia|]. by destruct b.
  - cbn [fmap list_fmap] in *. rewrite entry_body_cons in *. destruct n as [|n]; [cbn in Hn; lia|].
    set (rest := entry_body final (render_line <$> os)) in *. pose proof (entry_body_end final (render_line <$> os)) as He.
    fold rest in He. assert (length (raw (render_line o)) + length rest < n) as Hl by (rewrite <- length_app; cbn [length] in Hn; lia). clear Hn.
    cbn [fields omap list_omap].
    assert ((if b then match_field (nl :: raw (render_line o) ++ rest) else None) = None) as -> by (by destruct b).
    rewrite bool_decide_true by done. destruct o as [[k v]|]; cbn [render_line filled] in *.
    2: { apply IH. cbn in Hl. lia. }
    destruct Ho as [Hk Hv]. destruct n as [|n]; [lia|]. cbn [fields]. rewrite match_field_line by done. cbn [snd].
    case_bool_decide as Ev.
    + change (raw (field (k, v)) ++ rest) with ("-"%char :: (raw (" **" +:+ k +:+ "**: " +:+ v) ++ rest)). cbv iota.
      rewrite (bool_decide_false ("-"%char = nl)) by done.
      assert (has_byte nl (" **" +:+ k +:+ "**: " +:+ v) = false) as Hnl.
      { pose proof (field_no_nl k v Hk Hv) as E. unfold field in E. cbn [fst snd] in E. by apply orb_false_iff in E as [_ E]. }
      assert (length (raw (field (k, v))) = S (length (raw (" **" +:+ k +:+ "**: " +:+ v)))) as El by done.
      rewrite skip_line; [apply IH; fold rest; lia|by apply has_byte_raw|rewrite length_app; lia].
    + f_equal; [by rewrite !string_of_list_ascii_of_string|]. apply IH. fold rest.
      assert (0 < length (raw (field (k, v)))) by exact (Nat.lt_0_succ _). lia.
Qed.

(** ** Reading an entry back *)

Definition axis_names : list string := ["what"; "why"; "how"; "when"; "who"; "constraints"].

(** One-line texts; extra fields with a key of their own and a value. *)
Record entry_plain (e : InsightEntry) : Prop := {
  ep_title : in_Title e ≠ "" ∧ has_byte nl (in_Title e) = false;
  ep_axes : Forall (λ kv, value_plain (snd kv)) (axes e);
  ep_extra : ∀ k v, in_Extra e !! k = Some v → key_plain k ∧ (k ∉ axis_names) ∧ v ≠ "" ∧ value_plain v }.

Lemma extras_perm e : extras e ≡ₚ map_to_list (in_Extra e).
Proof.
  unfold extras. unfold sort_Strings. rewrite merge_sort_Permutation.
  rewrite <- list_fmap_compose. apply reflexive_eq. rewrite <- (list_fmap_id (map_to_list (in_Extra e))) at 2.
  apply list_fmap_ext. intros i [k v] Hi. apply list_elem_of_lookup_2, elem_of_map_to_list in Hi. cbn. by rewrite Hi.
Qed.

Lemma set_extras e l :
  Forall (λ kv, fst kv ∉ axis_names) l →
  fold_left set_field l e = mkInsight (in_Title e) (in_What e) (in_Why e) (in_How e) (in_When e) (in_Who e)
    (in_Constraints e) (fold_left (λ m kv, <[fst kv := snd kv]> m) l (in_Extra e)).
Proof.
  revert e. induction l as [|[k v] l IH]; intros e Hl; [by destruct e|].
  apply Forall_cons in Hl as [Hk Hl]. cbn [fold_left]. rewrite IH by done. cbn [fst] in Hk.
  unfold axis_names in Hk. rewrite !not_elem_of_cons in Hk. destruct Hk as (K1 & K2 & K3 & K4 & K5 & K6 & _).
  destruct e. cbn. by rewrite !bool_decide_false by done.
Qed.

Lemma inserts_list (l : list (string * string)) (m : gmap string string) :
  NoDup (fst <$> l) → fold_left (λ m kv, <[fst kv := snd kv]> m) l m = list_to_map l ∪ m.
Proof.
  revert m. induction l as [|[k v] l IH]; intros m Hd; [cbn; by rewrite (left_id_L ∅ (∪))|].
  cbn in Hd. apply NoDup_cons in Hd as [Hk Hd]. cbn [fold_left fst snd]. rewrite IH by done. cbn [list_to_map foldr].
  rewrite <- insert_union_r by (by apply not_elem_of_list_to_map_1). by rewrite insert_union_l.
Qed.

(** Empty axes are not written as fields that match, and are empty anyway. *)
Lemma set_axes e rest :
  fold_left set_field (omap filled (Some <$> axes e) ++ rest) (mkInsight (in_Title e) "" "" "" "" "" "" ∅) =
  fold_left set_field rest (mkInsight (in_Title e) (in_What e) (in_Why e) (in_How e) (in_When e) (in_Who e)
    (in_Constraints e) ∅).
Proof.
  rewrite fold_left_app. f_equal. unfold axes. cbn [fmap list_fmap omap list_omap filled snd].
  repeat (case_bool_decide as E; [rewrite E; clear E|clear E]; cbn [omap list_omap filled snd]); reflexivity.
Qed.

Lemma axes_plain e : entry_plain e → Forall line_plain (Some <$> axes e).
Proof.
  intros He. pose proof (ep_axes e He) as Ha. unfold axes in *. cbn [fmap list_fmap].
  repeat (apply Forall_cons in Ha as [? Ha]; constructor; [split; [|done]; split_and!; [done| |done];
    apply has_byte_raw; reflexivity|]). constructor.
Qed.
Lemma extras_plain e : entry_plain e → Forall line_plain (Some <$> extras e).
Proof.
  intros He. apply Forall_fmap, Forall_forall. intros [k v] Hkv. cbn. rewrite extras_perm in Hkv.
  apply elem_of_map_to_list in Hkv. destruct (ep_extra e He k v Hkv) as (H1 & _ & _ & H4). done.
Qed.

Lemma omap_filled_full (l : list (string * string)) :
  Forall (λ kv, snd kv ≠ "") l → omap filled (Some <$> l) = l.
Proof.
  induction 1 as [|[k v] l Hv Hl IH]; [done|]. cbn [fmap list_fmap omap list_omap filled]. by rewrite bool_decide_false, IH.
Qed.
Lemma omap_filled_blank n : omap filled (replicate n None) = [].
Proof. induction n; [done|]. done. Qed.

(** The lines of an entry behind its heading, then any number of blanks. *)
Definition entry_lines (e : InsightEntry) (blanks : nat) : list (option (string * string)) :=
  None :: (Some <$> axes e) ++ (Some <$> extras e) ++ replicate blanks None.

Lemma parse_entry_lines e final blanks :
  entry_plain e → parse_entry (in_Title e) (entry_body final (render_line <$> entry_lines e blanks)) = e.
Proof.
  intros He. unfold parse_entry. rewrite fields_lines; [|unfold entry_lines|lia].
  2: { constructor; [done|]. apply Forall_app. split; [by apply axes_plain|]. apply Forall_app.
       split; [by apply extras_plain|]. by apply Forall_replicate. }
  assert (∀ kv, kv ∈ extras e → in_Extra e !! fst kv = Some (snd kv)) as Hx.
  { intros [k v]. rewrite extras_perm. apply elem_of_map_to_list. }
  unfold entry_lines. cbn [omap list_omap filled]. rewrite !omap_app, omap_filled_blank, app_nil_r, set_axes.
  rewrite omap_filled_full.
  2: { apply Forall_forall. intros kv Hkv. destruct (ep_extra e He _ _ (Hx kv Hkv)) as (_ & _ & ? & _). done. }
  rewrite set_extras.
  2: { apply Forall_forall. intros kv Hkv. destruct (ep_extra e He _ _ (Hx kv Hkv)) as (_ & ? & _). done. }
  cbn [in_Title in_What in_Why in_How in_When in_Who in_Constraints in_Extra].
  rewrite inserts_list by (rewrite (fmap_Permutation fst _ _ (extras_perm e)); apply NoDup_fst_map_to_list).
  rewrite (list_to_map_proper (extras e) (map_to_list (in_Extra e))), list_to_map_to_list, (right_id_L ∅ (∪));
    [by destruct e| |apply extras_perm].
  rewrite (fmap_Permutation fst _ _ (extras_perm e)). apply NoDup_fst_map_to_list.
Qed.

(** ** Sections *)

Lemma title_of_heading t : t ≠ "" → title_of (heading t) = Some t.
Proof.
  intros Ht. unfold title_of. change (heading t) with (heading "" +:+ t). unfold HasPrefix, TrimPrefix, HasPrefix.
  rewrite !prefix_refl_app. rewrite slen_app.
  replace (slen (heading "") + slen t - slen (heading "")) with (slen t) by lia.
  pose proof (substring_skip (heading "") t 0 (slen t)) as E. rewrite Nat.add_0_r in E. rewrite E.
  rewrite substring_all by done. by rewrite bool_decide_false.
Qed.
Lemma title_of_line o : title_of (render_line o) = None.
Proof. by destruct o as [[k v]|]. Qed.

Lemma sections_lines os r :
  sections ((render_line <$> os) ++ r) = ((render_line <$> os) ++ fst (sections r), snd (sections r)).
Proof.
  induction os as [|o os IH]; [cbn; by destruct (sections r)|].
  change ((render_line <$> o :: os) ++ r) with (render_line o :: ((render_line <$> os) ++ r)).
  cbn [sections]. rewrite IH, title_of_line. done.
Qed.

(** The lines of a body: blanks before each heading. *)
Fixpoint tail_lines (es : list InsightEntry) : list string :=
  match es with
  | [] => [""]
  | e :: r => "" :: "" :: heading (in_Title e) :: (render_line <$> entry_lines e 0) ++ tail_lines r
  end.

Lemma tail_sections es :
  Forall entry_plain es →
  ∃ n, fst (sections (tail_lines es)) = render_line <$> replicate n None ∧
    parse_entries (snd (sections (tail_lines es))) = es.
Proof.
  induction 1 as [|e es He Hes (n & IH1 & IH2)]; [by exists 1|]. exists 2.
  destruct (ep_title e He) as [Ht _]. cbn [tail_lines sections]. rewrite sections_lines.
  destruct (sections (tail_lines es)) as [pre secs]. cbn [fst snd] in *. rewrite title_of_heading by done.
  change (title_of "") with (@None string). cbn [fst snd]. split; [done|]. cbn [parse_entries]. rewrite IH2. f_equal.
  subst pre. rewrite <- fmap_app. unfold entry_lines. cbn [replicate]. rewrite app_nil_r.
  change ((None :: (Some <$> axes e) ++ (Some <$> extras e)) ++ replicate n None)
    with (None :: ((Some <$> axes e) ++ (Some <$> extras e)) ++ replicate n None).
  rewrite <- app_assoc. by apply (parse_entry_lines e _ n).
Qed.

(** ** The round trip *)

Lemma concat_cons (x : string) xs : String.concat "" (x :: xs) = x +:+ String.concat "" xs.
Proof. destruct xs; cbn; [by rewrite app_str_nil_r|done]. Qed.
Lemma lines_text_cons l ls : lines_text (l :: ls) = line l +:+ lines_text ls.
Proof. apply concat_cons. Qed.
Lemma lines_text_app a b : lines_text (a ++ b) = lines_text a +:+ lines_text b.
Proof.
  induction a as [|l a IH]; [done|]. cbn [app]. by rewrite !lines_text_cons, IH, app_str_assoc.
Qed.
Lemma Split_lines ls : Forall (λ l, has_byte nl l = false) ls → Split (lines_text ls) nl = ls ++ [""].
Proof.
  induction 1 as [|l ls Hl Hls IH]; [done|]. rewrite lines_text_cons. unfold line.
  rewrite <- app_str_assoc. change (String nl "" +:+ lines_text ls) with (String nl (lines_text ls)).
  rewrite Split_app by done. by rewrite IH.
Qed.

Definition block (e : InsightEntry) : list string := "" :: heading (in_Title e) :: (render_line <$> entry_lines e 0).
Fixpoint more_blocks (es : list InsightEntry) : list string :=
  match es with [] => [] | e :: r => "" :: block e ++ more_blocks r end.

Lemma block_text e : lines_text (block e) = line "" +:+ Format e.
Proof.
  unfold block. rewrite lines_text_cons. f_equal. unfold Format, entry_lines. cbn [replicate].
  by rewrite app_nil_r, !fmap_cons, !fmap_app, <- !list_fmap_compose.
Qed.
Lemma body_lines e es : body_text (e :: es) = lines_text (block e ++ more_blocks es).
Proof.
  unfold body_text. rewrite imap_cons, concat_cons, lines_text_app, block_text. cbn [Nat.ltb Nat.leb]. f_equal.
  rewrite (imap_ext _ (const (λ e, line "" +:+ line "" +:+ Format e))) by done. rewrite imap_const.
  induction es as [|x es IH]; [done|]. cbn [fmap list_fmap more_blocks]. rewrite concat_cons, lines_text_cons, lines_text_app, block_text, IH.
  by rewrite <- !app_str_assoc.
Qed.
Lemma tail_blocks es : tail_lines es = more_blocks es ++ [""].
Proof.
  induction es as [|e es IH]; [done|]. cbn [tail_lines more_blocks]. unfold block. rewrite IH. cbn [app].
  by rewrite <- !app_assoc.
Qed.

Lemma line_no_nl o : line_plain o → has_byte nl (render_line o) = false.
Proof. destruct o as [[k v]|]; [|done]. intros [Hk Hv]. by apply field_no_nl. Qed.
Lemma block_no_nl e : entry_plain e → Forall (λ l, has_byte nl l = false) (block e).
Proof.
  intros He. unfold block. constructor; [done|]. constructor; [by apply (ep_title e He)|].
  apply Forall_fmap, (Forall_impl line_plain); [|apply line_no_nl]. unfold entry_lines. cbn [replicate].
  rewrite app_nil_r. constructor; [done|]. apply Forall_app. by split; [apply axes_plain|apply extras_plain].
Qed.
Lemma more_no_nl es : Forall entry_plain es → Forall (λ l, has_byte nl l = false) (more_blocks es).
Proof.
  induction 1 as [|e es He Hes IH]; [constructor|]. cbn [more_blocks]. constructor; [done|].
  apply Forall_app. split; [by apply block_no_nl|done].
Qed.

Lemma parse_body es :
  Forall entry_plain es → parse_entries (snd (sections (Split (body_text es) nl))) = es.
Proof.
  intros Hes. destruct Hes as [|e es He Hes]; [done|]. rewrite body_lines, Split_lines, <- app_assoc, <- tail_blocks.
  2: { apply Forall_app. by split; [apply block_no_nl|apply more_no_nl]. }
  destruct (tail_sections es Hes) as (n & E1 & E2). unfold block. cbn [app].
  pose proof (sections_lines (entry_lines e 0) (tail_lines es)) as E3.
  cbn [sections]. rewrite E3. destruct (sections (tail_lines es)) as [pre secs]. cbn [fst snd] in *. subst pre.
  destruct (ep_title e He) as [Ht _]. rewrite title_of_heading by done. change (title_of "") with (@None string). cbn [snd parse_entries].
  rewrite E2. f_equal. rewrite <- fmap_app. unfold entry_lines. cbn [replicate]. rewrite app_nil_r.
  change ((None :: (Some <$> axes e) ++ (Some <$> extras e)) ++ replicate n None)
    with (None :: ((Some <$> axes e) ++ (Some <$> extras e)) ++ replicate n None).
  rewrite <- app_assoc. by apply (parse_entry_lines e _ n).
Qed.

Lemma Cut_at a sep b : Index (a +:+ sep +:+ b) sep = Some (slen a) → Cut (a +:+ sep +:+ b) sep = Some (a, b).
Proof.
  intros E. unfold Cut. rewrite E. cbn [mbind option_bind]. f_equal. f_equal; [apply substring_take|].
  rewrite !slen_app. replace (slen a + (slen sep + slen b) - (slen a + slen sep)) with (slen b) by lia.
  rewrite substring_skip. pose proof (substring_skip sep b 0 (slen b)) as Es. rewrite Nat.add_0_r in Es. rewrite Es.
  by apply substring_all.
Qed.

Lemma Index_prefix p s : Index (p +:+ s) p = Some 0.
Proof. pose proof (prefix_refl_app p s) as E. destruct (p +:+ s); cbn [Index]; by rewrite E. Qed.

Section RoundTrip.
Context `{InsightTextLaws}.

(** What a file must be like to survive the ledger's format. *)
Definition file_plain (f : InsightFile) : Prop :=
  Forall entry_plain (if_entries f) ∧ four_digit_year (if_UpdatedAt f) ∧
  frontmatter_plain (mkFrontmatter (if_SchemaVersion f) (if_Kind f) (if_Tool f) (rfc3339 (if_UpdatedAt f))
    (length (if_entries f))).

Lemma marshalled f :
  file_plain f → ∃ data, Marshal f = Ok data ∧
    UnmarshalInsightFile data = Ok (set_updated (if_UpdatedAt f / Second * Second)%Z f).
Proof using H0.
  intros (He & Ht & Hf). destruct (frontmatter_roundtrip _ Hf) as (h & Eh & Eu & Ec). unfold Marshal. rewrite Eh.
  eexists. split; [done|]. unfold UnmarshalInsightFile. rewrite string_of_list_ascii_of_string.
  change (fence +:+ h +:+ fence +:+ body_text (if_entries f)) with ("" +:+ fence +:+ (h +:+ fence +:+ body_text (if_entries f))).
  rewrite Cut_at by apply (Index_prefix fence). cbn [mbind option_bind snd].
  rewrite Cut_at by apply Ec. rewrite Eu. cbn [fm_UpdatedAt]. rewrite rfc3339_seconds by done.
  unfold set_updated. cbn [fm_SchemaVersion fm_Kind fm_Tool]. by rewrite parse_body.
Qed.
End RoundTrip.

(** C33: an insight ledger survives being written and read.  For entries whose
    texts are single lines, with titles, and with extra fields that have a key
    of their own without an asterisk and a value, [UnmarshalInsightFile] reads
    what [Marshal] wrote: the same entries in the same order, every axis and
    every extra field; of the time the seconds are kept. *)
Theorem insight_roundtrip `{InsightTextLaws} (f : InsightFile) :
  file_plain f →
  ∃ data, Marshal f = Ok data ∧
    UnmarshalInsightFile data = Ok (set_updated (if_UpdatedAt f / Second * Second)%Z f).
Proof. apply marshalled. Qed.

(** ** Appending to the ledger *)

Lemma insight_temp_plain filename : plain filename → plain (("." +:+ filename) +:+ ".tmp").
Proof.
  intros (H1 & _ & _ & Hs). split_and!.
  - done.
  - cbn. by destruct filename.
  - destruct filename as [|c [|d s]]; [done|done|]. cbn. intros [= _ E].
  - rewrite !has_byte_app, Hs. done.
Qed.

(** No failure pretends that a file is missing. *)
Definition honest_faults (env : Env) : Prop := ∀ n e, env_fault env n = Some e → errors_Is e ErrNotExist = false.

Section Append.
Context `{InsightTextLaws}.
Variables insightsDir runDir filename kind tool : string.
Variable entry : InsightEntry.
Hypothesis name_plain : plain filename.

#[local] Abbreviation path := (path_Join [insightsDir; filename]).
#[local] Abbreviation tmp := (insight_temp insightsDir filename).
#[local] Abbreviation lockPath := (path_Join [runDir; "insights.lock"]).
Hypothesis lock_apart : lockPath ≠ path.

Lemma temp_ne_path : tmp ≠ path.
Proof using name_plain.
  intros E. apply path_Join_inj in E as [E _]; [|by apply insight_temp_plain|done].
  apply (f_equal slen) in E. rewrite !slen_app in E. cbn in E. lia.
Qed.
Lemma temp_clean : Clean tmp = tmp.
Proof using name_plain. by apply Clean_Join, insight_temp_plain. Qed.
Lemma lock_clean : Clean lockPath = lockPath.
Proof. by apply Clean_Join. Qed.

Lemma unmarshal_error data e : UnmarshalInsightFile data = Err e → errors_Is e ErrNotExist = false.
Proof using H0.
  unfold UnmarshalInsightFile. destruct (r ← Cut (str data) fence; Cut (snd r) fence) as [[h b]|]; [|by intros [= <-]].
  destruct (yaml_unfrontmatter h) as [fm|e'] eqn:Ey; [|intros [= <-]; exact (yaml_error_other h e' Ey)].
  destruct (parse_rfc3339 _); [done|]. by intros [= <-].
Qed.

(** The ledger an append starts from. *)
Definition ledger (old : option node) : option InsightFile :=
  match old with
  | None => Some (mkInsightFile InsightSchemaVersion kind tool 0 [])
  | Some (NFile data) => match UnmarshalInsightFile data with Ok f => Some f | Err _ => None end
  | Some NDir => None
  end.

(** The file is the old one, or the complete new one. *)
Definition rewritten (env : Env) (old : option node) (w : World) : Prop :=
  ∃ f m data, ledger old = Some f ∧ fst (AddEntry f entry) = true ∧
    Marshal (set_updated (env_now env m) (snd (AddEntry f entry))) = Ok data ∧ w_fs w !! path = Some (NFile data).
Definition intact (env : Env) (old : option node) (w : World) : Prop := w_fs w !! path = old ∨ rewritten env old w.

(** What an append without error has done. *)
Definition appended (env : Env) (old : option node) (err : option error) (w : World) : Prop :=
  err = None → rewritten env old w ∨
    ∃ f, ledger old = Some f ∧ fst (AddEntry f entry) = false ∧ w_fs w !! path = old.

Lemma same_path x u v : x ≠ path → other_files x u v → w_fs v !! path = w_fs u !! path.
Proof. intros Hx [Ho _]. apply Ho. congruence. Qed.

Lemma write_always env old data f m w i :
  w_fs w !! path = old → ledger old = Some f → fst (AddEntry f entry) = true →
  Marshal (set_updated (env_now env m) (snd (AddEntry f entry))) = Ok data →
  always i (write_insights insightsDir filename data) (intact env old) (appended env old) w.
Proof using name_plain.
  intros Hw Hf Ha Hm. pose proof temp_ne_path as Hne.
  assert (∀ v, other_files (Clean tmp) w v → w_fs v !! path = old) as Hold.
  { intros v Hv. rewrite <- Hw. eapply same_path; [|exact Hv]. by rewrite temp_clean. }
  apply WriteFile_always; [intros v Hv; left; by apply Hold|].
  intros r v Hv Hr. destruct r as [[]|e]; [|split; [left; by apply Hold|done]]. specialize (Hr eq_refl).
  split; [left; by apply Hold|]. unfold os_Rename, guarded, fault.
  destruct (env_fault _ _) as [e|]; cbn [fst snd].
  - assert (other_files (Clean tmp) w (snd (os_Remove tmp (bump v)))) as Hrm.
    { eapply other_files_trans; [exact Hv|]. eapply other_files_trans; [|apply os_Remove_touches]. by destruct v. }
    split; [left; by apply (Hold (bump v))|]. destruct (os_Remove tmp (bump v)) as [r w']. cbn [fst snd] in *.
    split; [left; by apply Hold|done].
  - unfold lookup_path. change (w_fs (bump v)) with (w_fs v). rewrite Hr.
    assert (Clean path = path) as Hpc by by apply Clean_Join.
    assert (rewritten env old (add_effect (EWrote (Clean path) data)
      (set_fs (<[Clean path := NFile data]> (w_fs (unlink (Clean tmp) (bump v)))) (unlink (Clean tmp) (bump v))))) as HR.
    { exists f, m, data. split_and!; [done|done|done|]. cbn [w_fs add_effect set_fs]. by rewrite Hpc, lookup_insert_eq. }
    destruct (w_fs v !! Clean path) as [[d|]|]; cbn [fst snd].
    + split; [by right|]. intros _. by left.
    + assert (other_files (Clean tmp) w (snd (os_Remove tmp (bump v)))) as Hrm.
      { eapply other_files_trans; [exact Hv|]. eapply other_files_trans; [|apply os_Remove_touches]. by destruct v. }
      split; [left; by apply (Hold (bump v))|]. destruct (os_Remove tmp (bump v)) as [r w']. cbn [fst snd] in *.
      split; [left; by apply Hold|done].
    + split; [by right|]. intros _. by left.
Qed.

Lemma append_always i w :
  honest_faults (w_env w) →
  always i (AppendInsight insightsDir runDir filename kind tool entry) 
    (intact (w_env w) (w_fs w !! path)) (appended (w_env w) (w_fs w !! path)) w.
Proof using H0 name_plain lock_apart.
  intros Hh. set (old := w_fs w !! path). assert (∀ v, w_fs v !! path = old → intact (w_env w) old v) as Hi by (by left).
  assert (w_fs w !! path = old) as Hw by done. clearbody old. unfold AppendInsight, lock.
  split; [by apply Hi|]. assert (Clean lockPath ≠ path) as Hlp by by rewrite lock_clean.
  pose proof (same_path _ _ _ Hlp (OpenAppend_touches lockPath w)) as E1. pose proof (OpenAppend_touches lockPath w) as [_ Een].
  destruct (os_OpenAppend lockPath w) as [r w1]; cbn [fst snd] in *.
  assert (∀ u, w_fs u = w_fs w1 → w_fs u !! path = old) as Hu by (intros u ->; congruence).
  destruct r as [[]|e]; [|split; [by apply Hi, Hu|done]].
  split; [by apply Hi, Hu|]. unfold guarded, fault. destruct (env_fault _ _) as [e|]; cbn [fst snd].
  { split; [by apply Hi, Hu|]. unfold file_Close, guarded, fault. destruct (env_fault _ _); cbn [fst snd];
      (split; [by apply Hi, Hu|done]). }
  apply (always_atom i (readFile path)); [by apply Hi, Hu|]. unfold readFile.
  assert (Clean path = path) as Hpc by by apply Clean_Join.
  unfold os_ReadFile, guarded, fault, lookup_path. change (w_fs (bump (bump w1))) with (w_fs w1). rewrite Hpc, E1, Hw.
  assert (∀ f u, ledger old = Some f → w_fs u = w_fs w1 → w_env u = w_env w →
    always i (let '(added, file) := AddEntry f entry in
      if negb added then mret None else
      now ← atom Now;
      match Marshal (set_updated now file) with
      | Err err => mret (Some (errorf_w "marshal insight file: " err))
      | Ok data => write_insights insightsDir filename data
      end) (intact (w_env w) old) (appended (w_env w) old) u) as Hgo.
  { intros f u Hf Hfs Henv. destruct (AddEntry f entry) as [added file] eqn:Ea. destruct added; cbn [negb].
    2: { split; [by apply Hi, Hu|]. intros _. right. exists f. rewrite Ea. split_and!; [done|done|by apply Hu]. }
    apply always_atom; [by apply Hi, Hu|]. unfold Now. cbn [fst snd].
    match goal with |- context [Marshal ?x] => destruct (Marshal x) as [data|e] eqn:Em end; [|split; [by apply Hi, Hu|done]].
    rewrite Henv in Em. eapply (write_always _ old data f); [by apply Hu|done|by rewrite Ea|by rewrite Ea; cbn; exact Em]. }
  destruct (env_fault _ _) as [e|] eqn:Ef; cbn [fst snd].
  { assert (errors_Is (errorf_w "" e) ErrNotExist = false) as -> by (change (w_env (bump w1)) with (w_env w1) in Ef; rewrite Een in Ef; exact (Hh _ _ Ef)).
    split; [by apply Hi, Hu|done]. }
  assert (∀ e u, w_fs u = w_fs w1 → always i (mret (Some e)) (intact (w_env w) old) (appended (w_env w) old) u) as Herr.
  { intros e u Hfs. split; [by apply Hi, Hu|done]. }
  destruct old as [[data|]|] eqn:Eo; cbn [fst snd].
  - destruct (UnmarshalInsightFile data) as [f|e] eqn:Eu.
    + apply Hgo; [|done|exact Een]. cbn [ledger]. by rewrite Eu.
    + rewrite (unmarshal_error data e Eu). by apply Herr.
  - by apply Herr.
  - change (errors_Is (enoent "open" path) ErrNotExist) with true. cbv iota. by apply Hgo.
Qed.

(** Directories, and no directory where a file should be. *)
Definition ledger_ready (fs : gmap string node) : Prop :=
  fs !! Clean insightsDir = Some NDir ∧ fs !! Clean runDir = Some NDir ∧
  fs !! lockPath ≠ Some NDir ∧ fs !! tmp ≠ Some NDir ∧ fs !! path ≠ Some NDir.

Lemma write_insights_does {env : Env} (He : no_faults env) fs data :
  fs !! Clean insightsDir = Some NDir → fs !! tmp ≠ Some NDir → fs !! path ≠ Some NDir →
  does (env := env) (write_insights insightsDir filename data) fs None
    (<[path := NFile data]> (delete tmp (<[tmp := NFile data]> fs))).
Proof using name_plain.
  intros Hd Ht Hp. assert (Clean path = path) as Hpc by by apply Clean_Join. unfold write_insights. cbv zeta.
  eapply does_bind; [apply (WriteFile_clean He); [apply temp_clean|]|].
  - unfold writable. rewrite temp_clean. destruct (fs !! tmp) as [[]|]; [done|done|].
    unfold insight_temp. by rewrite Dir_Join, Clean_idem by (by apply insight_temp_plain).
  - cbn beta iota. eapply does_bind; [apply (Rename_does He _ _ data)|].
    + by rewrite temp_clean, lookup_insert_eq.
    + rewrite Hpc, lookup_insert_ne by apply temp_ne_path. done.
    + rewrite temp_clean, Hpc. apply does_ret.
Qed.

Lemma append_ok i w f :
  no_faults (w_env w) → ledger_ready (w_fs w) → tmp ≠ lockPath → ledger (w_fs w !! path) = Some f →
  (∀ m, ∃ data, Marshal (set_updated (env_now (w_env w) m) (snd (AddEntry f entry))) = Ok data) →
  fst (run i (AppendInsight insightsDir runDir filename kind tool entry) w) = None.
Proof using name_plain lock_apart.
  intros He (Hd & Hr & Hl & Ht & Hp) Htl Hf Hm. set (env := w_env w).
  set (fs1 := <[lockPath := NFile (text_of lockPath (w_fs w))]> (w_fs w)).
  assert (Clean path = path) as Hpc by by apply Clean_Join.
  assert (does (env := env) (lock runDir) (w_fs w) (Ok tt) fs1) as Hlock.
  { unfold lock. eapply does_bind; [apply (OpenAppend_does He)|].
    - unfold writable. rewrite lock_clean. destruct (w_fs w !! lockPath) as [[]|]; [done|done|].
      by rewrite Dir_Join, Clean_idem.
    - rewrite lock_clean. cbn beta iota. eapply does_bind; [by apply (does_guarded He "" _ _ (Ok tt))|]. apply does_ret. }
  unfold AppendInsight. rewrite run_mbind. destruct (Hlock i w) as [E1 [E2 E3]]; [done|].
  destruct (run i (lock runDir) w) as [r w1]. cbn [fst snd] in *. subst r.
  assert (∀ x, x ≠ lockPath → fs1 !! x = w_fs w !! x) as Hx by (intros x Hx; unfold fs1; by rewrite lookup_insert_ne).
  rewrite run_mbind, run_atom. unfold readFile. pose proof (ReadFile_does He path (w_fs w1) i w1) as HR.
  rewrite run_atom in HR. destruct HR as [R1 [R2 R3]]; [done|]. rewrite Hpc, E2, Hx in R1 by done.
  destruct (os_ReadFile path w1) as [r w2]. cbn [fst snd] in *.
  assert (∀ f, ledger (w_fs w !! path) = Some f → (∀ m, ∃ data, Marshal (set_updated (env_now (w_env w) m) (snd (AddEntry f entry))) = Ok data) →
    fst (run i (let '(added, file) := AddEntry f entry in
      if negb added then mret None else
      now ← atom Now;
      match Marshal (set_updated now file) with
      | Err err => mret (Some (errorf_w "marshal insight file: " err))
      | Ok data => write_insights insightsDir filename data
      end) w2) = None) as Hgo.
  { clear f Hf Hm. intros f Hf Hm. destruct (AddEntry f entry) as [[] file]; cbn [negb]; [|done].
    rewrite run_mbind, run_atom. unfold Now. specialize (Hm (w_tick w2)). cbn [snd] in Hm. rewrite <- R3 in Hm.
    destruct Hm as [data ->].
    assert (fs1 !! Clean insightsDir = Some NDir) as F1 by (rewrite Hx; [done|]; intros E; by rewrite E in Hd).
    pose proof (write_insights_does He fs1 data F1) as Hw. rewrite !Hx in Hw by done.
    destruct (Hw Ht Hp i (bump w2)) as [Hw1 _]; [|exact Hw1].
    split; [change (w_fs (bump w2)) with (w_fs w2)|change (w_env (bump w2)) with (w_env w2)]; congruence. }
  cbn [fst snd]. destruct (w_fs w !! path) as [[data|]|] eqn:Eo; subst r; cbn [ledger] in Hf; [|done|].
  - destruct (UnmarshalInsightFile data) as [f'|e] eqn:Eu; [|done]. injection Hf as ->.
    apply (Hgo f); [cbn [ledger]; by rewrite Eu|done].
  - injection Hf as <-. change (errors_Is (enoent "open" path) ErrNotExist) with true. cbv iota. by apply Hgo.
Qed.
End Append.

(** C34: an append replaces the ledger atomically.  At every crash point, and with
    any failures, the ledger file is the old one or the complete new one, old
    entries plus the new one; an append that reports no error has written the
    new one, or found an entry of that title and left the file alone; without
    failures, and with directories where they belong and a readable ledger,
    no error is reported. *)
Theorem insight_append_atomic `{InsightTextLaws} (insightsDir runDir filename kind tool : string) (entry : InsightEntry)
    (i n : nat) (w : World) :
  plain filename → path_Join [runDir; "insights.lock"] ≠ path_Join [insightsDir; filename] → honest_faults (w_env w) →
  let p := AppendInsight insightsDir runDir filename kind tool entry in
  let old := w_fs w !! path_Join [insightsDir; filename] in
  intact insightsDir filename kind tool entry (w_env w) old (run_for n i p w) ∧
  appended insightsDir filename kind tool entry (w_env w) old (fst (run i p w)) (snd (run i p w)) ∧
  ∀ f, no_faults (w_env w) → ledger_ready insightsDir runDir filename (w_fs w) →
    insight_temp insightsDir filename ≠ path_Join [runDir; "insights.lock"] → ledger kind tool old = Some f →
    (∀ m, ∃ data, Marshal (set_updated (env_now (w_env w) m) (snd (AddEntry f entry))) = Ok data) →
    fst (run i p w) = None.
Proof.
  intros Hn Hl Hh p old. pose proof (append_always insightsDir runDir filename kind tool entry Hn Hl i w Hh) as HA.
  split_and!; [by eapply always_run_for|by apply always_run in HA|].
  intros f He Hr Ht Hf Hm. by apply (append_ok insightsDir runDir filename kind tool entry Hn Hl i w f).
Qed.

(** ** A sample form *)

Lemma Index_fence h rest : "-"%char ∉ raw h → Index (h +:+ fence +:+ rest) fence = Some (slen h).
Proof.
  induction h as [|c h IH]; intros Hc; [apply (Index_prefix fence)|]. cbn in Hc. rewrite not_elem_of_cons in Hc.
  destruct Hc as [Hc Hh]. specialize (IH Hh). rewrite app_str_cons. set (s := h +:+ fence +:+ rest) in *.
  change (Index (String c s) fence) with (if String.prefix fence (String c s) then Some 0 else S <$> Index s fence).
  assert (String.prefix fence (String c s) = false) as ->.
  { apply not_true_iff_false. intros [r Er]%prefix_spec. apply Hc. change (fence +:+ r) with (String "-" (("--" +:+ String nl "") +:+ r)) in Er.
    by injection Er. }
  by rewrite IH.
Qed.

#[export] Instance frontmatter_eq_dec : EqDecision insightFrontmatter.
Proof. solve_decision. Defined.
#[export] Instance frontmatter_countable : Countable insightFrontmatter.
Proof.
  refine (inj_countable' (λ f, (fm_SchemaVersion f, fm_Kind f, fm_Tool f, fm_UpdatedAt f, fm_EntryCount f))
    (λ '(s, k, t, u, n), mkFrontmatter s k t u n) _). by intros [].
Defined.

Definition sample_text : InsightText := {|
  yaml_frontmatter := λ fm, Ok (str (bits (encode fm)));
  yaml_unfrontmatter := λ h, match decode (unbits (raw h)) with Some fm => Ok fm | None => Err (errors_New "yaml") end;
  rfc3339 := λ t, str (bits (encode (t / Second)%Z));
  parse_rfc3339 := λ s, n ← decode (unbits (raw s)); Some (n * Second)%Z;
  frontmatter_plain := λ _, True;
  four_digit_year := λ _, True |}.
Lemma sample_text_laws : @InsightTextLaws sample_text.
Proof.
  constructor.
  - intros fm _. eexists. split; [done|]. cbn [yaml_unfrontmatter sample_text].
    rewrite list_ascii_of_string_of_list_ascii, unbits_bits, decode_encode. split; [done|]. intros rest.
    apply Index_fence. rewrite list_ascii_of_string_of_list_ascii. apply bits_dash.
  - intros h e. cbn. destruct (decode _); [done|]. by intros [= <-].
  - intros t _. cbn. by rewrite list_ascii_of_string_of_list_ascii, unbits_bits, decode_encode.
Qed.

Definition sample_insight : InsightEntry :=
  mkInsight "delivery-failed" "it failed" "" "check" "now" "phonewave" "" {[ "route" := "/a -> targets" ]}.
Definition sample_file : InsightFile := mkInsightFile "1" "delivery-failure" "phonewave" 3500000000 [sample_insight; sample_insight].

Lemma sample_insight_plain : entry_plain sample_insight.
Proof.
  constructor; [by split|by repeat constructor|]. intros k v Hk. cbn in Hk. apply lookup_singleton_Some in Hk as [<- <-].
  split_and!; try done; apply (bool_decide_unpack _); vm_compute; exact I.
Qed.

Lemma insight_roundtrip_witness :
  ∃ data, @Marshal sample_text sample_file = Ok data ∧
    @UnmarshalInsightFile sample_text data = Ok (set_updated 3000000000 sample_file).
Proof.
  apply (@insight_roundtrip sample_text sample_text_laws sample_file).
  split_and!; [|exact I|exact I]. apply Forall_forall. intros e He. unfold sample_file in He. cbn [if_entries] in He.
  rewrite !elem_of_cons, elem_of_nil in He. destruct He as [->|[->|[]]]; exact sample_insight_plain.
Defined.

Definition insight_world : World :=
  mkWorld {[ "/s" := NDir; "/s/insights" := NDir; "/s/.run" := NDir ]} ∅ [] [] [] [] [] None None no_state [] [] 0
    (mkEnv (λ _, None) (λ _, 0%Z) (λ _, 0%Z) (λ _, "x") (λ _, 0)).

Lemma insight_append_atomic_witness :
  fst (run 0 (@AppendInsight sample_text "/s/insights" "/s/.run" "delivery.md" "delivery-failure" "phonewave" sample_insight)
    insight_world) = None.
Proof.
  destruct (@insight_append_atomic sample_text sample_text_laws "/s/insights" "/s/.run" "delivery.md" "delivery-failure"
    "phonewave" sample_insight 0 0 insight_world) as (_ & _ & HA).
  - by split_and!.
  - vm_compute. discriminate.
  - intros n e [=].
  - eapply HA.
    + intros n. reflexivity.
    + split_and!; [reflexivity|reflexivity|vm_compute; discriminate..].
    + vm_compute. discriminate.
    + reflexivity.
    + intros t. eexists. reflexivity.
Defined.

(** A text with a line end splits an entry: what follows it can even pass for
    another one. *)
Example line_end_forges_entry :
  let e := mkInsight "t" ("disk full" +:+ String nl "" +:+ "## Insight: forged") "" "" "" "" "" ∅ in
  in_Title <$> parse_entries (snd (sections (Split (@body_text [e]) nl))) = ["t"; "forged"].
Proof. vm_compute. reflexivity. Qed.
