(* ===== verification/Policies.v ===== *)
(** * The daemon's event policies

    Models [usecase/policy_handlers.go]: the four handlers that
    [registerDaemonPolicies] puts into the engine of [Events], over the
    insight ledger of [Insight].  The state is the [World] and what the user
    and the metrics were told; log lines are left out.  Desktop notifications
    and the JSON readers of the payloads are parameters. *)
From S2P Require Import Prelude GoStrings GoPath GoTime DMail Prog World SetupSafety Files Events Insight.

#[local] Open Scope nat_scope.

Record PState := mkPState {
  ps_world : World;
  ps_notified : list string;                 (* messages that [Notify] delivered *)
  ps_metrics : list (string * string) }.     (* [RecordPolicyEvent] *)

(** [json.Unmarshal] of [Event.Data] at the types the handlers use. *)
Class PayloadJSON := {
  json_map : bytes → option (gmap string string);
  json_failed : bytes → option (string * DMailKind * string);
  json_scan : bytes → option (string * Z * Z);
  json_text : string → Prop }.
(** Texts of valid UTF-8 come back from [json.Marshal]. *)
Class PayloadLaws `{JSON} `{PayloadJSON} : Prop := {
  completed_back : ∀ path kind, json_text path → json_text kind →
    json_map (json_payload (DeliveryCompletedPayload path kind)) = Some {["path" := path; "kind" := kind]};
  retried_back : ∀ name kind, json_text name → json_text kind →
    json_map (json_payload (ErrorRetriedPayload name kind)) = Some {["name" := name; "kind" := kind]};
  failed_back : ∀ path kind err, json_text path → json_text kind → json_text err →
    json_failed (json_payload (DeliveryFailedPayload path kind err)) = Some (path, kind, err);
  scan_back : ∀ outbox delivered failed, json_text outbox →
    json_scan (json_payload (ScanCompletedPayload outbox delivered failed)) = Some (outbox, delivered, failed) }.

(** ** Error categories *)

Definition containsAny (s : string) (substrs : list string) : bool :=
  existsb (λ sub, Contains (ToLower s) (ToLower sub)) substrs.

Definition categorizeDeliveryError (errMsg : string) : string :=
  if containsAny errMsg ["permission denied"; "access denied"] then "Permission denied on target inbox directory"
  else if containsAny errMsg ["no such file"; "not found"; "does not exist"] then "Target inbox directory not found"
  else if containsAny errMsg ["no space"; "disk full"] then "Insufficient disk space on target"
  else if containsAny errMsg ["no route"; "no matching"] then "No matching route for D-Mail kind"
  else "Delivery error: " +:+ errMsg.

(** ["20060102T150405"] *)
Definition format_compact (t : Time) : string :=
  let '(y, m, d) := civil (t / (24 * Hour)) in
  let '(h, mi, s) := clock t in
  pad 4 y +:+ pad 2 m +:+ pad 2 d +:+ "T" +:+ pad 2 h +:+ pad 2 mi +:+ pad 2 s.

Section Policies.
Context `{InsightText} `{PayloadJSON}.
Variables insightsDir runDir : string.

Definition set_world (w : World) (s : PState) : PState := mkPState w (ps_notified s) (ps_metrics s).

(** [Notify] can fail; its error is only logged. *)
Definition notify (message : string) (s : PState) : PState :=
  let '(f, w) := fault (ps_world s) in
  mkPState w (match f with Some _ => ps_notified s | None => ps_notified s ++ [message] end) (ps_metrics s).
Definition RecordPolicyEvent (eventType status : string) (s : PState) : PState :=
  mkPState (ps_world s) (ps_notified s) (ps_metrics s ++ [(eventType, status)]).

Definition on_completed : PolicyHandler (S := PState) := λ event s,
  match json_map (ev_Data event) with
  | None => (None, s)
  | Some _ => (None, RecordPolicyEvent "delivery.completed" "handled" s)
  end.

(** ** The failure insight *)

Definition delivery_file : string := "delivery.md".
Definition route_of (path : string) : string := Dir path +:+ " -> targets".

Definition has_route (route : string) (e : InsightEntry) : bool :=
  bool_decide (default "" (in_Extra e !! "route") = route).
Definition countRouteFailures (route : string) : act nat := λ w,
  let '(r, w) := Read insightsDir delivery_file w in
  (match r with Err _ => 0 | Ok file => length (List.filter (has_route route) (if_entries file)) end, w).

(** The dash is U+2014. *)
Definition how_text (count : nat) : string :=
  if 0 <? count then
    "Repeated failure (" +:+ Itoa (Z.of_nat count) +:+ " prior) on this route " +:+
    String "226" (String "128" (String "148" "")) +:+ " check target inbox directory permissions and disk space"
  else "Check target inbox directory permissions and disk space".

Definition insight_title (kind : DMailKind) (t : Time) : string :=
  "delivery-failed-" +:+ kind +:+ "-" +:+ format_compact t.
Definition failure_insight (path : string) (kind : DMailKind) (err : string) (event : Event) (count : nat) : InsightEntry :=
  mkInsight (insight_title kind (ev_Timestamp event))
    ("Delivery failed for kind " +:+ kind +:+ " from " +:+ Dir path +:+ ": " +:+ err)
    (categorizeDeliveryError err) (how_text count) "During delivery scan cycle"
    ("phonewave courier daemon (event-" +:+ ev_ID event +:+ ")") "Automatic retry via error queue"
    {["route" := route_of path]}.

Definition writeDeliveryFailureInsight (path : string) (kind : DMailKind) (err : string) (event : Event) : program unit :=
  count ← atom (countRouteFailures (route_of path));
  _ ← AppendInsight insightsDir runDir delivery_file "delivery-failure" "phonewave"
        (failure_insight path kind err event count);
  mret tt.

Definition on_failed : PolicyHandler (S := PState) := λ event s,
  match json_failed (ev_Data event) with
  | None => (None, RecordPolicyEvent "delivery.failed" "handled" s)
  | Some (path, kind, err) =>
      let s := notify "Delivery failed" s in
      let s := set_world (snd (run 0 (writeDeliveryFailureInsight path kind err event) (ps_world s))) s in
      (None, RecordPolicyEvent "delivery.failed" "handled" s)
  end.

Definition on_retried : PolicyHandler (S := PState) := λ event s,
  match json_map (ev_Data event) with
  | None => (None, s)
  | Some data =>
      let s := notify ("Error retried: " +:+ default "" (data !! "name")) s in
      (None, RecordPolicyEvent "error.retried" "handled" s)
  end.

Definition on_scan : PolicyHandler (S := PState) := λ event s,
  match json_scan (ev_Data event) with
  | None => (None, s)
  | Some (_, delivered, failed) =>
      let s := notify ("Scan completed: " +:+ Itoa delivered +:+ " delivered, " +:+ Itoa failed +:+ " failed") s in
      (None, RecordPolicyEvent "scan.completed" "handled" s)
  end.

Definition registerDaemonPolicies (engine : PolicyEngine (S := PState)) : PolicyEngine (S := PState) :=
  let engine := Register EventDeliveryCompleted on_completed engine in
  let engine := Register EventDeliveryFailed on_failed engine in
  let engine := Register EventErrorRetried on_retried engine in
  Register EventScanCompleted on_scan engine.
End Policies.

(** * Theorems *)

(** ** What the policies may touch *)

(** Only these files change; tables, queue and environment do not. *)
Definition only_files (keys : list string) (w w' : World) : Prop :=
  (∀ k, k ∉ keys → w_fs w' !! k = w_fs w !! k) ∧
  w_staged w' = w_staged w ∧ w_dedup w' = w_dedup w ∧ w_queue w' = w_queue w ∧ w_env w' = w_env w.
#[export] Instance only_files_PreOrder keys : PreOrder (only_files keys).
Proof.
  split; [by intros w|]. intros u v w (F1 & ? & ? & ? & ?) (F2 & ? & ? & ? & ?). split; [|repeat split; congruence].
  intros k Hk. by rewrite F2, F1.
Qed.

Section Frame.
Variable keys : list string.
#[local] Abbreviation R := (only_files keys).

Lemma R_bump w : R w (bump w).
Proof. by destruct w. Qed.
Lemma R_fs f w : (∀ k, k ∉ keys → f !! k = w_fs w !! k) → R w (set_fs f w).
Proof. intros Hf. by repeat split. Qed.
Lemma R_guarded {A} pre (m : act (result A)) w : (∀ v, R v (snd (m v))) → R w (snd (guarded pre m w)).
Proof.
  intros Hm. unfold guarded, fault. destruct (env_fault _ _); cbn [snd]; [apply R_bump|]. etrans; [apply R_bump|apply Hm].
Qed.
Lemma R_insert p d w : Clean p ∈ keys → R w (set_fs (<[Clean p := d]> (w_fs w)) w).
Proof. intros Hp. apply R_fs. intros k Hk. rewrite lookup_insert_ne; [done|]. intros <-. done. Qed.
Lemma R_unlink p w : Clean p ∈ keys → R w (unlink (Clean p) w).
Proof. intros Hp. repeat split. intros k Hk. cbn. rewrite lookup_delete_ne; [done|]. intros <-. done. Qed.

Lemma R_OpenAppend p w : Clean p ∈ keys → R w (snd (os_OpenAppend p w)).
Proof.
  intros Hp. apply R_guarded. intros v. unfold lookup_path.
  destruct (w_fs v !! Clean p) as [[]|]; [done|done|]. destruct (w_fs v !! Clean (Dir p)) as [[]|]; try done. by apply R_insert.
Qed.
Lemma R_OpenTrunc p w : Clean p ∈ keys → R w (snd (os_OpenTrunc p w)).
Proof.
  intros Hp. apply R_guarded. intros v. unfold lookup_path.
  destruct (w_fs v !! Clean p) as [[]|]; [by apply R_insert|done|].
  destruct (w_fs v !! Clean (Dir p)) as [[]|]; try done. by apply R_insert.
Qed.
Lemma R_Write p d w : Clean p ∈ keys → R w (snd (file_Write p d w)).
Proof.
  intros Hp. unfold file_Write, fault, lookup_path. change (w_fs (bump w)) with (w_fs w).
  destruct (env_fault _ _); cbn [snd]; (etrans; [apply R_bump|]); (destruct (w_fs w !! Clean p) as [[]|]; [|done|done]);
    by apply (R_insert p _ (bump w)).
Qed.
Lemma R_Close w : R w (snd (file_Close w)).
Proof. by apply R_guarded. Qed.
Lemma R_Remove p w : Clean p ∈ keys → R w (snd (os_Remove p w)).
Proof.
  intros Hp. apply R_guarded. intros v. unfold lookup_path.
  destruct (w_fs v !! Clean p) as [[]|]; [|destruct (children _ _)|]; try done; by apply R_unlink.
Qed.
Lemma R_Rename src dst w : Clean src ∈ keys → Clean dst ∈ keys → R w (snd (os_Rename src dst w)).
Proof.
  intros Hs Hd. apply R_guarded. intros v. unfold lookup_path.
  destruct (w_fs v !! Clean src) as [[data|]|]; try done.
  assert (R v (add_effect (EWrote (Clean dst) data) (let w := unlink (Clean src) v in set_fs (<[Clean dst := NFile data]> (w_fs w)) w))) as HR.
  { etrans; [apply (R_unlink _ _ Hs)|]. by apply (R_insert dst (NFile data) (unlink (Clean src) v)). }
  destruct (w_fs v !! Clean dst) as [[]|]; done.
Qed.
Lemma R_ReadFile p w : R w (snd (os_ReadFile p w)).
Proof. apply R_guarded. intros v. by destruct (lookup_path v p) as [[]|]. Qed.
End Frame.

Section PolicyTheorems.
Context `{InsightText} `{PayloadJSON}.
Variables insightsDir runDir : string.

#[local] Abbreviation ledgerPath := (path_Join [insightsDir; delivery_file]).
#[local] Abbreviation tmpPath := (insight_temp insightsDir delivery_file).
#[local] Abbreviation lockPath := (path_Join [runDir; "insights.lock"]).
Definition policy_files : list string := [ledgerPath; tmpPath; lockPath].
#[local] Abbreviation engine := (registerDaemonPolicies insightsDir runDir NewPolicyEngine).

Lemma delivery_plain : plain delivery_file.
Proof. by split_and!. Qed.
Lemma clean_files : Clean ledgerPath ∈ policy_files ∧ Clean tmpPath ∈ policy_files ∧ Clean lockPath ∈ policy_files.
Proof.
  rewrite (Clean_Join insightsDir delivery_file delivery_plain).
  rewrite (temp_clean insightsDir delivery_file delivery_plain). rewrite (lock_clean runDir).
  unfold policy_files. split_and!; set_solver.
Qed.

Lemma Append_frame kind tool e : acts (only_files policy_files) (AppendInsight insightsDir runDir delivery_file kind tool e).
Proof.
  destruct clean_files as (F1 & F2 & F3).
  assert (acts (only_files policy_files) (lock runDir)) as Hl.
  { apply acts_bind; [apply acts_atom; intros w; by apply R_OpenAppend|]. intros [[]|]; [|done].
    apply acts_bind; [apply acts_atom; intros w; by apply R_guarded|]. intros [[]|]; [done|].
    apply acts_bind; [apply acts_atom; intros w; apply R_Close|]. done. }
  apply acts_bind; [done|]. intros [[]|]; [|done].
  apply acts_bind; [apply acts_atom; intros w; unfold readFile|].
  { pose proof (R_ReadFile policy_files ledgerPath w) as HR. by destruct (os_ReadFile ledgerPath w). }
  intros r. destruct (match r with Ok _ => _ | Err _ => _ end) as [f|]; [|done].
  destruct (AddEntry f e) as [[] f']; cbn [negb]; [|done].
  apply acts_bind; [apply acts_atom; intros w; apply R_bump|]. intros now. destruct (Marshal _) as [data|]; [|done].
  apply acts_bind; [apply acts_bind|].
  - apply acts_atom. intros w. by apply R_OpenTrunc.
  - intros [[]|]; [|done]. apply acts_bind; [apply acts_atom; intros w; by apply R_Write|]. intros c.
    apply acts_bind; [apply acts_atom; intros w; apply R_Close|]. by destruct c.
  - intros [[]|]; [|done]. apply acts_bind; [apply acts_atom; intros w; by apply R_Rename|]. intros [[]|]; [done|].
    apply acts_bind; [apply acts_atom; intros w; by apply R_Remove|]. done.
Qed.

Lemma writeDelivery_frame path kind err event :
  acts (only_files policy_files) (writeDeliveryFailureInsight insightsDir runDir path kind err event).
Proof.
  apply acts_bind; [apply acts_atom; intros w|].
  { unfold countRouteFailures, Read, readFile. pose proof (R_ReadFile policy_files ledgerPath w) as HR.
    by destruct (os_ReadFile ledgerPath w). }
  intros c. apply acts_bind; [apply Append_frame|done].
Qed.

Lemma Register_lookup {S} t (h : PolicyHandler (S := S)) (e : PolicyEngine) k :
  Register t h e !! k = if bool_decide (k = t) then Some (default [] (e !! t) ++ [h]) else e !! k.
Proof.
  unfold Register, PolicyEngine in *. case_bool_decide as E; [subst; apply lookup_insert_eq|by apply lookup_insert_ne].
Qed.
Lemma NewPolicyEngine_lookup {S} k : (NewPolicyEngine (S := S) !! k : option (list (PolicyHandler (S := S)))) = None.
Proof. exact (lookup_empty (M := gmap string) (A := list (PolicyHandler (S := S))) k). Qed.

Lemma engine_lookup t :
  engine !! t =
    if bool_decide (t = EventDeliveryCompleted) then Some [on_completed]
    else if bool_decide (t = EventDeliveryFailed) then Some [on_failed insightsDir runDir]
    else if bool_decide (t = EventErrorRetried) then Some [on_retried]
    else if bool_decide (t = EventScanCompleted) then Some [on_scan] else None.
Proof.
  unfold registerDaemonPolicies. rewrite !Register_lookup, !NewPolicyEngine_lookup.
  repeat case_bool_decide; by subst.
Qed.

(** What one handler may do. *)
Definition observed (t : EventType) (s s' : PState) : Prop :=
  only_files policy_files (ps_world s) (ps_world s') ∧
  ps_notified s `prefix_of` ps_notified s' ∧
  (ps_metrics s' = ps_metrics s ∨ ps_metrics s' = ps_metrics s ++ [(t, "handled")]).

Lemma notify_observed m s :
  only_files policy_files (ps_world s) (ps_world (notify m s)) ∧ ps_notified s `prefix_of` ps_notified (notify m s) ∧
  ps_metrics (notify m s) = ps_metrics s.
Proof.
  unfold notify, fault. destruct (env_fault _ _); cbn; (split; [apply R_bump|]); split; [done|done|by eexists|done].
Qed.

Lemma handler_observed event s hs h :
  engine !! ev_Type event = Some hs → h ∈ hs → fst (h event s) = None ∧ observed (ev_Type event) s (snd (h event s)).
Proof.
  rewrite engine_lookup. intros He Hh.
  assert (∀ t s, observed t s s) as Hrefl by (intros t s'; split; [reflexivity|split; [done|by left]]).
  repeat (case_bool_decide as Et; [injection He as <-; apply list_elem_of_singleton in Hh as ->; rewrite Et; clear Et|clear Et]);
    [..|done].
  - unfold on_completed. destruct (json_map _); cbn [fst snd]; [|done]. split; [done|]. split; [reflexivity|].
    split; [done|by right].
  - unfold on_failed. destruct (json_failed _) as [[[path kind] err]|]; cbn [fst snd].
    2: { split; [done|]. split; [reflexivity|]. split; [done|by right]. }
    destruct (notify_observed "Delivery failed" s) as (N1 & N2 & N3). split; [done|]. split; [|split; [done|right; unfold RecordPolicyEvent, set_world; cbn [ps_metrics]; by rewrite N3]].
    cbn [ps_world RecordPolicyEvent set_world]. etrans; [exact N1|]. apply acts_run; [apply _|]. apply writeDelivery_frame.
  - unfold on_retried. destruct (json_map _) as [data|]; cbn [fst snd]; [|done].
    destruct (notify_observed ("Error retried: " +:+ default "" (data !! "name")) s) as (N1 & N2 & N3).
    split; [done|]. split; [exact N1|split; [done|right; unfold RecordPolicyEvent, set_world; cbn [ps_metrics]; by rewrite N3]].
  - unfold on_scan. destruct (json_scan _) as [[[o d] f]|]; cbn [fst snd]; [|done].
    match goal with |- context [notify ?m s] => destruct (notify_observed m s) as (N1 & N2 & N3) end.
    split; [done|]. split; [exact N1|split; [done|right; unfold RecordPolicyEvent, set_world; cbn [ps_metrics]; by rewrite N3]].
Qed.
End PolicyTheorems.

(** C35: the policies only observe.  Dispatching any event to the registered
    handlers returns nil whatever fails; it changes no file but the insight
    ledger, its temporary and its lock file, no delivery table and no queue;
    notifications are only added, and at most one metric is recorded, for the
    event's own type. *)
Theorem policies_only_observe `{InsightText} `{PayloadJSON} (insightsDir runDir : string) (event : Event) (s : PState) :
  let '(err, s') := Dispatch (registerDaemonPolicies insightsDir runDir NewPolicyEngine) event s in
  err = None ∧ observed insightsDir runDir (ev_Type event) s s'.
Proof.
  unfold Dispatch. destruct (registerDaemonPolicies _ _ _ !! ev_Type event) as [hs|] eqn:E.
  2: { split; [done|]. split; [reflexivity|split; [done|by left]]. }
  split; [done|]. pose proof (eq_trans (eq_sym (engine_lookup insightsDir runDir (ev_Type event))) E) as Hl.
  assert (∃ h, hs = [h]) as [h ->] by (repeat case_bool_decide; simplify_eq; by eexists).
  cbn [fold_left]. eapply handler_observed; [exact E|by apply list_elem_of_singleton].
Qed.

(** ** The failure insight *)

Section Failure.
Context `{InsightTextLaws} `{PL : PayloadLaws}.
Variables insightsDir runDir : string.
#[local] Abbreviation ledgerPath := (path_Join [insightsDir; delivery_file]).
#[local] Abbreviation tmpPath := (insight_temp insightsDir delivery_file).
#[local] Abbreviation lockPath := (path_Join [runDir; "insights.lock"]).
#[local] Abbreviation engine := (registerDaemonPolicies insightsDir runDir NewPolicyEngine).
Hypothesis lock_apart : lockPath ≠ ledgerPath.

(** Dispatching a failure event runs its one handler. *)
Lemma dispatch_failed event s path kind err :
  ev_Type event = EventDeliveryFailed → ev_Data event = json_payload (DeliveryFailedPayload path kind err) →
  json_text path → json_text kind → json_text err →
  Dispatch engine event s = (None, RecordPolicyEvent "delivery.failed" "handled"
    (set_world (snd (run 0 (writeDeliveryFailureInsight insightsDir runDir path kind err event)
                       (ps_world (notify "Delivery failed" s)))) (notify "Delivery failed" s))).
Proof using PL.
  intros Ht Hd Hp Hk He. unfold Dispatch.
  pose proof (engine_lookup insightsDir runDir (ev_Type event)) as Hl. rewrite Ht in Hl |- *.
  change (bool_decide (EventDeliveryFailed = EventDeliveryCompleted)) with false in Hl.
  rewrite bool_decide_true in Hl by done. cbv iota in Hl.
  destruct (registerDaemonPolicies _ _ _ !! EventDeliveryFailed) as [hs|] eqn:E.
  2: discriminate Hl.
  injection Hl as ->. cbn [fold_left]. unfold on_failed.
  rewrite Hd, failed_back by done. done.
Qed.

(** Reading the ledger for the count changes nothing. *)
Lemma count_keeps route w :
  w_fs (snd (countRouteFailures insightsDir route w)) = w_fs w ∧ w_env (snd (countRouteFailures insightsDir route w)) = w_env w.
Proof.
  unfold countRouteFailures, Read, readFile, os_ReadFile, guarded, fault.
  destruct (env_fault _ _); [done|]. by destruct (lookup_path _ _) as [[]|].
Qed.
Lemma count_is kind tool route w f :
  no_faults (w_env w) → ledger kind tool (w_fs w !! ledgerPath) = Some f →
  fst (countRouteFailures insightsDir route w) = length (List.filter (has_route route) (if_entries f)).
Proof.
  intros He Hf. unfold countRouteFailures, Read, readFile, os_ReadFile, guarded, fault. rewrite He.
  unfold lookup_path. rewrite (Clean_Join insightsDir delivery_file delivery_plain). change (w_fs (bump w)) with (w_fs w).
  unfold ledger in Hf. destruct (w_fs w !! ledgerPath) as [[data|]|]; [|done|by injection Hf as <-].
  destruct (UnmarshalInsightFile data); [|done]. by injection Hf as ->.
Qed.

Lemma notify_keeps m s : w_fs (ps_world (notify m s)) = w_fs (ps_world s) ∧ w_env (ps_world (notify m s)) = w_env (ps_world s).
Proof. unfold notify, fault. by destruct (env_fault _ _). Qed.

(** The new file survives its own format at any reading of the clock. *)
Definition ledger_fit (env : Env) (f : InsightFile) : Prop := ∀ m, file_plain (set_updated (env_now env m) f).

Lemma recorded path kind err event w f :
  no_faults (w_env w) → ledger_ready insightsDir runDir delivery_file (w_fs w) → tmpPath ≠ lockPath →
  ledger "delivery-failure" "phonewave" (w_fs w !! ledgerPath) = Some f →
  let count := length (List.filter (has_route (route_of path)) (if_entries f)) in
  let e := failure_insight path kind err event count in
  Forall (λ x, in_Title x ≠ in_Title e) (if_entries f) →
  ledger_fit (w_env w) (set_entries (if_entries f ++ [e]) f) →
  ∃ data t, w_fs (snd (run 0 (writeDeliveryFailureInsight insightsDir runDir path kind err event) w)) !! ledgerPath = Some (NFile data) ∧
    UnmarshalInsightFile data = Ok (set_updated t (set_entries (if_entries f ++ [e]) f)).
Proof using H0 lock_apart.
  intros He Hr Ht Hf count e Hnew Hfit. unfold writeDeliveryFailureInsight. rewrite run_mbind, run_atom.
  destruct (count_keeps (route_of path) w) as [K1 K2]. pose proof (count_is _ _ (route_of path) w f He Hf) as Kc.
  destruct (countRouteFailures insightsDir (route_of path) w) as [c w1]. cbn [fst snd] in *. subst c.
  fold count e. rewrite run_mbind. rewrite <- K1 in Hr, Hf. rewrite <- K2 in He, Hfit.
  assert (AddEntry f e = (true, set_entries (if_entries f ++ [e]) f)) as Ha.
  { unfold AddEntry. destruct (existsb _ _) eqn:Ex; [|done]. apply existsb_exists in Ex as (x & Hx & Hb).
    apply bool_decide_eq_true in Hb. rewrite <- list_elem_of_In in Hx. rewrite Forall_forall in Hnew. by apply Hnew in Hx. }
  assert (∀ m, ∃ data, Marshal (set_updated (env_now (w_env w1) m) (snd (AddEntry f e))) = Ok data ∧
    ∃ t, UnmarshalInsightFile data = Ok (set_updated t (set_entries (if_entries f ++ [e]) f))) as Hm.
  { intros m. rewrite Ha. destruct (marshalled _ (Hfit m)) as (data & E1 & E2). exists data. split; [done|].
    eexists. rewrite E2. done. }
  assert (honest_faults (w_env w1)) as Hh by (intros n x; by rewrite He).
  pose proof (append_ok insightsDir runDir delivery_file "delivery-failure" "phonewave" e delivery_plain lock_apart 0 w1 f
    He Hr Ht Hf (λ m, let '(ex_intro _ d (conj E _)) := Hm m in ex_intro _ d E)) as Hok.
  pose proof (append_always insightsDir runDir delivery_file "delivery-failure" "phonewave" e delivery_plain lock_apart 0 w1 Hh) as HA.
  apply always_run in HA. unfold runs in HA. specialize (HA Hok).
  destruct (run 0 (AppendInsight _ _ _ _ _ e) w1) as [r w2]. cbn [fst snd run mret prog_mret] in *.
  destruct HA as [(f' & m & data & E1 & _ & E3 & E4)|(f' & E1 & E2 & _)]; rewrite Hf in E1; injection E1 as <-.
  - destruct (Hm m) as (d & Em & t & Eu). rewrite Em in E3. injection E3 as ->. by exists data, t.
  - by rewrite Ha in E2.
Qed.

(** A title that is taken: the ledger stays, whatever fails. *)
Lemma dropped path kind err event w f :
  honest_faults (w_env w) → ledger "delivery-failure" "phonewave" (w_fs w !! ledgerPath) = Some f →
  insight_title kind (ev_Timestamp event) ∈ in_Title <$> if_entries f →
  w_fs (snd (run 0 (writeDeliveryFailureInsight insightsDir runDir path kind err event) w)) !! ledgerPath = w_fs w !! ledgerPath.
Proof using H0 lock_apart.
  intros Hh Hf Hin. unfold writeDeliveryFailureInsight. rewrite run_mbind, run_atom.
  destruct (count_keeps (route_of path) w) as [K1 K2].
  destruct (countRouteFailures insightsDir (route_of path) w) as [c w1]. cbn [fst snd] in *.
  set (e := failure_insight path kind err event c). rewrite run_mbind. rewrite <- K1 in Hf |- *. rewrite <- K2 in Hh.
  assert (fst (AddEntry f e) = false) as Ha.
  { unfold AddEntry. destruct (existsb _ _) eqn:Ex; [done|]. apply not_true_iff_false in Ex. destruct Ex.
    apply list_elem_of_fmap in Hin as (x & Ht & Hx). apply existsb_exists. exists x. rewrite <- list_elem_of_In.
    split; [done|]. by apply bool_decide_eq_true. }
  pose proof (append_always insightsDir runDir delivery_file "delivery-failure" "phonewave" e delivery_plain lock_apart 0 w1 Hh) as HA.
  apply always_end in HA. destruct (run 0 (AppendInsight _ _ _ _ _ e) w1) as [r w2]. cbn [fst snd run mret prog_mret] in *.
  destruct HA as [E|(f' & m & data & E1 & E2 & _)]; [done|]. rewrite Hf in E1. injection E1 as <-. by rewrite Ha in E2.
Qed.
End Failure.

(** The title does not see below the second. *)
Lemma format_compact_second t1 t2 : (t1 / Second = t2 / Second)%Z → format_compact t1 = format_compact t2.
Proof.
  intros E. assert (∀ t, (t / (24 * Hour) = t / Second / 86400)%Z) as Ed.
  { intros t. rewrite Z.div_div by done. done. }
  assert (∀ t, ((t mod (24 * Hour)) / Second = (t / Second) mod 86400)%Z) as Ec.
  { intros t. change (24 * Hour)%Z with (Second * 86400)%Z. rewrite Z.rem_mul_r by done.
    rewrite Z.mul_comm, Z.div_add by done. rewrite Z.div_small by (apply Z.mod_pos_bound; done). done. }
  unfold format_compact, clock. by rewrite !Ed, !Ec, E.
Qed.

(**  a failed delivery is written to the ledger.  Without failures, and with
    directories where they belong, dispatching a [delivery.failed] event whose
    title is new appends one entry to the ledger that is on disk (or starts
    one): it names the failure, its category, and how often this route failed
    before according to the ledger; reading the ledger gives the old entries
    and the new one.  The user is notified and the event counted. *)
Theorem failure_insight_recorded `{InsightTextLaws} `{PayloadLaws} (insightsDir runDir path kind err : string)
    (event : Event) (s : PState) (f : InsightFile) :
  let ledgerPath := path_Join [insightsDir; delivery_file] in
  let lockPath := path_Join [runDir; "insights.lock"] in
  let w := ps_world s in
  lockPath ≠ ledgerPath → insight_temp insightsDir delivery_file ≠ lockPath → no_faults (w_env w) →
  ledger_ready insightsDir runDir delivery_file (w_fs w) →
  ev_Type event = EventDeliveryFailed → ev_Data event = json_payload (DeliveryFailedPayload path kind err) →
  json_text path → json_text kind → json_text err →
  ledger "delivery-failure" "phonewave" (w_fs w !! ledgerPath) = Some f →
  let count := length (List.filter (has_route (route_of path)) (if_entries f)) in
  let e := failure_insight path kind err event count in
  Forall (λ x, in_Title x ≠ in_Title e) (if_entries f) →
  ledger_fit (w_env w) (set_entries (if_entries f ++ [e]) f) →
  let '(r, s') := Dispatch (registerDaemonPolicies insightsDir runDir NewPolicyEngine) event s in
  r = None ∧ ps_notified s' = ps_notified s ++ ["Delivery failed"] ∧
  ps_metrics s' = ps_metrics s ++ [("delivery.failed", "handled")] ∧
  ∃ data t, w_fs (ps_world s') !! ledgerPath = Some (NFile data) ∧
    UnmarshalInsightFile data = Ok (set_updated t (set_entries (if_entries f ++ [e]) f)).
Proof.
  intros ledgerPath lockPath w Hl Ht He Hr Hty Hda J1 J2 J3 Hf count e Hnew Hfit.
  rewrite (dispatch_failed insightsDir runDir event s path kind err Hty Hda J1 J2 J3).
  destruct (notify_keeps "Delivery failed" s) as [K1 K2]. fold w in K1, K2.
  split; [done|]. split; [unfold notify, fault; fold w; by rewrite He|]. split; [unfold notify, fault; by destruct (env_fault _ _)|].
  cbn [ps_world RecordPolicyEvent set_world].
  apply (recorded insightsDir runDir Hl path kind err event); rewrite ?K1, ?K2; done.
Qed.

(**  failures within one second share an insight.  The title of a failure
    insight has the kind and the second only, and an entry whose title is in
    the ledger is not added: a second failure of that kind in that second,
    of whatever file, for whatever reason, leaves the ledger as it was, though
    it is counted as handled. *)
Theorem same_second_failure_dropped `{InsightTextLaws} `{PayloadLaws} (insightsDir runDir path kind err : string)
    (event : Event) (s : PState) (f : InsightFile) (t : Time) :
  let ledgerPath := path_Join [insightsDir; delivery_file] in
  let w := ps_world s in
  path_Join [runDir; "insights.lock"] ≠ ledgerPath → honest_faults (w_env w) →
  ev_Type event = EventDeliveryFailed → ev_Data event = json_payload (DeliveryFailedPayload path kind err) →
  json_text path → json_text kind → json_text err →
  ledger "delivery-failure" "phonewave" (w_fs w !! ledgerPath) = Some f →
  insight_title kind t ∈ in_Title <$> if_entries f → (t / Second = ev_Timestamp event / Second)%Z →
  let '(r, s') := Dispatch (registerDaemonPolicies insightsDir runDir NewPolicyEngine) event s in
  r = None ∧ ps_metrics s' = ps_metrics s ++ [("delivery.failed", "handled")] ∧
  w_fs (ps_world s') !! ledgerPath = w_fs w !! ledgerPath.
Proof.
  intros ledgerPath w Hl Hh Hty Hda J1 J2 J3 Hf Hin Hsec.
  rewrite (dispatch_failed insightsDir runDir event s path kind err Hty Hda J1 J2 J3).
  destruct (notify_keeps "Delivery failed" s) as [K1 K2]. fold w in K1, K2.
  split; [done|]. split; [unfold notify, fault; by destruct (env_fault _ _)|].
  cbn [ps_world RecordPolicyEvent set_world]. rewrite <- K1.
  apply (dropped insightsDir runDir Hl path kind err event _ f); rewrite ?K1, ?K2; [done|done|].
  unfold insight_title in *. by rewrite <- (format_compact_second _ _ Hsec).
Qed.

(** ** The laws can hold *)

Definition payload_code (p : payload) : (nat * string) * (string * string) * (Z * Z) :=
  match p with
  | DeliveryCompletedPayload path kind => ((0, path), (kind, ""), (0%Z, 0%Z))
  | DeliveryFailedPayload path kind err => ((1, path), (kind, err), (0%Z, 0%Z))
  | ErrorRetriedPayload name kind => ((2, name), (kind, ""), (0%Z, 0%Z))
  | ScanCompletedPayload outbox d f => ((3, outbox), ("", ""), (d, f))
  | CutoverPayload n t => ((4, t), ("", ""), (n, 0%Z))
  end.
Definition sample_payload_code (b : bytes) : option ((nat * string) * (string * string) * (Z * Z)) := decode (unbits b).

Definition policy_JSON : JSON := {|
  json_payload := λ p, bits (encode (payload_code p));
  json_event := λ e, Err (errors_New "unused");
  json_parse := λ b, None;
  json_faithful := λ e, False |}.
Definition sample_payloads : PayloadJSON := {|
  json_map := λ b, c ← sample_payload_code b;
    match c with
    | ((0, path), (kind, _), _) => Some {["path" := path; "kind" := kind]}
    | ((2, name), (kind, _), _) => Some {["name" := name; "kind" := kind]}
    | _ => None
    end;
  json_failed := λ b, c ← sample_payload_code b;
    match c with ((1, path), (kind, err), _) => Some (path, kind, err) | _ => None end;
  json_scan := λ b, c ← sample_payload_code b;
    match c with ((3, outbox), _, (d, f)) => Some (outbox, d, f) | _ => None end;
  json_text := λ _, True |}.

Lemma sample_payload_laws : @PayloadLaws policy_JSON sample_payloads.
Proof.
  constructor; intros; cbn [json_map json_failed json_scan sample_payloads json_payload policy_JSON];
    unfold sample_payload_code; by rewrite unbits_bits, decode_encode.
Qed.

Definition failed_event (id : string) (t : Time) (path kind err : string) : Event :=
  mkEvent 1 id EventDeliveryFailed t (@json_payload policy_JSON (DeliveryFailedPayload path kind err)) "" "" "" "" "" 1.
Definition policy_state : PState := mkPState insight_world [] [].
#[local] Abbreviation sample_dispatch :=
  (Dispatch (@registerDaemonPolicies sample_text sample_payloads "/s/insights" "/s/.run" NewPolicyEngine)).

Lemma failure_insight_recorded_witness :
  let '(r, s') := sample_dispatch (failed_event "e1" 5000000000 "/a/outbox/m.md" "report" "permission denied") policy_state in
  r = None ∧ ps_notified s' = ["Delivery failed"] ∧ ps_metrics s' = [("delivery.failed", "handled")] ∧
  ∃ data t f, w_fs (ps_world s') !! "/s/insights/delivery.md" = Some (NFile data) ∧
    @UnmarshalInsightFile sample_text data = Ok (set_updated t f) ∧ in_Why <$> if_entries f =
      ["Permission denied on target inbox directory"].
Proof.
  pose proof (@failure_insight_recorded sample_text sample_text_laws policy_JSON sample_payloads sample_payload_laws
    "/s/insights" "/s/.run" "/a/outbox/m.md" "report" "permission denied"
    (failed_event "e1" 5000000000 "/a/outbox/m.md" "report" "permission denied") policy_state
    (mkInsightFile "1" "delivery-failure" "phonewave" 0 [])) as HT.
  destruct (sample_dispatch _ _) as [r s']. destruct HT as (E1 & E2 & E3 & data & t & E4 & E5).
  1-2: vm_compute; discriminate.
  - intros n. reflexivity.
  - split_and!; [reflexivity|reflexivity|vm_compute; discriminate..].
  - reflexivity.
  - reflexivity.
  - exact I.
  - exact I.
  - exact I.
  - vm_compute. reflexivity.
  - constructor.
  - intros m. split_and!; [|exact I|exact I]. constructor; [|constructor]. constructor.
    + split; [vm_compute; discriminate|reflexivity].
    + repeat (constructor; [reflexivity|]). constructor.
    + intros k v Hk. cbn [in_Extra failure_insight] in Hk. apply lookup_singleton_Some in Hk as [<- <-].
      split_and!; try done; apply (bool_decide_unpack _); vm_compute; exact I.
  - split; [exact E1|]. split; [exact E2|]. split; [exact E3|]. exists data, t. eexists. split; [exact E4|].
    split; [exact E5|]. reflexivity.
Defined.

Definition once_failed : PState :=
  snd (sample_dispatch (failed_event "e1" 5000000000 "/a/outbox/m.md" "report" "permission denied") policy_state).
Definition once_failed_ledger : InsightFile :=
  default (mkInsightFile "" "" "" 0 [])
    (@ledger sample_text "delivery-failure" "phonewave" (w_fs (ps_world once_failed) !! "/s/insights/delivery.md")).

Lemma same_second_failure_dropped_witness :
  let '(r, s') := sample_dispatch (failed_event "e2" 5900000000 "/b/outbox/n.md" "report" "disk full") once_failed in
  r = None ∧ ps_metrics s' = [("delivery.failed", "handled"); ("delivery.failed", "handled")] ∧
  w_fs (ps_world s') !! "/s/insights/delivery.md" = w_fs (ps_world once_failed) !! "/s/insights/delivery.md".
Proof.
  pose proof (@same_second_failure_dropped sample_text sample_text_laws policy_JSON sample_payloads sample_payload_laws
    "/s/insights" "/s/.run" "/b/outbox/n.md" "report" "disk full"
    (failed_event "e2" 5900000000 "/b/outbox/n.md" "report" "disk full") once_failed once_failed_ledger 5000000000) as HT.
  destruct (sample_dispatch _ once_failed) as [r s']. apply HT; clear HT.
  - vm_compute. discriminate.
  - intros n e [=].
  - reflexivity.
  - reflexivity.
  - exact I.
  - exact I.
  - exact I.
  - vm_compute. reflexivity.
  - apply (bool_decide_unpack _). vm_compute. exact I.
  - reflexivity.
Defined.
