(* ===== verification/Skills.v ===== *)
(** * The skills-ref validator

    Models [session/validate.go]: how the external validator is found and
    called, how its output becomes warnings, and the warnings of an endpoint
    and of a configuration.  What the machine answers ([exec.LookPath], the
    environment, the executable's path, running a command) is a [Machine];
    the tools it runs are taken not to change the files of the [World].  The
    timeout of a run is one of the failures a run can report.  The endpoints
    are validated on a worker pool whose results come back in submission
    order and that only reads: here they run in that order. *)
From S2P Require Import Prelude GoStrings GoPath GoTime DMail Router Prog World DeliverSafety SetupSafety Setup Files.

#[local] Open Scope nat_scope.

(** ** The machine *)

(** The error of [cmd.Run]: an exit status, or the command did not run. *)
Inductive exec_error := ExitError (code : Z) (e : error) | RunError (e : error).
Record command := mkCommand { cmd_args : list string; cmd_env : list string }.
Record outcome := mkOutcome { oc_output : string; oc_err : option exec_error }.

(** The answers that can change while the program runs are numbered by the
    step at which they are asked for. *)
Class Machine := {
  mc_LookPath : nat → string → result string;
  mc_run : nat → command → outcome;
  mc_Getenv : string → string;
  mc_Executable : result string;
  mc_EvalSymlinks : string → result string;
  mc_Getwd : result string;
  mc_TempDir : string }.

Section Skills.
Context `{Machine}.

Definition exec_LookPath (name : string) : act (result string) := λ w, (mc_LookPath (w_tick w) name, bump w).
Definition exec_Run (c : command) : act outcome := λ w, (mc_run (w_tick w) c, bump w).

(** [domain.SkillsRefVenvName] *)
Definition SkillsRefVenvName : string := "phonewave-skills-ref-venv".

(** ** Finding the bundled submodule *)

(** The loop of [walkUpForSkillsRef]; [walk_up_nearest] shows that the fuel is
    enough. *)
Fixpoint walk_up (fuel : nat) (dir : string) : program string :=
  match fuel with
  | O => mret ""
  | S n =>
      s ← atom (os_Stat (path_Join [dir; "skills-ref"; "skills-ref"; "pyproject.toml"]));
      match s with
      | Ok _ => mret (path_Join [dir; "skills-ref"; "skills-ref"])
      | Err _ =>
          let parent := Dir dir in
          if bool_decide (parent = dir) then mret "" else walk_up n parent
      end
  end.
Definition walkUpForSkillsRef (startDir : string) : program string := walk_up (S (slen startDir)) startDir.

Definition from_override : program string :=
  let dir := mc_Getenv "PHONEWAVE_SKILLS_REF" in
  if bool_decide (dir = "") then mret "" else
  s ← atom (os_Stat (path_Join [dir; "pyproject.toml"]));
  mret (match s with Ok _ => dir | Err _ => "" end).
Definition from_executable : program string :=
  match mc_Executable with
  | Err _ => mret ""
  | Ok exe =>
      let exe := match mc_EvalSymlinks exe with Ok resolved => resolved | Err _ => exe end in
      walkUpForSkillsRef (Dir exe)
  end.
Definition from_cwd : program string :=
  match mc_Getwd with Err _ => mret "" | Ok cwd => walkUpForSkillsRef cwd end.

Definition findSkillsRefDir : program string :=
  d1 ← from_override;
  if negb (bool_decide (d1 = "")) then mret d1 else
  d2 ← from_executable;
  if negb (bool_decide (d2 = "")) then mret d2 else from_cwd.

(** ** Calling the validator *)

Definition not_found : error :=
  errors_New "skills-ref not found (install via 'uv tool install skills-ref' or ensure submodule is present)".

Definition skillsRefCommand (skillDir : string) : program (result command) :=
  p ← atom (exec_LookPath "skills-ref");
  match p with
  | Ok path => mret (Ok (mkCommand [path; "validate"; skillDir] []))
  | Err _ =>
      u ← atom (exec_LookPath "uv");
      match u with
      | Err _ => mret (Err not_found)
      | Ok uvPath =>
          subDir ← findSkillsRefDir;
          if bool_decide (subDir = "") then mret (Err not_found) else
          mret (Ok (mkCommand [uvPath; "run"; "--project"; subDir; "skills-ref"; "validate"; skillDir]
                      ["UV_PROJECT_ENVIRONMENT=" +:+ path_Join [mc_TempDir; SkillsRefVenvName]]))
      end
  end.

Definition problem_of (line : string) : option string :=
  let line := TrimSpace line in
  if HasPrefix line "- " then Some (TrimPrefix line "- ") else None.
Definition parseValidationOutput (output : string) : list string := omap problem_of (Split output "010").

Definition ValidateSkillDir (skillDir : string) : program (result (list string)) :=
  c ← skillsRefCommand skillDir;
  match c with
  | Err _ => mret (Ok [])
  | Ok c =>
      o ← atom (exec_Run c);
      mret (match oc_err o with
            | None => Ok []
            | Some (ExitError code e) =>
                if (code =? 1)%Z then Ok (parseValidationOutput (oc_output o))
                else Err (mkErr ("skills-ref validate: " +:+ err_msg e +:+ ": " +:+ oc_output o) (err_chain e))
            | Some (RunError e) => Err (mkErr ("skills-ref validate: " +:+ err_msg e +:+ ": " +:+ oc_output o) (err_chain e))
            end)
  end.

(** ** Warnings *)

Definition skill_warnings (repoPath : string) (ep : EndpointConfig) (skillName : string) : program (list string) :=
  let epLabel := Base repoPath +:+ "/" +:+ epc_Dir ep in
  let skillDir := path_Join [repoPath; epc_Dir ep; "skills"; skillName] in
  s ← atom (os_Stat (path_Join [skillDir; "SKILL.md"]));
  match s with
  | Err err =>
      mret (if errors_Is err ErrNotExist then []
            else ["skills-ref: cannot access " +:+ epLabel +:+ "/" +:+ skillName +:+ " SKILL.md: " +:+ err_msg err])
  | Ok _ =>
      v ← ValidateSkillDir skillDir;
      mret (match v with
            | Err err => ["skills-ref validate " +:+ epLabel +:+ "/" +:+ skillName +:+ ": " +:+ err_msg err]
            | Ok problems => map (λ p, "skills-ref: " +:+ epLabel +:+ "/" +:+ skillName +:+ ": " +:+ p) problems
            end)
  end.
Definition validateEndpointSkills (repoPath : string) (ep : EndpointConfig) : program (list string) :=
  a ← skill_warnings repoPath ep SkillSendable;
  b ← skill_warnings repoPath ep SkillReadable;
  mret (a ++ b).

(** The endpoints to validate, and the warnings in submission order.  A pool
    that stops early adds its error. *)
Definition validation_targets (cfg : Config) (filterRepoPath : string) : list (string * EndpointConfig) :=
  mjoin (map (λ repo,
    if negb (bool_decide (filterRepoPath = "")) && negb (bool_decide (rc_Path repo = filterRepoPath)) then []
    else map (pair (rc_Path repo)) (rc_Endpoints repo)) (cfg_Repositories cfg)).
Definition collect_warnings (waitErr : option error) (cfg : Config) (filterRepoPath : string) : program (list string) :=
  let targets := validation_targets cfg filterRepoPath in
  if length targets =? 0 then mret [] else
  results ← run_all (λ t, validateEndpointSkills (fst t) (snd t)) targets;
  mret (mjoin results ++ match waitErr with Some e => ["skills_ref scan aborted: " +:+ err_msg e] | None => [] end).
End Skills.

(** ** Walking up *)

#[local] Arguments path_Join : simpl never.

(** A directory, given by its elements from the last one, and its ancestors. *)
Fixpoint ancestors_of (up : list string) : list string :=
  render true (reverse up) :: match up with [] => [] | _ :: up => ancestors_of up end.
Definition ancestors (s : string) : list string := ancestors_of (reverse (elems s)).
Definition has_validator (fs : gmap string node) (dir : string) : bool :=
  bool_decide (is_Some (fs !! Clean (path_Join [dir; "skills-ref"; "skills-ref"; "pyproject.toml"]))).
Definition nearest_validator (fs : gmap string node) (l : list string) : string :=
  match List.find (has_validator fs) l with
  | Some dir => path_Join [dir; "skills-ref"; "skills-ref"]
  | None => ""
  end.

Lemma plain_nf up : Forall plain up → stack_nf true up.
Proof. induction 1; by constructor. Qed.
Lemma render_elems up : Forall plain up →
  clean (render true (reverse up)) ∧ IsAbs (render true (reverse up)) = true ∧ elems (render true (reverse up)) = reverse up.
Proof.
  intros Hu%plain_nf. split; [by apply Clean_render|]. pose proof (IsAbs_render _ _ Hu) as Ha. split; [done|].
  unfold elems. rewrite Ha. by rewrite clean_stack_render.
Qed.
Lemma render_parent f up : Forall plain (f :: up) → Dir (render true (reverse (f :: up))) = render true (reverse up).
Proof.
  intros [Hf Hu]%Forall_cons. destruct (render_elems up Hu) as (Hc & Ha & He).
  replace (render true (reverse (f :: up))) with (path_Join [render true (reverse up); f]); [by rewrite Dir_Join|].
  rewrite path_Join_plain, Ha, He by done. by rewrite reverse_cons.
Qed.
Lemma render_ne f up : Forall plain (f :: up) → render true (reverse up) ≠ render true (reverse (f :: up)).
Proof.
  intros Hu E. apply (f_equal elems) in E. pose proof Hu as [_ Hu']%Forall_cons.
  rewrite (proj2 (proj2 (render_elems _ Hu))), (proj2 (proj2 (render_elems _ Hu'))) in E.
  apply (f_equal length) in E. rewrite !length_reverse in E. cbn in E. lia.
Qed.
Lemma length_render up : Forall plain up → length up <= slen (render true (reverse up)).
Proof.
  induction up as [|f up IH]; intros Hu; [cbn; lia|]. pose proof Hu as [Hf Hu']%Forall_cons. specialize (IH Hu').
  rewrite reverse_cons, render_snoc. cbn [length]. destruct (reverse up) as [|e es] eqn:E.
  - apply (f_equal length) in E. rewrite length_reverse in E. cbn in E |- *. lia.
  - rewrite slen_app. cbn [slen]. unfold render in IH. lia.
Qed.

Section Walk.
Context {env : Env} (env_ok : no_faults env).

Lemma walk_up_does n up fs : Forall plain up → length up < n →
  does (env := env) (walk_up n (render true (reverse up))) fs (nearest_validator fs (ancestors_of up)) fs.
Proof using env_ok.
  revert up. induction n as [|n IH]; intros up Hu Hn; [lia|]. cbn [walk_up].
  eapply does_bind; [apply (Stat_does env_ok)|]. unfold nearest_validator, has_validator.
  assert (ancestors_of up = render true (reverse up) :: match up with [] => [] | _ :: up => ancestors_of up end) as -> by (by destruct up).
  cbn [List.find]. destruct (fs !! Clean _) as [nd|] eqn:E.
  - rewrite bool_decide_true by done. apply does_ret.
  - rewrite (bool_decide_false (is_Some None)) by (intros [? ?]; done). destruct up as [|f up].
    + rewrite bool_decide_true by done. apply does_ret.
    + rewrite render_parent, bool_decide_false by (done || by apply render_ne). apply IH; [by apply Forall_cons in Hu as []|cbn in Hn; lia].
Qed.

Lemma walk_does s fs : clean s → IsAbs s = true →
  does (env := env) (walkUpForSkillsRef s) fs (nearest_validator fs (ancestors s)) fs.
Proof using env_ok.
  intros Hc Ha. unfold walkUpForSkillsRef, ancestors. set (up := reverse (elems s)).
  assert (s = render true (reverse up)) as Es by (unfold up; rewrite reverse_involutive, <- Ha, <- Clean_elems; done).
  assert (Forall plain up) as Hu by (by apply Forall_reverse, elems_plain).
  rewrite Es. apply walk_up_does; [done|]. pose proof (length_render up Hu). lia.
Qed.
End Walk.

(** ** Runs on a steady machine *)

(** The machine answers the same at every step. *)
Definition steady `{Machine} : Prop := ∀ n m, mc_LookPath n = mc_LookPath m ∧ mc_run n = mc_run m.

Section Steady.
Context `{Machine} (Hs : steady).

Lemma read_LookPath name : read_act (exec_LookPath name).
Proof using Hs. split; [done|]. intros w w' _ _ _. cbn. by destruct (Hs (w_tick w) (w_tick w')) as [-> _]. Qed.
Lemma read_Run c : read_act (exec_Run c).
Proof using Hs. split; [done|]. intros w w' _ _ _. cbn. by destruct (Hs (w_tick w) (w_tick w')) as [_ ->]. Qed.
Lemma read_Stat p : read_act (os_Stat p).
Proof.
  eapply read_ext; [|apply (read_guarded (λ fs, match fs !! Clean p with Some _ => Ok tt | None => Err (enoent "stat" p) end))].
  intros w. unfold os_Stat, guarded, fault. destruct (env_fault _ _); [done|]. unfold lookup_path. by repeat case_match.
Qed.
#[local] Hint Resolve read_LookPath read_Run read_Stat reads_atom : core.
#[local] Hint Constructors reads : core.

Lemma walk_up_reads n d : reads (walk_up n d).
Proof.
  revert d. induction n as [|n IH]; intros d; cbn [walk_up]; [by constructor|]. apply reads_bind; [auto|]. intros [u|e]; [by constructor|].
  destruct (bool_decide _); [by constructor|done].
Qed.
Lemma find_reads : reads findSkillsRefDir.
Proof using Hs.
  apply reads_bind.
  { unfold from_override. destruct (bool_decide _); [by constructor|]. apply reads_bind; [auto|]. by constructor. }
  intros d1. destruct (negb _); [by constructor|]. apply reads_bind.
  { unfold from_executable. destruct mc_Executable; [apply walk_up_reads|by constructor]. }
  intros d2. destruct (negb _); [by constructor|]. unfold from_cwd. destruct mc_Getwd; [apply walk_up_reads|by constructor].
Qed.
Lemma ValidateSkillDir_reads d : reads (ValidateSkillDir d).
Proof using Hs.
  apply reads_bind.
  - apply reads_bind; [auto|]. intros [p|e]; [by constructor|]. apply reads_bind; [auto|]. intros [u|e']; [|by constructor].
    apply reads_bind; [apply find_reads|]. intros s. destruct (bool_decide _); by constructor.
  - intros [c|e]; [|by constructor]. apply reads_bind; [auto|]. by constructor.
Qed.
Lemma skill_warnings_reads p ep n : reads (skill_warnings p ep n).
Proof using Hs.
  apply reads_bind; [auto|]. intros [u|e]; [|by constructor]. apply reads_bind; [apply ValidateSkillDir_reads|]. by constructor.
Qed.
Lemma validateEndpointSkills_reads p ep : reads (validateEndpointSkills p ep).
Proof using Hs.
  apply reads_bind; [apply skill_warnings_reads|]. intros a. apply reads_bind; [apply skill_warnings_reads|]. by constructor.
Qed.
End Steady.

(** ** Theorems *)

Lemma find_app {A} (P : A → bool) l l' :
  List.find P (l ++ l') = match List.find P l with Some x => Some x | None => List.find P l' end.
Proof. induction l as [|x l IH]; [done|]. cbn. by destruct (P x). Qed.

(**  The bundled validator is searched for in the executable's directory
    and its ancestors, nearest first, and only then in those of the working
    directory; the walk ends at the root, with nothing when there is none. *)
Theorem findSkillsRefDir_order `{Machine} (env : Env) (fs : gmap string node) (exe cwd : string) :
  no_faults env → mc_Getenv "PHONEWAVE_SKILLS_REF" = "" →
  mc_Executable = Ok exe → mc_EvalSymlinks exe = Ok exe → clean (Dir exe) → IsAbs (Dir exe) = true →
  mc_Getwd = Ok cwd → clean cwd → IsAbs cwd = true →
  does (env := env) findSkillsRefDir fs (nearest_validator fs (ancestors (Dir exe) ++ ancestors cwd)) fs.
Proof.
  intros He Hv Hx Hl Hc Ha Hw Hc' Ha'. unfold findSkillsRefDir.
  eapply does_bind; [unfold from_override; rewrite Hv; apply does_ret|]. cbn [negb bool_decide].
  eapply does_bind; [unfold from_executable; rewrite Hx, Hl; by apply walk_does|].
  unfold nearest_validator. rewrite find_app. destruct (List.find _ (ancestors (Dir exe))) as [d|] eqn:E.
  - rewrite bool_decide_false; [apply does_ret|]. rewrite path_Join_3 by done. by apply path_Join_nonempty.
  - unfold from_cwd. rewrite Hw. by apply walk_does.
Qed.

Lemma reads_agree {A} i j (p : program A) w w' :
  reads p → w_fs w = w_fs w' → no_faults (w_env w) → no_faults (w_env w') → fst (run i p w) = fst (run j p w').
Proof.
  intros Hp Hf H1 H2. rewrite (reads_det i p w w' Hp Hf H1 H2). clear w Hf H1 H2. f_equal. revert w'.
  induction Hp as [a|X m k _ _ IH]; intros w; cbn [run]; [done|]. destruct (m w). apply IH.
Qed.

Lemma collect_targets validate cfg f :
  collectSkillWarnings validate cfg f = mjoin (map (λ t, validate (fst t) (snd t)) (validation_targets cfg f)).
Proof.
  unfold collectSkillWarnings, validation_targets. induction (cfg_Repositories cfg) as [|repo l IH]; [done|].
  assert (∀ {A} (x : list A) r, mjoin (x :: r) = x ++ mjoin r) as mjoin_cons by done.
  cbn [map]. rewrite !mjoin_cons, map_app, join_app, IH. f_equal.
  destruct (_ && _); [done|]. by rewrite map_map.
Qed.

(**  On a machine whose answers do not change, validating the endpoints one
    by one gives, in the order of the configuration, what [Setup] takes as the
    warnings of each endpoint, and leaves the files alone. *)
Theorem collect_implements_setup `{Machine} (Hs : steady) (i : nat) (cfg : Config) (filterRepoPath : string) (w w0 : World) :
  no_faults (w_env w) → w_fs w0 = w_fs w → no_faults (w_env w0) →
  let validate p ep := fst (run 0 (validateEndpointSkills p ep) w0) in
  fst (run i (collect_warnings None cfg filterRepoPath) w) = collectSkillWarnings validate cfg filterRepoPath ∧
  w_fs (snd (run i (collect_warnings None cfg filterRepoPath) w)) = w_fs w.
Proof.
  intros Hw E0 Hw0 validate.
  set (f := λ t : string * EndpointConfig, validateEndpointSkills (fst t) (snd t)).
  assert (∀ t, reads (f t)) as Hf by (intros t; exact (validateEndpointSkills_reads Hs (fst t) (snd t))).
  assert (∀ l w, no_faults (w_env w) → w_fs w0 = w_fs w →
    fst (run i (run_all f l) w) = map (λ t, validate (fst t) (snd t)) l) as Hrun.
  { clear w Hw E0. induction l as [|t l IH]; intros w Hw E0; [done|]. cbn [run_all]. run_bind.
    destruct (reads_frame i _ w (Hf t)) as [Ef Ee]. pose proof (reads_agree i 0 _ w w0 (Hf t) (eq_sym E0) Hw Hw0) as Hd.
    destruct (run i (f t) w) as [ws w1]. cbn [fst snd] in *. run_bind. specialize (IH w1 ltac:(by rewrite Ee) ltac:(congruence)).
    destruct (run i (run_all f l) w1) as [rest w2]. cbn in *. by rewrite IH, Hd. }
  assert (reads (collect_warnings None cfg filterRepoPath)) as Hr.
  { unfold collect_warnings. destruct (_ =? 0); [by constructor|]. apply reads_bind; [by apply reads_run_all|]. by constructor. }
  split; [|by apply reads_frame].
  unfold collect_warnings. rewrite collect_targets.
  destruct (length _ =? 0) eqn:E; [apply Nat.eqb_eq, length_zero_iff_nil in E; by rewrite E|].
  run_bind. specialize (Hrun (validation_targets cfg filterRepoPath) w Hw E0). fold f.
  destruct (run i (run_all f _) w) as [r w1]. cbn in *. by rewrite app_nil_r, Hrun.
Qed.

(** ** A sample machine *)

(** [uv] is installed, the validator is a submodule of the repository the
    executable was built in, and finds one problem in every skill. *)
Definition sample_machine : Machine := {|
  mc_LookPath := λ _ name, if bool_decide (name = "uv") then Ok "/usr/bin/uv" else Err (errors_New "not found");
  mc_run := λ _ _, mkOutcome ("Validation failed:" +:+ String "010" "  - name: too long") (Some (ExitError 1 (errors_New "exit status 1")));
  mc_Getenv := λ _, "";
  mc_Executable := Ok "/opt/repo/bin/phonewave";
  mc_EvalSymlinks := λ p, Ok p;
  mc_Getwd := Ok "/r";
  mc_TempDir := "/tmp" |}.
Definition machine_fs : gmap string node :=
  <["/opt/repo/skills-ref/skills-ref/pyproject.toml" := NFile []]> setup_fs.
Definition machine_world : World := set_fs machine_fs setup_world.

Lemma findSkillsRefDir_order_witness :
  does (env := no_fault_env) (findSkillsRefDir (H := sample_machine)) machine_fs "/opt/repo/skills-ref/skills-ref" machine_fs.
Proof.
  change "/opt/repo/skills-ref/skills-ref" with
    (nearest_validator machine_fs (ancestors (Dir "/opt/repo/bin/phonewave") ++ ancestors "/r")).
  apply (findSkillsRefDir_order (H := sample_machine) no_fault_env machine_fs "/opt/repo/bin/phonewave" "/r"); done.
Defined.

Definition siren_config : Config := mkConfig 0 [mkRepo "/r" [mkEndpointConfig ".siren" ["specification"] []]] [].

Lemma collect_implements_setup_witness :
  fst (run 0 (collect_warnings (H := sample_machine) None siren_config "") machine_world) =
    collectSkillWarnings (λ p ep, fst (run 0 (validateEndpointSkills (H := sample_machine) p ep) machine_world)) siren_config "" ∧
  fst (run 0 (collect_warnings (H := sample_machine) None siren_config "") machine_world) =
    ["skills-ref: r/.siren/dmail-sendable: name: too long"].
Proof.
  destruct (collect_implements_setup (H := sample_machine) ltac:(done) 0 siren_config "" machine_world machine_world) as [E _];
    [done..|]. split; [exact E|]. vm_compute. reflexivity.
Defined.
