(* ===== verification/Metrics.v ===== *)
(** * Delivery health metrics

    Models [domain/metrics.go].  A division result that the code keeps as a
    [float64] is kept as its numerator and denominator; the window and bucket
    size are kept as durations instead of their printed form.  A Go panic
    (division by a zero bucket size, an index out of range) is [None].  The
    JSON decoding of [latency_ms] is a parameter. *)
From S2P Require Import Prelude GoStrings GoTime DMail Prog Events.

#[local] Open Scope Z_scope.

Record DeliveryMetrics := mkMetrics { dm_Delivered : Z; dm_Failed : Z; dm_Retried : Z }.

(** [None] is the rate 0.0 of no deliveries. *)
Definition SuccessRate (m : DeliveryMetrics) : option (Z * Z) :=
  let total := dm_Delivered m + dm_Failed m in
  if total =? 0 then None else Some (dm_Delivered m, total).

Record BucketMetrics := mkBucket {
  bm_Start : Time; bm_Delivered : Z; bm_Failed : Z; bm_Retried : Z;
  bm_SuccessRate : option (Z * Z); bm_AvgLatencyMs : option Z }.

Record HealthTimeSeries := mkSeries {
  ht_GeneratedAt : Time; ht_Window : Duration; ht_BucketSize : Duration;
  ht_Buckets : list BucketMetrics; ht_Totals : DeliveryMetrics }.

Record accumulator := mkAcc {
  ac_delivered : Z; ac_failed : Z; ac_retried : Z; ac_totalLatency : Z; ac_latencyCount : Z }.
Definition zero_acc : accumulator := mkAcc 0 0 0 0 0.

(** [time.Time.Sub] saturates. *)
Definition Sub (t u : Time) : Duration := Z.max (- two63) (Z.min (two63 - 1) (t - u)).

Section Aggregate.
(** [json.Unmarshal] into [struct{LatencyMs int64}]. *)
Variable latency_ms : bytes → option Z.

Definition num_buckets (windowStart : Time) (bucketSize : Duration) (now : Time) : Z :=
  let n := Z.quot (Sub now windowStart) bucketSize in
  let n := if 0 <? Z.rem (Sub now windowStart) bucketSize then n + 1 else n in
  if n <=? 0 then 1 else n.

Definition add_event_acc (ev : Event) (a : accumulator) : accumulator :=
  if bool_decide (ev_Type ev = EventDeliveryCompleted) then
    let a := mkAcc (ac_delivered a + 1) (ac_failed a) (ac_retried a) (ac_totalLatency a) (ac_latencyCount a) in
    match ev_Data ev with
    | [] => a
    | data =>
        match latency_ms data with
        | Some l => if 0 <? l then mkAcc (ac_delivered a) (ac_failed a) (ac_retried a)
                                     (i64 (ac_totalLatency a + l)) (ac_latencyCount a + 1) else a
        | None => a
        end
    end
  else if bool_decide (ev_Type ev = EventDeliveryFailed) then
    mkAcc (ac_delivered a) (ac_failed a + 1) (ac_retried a) (ac_totalLatency a) (ac_latencyCount a)
  else if bool_decide (ev_Type ev = EventErrorRetried) then
    mkAcc (ac_delivered a) (ac_failed a) (ac_retried a + 1) (ac_totalLatency a) (ac_latencyCount a)
  else a.

Definition add_event_totals (ev : Event) (m : DeliveryMetrics) : DeliveryMetrics :=
  if bool_decide (ev_Type ev = EventDeliveryCompleted) then mkMetrics (dm_Delivered m + 1) (dm_Failed m) (dm_Retried m)
  else if bool_decide (ev_Type ev = EventDeliveryFailed) then mkMetrics (dm_Delivered m) (dm_Failed m + 1) (dm_Retried m)
  else if bool_decide (ev_Type ev = EventErrorRetried) then mkMetrics (dm_Delivered m) (dm_Failed m) (dm_Retried m + 1)
  else m.

Definition counted (ev : Event) : bool :=
  bool_decide (ev_Type ev = EventDeliveryCompleted) || bool_decide (ev_Type ev = EventDeliveryFailed)
  || bool_decide (ev_Type ev = EventErrorRetried).

Definition in_window (windowStart now : Time) (ev : Event) : bool :=
  negb ((ev_Timestamp ev <? windowStart) || (now <? ev_Timestamp ev)).

(** The bucket of an event; the last bucket takes what lies beyond. *)
Definition bucket_of (windowStart : Time) (bucketSize : Duration) (n : Z) (ev : Event) : Z :=
  let idx := Z.quot (Sub (ev_Timestamp ev) windowStart) bucketSize in
  if n <=? idx then n - 1 else idx.

(** One iteration of the loop over the events. *)
Definition add_to_series (windowStart : Time) (bucketSize : Duration) (now : Time) (n : Z)
    (st : option (list accumulator * DeliveryMetrics)) (ev : Event) : option (list accumulator * DeliveryMetrics) :=
  match st with
  | None => None
  | Some (buckets, totals) =>
      if negb (in_window windowStart now ev) then st else
      let idx := bucket_of windowStart bucketSize n ev in
      if negb (counted ev) then st
      else if (idx <? 0) then None
      else match buckets !! Z.to_nat idx with
           | None => None
           | Some a => Some (<[Z.to_nat idx := add_event_acc ev a]> buckets, add_event_totals ev totals)
           end
  end.

Definition to_bucket (windowStart : Time) (bucketSize : Duration) (i : nat) (a : accumulator) : BucketMetrics :=
  mkBucket (windowStart + Z.of_nat i * bucketSize) (ac_delivered a) (ac_failed a) (ac_retried a)
    (let total := ac_delivered a + ac_failed a in
     if 0 <? total then Some (ac_delivered a, total) else None)
    (if 0 <? ac_latencyCount a then Some (Z.quot (ac_totalLatency a) (ac_latencyCount a)) else None).

Definition AggregateHealthTimeSeries (events : list Event) (windowStart : Time) (bucketSize : Duration) (now : Time)
    : option HealthTimeSeries :=
  if bucketSize =? 0 then None else
  let n := num_buckets windowStart bucketSize now in
  match fold_left (add_to_series windowStart bucketSize now n) events
          (Some (replicate (Z.to_nat n) zero_acc, mkMetrics 0 0 0)) with
  | None => None
  | Some (buckets, totals) =>
      Some (mkSeries now (i64 (bucketSize * n)) bucketSize (imap (to_bucket windowStart bucketSize) buckets) totals)
  end.

(** ** Counting *)

Variables (windowStart now : Time) (bucketSize : Duration).
Hypothesis size_pos : 0 < bucketSize.
Hypothesis window_fits : windowStart <= now /\ now - windowStart < two63.

#[local] Abbreviation n := (num_buckets windowStart bucketSize now).

Lemma num_buckets_pos : 1 <= n.
Proof. unfold num_buckets. cbv zeta. destruct (_ <=? 0) eqn:E; lia. Qed.

Lemma Sub_window t : windowStart <= t <= now → Sub t windowStart = t - windowStart.
Proof using window_fits. intros Ht. unfold Sub, two63 in *. lia. Qed.

Lemma bucket_of_range ev : in_window windowStart now ev = true → 0 <= bucket_of windowStart bucketSize n ev < n.
Proof using size_pos window_fits.
  unfold in_window. intros Hw. assert (windowStart <= ev_Timestamp ev <= now) as Ht by lia.
  unfold bucket_of. rewrite Sub_window by done. pose proof num_buckets_pos.
  assert (0 <= Z.quot (ev_Timestamp ev - windowStart) bucketSize) by (apply Z.quot_pos; lia).
  cbv zeta. destruct (n <=? _) eqn:E; lia.
Qed.

(** Of the events in the window that go to bucket [i], those of a type. *)
Definition count_in (ty : EventType) (i : nat) (events : list Event) : Z :=
  Z.of_nat (length (List.filter (λ ev, in_window windowStart now ev &&
    (bucket_of windowStart bucketSize n ev =? Z.of_nat i) && bool_decide (ev_Type ev = ty)) events)).
Definition count_all (ty : EventType) (events : list Event) : Z :=
  Z.of_nat (length (List.filter (λ ev, in_window windowStart now ev && bool_decide (ev_Type ev = ty)) events)).

Record counts (events : list Event) (buckets : list accumulator) (totals : DeliveryMetrics) : Prop := {
  ct_length : length buckets = Z.to_nat n;
  ct_bucket : ∀ i a, buckets !! i = Some a →
    ac_delivered a = count_in EventDeliveryCompleted i events ∧
    ac_failed a = count_in EventDeliveryFailed i events ∧
    ac_retried a = count_in EventErrorRetried i events;
  ct_totals : totals = mkMetrics (count_all EventDeliveryCompleted events) (count_all EventDeliveryFailed events)
                         (count_all EventErrorRetried events) }.

Lemma count_in_snoc ty i events ev :
  count_in ty i (events ++ [ev]) = count_in ty i events +
    (if in_window windowStart now ev && (bucket_of windowStart bucketSize n ev =? Z.of_nat i)
        && bool_decide (ev_Type ev = ty) then 1 else 0).
Proof. unfold count_in. rewrite List.filter_app, length_app. cbn. destruct (_ && _ && _); cbn; lia. Qed.
Lemma count_all_snoc ty events ev :
  count_all ty (events ++ [ev]) = count_all ty events +
    (if in_window windowStart now ev && bool_decide (ev_Type ev = ty) then 1 else 0).
Proof. unfold count_all. rewrite List.filter_app, length_app. cbn. destruct (_ && _); cbn; lia. Qed.

Lemma event_types_differ :
  EventDeliveryCompleted ≠ EventDeliveryFailed ∧ EventDeliveryCompleted ≠ EventErrorRetried ∧
  EventDeliveryFailed ≠ EventErrorRetried.
Proof. done. Qed.

Lemma add_event_acc_fields ev a :
  ac_delivered (add_event_acc ev a) = ac_delivered a + (if bool_decide (ev_Type ev = EventDeliveryCompleted) then 1 else 0) ∧
  ac_failed (add_event_acc ev a) = ac_failed a + (if bool_decide (ev_Type ev = EventDeliveryFailed) then 1 else 0) ∧
  ac_retried (add_event_acc ev a) = ac_retried a + (if bool_decide (ev_Type ev = EventErrorRetried) then 1 else 0).
Proof.
  destruct event_types_differ as (D1 & D2 & D3).
  unfold add_event_acc. repeat case_bool_decide; repeat case_match; cbn;
    try (exfalso; congruence); split_and!; lia.
Qed.

Lemma add_to_series_counts events buckets totals ev :
  counts events buckets totals →
  ∃ buckets' totals', add_to_series windowStart bucketSize now n (Some (buckets, totals)) ev = Some (buckets', totals') ∧
    counts (events ++ [ev]) buckets' totals'.
Proof using size_pos window_fits.
  intros [C1 C2 C3]. unfold add_to_series. destruct (in_window windowStart now ev) eqn:W; cbn [negb].
  2:{ exists buckets, totals. split; [done|]. constructor; [done| |].
      - intros i a Hi. rewrite !count_in_snoc, W. cbn. destruct (C2 i a Hi) as (-> & -> & ->). split_and!; lia.
      - rewrite C3, !count_all_snoc, W. cbn. f_equal; lia. }
  pose proof (bucket_of_range ev W) as Hr. set (idx := bucket_of _ _ _ ev) in *.
  destruct (counted ev) eqn:K; cbn [negb].
  2:{ exists buckets, totals. split; [done|]. unfold counted in K. rewrite !orb_false_iff in K. destruct K as [[K1 K2] K3].
      constructor; [done| |].
      - intros i a Hi. rewrite !count_in_snoc, K1, K2, K3, !andb_false_r.
        destruct (C2 i a Hi) as (-> & -> & ->). split_and!; lia.
      - rewrite C3, !count_all_snoc, K1, K2, K3, !andb_false_r. f_equal; lia. }
  replace (idx <? 0) with false by (symmetry; lia).
  destruct (lookup_lt_is_Some_2 buckets (Z.to_nat idx)) as [a Ha]; [rewrite C1; lia|]. rewrite Ha.
  eexists _, _. split; [done|]. constructor.
  - by rewrite length_insert.
  - intros i b Hb. rewrite !count_in_snoc, W. cbn [andb]. fold idx.
    destruct (decide (i = Z.to_nat idx)) as [->|Hne].
    + rewrite list_lookup_insert_eq in Hb by (by eapply lookup_lt_Some). injection Hb as <-.
      rewrite Z2Nat.id, Z.eqb_refl by lia. cbn [andb].
      destruct (add_event_acc_fields ev a) as (-> & -> & ->). by destruct (C2 _ a Ha) as (-> & -> & ->).
    + rewrite list_lookup_insert_ne in Hb by done. replace (idx =? Z.of_nat i) with false by (symmetry; lia).
      cbn [andb]. destruct (C2 i b Hb) as (-> & -> & ->). split_and!; lia.
  - rewrite C3, !count_all_snoc, W. cbn [andb]. unfold add_event_totals. cbn.
    destruct event_types_differ as (D1 & D2 & D3).
    repeat case_bool_decide; try (exfalso; congruence); f_equal; lia.
Qed.

Lemma fold_counts events : ∃ buckets totals,
  fold_left (add_to_series windowStart bucketSize now n) events
    (Some (replicate (Z.to_nat n) zero_acc, mkMetrics 0 0 0)) = Some (buckets, totals) ∧
  counts events buckets totals.
Proof using size_pos window_fits.
  induction events as [|ev events IH] using rev_ind.
  - eexists _, _. split; [done|]. constructor; [apply length_replicate| |done].
    intros i a [-> _]%lookup_replicate. done.
  - destruct IH as (b & t & E & HC). rewrite fold_left_app, E. cbn [fold_left]. by apply add_to_series_counts.
Qed.
End Aggregate.

(**  the health time series counts every event once.  For a positive
    bucket size and a window that ends after it starts, the aggregation does
    not panic; it has one bucket per started bucket size; bucket [i] counts,
    for each of the three event types, exactly the events of the window whose
    time lies in that bucket (the last one includes the window's end); and
    the totals are the numbers of events of each type in the window. *)
Theorem health_series_counts (latency_ms : bytes → option Z) (events : list Event) (windowStart now : Time)
    (bucketSize : Duration) :
  0 < bucketSize → windowStart <= now /\ now - windowStart < two63 →
  ∃ s, AggregateHealthTimeSeries latency_ms events windowStart bucketSize now = Some s ∧
    Z.of_nat (length (ht_Buckets s)) = num_buckets windowStart bucketSize now ∧
    (∀ i b, ht_Buckets s !! i = Some b →
       bm_Start b = windowStart + Z.of_nat i * bucketSize ∧
       bm_Delivered b = count_in windowStart now bucketSize EventDeliveryCompleted i events ∧
       bm_Failed b = count_in windowStart now bucketSize EventDeliveryFailed i events ∧
       bm_Retried b = count_in windowStart now bucketSize EventErrorRetried i events) ∧
    ht_Totals s = mkMetrics (count_all windowStart now EventDeliveryCompleted events)
                    (count_all windowStart now EventDeliveryFailed events)
                    (count_all windowStart now EventErrorRetried events) ∧
    (∀ ev, ev ∈ events → in_window windowStart now ev = true →
       let i := bucket_of windowStart bucketSize (num_buckets windowStart bucketSize now) ev in
       0 <= i < num_buckets windowStart bucketSize now ∧
       windowStart + i * bucketSize <= ev_Timestamp ev ∧
       (i < num_buckets windowStart bucketSize now - 1 → ev_Timestamp ev < windowStart + (i + 1) * bucketSize)).
Proof.
  intros Hs Hw. destruct (fold_counts latency_ms windowStart now bucketSize Hs Hw events) as (bs & t & E & [C1 C2 C3]).
  unfold AggregateHealthTimeSeries. replace (bucketSize =? 0) with false by (symmetry; lia). cbv zeta. rewrite E.
  eexists. split; [done|]. cbn [ht_Buckets ht_Totals]. pose proof (num_buckets_pos windowStart now bucketSize).
  split_and!; [rewrite length_imap, C1; lia| |done|].
  - intros i b Hb. rewrite list_lookup_imap in Hb. destruct (bs !! i) as [a|] eqn:Ea; [|done].
    cbn in Hb. injection Hb as <-. cbn. by destruct (C2 i a Ea) as (-> & -> & ->).
  - intros ev _ Hin. pose proof (bucket_of_range windowStart now bucketSize Hs Hw ev Hin) as Hr.
    split; [done|]. unfold in_window in Hin. assert (windowStart <= ev_Timestamp ev <= now) as Ht by lia.
    unfold bucket_of in *. cbv zeta in *.
    assert (Sub (ev_Timestamp ev) windowStart = ev_Timestamp ev - windowStart) as Es by (by apply (Sub_window windowStart now)).
    rewrite Es in *.
    pose proof (Z.quot_rem' (ev_Timestamp ev - windowStart) bucketSize) as Hq.
    pose proof (Z.rem_bound_pos (ev_Timestamp ev - windowStart) bucketSize ltac:(lia) Hs) as Hb.
    destruct (_ <=? _) eqn:El; [|nia]. split; [nia|lia].
Qed.

Lemma health_series_counts_witness :
  let e ty t := mkEvent 1 "x" ty t (raw "{}") "" "" "" "" "" 1 in
  ∃ s, AggregateHealthTimeSeries (λ _, Some 4) [e EventDeliveryCompleted 3; e EventDeliveryFailed 10; e EventErrorRetried 12]
         2 5 12 = Some s ∧
    ht_Totals s = mkMetrics 1 1 1 ∧ Z.of_nat (length (ht_Buckets s)) = 2.
Proof.
  intros e. destruct (health_series_counts (λ _, Some 4)
    [e EventDeliveryCompleted 3; e EventDeliveryFailed 10; e EventErrorRetried 12] 2 12 5) as (s & H1 & H2 & _ & H4 & _).
  - lia.
  - unfold two63. lia.
  - exists s. split_and!; [exact H1|rewrite H4; reflexivity|rewrite H2; reflexivity].
Defined.
