(* ===== verification/Wiring.v ===== *)
(** * Starting a daemon

    Models [domain/primitives.go], [domain/command.go], the constructors of
    the four SQLite stores, [session/daemon_lock_unix.go],
    [session/store_factory.go], [session/daemon_runner_adapter.go],
    [usecase/daemon.go] and [runDaemon] of [cmd/run.go]: how a process turns
    its flags and the configuration on disk into a running daemon, and what it
    holds on the way.

    A [Host] has the files and tables, what every process has open, and the
    advisory locks of the operating system.  Locks belong to inodes, which are
    named by a path and how often a file has appeared there: a lock file that
    is removed and created again is another inode.  The number of an
    action's performer is its process id.  [Daemon.Run], which [DaemonRun]
    models as a step function, is a parameter here: any program over the
    world.  Logging is left out. *)
From S2P Require Import Prelude GoStrings GoPath GoTime DMail Router Prog World SetupSafety Setup Daemon Events Files EventStore Cutover StateDirs ConfigFile Insight Policies DeliverSafety.

#[local] Open Scope nat_scope.

(** ** [domain/primitives.go], [domain/command.go] *)

Definition TrackingMode : Type := string.
Definition ModeWave : TrackingMode := "wave".
Definition ModeLinear : TrackingMode := "linear".
Definition NewTrackingMode (linear : bool) : TrackingMode := if linear then ModeLinear else ModeWave.
Definition IsLinear (m : TrackingMode) : bool := bool_decide (m = ModeLinear).
Definition IsWave (m : TrackingMode) : bool := bool_decide (m = ModeWave).

(** The structs have one unexported field: their values are the zero value
    and what the constructors return. *)
Record RepoPath := mkRepoPath { rp_v : string }.
Definition NewRepoPath (raw : string) : result RepoPath :=
  if bool_decide (raw = "") then Err (errors_New "RepoPath is required") else Ok (mkRepoPath raw).
Record ConfigPath := mkConfigPath { cp_v : string }.
Definition NewConfigPath (raw : string) : result ConfigPath :=
  if bool_decide (raw = "") then Err (errors_New "ConfigPath is required") else Ok (mkConfigPath raw).
Record NonEmptyRepoPaths := mkNonEmpty { ne_v : list RepoPath }.
Definition NewNonEmptyRepoPaths (paths : list RepoPath) : result NonEmptyRepoPaths :=
  if length paths =? 0 then Err (errors_New "at least one RepoPath is required") else Ok (mkNonEmpty paths).
Definition Strings (n : NonEmptyRepoPaths) : list string := rp_v <$> ne_v n.
Record RetryInterval := mkRetryInterval { ri_v : Duration }.
Definition NewRetryInterval (d : Duration) : result RetryInterval :=
  if (d <=? 0)%Z then Err (errors_New "RetryInterval must be positive") else Ok (mkRetryInterval d).
Record MaxRetries := mkMaxRetries { mr_v : Z }.
Definition NewMaxRetries (n : Z) : result MaxRetries :=
  if (n <? 0)%Z then Err (errors_New "MaxRetries must be non-negative") else Ok (mkMaxRetries n).

Record RunDaemonCommand := NewRunDaemonCommand {
  rc_verbose : bool; rc_dryRun : bool; rc_retryInterval : RetryInterval; rc_maxRetries : MaxRetries;
  rc_idleTimeout : Duration }.

(** ** The host *)

Abbreviation inode := (string * nat)%type.
Inductive handle := HLock (ino : inode) | HSeq | HQueue | HDedup | HDelivery | HWatcher | HPool | HLog.
#[export] Instance handle_eq_dec : EqDecision handle.
Proof. solve_decision. Defined.

(** [h_born] counts the files that have appeared at a path; [h_running] are the
    processes inside [Daemon.Run], with the lock file of their state directory. *)
Record Host := mkHost {
  h_store : Store;
  h_born : string → nat;
  h_flock : gmap inode nat;                (* the process that holds the lock *)
  h_open : list (nat * handle);
  h_running : list (nat * string) }.

Definition host_world (h : Host) : World := st_world (h_store h).
Definition set_flock (l : gmap inode nat) (h : Host) : Host := mkHost (h_store h) (h_born h) l (h_open h) (h_running h).
Definition set_open (l : list (nat * handle)) (h : Host) : Host :=
  mkHost (h_store h) (h_born h) (h_flock h) l (h_running h).
Definition set_running (l : list (nat * string)) (h : Host) : Host := mkHost (h_store h) (h_born h) (h_flock h) (h_open h) l.

Fixpoint drop_first (x : nat * handle) (l : list (nat * handle)) : list (nat * handle) :=
  match l with
  | [] => []
  | y :: r => if bool_decide (y = x) then r else y :: drop_first x r
  end.

(** A change of the files: where one appears, it is a new inode. *)
Definition put_store (s : Store) (h : Host) : Host :=
  let absent w k := bool_decide (w_fs w !! k = None) in
  mkHost s (λ k, if absent (host_world h) k && negb (absent (st_world s) k) then S (h_born h k) else h_born h k)
    (h_flock h) (h_open h) (h_running h).
Fixpoint on_store {A} (p : prog Store A) : prog Host A :=
  match p with
  | Ret a => Ret a
  | Act m k => Act (λ i h, (fst (m i (h_store h)), put_store (snd (m i (h_store h))) h)) (λ x, on_store (k x))
  end.
Definition on_world {A} (p : program A) : prog Host A := on_store (lift p).

Definition opens (x : handle) : prog Host unit := atom_by (λ i h, (tt, set_open ((i, x) :: h_open h) h)).
Definition closes (x : handle) : prog Host unit := atom_by (λ i h, (tt, set_open (drop_first (i, x) (h_open h)) h)).
(** An operation that changes nothing here, but can fail. *)
Definition may_fail (prefix : string) : prog Host (result unit) :=
  on_world (atom (guarded prefix (λ w, (Ok tt, w)))).

(** ** [daemon_lock_unix.go] *)

(** [os.OpenFile(lockPath, os.O_CREATE|os.O_RDWR, 0o600)]: the inode opened. *)
Definition open_lock (lockPath : string) : prog Host (result inode) :=
  atom_by (λ i h,
    let '(r, w) := os_OpenAppend lockPath (host_world h) in
    let h := put_store (mkStore w (st_next (h_store h))) h in
    match r with
    | Err e => (Err e, h)
    | Ok _ => let ino := (Clean lockPath, h_born h (Clean lockPath)) in
              (Ok ino, set_open ((i, HLock ino) :: h_open h) h)
    end).
(** [syscall.Flock(fd, LOCK_EX|LOCK_NB)]: any error counts as a lock held by
    another process. *)
Definition flock_nb (ino : inode) : prog Host bool :=
  atom_by (λ i h,
    let '(f, w) := fault (host_world h) in
    let h := put_store (mkStore w (st_next (h_store h))) h in
    match f, h_flock h !! ino with
    | None, None => (true, set_flock (<[ino := i]> (h_flock h)) h)
    | _, _ => (false, h)
    end).
(** Closing the file drops the lock too. *)
Definition close_lock (ino : inode) : prog Host unit :=
  atom_by (λ i h,
    let h := set_open (drop_first (i, HLock ino) (h_open h)) h in
    (tt, if bool_decide (h_flock h !! ino = Some i) then set_flock (delete ino (h_flock h)) h else h)).
(** [LOCK_UN], whose failure is ignored, then [Close]. *)
Definition unlock (ino : inode) : prog Host unit :=
  _ ← may_fail "";
  close_lock ino.

Definition TryLockDaemon (stateDir : string) : prog Host (result inode) :=
  r ← on_world (atom (os_MkdirAll stateDir));
  match r with
  | Err err => mret (Err (errorf_w "create lock dir: " err))
  | Ok _ =>
      let lockPath := path_Join [stateDir; "daemon.lock"] in
      o ← open_lock lockPath;
      match o with
      | Err err => mret (Err (errorf_w "open lock file: " err))
      | Ok ino =>
          got ← flock_nb ino;
          if got : bool then mret (Ok ino)
          else _ ← close_lock ino; mret (Err (errors_New ("daemon already running (lock held on " +:+ lockPath +:+ ")")))
      end
  end.

(** ** Opening the stores *)

(** Statements in order; the database is closed when one fails. *)
Fixpoint exec_stmts (x : handle) (stmts : list string) : prog Host (result unit) :=
  match stmts with
  | [] => mret (Ok tt)
  | s :: r =>
      e ← may_fail s;
      match e with
      | Err err => _ ← closes x; mret (Err err)
      | Ok _ => exec_stmts x r
      end
  end.
(** [os.MkdirAll], [sql.Open], the pragmas and the schema. *)
Definition open_db (x : handle) (name dir : string) (stmts : list string) : prog Host (result unit) :=
  r ← on_world (atom (os_MkdirAll dir));
  match r with
  | Err err => mret (Err (errorf_w (name +:+ ": create dir: ") err))
  | Ok _ =>
      r ← may_fail (name +:+ ": open db: ");
      match r with
      | Err err => mret (Err err)
      | Ok _ => _ ← opens x; exec_stmts x ((λ s, name +:+ ": " +:+ s +:+ ": ") <$> stmts)
      end
  end.
Definition pragmas : list string := ["PRAGMA journal_mode=WAL"; "PRAGMA synchronous=NORMAL"; "PRAGMA busy_timeout=5000"].

Definition NewSQLiteErrorQueueStore (stateDir : string) : prog Host (result unit) :=
  open_db HQueue "error queue store" (path_Join [stateDir; ".run"]) (pragmas ++ ["create schema"]).
Definition NewSQLiteDeliveryStore (stateDir : string) : prog Host (result unit) :=
  open_db HDelivery "delivery store" (path_Join [stateDir; ".run"])
    (pragmas ++ ["PRAGMA auto_vacuum=INCREMENTAL"; "create schema"; "chmod"]).
Definition NewSQLiteDeliveryDedupStore (dbPath : string) : prog Host (result unit) :=
  open_db HDedup "delivery dedup store" (Dir dbPath) ["set WAL"; "create schema"].
Definition NewSeqCounter (dbPath : string) : prog Host (result unit) :=
  open_db HSeq "seq counter" (Dir dbPath) (pragmas ++ ["create table"; "init row"]).

(** ** [store_factory.go] *)

Definition EnsureRunDir (stateDir : string) : prog Host (option error) :=
  r ← on_world (atom (os_MkdirAll (path_Join [stateDir; ".run"])));
  mret (match r with Err err => Some (errorf_w "ensure run dir: " err) | Ok _ => None end).

Section Stores.
Context `{External} `{JSON} `{SnapshotJSON}.
Variable date : Event → string.
Variable uuid : nat → string.

(** Without an error the counter stays open for its caller. *)
Definition EnsureCutover (stateDir aggregateType : string) : prog Host (option error) :=
  e ← EnsureRunDir stateDir;
  match e with
  | Some err => mret (Some err)
  | None =>
      r ← NewSeqCounter (path_Join [stateDir; "seq.db"]);
      match r with
      | Err err => mret (Some (errorf_w "ensure cutover: seq counter: " err))
      | Ok _ =>
          c ← on_store (RunCutover stateDir date uuid aggregateType);
          match snd c with
          | Some err => _ ← closes HSeq; mret (Some (errorf_w "ensure cutover: " err))
          | None => mret None
          end
      end
  end.

(** ** [daemon_runner_adapter.go] *)

Context `{YAML}.

(** [NewDaemon]: the watcher and the worker pool. *)
Definition NewDaemon (d : Daemon) : prog Host (result Daemon) :=
  r ← may_fail "create watcher: ";
  match r with
  | Err err => mret (Err err)
  | Ok _ => _ ← opens HWatcher; _ ← opens HPool; mret (Ok d)
  end.
(** The log is created when it is missing; its lines are in [w_dlog]. *)
Definition NewDeliveryLog : prog Host (result unit) :=
  r ← may_fail "open delivery log: ";
  match r with
  | Err err => mret (Err err)
  | Ok _ => _ ← opens HLog; mret (Ok tt)
  end.

Record Runner := mkRunner {
  rn_daemon : Daemon; rn_lock : inode; rn_routeCount : nat; rn_outboxCount : nat }.

(** The options of the command and what the configuration gives. *)
Definition new_daemon (cmd : RunDaemonCommand) (routes : list ResolvedRoute) (outboxDirs : list string) (stateDir : string)
    (pid : Z) : Daemon :=
  mkDaemon routes outboxDirs stateDir (rc_dryRun cmd) (ri_v (rc_retryInterval cmd)) (mr_v (rc_maxRetries cmd))
    (rc_idleTimeout cmd) false false false false false pid.
(** [d.dedupStore = dedupStore] and [d.session = ds], with its error queue. *)
Definition with_stores (d : Daemon) : Daemon :=
  mkDaemon (d_Routes d) (d_OutboxDirs d) (d_StateDir d) (d_DryRun d) (d_RetryInterval d) (d_MaxRetries d)
    (d_IdleTimeout d) (d_dlog d) true true (d_Emitter d) true (d_pid d).

(** From the lock on. *)
Definition open_stores (cmd : RunDaemonCommand) (routes : list ResolvedRoute) (outboxDirs : list string)
    (stateDir : string) (ino : inode) : prog Host (result Runner) :=
  let runDir := path_Join [stateDir; ".run"] in
  e ← EnsureRunDir stateDir;
  match e with
  | Some err => _ ← unlock ino; mret (Err err)
  | None =>
  c ← EnsureCutover stateDir "phonewave.state";
  match c with
  | Some err => _ ← unlock ino; mret (Err (errorf_w "cutover: " err))
  | None =>
  q ← NewSQLiteErrorQueueStore stateDir;
  match q with
  | Err err => _ ← closes HSeq; _ ← unlock ino; mret (Err (errorf_w "create error queue store: " err))
  | Ok _ =>
  s ← NewSQLiteDeliveryDedupStore (path_Join [runDir; "delivery_dedup.db"]);
  match s with
  | Err err => _ ← closes HQueue; _ ← closes HSeq; _ ← unlock ino; mret (Err (errorf_w "create dedup store: " err))
  | Ok _ =>
  pid ← atom_by (λ i h, (Z.of_nat i, h));
  d ← NewDaemon (new_daemon cmd routes outboxDirs stateDir pid);
  match d with
  | Err err => _ ← closes HQueue; _ ← closes HSeq; _ ← unlock ino; mret (Err (errorf_w "create daemon: " err))
  | Ok d =>
  l ← NewDeliveryLog;
  match l with
  | Err err =>
      _ ← closes HDedup; _ ← closes HQueue; _ ← closes HSeq; _ ← unlock ino;
      mret (Err (errorf_w "open delivery log: " err))
  | Ok _ => mret (Ok (mkRunner (with_stores d) ino (length routes) (length outboxDirs)))
  end end end end end end.

Definition NewDaemonRunner (cmd : RunDaemonCommand) (cfgPath baseDir : string) : prog Host (result Runner) :=
  c ← on_world (LoadConfig cfgPath);
  match c with
  | Err err => mret (Err (errorf_w "load config: " err))
  | Ok cfg =>
      match ResolveRoutes cfg with
      | Err err => mret (Err (errorf_w "resolve routes: " err))
      | Ok routes =>
          e ← on_world (EnsurePhonewaveStateDir (Dir baseDir));
          match e with
          | Some err => mret (Err (errorf_w "create state dir: " err))
          | None =>
              l ← TryLockDaemon (path_Join [baseDir; ".run"]);
              match l with
              | Err err => mret (Err (errorf_w "daemon lock: " err))
              | Ok ino => open_stores cmd routes (CollectOutboxDirs cfg) baseDir ino
              end
          end
      end
  end.

(** [SetEmitter]; the emitter gets the sequence allocator, which is never
    nil here. *)
Definition SetEmitter (rn : Runner) : Runner :=
  let d := rn_daemon rn in
  mkRunner (mkDaemon (d_Routes d) (d_OutboxDirs d) (d_StateDir d) (d_DryRun d) (d_RetryInterval d) (d_MaxRetries d)
    (d_IdleTimeout d) (d_dlog d) (d_session d) (d_ErrorQueue d) true (d_dedupStore d) (d_pid d))
    (rn_lock rn) (rn_routeCount rn) (rn_outboxCount rn).

Definition Close (rn : Runner) : prog Host unit :=
  _ ← closes HDedup; _ ← closes HSeq; _ ← closes HLog; _ ← closes HQueue; unlock (rn_lock rn).

(** ** [usecase/daemon.go] *)

(** The engine holds the policies over the runner's insight ledger. *)
Definition PrepareDaemonRunner `{InsightText} `{PayloadJSON} (rn : Runner) : PolicyEngine (S := PState) * Runner :=
  let stateDir := d_StateDir (rn_daemon rn) in
  (registerDaemonPolicies (path_Join [stateDir; "insights"]) (path_Join [stateDir; ".run"]) NewPolicyEngine,
   SetEmitter rn).

(** ** [cmd/run.go] *)

(** [Daemon.Run], for a daemon. *)
Variable Run : Daemon → program (option error).

(** The call of [Run]; its deferred calls close the watcher and the pool. *)
Definition Runner_Run (rn : Runner) : prog Host (option error) :=
  _ ← atom_by (λ i h, (tt, set_running ((i, fst (rn_lock rn)) :: h_running h) h));
  e ← on_world (Run (rn_daemon rn));
  _ ← closes HWatcher; _ ← closes HPool;
  _ ← atom_by (λ i h, (tt, set_running (filter (λ x, fst x ≠ i) (h_running h)) h));
  mret e.

Record RunFlags := mkFlags {
  fl_verbose : bool; fl_dry_run : bool; fl_retry_interval : Duration; fl_max_retries : Z; fl_idle_timeout : Duration;
  fl_config : string }.

Definition run_command (fl : RunFlags) : result RunDaemonCommand :=
  match NewRetryInterval (fl_retry_interval fl) with
  | Err err => Err err
  | Ok ri =>
      match NewMaxRetries (fl_max_retries fl) with
      | Err err => Err err
      | Ok mr => Ok (NewRunDaemonCommand (fl_verbose fl) (fl_dry_run fl) ri mr (fl_idle_timeout fl))
      end
  end.

Definition runDaemon (fl : RunFlags) : prog Host (option error) :=
  match run_command fl with
  | Err err => mret (Some err)
  | Ok cmd =>
      r ← NewDaemonRunner cmd (fl_config fl) (Dir (fl_config fl));
      match r with
      | Err err => mret (Some err)
      | Ok rn =>
          if rn_outboxCount rn =? 0 then _ ← Close rn; mret None
          else
            e ← Runner_Run (SetEmitter rn);
            _ ← Close rn;
            mret (match e with Some err => Some (errorf_w "daemon: " err) | None => None end)
      end
  end.
End Stores.
