(* ===== verification/WiringSafety.v ===== *)
(** * At most one daemon, and nothing left behind

    Rely-guarantee proofs over the processes of [Wiring]: each knows what it
    holds itself, whatever the others do, are killed, or happens to the files.
    The invariant of a lock file is that its locks are on inodes that have
    existed, and that whoever is inside [Daemon.Run] holds one of them. *)
From S2P Require Import Prelude GoStrings GoPath GoTime DMail Prog World Setup Daemon Events Files Cutover StateDirs ConfigFile Insight Policies Wiring.

#[local] Open Scope nat_scope.

(** * Theorems *)

(** ** What a process holds *)

Definition own_in (i : nat) (l : list (nat * handle)) : list handle :=
  omap (λ x, if bool_decide (fst x = i) then Some (snd x) else None) l.
Definition own (i : nat) (h : Host) : list handle := own_in i (h_open h).

Fixpoint drop_one (x : handle) (l : list handle) : list handle :=
  match l with [] => [] | y :: r => if bool_decide (y = x) then r else y :: drop_one x r end.

Lemma own_in_cons i j x l : own_in i ((j, x) :: l) = if bool_decide (j = i) then x :: own_in i l else own_in i l.
Proof. unfold own_in. cbn. by destruct (bool_decide _). Qed.
Lemma own_in_drop i j x l : own_in i (drop_first (j, x) l) = if bool_decide (j = i) then drop_one x (own_in i l) else own_in i l.
Proof.
  induction l as [|[k y] l IH]; [by case_bool_decide|]. cbn [drop_first].
  destruct (decide ((k, y) = (j, x))) as [[= -> ->]|Hn].
  - rewrite bool_decide_true, own_in_cons by done. case_bool_decide; [|done]. cbn [drop_one]. by rewrite bool_decide_true.
  - rewrite bool_decide_false, !own_in_cons, IH by done. repeat (case_bool_decide; subst); try done.
    cbn [drop_one]. rewrite bool_decide_false; [done|congruence].
Qed.

(** ** Rely and guarantee *)

Section Locks.
(** One lock file, and the number of its first inode from the start on. *)
Variable L : string.
Variable start first : nat.

Definition present (h : Host) : Prop := w_fs (host_world h) !! L ≠ None.
Record Inv (h : Host) : Prop := {
  inv_lock : ∀ ino i, h_flock h !! ino = Some i → fst ino = L → first ≤ snd ino ≤ h_born h L;
  inv_running : ∀ i, (i, L) ∈ h_running h → ∃ n, h_flock h !! (L, n) = Some i;
  inv_once : NoDup (fst <$> h_running h);
  inv_start : start ≤ h_born h L;
  inv_present : present h → first ≤ h_born h L }.
Hypothesis first_start : first ≤ S start.

Record Rely (i : nat) (h h' : Host) : Prop := {
  rely_lock : ∀ ino, h_flock h !! ino = Some i ↔ h_flock h' !! ino = Some i;
  rely_own : own i h' = own i h;
  rely_running : ∀ p, (i, p) ∈ h_running h ↔ (i, p) ∈ h_running h';
  rely_born : ∀ k, h_born h k ≤ h_born h' k;
  rely_inv : Inv h → Inv h' }.
#[export] Instance Rely_PreOrder i : PreOrder (Rely i).
Proof.
  split; [done|]. intros u v w [A1 A2 A3 A4 A5] [B1 B2 B3 B4 B5]. split; [intros; by rewrite A1, B1|congruence|intros; by rewrite A3, B3| |].
  { intros k. etrans; eauto. }
  auto.
Qed.


Definition Guar (i : nat) (h h' : Host) : Prop := (Inv h → Inv h') ∧ ∀ j, j ≠ i → Rely j h h'.
Lemma compatible i j h h' : i ≠ j → Guar i h h' → Rely j h h'.
Proof. intros Hij [_ HR]. by apply HR. Qed.
#[local] Abbreviation wp := (Prog.wp Rely Guar).

(** Files change; the locks and what is open do not. *)
Lemma put_store_born s h k : h_born h k ≤ h_born (put_store s h) k.
Proof. cbn. destruct (_ && _); lia. Qed.
Lemma put_store_inv s h : Inv h → Inv (put_store s h).
Proof using first_start.
  intros [I1 I2 I3 I4 I5]. pose proof (put_store_born s h L) as Hb. split; [|done|done|lia|].
  - intros ino i Hi Ho. specialize (I1 ino i Hi Ho). lia.
  - unfold present. intros Hp. cbn [put_store h_born]. destruct (decide (present h)) as [Hh|Hh].
    + specialize (I5 Hh). cbn in Hb. lia.
    + unfold present in Hh. apply dec_stable in Hh. rewrite bool_decide_true by done.
      rewrite bool_decide_false by (intros E; by apply Hp). cbn. lia.
Qed.
Lemma put_store_rely i s h : Rely i h (put_store s h).
Proof using first_start. split; [done|done|done|apply put_store_born|apply put_store_inv]. Qed.
Lemma put_store_guar i s h : Guar i h (put_store s h).
Proof using first_start. split; [apply put_store_inv|]. intros j _. apply put_store_rely. Qed.

(** What process [i] knows about itself. *)
Record mine (i : nat) (l : list handle) (lk : option inode) (h : Host) : Prop := {
  mine_own : own i h = l;
  mine_lock : ∀ ino, h_flock h !! ino = Some i ↔ lk = Some ino;
  mine_idle : ∀ p, (i, p) ∉ h_running h;
  mine_inv : Inv h }.
Lemma mine_stable i l lk h h' : Rely i h h' → mine i l lk h → mine i l lk h'.
Proof.
  intros [R1 R2 R3 _ R5] [M1 M2 M3 M4]. split; [congruence|intros; by rewrite <- R1| |auto]. intros p. rewrite <- R3. apply M3.
Qed.

Lemma wp_files {A} i (p : prog Host A) (Q : A → Host → Prop) l lk h :
  (∃ q, p = on_store q) → (∀ a h', mine i l lk h' → Q a h') → mine i l lk h → wp i p Q h.
Proof using first_start.
  intros [q ->] HQ. revert h. induction q as [a|X m k IH]; intros h Hm.
  - intros h' HR. apply HQ. by eapply mine_stable.
  - intros h' HR. split.
    + apply put_store_guar.
    + apply IH. eapply mine_stable; [apply put_store_rely|]. by eapply mine_stable.
Qed.
Lemma files_world {A} (p : program A) : ∃ q, on_world p = on_store q.
Proof. by eexists. Qed.

(** Steps on what is open. *)
Lemma step_open (f : list (nat * handle) → list (nat * handle)) i h :
  (∀ j, j ≠ i → own_in j (f (h_open h)) = own_in j (h_open h)) → Guar i h (set_open (f (h_open h)) h).
Proof.
  intros Hf. assert (Inv h → Inv (set_open (f (h_open h)) h)) as Hi by (by intros []). split; [done|].
  intros j Hj. split; [done|by apply Hf|done..].
Qed.

Lemma wp_opens i x (Q : unit → Host → Prop) l lk h :
  (∀ h', mine i (x :: l) lk h' → Q tt h') → mine i l lk h → wp i (opens x) Q h.
Proof.
  intros HQ Hm. apply wp_act. intros v HR. apply (mine_stable _ _ _ _ _ HR) in Hm. split.
  - apply (step_open (cons (i, x))). intros j Hj. rewrite own_in_cons. by rewrite bool_decide_false.
  - intros u Hu. apply HQ. apply (mine_stable _ _ _ _ _ Hu). destruct Hm as [M1 M2 M3 M4]. split; [|done|done|by destruct M4].
    unfold own. cbn [snd set_open h_open]. rewrite own_in_cons, bool_decide_true by done. by f_equal.
Qed.
Lemma wp_closes i x (Q : unit → Host → Prop) l lk h :
  (∀ h', mine i (drop_one x l) lk h' → Q tt h') → mine i l lk h → wp i (closes x) Q h.
Proof.
  intros HQ Hm. apply wp_act. intros v HR. apply (mine_stable _ _ _ _ _ HR) in Hm. split.
  - apply (step_open (drop_first (i, x))). intros j Hj. rewrite own_in_drop. by rewrite bool_decide_false.
  - intros u Hu. apply HQ. apply (mine_stable _ _ _ _ _ Hu). destruct Hm as [M1 M2 M3 M4]. split; [|done|done|by destruct M4].
    unfold own in *. cbn [snd set_open h_open]. rewrite own_in_drop, bool_decide_true by done. by f_equal.
Qed.

(** An inode of the lock file that was opened from the start on. *)
Definition lock_ok (ino : inode) (h : Host) : Prop := fst ino = L → first ≤ snd ino ≤ h_born h L.

Lemma open_appended p w : ∀ r, fst (os_OpenAppend p w) = Ok r → w_fs (snd (os_OpenAppend p w)) !! Clean p ≠ None.
Proof.
  intros r. unfold os_OpenAppend, guarded, fault, lookup_path. change (w_fs (bump w)) with (w_fs w).
  destruct (env_fault _ _); [done|]. destruct (w_fs w !! Clean p) as [[]|] eqn:E; cbn [fst snd]; [|done|].
  - intros _. cbn. by rewrite E.
  - destruct (w_fs w !! Clean (Dir p)) as [[]|]; cbn [fst snd]; try done. intros _. cbn. by rewrite lookup_insert_eq.
Qed.

(** The locks stay exclusive when a free one is taken. *)
Lemma flock_inv ino i h : lock_ok ino h → h_flock h !! ino = None → Inv h → Inv (set_flock (<[ino := i]> (h_flock h)) h).
Proof.
  intros Hok Hfree [I1 I2 I3 I4 I5]. split; [|..|done|done|done].
  - intros ino' j Hj Hl. cbn in Hj. apply lookup_insert_Some in Hj as [[<- <-]|[_ Hj]]; [by apply Hok|by apply (I1 _ j)].
  - intros j Hj. destruct (I2 j Hj) as [n Hn]. exists n. cbn. rewrite lookup_insert_ne; [done|]. intros E. rewrite <- E in Hn. by rewrite Hfree in Hn.
Qed.

Lemma wp_open_lock i p (Q : result inode → Host → Prop) l lk h :
  (∀ r h', match r with
           | Ok ino => fst ino = Clean p ∧ lock_ok ino h' ∧ mine i (HLock ino :: l) lk h'
           | Err _ => mine i l lk h'
           end → Q r h') →
  mine i l lk h → wp i (open_lock p) Q h.
Proof using first_start.
  intros HQ Hm. apply wp_act. intros v HR. apply (mine_stable _ _ _ _ _ HR) in Hm. cbn beta zeta.
  pose proof (open_appended p (host_world v)) as Ha. destruct (os_OpenAppend p (host_world v)) as [r w]. cbn [fst snd] in Ha.
  set (v' := put_store (mkStore w (st_next (h_store v))) v).
  pose proof (put_store_guar i (mkStore w (st_next (h_store v))) v) as HG. fold v' in HG.
  assert (mine i l lk v') as Hm' by (eapply mine_stable; [apply put_store_rely|done]).
  destruct r as [[]|e]; cbn [fst snd].
  2: { split; [done|]. intros u Hu. apply HQ. by eapply mine_stable. }
  set (ino := (Clean p, h_born v' (Clean p))). split.
  - destruct HG as [G1 G2]. destruct (step_open (cons (i, HLock ino)) i v') as [O1 O2].
    { intros j Hj. rewrite own_in_cons. by rewrite bool_decide_false. }
    split; [auto|]. intros j Hj. etrans; [by apply G2|]. by apply O2.
  - intros u Hu. apply HQ. split; [done|]. pose proof (mine_inv _ _ _ _ Hm') as Hi. split.
    + intros El. cbn in El. pose proof (rely_born _ _ _ Hu L) as Hb. cbn [set_open h_born] in Hb. cbn [snd ino]. rewrite El.
      split; [|done]. apply (inv_present _ Hi). unfold present, host_world. cbn [v' put_store h_store st_world]. rewrite <- El.
      by apply (Ha tt).
    + apply (mine_stable _ _ _ _ _ Hu). destruct Hm' as [M1 M2 M3 M4]. split; [|done|done|by destruct M4].
      unfold own in *. cbn [set_open h_open]. rewrite own_in_cons, bool_decide_true by done. by f_equal.
Qed.

Lemma lock_ok_stable i ino h h' : Rely i h h' → lock_ok ino h → lock_ok ino h'.
Proof. intros HR Hok E. specialize (Hok E). pose proof (rely_born _ _ _ HR L). lia. Qed.

Lemma wp_flock i ino (Q : bool → Host → Prop) l h :
  (∀ (b : bool) h', (if b then mine i l (Some ino) h' else mine i l None h') → Q b h') →
  lock_ok ino h → mine i l None h → wp i (flock_nb ino) Q h.
Proof using first_start.
  intros HQ Hok Hm. apply wp_act. intros v HR. apply (mine_stable _ _ _ _ _ HR) in Hm. apply (lock_ok_stable _ _ _ _ HR) in Hok.
  cbn beta zeta. unfold fault.
  set (v' := put_store (mkStore (bump (host_world v)) (st_next (h_store v))) v).
  pose proof (put_store_guar i (mkStore (bump (host_world v)) (st_next (h_store v))) v) as HG. fold v' in HG.
  assert (Rely i v v') as HR' by apply put_store_rely.
  apply (mine_stable _ _ _ _ _ HR') in Hm. apply (lock_ok_stable _ _ _ _ HR') in Hok.
  assert (∀ u, Rely i v' u → Q false u) as Hno by (intros u Hu; apply (HQ false); by eapply mine_stable).
  destruct (env_fault _ _); [by split|]. change (h_flock v) with (h_flock v').
  destruct (h_flock v' !! ino) as [j|] eqn:Ef; cbn [fst snd]; [by split|].
  pose proof (flock_inv ino i v' Hok Ef) as Hinv. split.
  - destruct HG as [G1 G2]. split; [auto|]. intros j Hj. etrans; [by apply G2|]. split; [|done..|exact Hinv].
    intros ino'. cbn. rewrite lookup_insert_Some. split; [|naive_solver]. intros E. right. split; [|done]. intros <-. change (h_flock v' !! ino = Some j) in E. congruence.
  - intros u Hu. apply (HQ true). apply (mine_stable _ _ _ _ _ Hu). destruct Hm as [M1 M2 M3 M4]. split; [done| |done|auto].
    intros ino'. cbn. rewrite lookup_insert_Some. split; [|naive_solver].
    intros [[-> _]|[_ E]]; [done|]. by apply M2 in E.
Qed.

Lemma wp_close_lock i ino (Q : unit → Host → Prop) l lk h :
  (∀ h', mine i (drop_one (HLock ino) l) None h' → Q tt h') →
  lk = Some ino ∨ lk = None → mine i l lk h → wp i (close_lock ino) Q h.
Proof.
  intros HQ Hlk Hm. apply wp_act. intros v HR. apply (mine_stable _ _ _ _ _ HR) in Hm. cbn beta zeta.
  set (v' := set_open (drop_first (i, HLock ino) (h_open v)) v).
  destruct (step_open (drop_first (i, HLock ino)) i v) as [G1 G2].
  { intros j Hj. rewrite own_in_drop. by rewrite bool_decide_false. }
  fold v' in G1, G2.
  assert (mine i (drop_one (HLock ino) l) lk v') as Hm'.
  { destruct Hm as [M1 M2 M3 M4]. split; [|done|done|auto].
    change (own_in i (drop_first (i, HLock ino) (h_open v)) = drop_one (HLock ino) l). unfold own in M1.
    rewrite own_in_drop, bool_decide_true by done. by f_equal. }
  case_bool_decide as Eh; cbn [fst snd].
  - assert (Inv v' → Inv (set_flock (delete ino (h_flock v')) v')) as Hinv.
    { intros [I1 I2 I3 I4 I5]. split; [|..|done|done|done].
      - intros ino' j Hj. cbn in Hj. apply lookup_delete_Some in Hj as [_ Hj]. by apply I1 with j.
      - intros j Hj. destruct (I2 j Hj) as [n Hn]. exists n. cbn. rewrite lookup_delete_ne; [done|].
        intros ->. assert (i = j) as -> by congruence. by destruct (mine_idle _ _ _ _ Hm' L). }
    split.
    + split; [auto|]. intros j Hj. etrans; [by apply G2|]. split; [|done..|exact Hinv].
      intros ino'. cbn. rewrite lookup_delete_Some. split; [|naive_solver]. intros E. split; [|done]. intros ->. cbn in Eh. congruence.
    + intros u Hu. apply HQ. apply (mine_stable _ _ _ _ _ Hu). destruct Hm' as [M1 M2 M3 M4]. split; [done| |done|auto].
      intros ino'. cbn. rewrite lookup_delete_Some. split; [|done]. intros [Hn E]. apply M2 in E. destruct Hlk as [->| ->]; congruence.
  - split; [done|]. intros u Hu. apply HQ. apply (mine_stable _ _ _ _ _ Hu). destruct Hm' as [M1 M2 M3 M4]. split; [done| |done|done].
    intros ino'. rewrite M2. destruct Hlk as [->| ->]; [|done]. split; [|done]. intros [= ->]. destruct Eh. cbn. by apply M2.
Qed.

(** *** Composite operations *)

Lemma wp_mret {A} i (a : A) (Q : A → Host → Prop) l lk h :
  (∀ h', mine i l lk h' → Q a h') → mine i l lk h → wp i (mret a) Q h.
Proof. intros HQ Hm. apply wp_ret. intros v HR. apply HQ. by eapply mine_stable. Qed.

(** One operation of a program, from what is known before it. *)
Tactic Notation "wp_op" uconstr(lem) := apply (wp_bind Rely Guar); eapply lem; [..|eassumption].

Ltac drops := repeat (cbn [drop_one]; first [rewrite bool_decide_true by done | rewrite bool_decide_false by done]); cbn [drop_one].

Lemma wp_may_fail i prefix (Q : result unit → Host → Prop) l lk h :
  (∀ r h', mine i l lk h' → Q r h') → mine i l lk h → wp i (may_fail prefix) Q h.
Proof using first_start. intros HQ Hm. by apply (wp_files i (may_fail prefix) Q l lk); [apply files_world|..]. Qed.

Lemma wp_unlock i ino (Q : unit → Host → Prop) l lk h :
  (∀ h', mine i (drop_one (HLock ino) l) None h' → Q tt h') → lk = Some ino ∨ lk = None →
  mine i l lk h → wp i (unlock ino) Q h.
Proof using first_start.
  intros HQ Hlk Hm. wp_op wp_may_fail. intros _ h' Hm'. by eapply wp_close_lock.
Qed.

Lemma wp_TryLock i dir (Q : result inode → Host → Prop) l h :
  (∀ r h', match r with
           | Ok ino => fst ino = Clean (path_Join [dir; "daemon.lock"]) ∧ mine i (HLock ino :: l) (Some ino) h'
           | Err _ => mine i l None h'
           end → Q r h') →
  mine i l None h → wp i (TryLockDaemon dir) Q h.
Proof using first_start.
  intros HQ Hm. unfold TryLockDaemon. wp_op wp_files; [apply files_world|]. intros [[]|e] h1 H1.
  2: { eapply wp_mret; [|exact H1]. intros h' Hh. by apply HQ. }
  wp_op wp_open_lock. intros [ino|e] h2 H2.
  2: { eapply wp_mret; [|exact H2]. intros h' Hh. by apply HQ. }
  destruct H2 as (E & Hok & H2). apply (wp_bind Rely Guar). eapply wp_flock; [|exact Hok|exact H2]. intros [] h3 H3.
  - eapply wp_mret; [|exact H3]. intros h' Hh. by apply (HQ (Ok ino)).
  - wp_op wp_close_lock; [|by right]. intros h4 H4. cbn [drop_one] in H4. rewrite bool_decide_true in H4 by done.
    eapply wp_mret; [|exact H4]. intros h' Hh. by apply (HQ (Err _)).
Qed.

Lemma wp_exec_all i x stmts (Q : result unit → Host → Prop) l lk h :
  (∀ r h', mine i (match r with Ok _ => x :: l | Err _ => l end) lk h' → Q r h') →
  mine i (x :: l) lk h → wp i (exec_stmts x stmts) Q h.
Proof using first_start.
  intros HQ. revert h. induction stmts as [|s r IH]; intros h Hm; cbn [exec_stmts].
  - eapply wp_mret; [|exact Hm]. intros h' Hh. by apply (HQ (Ok tt)).
  - wp_op wp_may_fail. intros [[]|e] h1 H1; [by apply IH|].
    wp_op wp_closes. intros h2 H2. cbn [drop_one] in H2. rewrite bool_decide_true in H2 by done.
    eapply wp_mret; [|exact H2]. intros h' Hh. by apply (HQ (Err e)).
Qed.
Lemma wp_open_db i x name dir stmts (Q : result unit → Host → Prop) l lk h :
  (∀ r h', mine i (match r with Ok _ => x :: l | Err _ => l end) lk h' → Q r h') →
  mine i l lk h → wp i (open_db x name dir stmts) Q h.
Proof using first_start.
  intros HQ Hm. unfold open_db. wp_op wp_files; [apply files_world|]. intros [[]|e] h1 H1.
  2: { eapply wp_mret; [|exact H1]. intros h' Hh. by apply (HQ (Err _)). }
  wp_op wp_may_fail. intros [[]|e] h2 H2.
  2: { eapply wp_mret; [|exact H2]. intros h' Hh. by apply (HQ (Err _)). }
  wp_op wp_opens. intros h3 H3. by eapply wp_exec_all.
Qed.

Lemma wp_EnsureRunDir i dir (Q : option error → Host → Prop) l lk h :
  (∀ r h', mine i l lk h' → Q r h') → mine i l lk h → wp i (EnsureRunDir dir) Q h.
Proof using first_start.
  intros HQ Hm. unfold EnsureRunDir. wp_op wp_files; [apply files_world|]. intros r h1 H1.
  eapply wp_mret; [|exact H1]. intros h' Hh. by apply HQ.
Qed.

Section Start.
Context `{EX : External} `{JS : JSON} `{SJ : SnapshotJSON} `{YM : YAML}.
Variable date : Event → string.
Variable uuid : nat → string.

Lemma wp_EnsureCutover i dir ty (Q : option error → Host → Prop) l lk h :
  (∀ r h', mine i (match r with None => HSeq :: l | Some _ => l end) lk h' → Q r h') →
  mine i l lk h → wp i (EnsureCutover date uuid dir ty) Q h.
Proof using first_start.
  intros HQ Hm. unfold EnsureCutover. wp_op wp_EnsureRunDir. intros [e|] h1 H1.
  { eapply wp_mret; [|exact H1]. intros h' Hh. by apply (HQ (Some _)). }
  wp_op wp_open_db. intros [[]|e] h2 H2.
  2: { eapply wp_mret; [|exact H2]. intros h' Hh. by apply (HQ (Some _)). }
  wp_op wp_files; [by eexists|]. intros [c [e|]] h3 H3; cbn [snd].
  - wp_op wp_closes. intros h4 H4. cbn [drop_one] in H4. rewrite bool_decide_true in H4 by done.
    eapply wp_mret; [|exact H4]. intros h' Hh. by apply (HQ (Some _)).
  - eapply wp_mret; [|exact H3]. intros h' Hh. by apply (HQ None).
Qed.

(** What a runner holds, and what a failed start can leave open. *)
Definition all_open (ino : inode) : list handle := [HLog; HPool; HWatcher; HDedup; HQueue; HSeq; HLock ino].
Definition leftovers (l : list handle) : Prop := l = [] ∨ l = [HDedup] ∨ l = [HPool; HWatcher].

Lemma wp_open_stores i cmd routes dirs dir ino (Q : result Runner → Host → Prop) h :
  (∀ r h', match r with
           | Ok rn => rn_lock rn = ino ∧ mine i (all_open ino) (Some ino) h'
           | Err _ => ∃ l, leftovers l ∧ mine i l None h'
           end → Q r h') →
  mine i [HLock ino] (Some ino) h → wp i (open_stores date uuid cmd routes dirs dir ino) Q h.
Proof using first_start.
  intros HQ Hm.
  assert (∀ err l h, leftovers (drop_one (HLock ino) l) → mine i l (Some ino) h →
    wp i (_ ← unlock ino; mret (Err err)) Q h) as Hfail.
  { intros err l h' Hl Hh. wp_op wp_unlock; [|by left]. intros h1 H1. eapply wp_mret; [|exact H1].
    intros h2 H2. apply HQ. by eexists. }
  unfold open_stores. wp_op wp_EnsureRunDir. intros [e|] h1 H1.
  { eapply Hfail; [|exact H1]. drops. by left. }
  wp_op wp_EnsureCutover. intros [e|] h2 H2.
  { eapply Hfail; [|exact H2]. drops. by left. }
  wp_op wp_open_db. intros [[]|e] h3 H3.
  2: { wp_op wp_closes. intros h4 H4. eapply Hfail; [|exact H4]. drops. by left. }
  wp_op wp_open_db. intros [[]|e] h4 H4.
  2: { wp_op wp_closes. intros h5 H5. wp_op wp_closes. intros h6 H6. eapply Hfail; [|exact H6]. drops. by left. }
  apply (wp_bind Rely Guar), wp_act. intros v HR. apply (mine_stable _ _ _ _ _ HR) in H4. split; [by split|].
  intros h5 HR5. cbn [fst snd] in *. apply (mine_stable _ _ _ _ _ HR5) in H4. clear HR HR5.
  unfold NewDaemon. apply (wp_bind Rely Guar). wp_op wp_may_fail. intros [[]|e] h6 H6.
  2: { eapply wp_mret; [|exact H6]. intros h7 H7. wp_op wp_closes. intros h8 H8. wp_op wp_closes. intros h9 H9.
       eapply Hfail; [|exact H9]. drops. right. by left. }
  wp_op wp_opens. intros h7 H7. wp_op wp_opens. intros h8 H8. eapply wp_mret; [|exact H8]. intros h9 H9.
  unfold NewDeliveryLog. apply (wp_bind Rely Guar). wp_op wp_may_fail. intros [[]|e] h10 H10.
  2: { eapply wp_mret; [|exact H10]. intros h11 H11. wp_op wp_closes. intros h12 H12. wp_op wp_closes. intros h13 H13.
       wp_op wp_closes. intros h14 H14. eapply Hfail; [|exact H14]. drops. right. by right. }
  wp_op wp_opens. intros h11 H11. eapply wp_mret; [|exact H11]. intros h12 H12. eapply wp_mret; [|exact H12].
  intros h13 H13. by apply HQ.
Qed.

Lemma wp_NewDaemonRunner i cmd cfgPath dir (Q : result Runner → Host → Prop) h :
  (∀ r h', match r with
           | Ok rn => mine i (all_open (rn_lock rn)) (Some (rn_lock rn)) h'
           | Err _ => ∃ l, leftovers l ∧ mine i l None h'
           end → Q r h') →
  mine i [] None h → wp i (NewDaemonRunner date uuid cmd cfgPath dir) Q h.
Proof using first_start.
  intros HQ Hm.
  assert (∀ err h, mine i [] None h → wp i (mret (Err err)) Q h) as Hfail.
  { intros err h' Hh. eapply wp_mret; [|exact Hh]. intros h1 H1. apply HQ. exists []. split; [by left|done]. }
  unfold NewDaemonRunner. wp_op wp_files; [apply files_world|]. intros [cfg|e] h1 H1; [|by apply Hfail].
  destruct (ResolveRoutes cfg) as [routes|e]; [|by apply Hfail].
  wp_op wp_files; [apply files_world|]. intros [e|] h2 H2; [by apply Hfail|].
  wp_op wp_TryLock. intros [ino|e] h3 H3; [|by apply Hfail]. destruct H3 as [_ H3].
  eapply wp_open_stores; [|exact H3]. intros [rn|e] h4 H4; [destruct H4 as [<- H4]|]; by apply HQ.
Qed.

Lemma wp_Close i rn (Q : unit → Host → Prop) l h :
  (∀ h', mine i (drop_one (HLock (rn_lock rn)) (drop_one HQueue (drop_one HLog (drop_one HSeq (drop_one HDedup l))))) None h' →
         Q tt h') →
  mine i l (Some (rn_lock rn)) h → wp i (Close rn) Q h.
Proof using first_start.
  intros HQ Hm. unfold Close. wp_op wp_closes. intros h1 H1. wp_op wp_closes. intros h2 H2. wp_op wp_closes. intros h3 H3.
  wp_op wp_closes. intros h4 H4. eapply wp_unlock; [exact HQ|by left|exact H4].
Qed.

Variable Run : Daemon → program (option error).

(** [mine], but for being inside [Run]. *)
Record busy (i : nat) (l : list handle) (lk : inode) (h : Host) : Prop := {
  busy_own : own i h = l;
  busy_lock : ∀ ino, h_flock h !! ino = Some i ↔ Some lk = Some ino;
  busy_running : ∀ p, (i, p) ∈ h_running h ↔ p = fst lk;
  busy_inv : Inv h }.
Lemma busy_stable i l lk h h' : Rely i h h' → busy i l lk h → busy i l lk h'.
Proof.
  intros [R1 R2 R3 _ R5] [M1 M2 M3 M4]. split; [congruence|intros; by rewrite <- R1| |auto]. intros p. by rewrite <- R3.
Qed.
Lemma busy_run {A} i (p : program A) (Q : A → Host → Prop) l lk h :
  (∀ a h', busy i l lk h' → Q a h') → busy i l lk h → wp i (on_world p) Q h.
Proof using first_start.
  intros HQ. unfold on_world. generalize (lift p). intros q. revert h. induction q as [a|X m k IH]; intros h Hm h' HR.
  - apply HQ. by eapply busy_stable.
  - split; [apply put_store_guar|]. apply IH. eapply busy_stable; [apply put_store_rely|]. by eapply busy_stable.
Qed.
Lemma busy_closes i x (Q : unit → Host → Prop) l lk h :
  (∀ h', busy i (drop_one x l) lk h' → Q tt h') → busy i l lk h → wp i (closes x) Q h.
Proof.
  intros HQ Hm. apply wp_act. intros v HR. apply (busy_stable _ _ _ _ _ HR) in Hm. split.
  - apply (step_open (drop_first (i, x))). intros j Hj. rewrite own_in_drop. by rewrite bool_decide_false.
  - intros u Hu. apply HQ. apply (busy_stable _ _ _ _ _ Hu). destruct Hm as [M1 M2 M3 M4]. split; [|done|done|by destruct M4].
    unfold own in *. cbn [snd set_open h_open]. rewrite own_in_drop, bool_decide_true by done. by f_equal.
Qed.

Lemma wp_Runner_Run i rn (Q : option error → Host → Prop) l h :
  (∀ r h', mine i (drop_one HPool (drop_one HWatcher l)) (Some (rn_lock rn)) h' → Q r h') →
  mine i l (Some (rn_lock rn)) h → wp i (Runner_Run Run rn) Q h.
Proof using first_start.
  clear date uuid. intros HQ Hm. unfold Runner_Run. apply (wp_bind Rely Guar), wp_act. intros v HR. apply (mine_stable _ _ _ _ _ HR) in Hm.
  clear HR h. cbn [fst snd]. set (v' := set_running ((i, (rn_lock rn).1) :: h_running v) v).
  destruct Hm as [M1 M2 M3 M4].
  assert (Inv v → Inv v') as Hinv.
  { intros [I1 I2 I3 I4 I5]. split; [done|..|done|done].
    - intros j [E|Hj]%elem_of_cons; [|by apply I2]. injection E as -> EL. exists (snd (rn_lock rn)).
      change (h_flock v') with (h_flock v). apply M2. rewrite EL. by destruct (rn_lock rn).
    - cbn. constructor; [|done]. intros ([j p] & E & Hj)%list_elem_of_fmap. cbn in E. subst j. by apply (M3 p). }
  split.
  { split; [done|]. intros j Hj. split; [done|done| |done|done]. intros p. cbn. rewrite elem_of_cons. split; [by right|].
    intros [E|?]; [|done]. by injection E as -> _. }
  intros h HR. assert (busy i l (rn_lock rn) v') as Hb.
  { split; [done|exact M2| |auto]. intros p. cbn. rewrite elem_of_cons. split; [|intros ->; by left].
    intros [E|Hp]; [by injection E|by apply M3 in Hp]. }
  apply (busy_stable _ _ _ _ _ HR) in Hb. clear HR M1 M2 M3 M4 Hinv v v'.
  wp_op busy_run. intros e h1 H1. wp_op busy_closes. intros h2 H2. wp_op busy_closes. intros h3 H3.
  apply (wp_bind Rely Guar), wp_act. intros v HR. apply (busy_stable _ _ _ _ _ HR) in H3. cbn [fst snd].
  destruct H3 as [M1 M2 M3 M4].
  assert (∀ j p, (j, p) ∈ filter (λ x : nat * string, x.1 ≠ i) (h_running v) ↔ j ≠ i ∧ (j, p) ∈ h_running v) as Hf.
  { intros j p. by rewrite list_elem_of_filter. }
  set (v' := set_running (filter (λ x, x.1 ≠ i) (h_running v)) v) in *.
  assert (Inv v → Inv v') as Hinv.
  { intros [I1 I2 I3 I4 I5]. split; [done|..|done|done].
    - intros j Hj. apply Hf in Hj as [_ Hj]. by apply I2.
    - cbn. eapply sublist_NoDup; [exact I3|]. apply fmap_sublist, sublist_filter. }
  split.
  { split; [done|]. intros j Hj. split; [done|done| |done|done]. intros p. cbn. rewrite Hf. naive_solver. }
  intros u Hu. apply wp_ret. intros u' Hu'. apply HQ. apply (mine_stable _ _ _ _ _ Hu'), (mine_stable _ _ _ _ _ Hu).
  split; [done|exact M2| |auto]. intros p. cbn. rewrite Hf. naive_solver.
Qed.

(** Whatever happens, a process that ends has given back its lock. *)
Lemma wp_runDaemon i fl h :
  mine i [] None h → wp i (runDaemon date uuid Run fl) (λ _ h', ∃ l, leftovers l ∧ mine i l None h') h.
Proof using first_start.
  intros Hm. unfold runDaemon. destruct (run_command fl) as [cmd|e].
  2: { eapply wp_mret; [|exact Hm]. intros h' Hh. exists []. split; [by left|done]. }
  wp_op wp_NewDaemonRunner. intros [rn|e] h1 H1.
  2: { destruct H1 as (l & Hl & H1). eapply wp_mret; [|exact H1]. intros h' Hh. by exists l. }
  destruct (rn_outboxCount rn =? 0).
  - wp_op wp_Close. intros h2 H2. eapply wp_mret; [|exact H2]. intros h' Hh. eexists. split; [|exact Hh].
    unfold all_open. drops. right. by right.
  - wp_op (wp_Runner_Run _ (SetEmitter rn)). intros e h2 H2. wp_op wp_Close. intros h3 H3. eapply wp_mret; [|exact H3].
    intros h' Hh. eexists. split; [|exact Hh]. unfold all_open. cbn [rn_lock SetEmitter]. drops. by left.
Qed.
End Start.
End Locks.

(** ** Any number of processes *)

(** The operating system cleans up after process [i]. *)
Definition released (i : nat) (h : Host) : Host :=
  mkHost (h_store h) (h_born h) (filter (λ x, snd x ≠ i) (h_flock h)) (filter (λ x, fst x ≠ i) (h_open h))
    (filter (λ x, fst x ≠ i) (h_running h)).

(** A process takes a step or is killed, or anything else happens to the files. *)
Inductive host_step : list (prog Host (option error)) * Host → list (prog Host (option error)) * Host → Prop :=
  | hs_run c c' : pool_step c c' → host_step c c'
  | hs_kill i ps h : host_step (ps, h) (<[i := mret None]> ps, released i h)
  | hs_files s ps h : host_step (ps, h) (ps, put_store s h).

Definition idle (h : Host) : Prop := h_flock h = ∅ ∧ h_open h = [] ∧ h_running h = [].

Lemma own_in_filter i j l :
  own_in j (filter (λ x : nat * handle, x.1 ≠ i) l) = if bool_decide (j = i) then [] else own_in j l.
Proof.
  induction l as [|[k x] l IH]; [by case_bool_decide|]. rewrite filter_cons. cbn [fst].
  destruct (decide (k ≠ i)) as [Hk|Hk]; rewrite !own_in_cons, IH; repeat case_bool_decide; subst; done.
Qed.

Section Sound.
Variable L : string.
Variable start first : nat.
Hypothesis first_start : first ≤ S start.
#[local] Abbreviation wp := (Prog.wp (Rely L start first) (Guar L start first)).

Lemma released_inv i h : Inv L start first h → Inv L start first (released i h).
Proof.
  intros [I1 I2 I3 I4 I5]. split; [|..|done|done].
  - intros ino j Hj. cbn in Hj. apply map_lookup_filter_Some in Hj as [Hj _]. by apply (I1 _ j).
  - intros j Hj. cbn in Hj. apply list_elem_of_filter in Hj as [Hn Hj]. destruct (I2 j Hj) as [n Hl]. exists n. cbn.
    by apply map_lookup_filter_Some.
  - cbn. eapply sublist_NoDup; [exact I3|]. apply fmap_sublist, sublist_filter.
Qed.
Lemma released_rely i j h : j ≠ i → Rely L start first j h (released i h).
Proof.
  intros Hj. split; [| | |done|apply released_inv].
  - intros ino. cbn. rewrite map_lookup_filter_Some. cbn. naive_solver.
  - unfold own. cbn [released h_open]. rewrite own_in_filter. by rewrite bool_decide_false.
  - intros p. cbn. rewrite list_elem_of_filter. cbn. naive_solver.
Qed.
Lemma released_mine i h : Inv L start first h → mine L start first i [] None (released i h).
Proof.
  intros HI. split; [| | |by apply released_inv].
  - unfold own. cbn [released h_open]. rewrite own_in_filter. by rewrite bool_decide_true.
  - intros ino. cbn. rewrite map_lookup_filter_Some. cbn. naive_solver.
  - intros p. cbn. rewrite list_elem_of_filter. cbn. naive_solver.
Qed.

Definition ended (i : nat) (_ : option error) (h : Host) : Prop :=
  ∃ l, leftovers l ∧ mine L start first i l None h.
Definition sound (c : list (prog Host (option error)) * Host) : Prop :=
  Inv L start first (snd c) ∧ ∀ i p, fst c !! i = Some p → wp i p (ended i) (snd c).

Lemma host_step_sound c c' : host_step c c' → sound c → sound c'.
Proof using first_start.
  intros [d d' Hs|i ps h|s ps h] [HI Hw]; cbn [fst snd] in *.
  - eapply (pool_sound (Rely L start first) (Guar L start first)).
    + intros i j h h' Hij. apply (compatible L start first i j h h' Hij).
    + intros i h h' [HG _]. exact HG.
    + by eapply rtc_l; [exact Hs|].
    + done.
    + done.
  - split; [by apply released_inv|]. cbn [fst snd]. intros j p Hj. apply list_lookup_insert_Some in Hj as [(<- & <- & _)|[Hn Hj]].
    + apply wp_ret. intros u Hu. exists []. split; [by left|]. eapply mine_stable; [exact Hu|]. by apply released_mine.
    + eapply (wp_stable (Rely L start first) (Guar L start first)); [by apply released_rely|by apply Hw].
  - split; [by apply put_store_inv|]. cbn [fst snd]. intros j p Hj. eapply (wp_stable (Rely L start first) (Guar L start first)); [by apply put_store_rely|by apply Hw].
Qed.
Lemma host_sound c c' : rtc host_step c c' → sound c → sound c'.
Proof using first_start. induction 1; [done|]. intros Hc. by apply IHrtc, (host_step_sound x). Qed.

Lemma idle_sound `{EX : External} `{JS : JSON} `{SJ : SnapshotJSON} `{YM : YAML} date uuid Run fls h :
  idle h → start ≤ h_born h L → (present L h → first ≤ h_born h L) → sound (runDaemon date uuid Run <$> fls, h).
Proof using first_start.
  intros (H1 & H2 & H3) Hs Hp. assert (Inv L start first h) as HI.
  { split; [|..|done|done].
    - intros ino i. by rewrite H1, lookup_empty.
    - intros i. rewrite H3. by intros ?%elem_of_nil.
    - rewrite H3. constructor. }
  split; [done|]. cbn [fst snd]. intros i p (fl & -> & _)%list_lookup_fmap_Some.
  eapply (wp_runDaemon L start first first_start date uuid Run i fl h).
  split; [unfold own; by rewrite H2| | |done].
  - intros ino. by rewrite H1, lookup_empty.
  - intros p. rewrite H3. apply not_elem_of_nil.
Qed.
End Sound.

(** The number of the first inode of a lock file from now on. *)
Definition first_inode (L : string) (h : Host) : nat :=
  if bool_decide (w_fs (host_world h) !! L = None) then S (h_born h L) else h_born h L.

(** C4: at most one daemon runs on a state directory.  Whatever processes are
    started with whatever flags, however their steps interleave, whichever
    operations fail, whoever is killed and whatever else happens to the files:
    as long as the lock file is not created a second time, no two processes
    are inside [Daemon.Run] under the same lock file, and each process is in
    it once. *)
Theorem one_daemon_per_state_dir `{External} `{JSON} `{SnapshotJSON} `{YAML} (date : Event → string) (uuid : nat → string)
    (Run : Daemon → program (option error)) (fls : list RunFlags) (h0 h : Host) (ps : list (prog Host (option error)))
    (L : string) :
  idle h0 → rtc host_step (runDaemon date uuid Run <$> fls, h0) (ps, h) → h_born h L ≤ first_inode L h0 →
  NoDup (h_running h) ∧ ∀ i j, (i, L) ∈ h_running h → (j, L) ∈ h_running h → i = j.
Proof.
  intros Hi Hs Hb. unfold first_inode in Hb. set (first := if bool_decide _ then _ else _) in Hb.
  assert (first ≤ S (h_born h0 L)) as Hf by (unfold first; case_bool_decide; lia).
  destruct (host_sound L (h_born h0 L) first Hf _ _ Hs) as [HI _].
  { apply idle_sound; [done|done|done|]. unfold present, first. intros Hp. by rewrite bool_decide_false. }
  cbn [snd] in HI. split; [by eapply NoDup_fmap_1, inv_once|].
  intros i j Hri Hrj. destruct (inv_running _ _ _ _ HI i Hri) as [n En]. destruct (inv_running _ _ _ _ HI j Hrj) as [m Em].
  pose proof (inv_lock _ _ _ _ HI _ _ En eq_refl) as B1. pose proof (inv_lock _ _ _ _ HI _ _ Em eq_refl) as B2. cbn in B1, B2.
  assert (n = m) as -> by lia. congruence.
Qed.

