(* ===== verification/Startup.v ===== *)
(** * How a daemon starts

    What [NewDaemonRunner] of [Wiring] makes without failures from a
    consistent configuration on disk.  The last part runs processes on a
    concrete host. *)
From S2P Require Import Prelude GoStrings GoPath GoTime DMail Router Prog World DeliverSafety SetupSafety Setup Daemon Events Files EventStore Cutover StateDirs ConfigFile Insight Policies Wiring WiringSafety.

#[local] Open Scope nat_scope.

(** ** A start without failures *)

Lemma run_on_store {A} i (p : prog Store A) h :
  fst (run i (on_store p) h) = fst (run i p (h_store h)) ∧ h_store (snd (run i (on_store p) h)) = snd (run i p (h_store h)) ∧
  h_flock (snd (run i (on_store p) h)) = h_flock h ∧ h_open (snd (run i (on_store p) h)) = h_open h.
Proof.
  revert h. induction p as [a|X m k IH]; intros h; cbn [on_store run]; [done|].
  specialize (IH (fst (m i (h_store h))) (put_store (snd (m i (h_store h))) h)). cbn [put_store h_store h_flock h_open] in IH.
  by destruct (m i (h_store h)).
Qed.

Section Startup.
Context {env : Env} (env_ok : no_faults env).
Variable i : nat.

(** Files, open handles, locks; and the cutover is behind us. *)
Record at_ (fs : gmap string node) (l : list handle) (fl : gmap inode nat) (h : Host) : Prop := {
  at_on : on (env := env) fs (host_world h);
  at_own : own i h = l;
  at_flock : h_flock h = fl;
  at_next : (1 < st_next (h_store h))%Z }.

Lemma starts_world {A} (p : program A) x fs fs' l fl (Q : A → Host → Prop) h :
  does (env := env) p fs x fs' → at_ fs l fl h → (∀ h', at_ fs' l fl h' → Q x h') → runs i (on_world p) Q h.
Proof.
  intros Hp [A1 A2 A3 A4] HQ. destruct (Hp i (host_world h) A1) as [Ex Ho].
  assert (runs i (lift p) (λ a s, a = x ∧ on (env := env) fs' (st_world s) ∧ st_next s = st_next (h_store h)) (h_store h)) as Hl.
  { apply runs_lift. unfold runs. split; [exact Ex|]. split; [exact Ho|done]. }
  destruct (run_on_store i (lift p) h) as (E1 & E2 & E3 & E4). unfold runs, on_world in *. rewrite E1. destruct Hl as (-> & Hw & Hn).
  apply HQ. split.
  - unfold host_world. by rewrite E2.
  - unfold own. by rewrite E4.
  - by rewrite E3.
  - by rewrite E2, Hn.
Qed.
Lemma starts_ok prefix fs l fl (Q : result unit → Host → Prop) h :
  at_ fs l fl h → (∀ h', at_ fs l fl h' → Q (Ok tt) h') → runs i (may_fail prefix) Q h.
Proof using env_ok. intros Ha HQ. eapply starts_world; [|exact Ha|exact HQ]. by apply (does_guarded env_ok). Qed.
Lemma starts_opens x fs l fl (Q : unit → Host → Prop) h :
  at_ fs l fl h → (∀ h', at_ fs (x :: l) fl h' → Q tt h') → runs i (opens x) Q h.
Proof.
  intros [A1 A2 A3 A4] HQ. apply (HQ (set_open ((i, x) :: h_open h) h)). split; [done| |done|done].
  unfold own in *. cbn [set_open h_open]. rewrite own_in_cons, bool_decide_true by done. by f_equal.
Qed.
Lemma starts_mkdir p fs l fl (Q : result unit → Host → Prop) h :
  fs !! Clean p = Some NDir → at_ fs l fl h → (∀ h', at_ fs l fl h' → Q (Ok tt) h') → runs i (on_world (atom (os_MkdirAll p))) Q h.
Proof using env_ok.
  intros Hp. apply starts_world. apply (MkdirAll_does env_ok). by apply mkdir_all_there.
Qed.
Lemma starts_exec x stmts fs l fl (Q : result unit → Host → Prop) h :
  at_ fs l fl h → (∀ h', at_ fs l fl h' → Q (Ok tt) h') → runs i (exec_stmts x stmts) Q h.
Proof using env_ok.
  revert h. induction stmts as [|s r IH]; intros h Ha HQ; cbn [exec_stmts]; [by apply runs_ret, HQ|].
  apply runs_bind. eapply starts_ok; [exact Ha|]. intros h1 H1. by apply IH.
Qed.
Lemma starts_db x name dir stmts fs l fl (Q : result unit → Host → Prop) h :
  fs !! Clean dir = Some NDir → at_ fs l fl h → (∀ h', at_ fs (x :: l) fl h' → Q (Ok tt) h') →
  runs i (open_db x name dir stmts) Q h.
Proof using env_ok.
  intros Hd Ha HQ. unfold open_db. apply runs_bind. eapply starts_mkdir; [exact Hd|exact Ha|]. intros h1 H1.
  apply runs_bind. eapply starts_ok; [exact H1|]. intros h2 H2. apply runs_bind. eapply starts_opens; [exact H2|].
  intros h3 H3. by eapply starts_exec.
Qed.
Lemma starts_rundir dir fs l fl (Q : option error → Host → Prop) h :
  fs !! Clean (path_Join [dir; ".run"]) = Some NDir → at_ fs l fl h → (∀ h', at_ fs l fl h' → Q None h') →
  runs i (EnsureRunDir dir) Q h.
Proof using env_ok.
  intros Hd Ha HQ. unfold EnsureRunDir. apply runs_bind. eapply starts_mkdir; [exact Hd|exact Ha|]. intros h1 H1. by apply runs_ret, HQ.
Qed.

Lemma starts_lock dir fs l fl (Q : result inode → Host → Prop) h :
  let lock := path_Join [dir; "daemon.lock"] in
  fs !! Clean dir = Some NDir → writable lock fs → (∀ n, fl !! (Clean lock, n) = None) → at_ fs l fl h →
  (∀ n h', let ino := (Clean lock, n) in
     at_ (<[Clean lock := NFile (text_of lock fs)]> fs) (HLock ino :: l) (<[ino := i]> fl) h' → Q (Ok ino) h') →
  runs i (TryLockDaemon dir) Q h.
Proof using env_ok.
  intros lock Hd Hw Hfree Ha HQ. unfold TryLockDaemon. apply runs_bind. eapply starts_mkdir; [exact Hd|exact Ha|].
  clear h Ha. intros h [A1 A2 A3 A4]. fold lock. apply runs_bind. apply runs_atom_by. cbv beta.
  pose proof (OpenAppend_does env_ok lock fs Hw i (host_world h) A1) as Ho. rewrite run_atom in Ho.
  destruct (os_OpenAppend lock (host_world h)) as [r w]. cbn [fst snd] in Ho. destruct Ho as [-> Ho]. cbn [fst snd].
  set (h1 := put_store (mkStore w (st_next (h_store h))) h). set (ino := (Clean lock, h_born h1 (Clean lock))).
  apply runs_bind, runs_atom_by. unfold fault.
  match goal with |- context [env_fault (w_env ?a) (w_tick ?b)] => change (env_fault (w_env a) (w_tick b)) with (env_fault (w_env w) (w_tick w)) end.
  assert (env_fault (w_env w) (w_tick w) = None) as -> by (destruct Ho as [_ ->]; apply env_ok).
  match goal with |- context [h_flock ?a !! _] => change (h_flock a) with (h_flock h) end.
  assert (fl !! ino = None) as Ef by apply Hfree. rewrite A3, Ef. cbn [fst snd]. apply runs_ret, HQ. split.
  - by destruct Ho as [? ?].
  - unfold own in *. cbn [set_flock put_store set_open h_open]. rewrite own_in_cons, bool_decide_true by done. by f_equal.
  - done.
  - done.
Qed.
End Startup.

Section StartupAt.
Context `{EX : External} `{JS : JSON} `{SJ : SnapshotJSON} `{YL : YAMLLaws} {env : Env}.
Hypothesis env_ok : no_faults env.
Variable date : Event → string.
Variable uuid : nat → string.
Variable i : nat.
Variable root : string.
Hypothesis root_clean : clean root.

#[local] Abbreviation at_ := (at_ (env := env) i).
#[local] Abbreviation stateDir := (path_Join [root; StateDir]).
#[local] Abbreviation runDir := (path_Join [stateDir; ".run"]).
#[local] Abbreviation lock := (path_Join [runDir; "daemon.lock"]).

Lemma starts_cutover fs l fl (Q : CutoverResult * option error → Host → Prop) h :
  at_ fs l fl h → (∀ h', at_ fs l fl h' → Q (already_done, None) h') →
  runs i (on_store (RunCutover stateDir date uuid "phonewave.state")) Q h.
Proof using env_ok.
  intros [A1 A2 A3 A4] HQ.
  assert (run i (RunCutover stateDir date uuid "phonewave.state") (h_store h) =
    ((already_done, None), mkStore (bump (host_world h)) (st_next (h_store h)))) as E.
  { unfold RunCutover. rewrite run_mbind, run_atom. unfold counter_Latest, on_counter, fault. fold (host_world h).
    destruct A1 as [_ ->]. rewrite env_ok. cbn [fst snd]. destruct (Z.leb_spec (st_next (h_store h)) 1); [lia|].
    destruct (Z.ltb_spec 0 (st_next (h_store h) - 1)); [done|lia]. }
  destruct (run_on_store i (RunCutover stateDir date uuid "phonewave.state") h) as (E1 & E2 & E3 & E4).
  unfold runs. rewrite E1. rewrite E in *. cbn [fst snd] in *. apply HQ. split.
  - unfold host_world. by rewrite E2.
  - unfold own. by rewrite E4.
  - by rewrite E3.
  - by rewrite E2.
Qed.

Lemma starts_EnsureCutover fs l fl (Q : option error → Host → Prop) h :
  fs !! stateDir = Some NDir → fs !! runDir = Some NDir → at_ fs l fl h →
  (∀ h', at_ fs (HSeq :: l) fl h' → Q None h') → runs i (EnsureCutover date uuid stateDir "phonewave.state") Q h.
Proof using env_ok root_clean.
  intros Hs Hr Ha HQ. unfold EnsureCutover. apply runs_bind. eapply (starts_rundir env_ok); [|exact Ha|].
  { by rewrite Clean_Join. }
  intros h1 H1. apply runs_bind. eapply (starts_db env_ok); [|exact H1|].
  { rewrite Dir_Join by (by split_and!). rewrite !(Clean_Join root StateDir plain_State). exact Hs. }
  intros h2 H2. apply runs_bind. eapply starts_cutover; [exact H2|]. intros h3 H3. cbn [snd]. by apply runs_ret, HQ.
Qed.

Lemma starts_open_stores cmd routes dirs ino fs fl (Q : result Runner → Host → Prop) h :
  fs !! stateDir = Some NDir → fs !! runDir = Some NDir → at_ fs [HLock ino] fl h →
  (∀ h', at_ fs (all_open ino) fl h' →
     Q (Ok (mkRunner (with_stores (new_daemon cmd routes dirs stateDir (Z.of_nat i))) ino (length routes) (length dirs))) h') →
  runs i (open_stores date uuid cmd routes dirs stateDir ino) Q h.
Proof using env_ok root_clean.
  intros Hs Hr Ha HQ. unfold open_stores. apply runs_bind. eapply (starts_rundir env_ok); [by rewrite Clean_Join|exact Ha|].
  intros h1 H1. apply runs_bind. eapply starts_EnsureCutover; [exact Hs|exact Hr|exact H1|]. intros h2 H2. apply runs_bind.
  eapply (starts_db env_ok); [by rewrite Clean_Join|exact H2|]. intros h3 H3. apply runs_bind.
  eapply (starts_db env_ok); [|exact H3|].
  { rewrite Dir_Join by (by split_and!). rewrite !(Clean_Join stateDir ".run") by done. exact Hr. }
  intros h4 H4. apply runs_bind, runs_atom_by. cbn [fst snd].
  apply runs_bind. unfold NewDaemon. apply runs_bind. eapply (starts_ok env_ok); [exact H4|]. intros h5 H5.
  apply runs_bind. eapply starts_opens; [exact H5|]. intros h6 H6. apply runs_bind. eapply starts_opens; [exact H6|].
  intros h7 H7. apply runs_ret. apply runs_bind. unfold NewDeliveryLog. apply runs_bind.
  eapply (starts_ok env_ok); [exact H7|]. intros h8 H8. apply runs_bind. eapply starts_opens; [exact H8|]. intros h9 H9.
  apply runs_ret. apply runs_ret. by apply HQ.
Qed.
End StartupAt.

(** The lock of a state directory. *)
Definition daemon_lock_path (stateDir : string) : string := path_Join [path_Join [stateDir; ".run"]; "daemon.lock"].

Lemma run_command_valid fl cmd :
  run_command fl = Ok cmd →
  (0 < ri_v (rc_retryInterval cmd) ∧ 0 ≤ mr_v (rc_maxRetries cmd) ∧ rc_dryRun cmd = fl_dry_run fl)%Z.
Proof.
  unfold run_command, NewRetryInterval, NewMaxRetries. destruct (Z.leb_spec (fl_retry_interval fl) 0); [done|].
  destruct (Z.ltb_spec (fl_max_retries fl) 0); [done|]. intros [= <-]. cbn. split; [lia|split; [lia|done]].
Qed.

(** Completing the state directory leaves the lock file as it is. *)
Lemma lock_facts root fs :
  let stateDir := path_Join [root; StateDir] in
  let lock := daemon_lock_path stateDir in
  state_ready root fs → fs !! Clean lock ≠ Some NDir →
  let fs1 := ensured root fs in
  fs1 !! stateDir = Some NDir ∧ fs1 !! path_Join [stateDir; ".run"] = Some NDir ∧ Clean lock = lock ∧
  fs1 !! Clean lock = fs !! Clean lock ∧ writable lock fs1 ∧ lock ≠ stateDir ∧ lock ≠ path_Join [stateDir; ".run"].
Proof.
  intros stateDir lock Hready Hlock fs1.
  assert (fs1 !! stateDir = Some NDir ∧ fs1 !! path_Join [stateDir; ".run"] = Some NDir) as [Hs1 Hr1].
  { destruct (ensured_complete root fs) as [Hc _]. split; apply Hc; rewrite !elem_of_cons; auto. }
  assert (Clean lock = lock) as Clock by by apply Clean_Join.
  assert (∀ x, plain x → lock ≠ path_Join [stateDir; x] ∧ lock ≠ stateDir) as Hlong.
  { intros x Hx. split; intros E; apply (f_equal (λ p, length (elems p))) in E; unfold lock, daemon_lock_path, stateDir in E;
      rewrite !elems_Join, !length_app in E by (done || by split_and!); cbn in E; lia. }
  assert (fs1 !! Clean lock = fs !! Clean lock) as El.
  { rewrite Clock. apply ensured_lookup; [|by apply Hlong].
    rewrite !elem_of_cons, elem_of_nil. intros [E|[E|[E|[E|[]]]]]; [by apply (Hlong "x")|revert E; by apply Hlong..]. }
  split_and!; [done..| |by apply (Hlong "x")|by apply Hlong].
  unfold writable. rewrite El. unfold lock, daemon_lock_path. rewrite Dir_Join, !(Clean_Join stateDir ".run") by done.
  destruct (fs !! _) as [[]|] eqn:E; [done|done|exact Hr1].
Qed.

(** C5: a daemon starts from what is on disk.  Without failures, with a
    consistent configuration in [root/.phonewave], the state directory usable,
    the cutover behind it and the lock free, the runner is made.  Its daemon has
    the options of the flags, watches the outboxes of the configuration, and
    has its resolved routes, which never deliver into a watched outbox (what
    the delivery theorems assume) and each start at one; the process holds the
    lock of the state directory and everything a runner has open. *)
Theorem daemon_starts_from_config `{External} `{JSON} `{SnapshotJSON} `{YAMLLaws} (date : Event → string)
    (uuid : nat → string) (root : string) (c : Config) (fl : RunFlags) (cmd : RunDaemonCommand) (i : nat) (h : Host) :
  let path := DefaultConfigPath root in
  let stateDir := path_Join [root; StateDir] in
  let lock := daemon_lock_path stateDir in
  let fs := w_fs (host_world h) in
  clean root → no_faults (w_env (host_world h)) → stored path c fs → config_fit yaml_time c → state_ready root fs →
  fs !! Clean lock ≠ Some NDir → (∀ n, h_flock h !! (Clean lock, n) = None) → (1 < st_next (h_store h))%Z → own i h = [] →
  run_command fl = Ok cmd →
  let '(r, h') := run i (NewDaemonRunner date uuid cmd path (Dir path)) h in
  ∃ routes ino,
    let dirs := CollectOutboxDirs c in
    let d := with_stores (new_daemon cmd routes dirs stateDir (Z.of_nat i)) in
    r = Ok (mkRunner d ino (length routes) (length dirs)) ∧
    (0 < d_RetryInterval d)%Z ∧ (0 ≤ d_MaxRetries d)%Z ∧ d_DryRun d = fl_dry_run fl ∧
    ResolveRoutes c = Ok routes ∧ routes_ok routes (λ dir, dir ∈ dirs) ∧ (∀ r, r ∈ routes → rr_FromOutbox r ∈ dirs) ∧
    fst ino = Clean lock ∧ h_flock h' = <[ino := i]> (h_flock h) ∧ own i h' = all_open ino.
Proof.
  intros path stateDir lock fs Hroot He Hst Hfit Hready Hlock Hfree Hn Hown Hcmd.
  pose proof (Dir_S root Hroot : Dir stateDir = root) as Er. pose proof (newPath_clean root : clean path) as Hpath.
  assert (Dir path = stateDir) as Ed.
  { unfold path. rewrite newPath_sub, Dir_Join by (by split_and!). apply Clean_Join, plain_State. }
  assert (cfg_Routes c = cfg_Routes (UpdateRoutes c) ∧ well_scanned c) as [Hroutes Hscan] by (by destruct Hfit as [[? ? ?] _]).
  assert (UpdateRoutes c = c) as Ec by (destruct c; unfold UpdateRoutes in *; cbn in *; by rewrite <- Hroutes).
  destruct (resolved_routes_fit c Hscan) as (routes & E1 & E2 & E3). rewrite Ec in E1.
  pose proof (run_command_valid fl cmd Hcmd) as Hopts.
  set (fs1 := ensured root fs). destruct (lock_facts root fs Hready) as (Hs1 & Hr1 & Clock & El & Hw & Hne1 & Hne2); [exact Hlock|].
  fold stateDir lock fs1 in Hs1, Hr1, Clock, El, Hw, Hne1, Hne2.
  assert (clean (path_Join [stateDir; ".run"])) as Crun by by apply Clean_Join.
  cut (runs i (NewDaemonRunner date uuid cmd path (Dir path)) (λ r h', ∃ ino,
    r = Ok (mkRunner (with_stores (new_daemon cmd routes (CollectOutboxDirs c) stateDir (Z.of_nat i))) ino (length routes)
          (length (CollectOutboxDirs c))) ∧
    fst ino = Clean lock ∧ h_flock h' = <[ino := i]> (h_flock h) ∧ own i h' = all_open ino) h).
  { unfold runs. destruct (run i _ h) as [r h']. cbn [fst snd]. intros (ino & -> & F1 & F2 & F3). exists routes, ino. cbn zeta.
    destruct Hopts as (O1 & O2 & O3). split_and!; try done. intros r Hr. destruct (E3 r Hr) as (? & ? & ? & ? & ? & ? & ? & _). done. }
  assert (at_ i (env := w_env (host_world h)) fs [] (h_flock h) h) as A0 by by split.
  unfold NewDaemonRunner. apply runs_bind. eapply starts_world; [|exact A0|].
  { eapply Load_stored; [exact He|exact Hpath|by eapply fit_rooted|by destruct Hfit as (_ & _ & ?)|exact Hst]. }
  intros h1 H1'. rewrite (fit_settled _ _ Hfit), E1. apply runs_bind. rewrite Ed, Er. eapply starts_world; [|exact H1'|].
  { by apply (Ensure_does He). }
  fold fs1. intros h2 H2'. apply runs_bind. eapply (starts_lock He); [|exact Hw|exact Hfree|exact H2'|].
  { rewrite Crun. exact Hr1. }
  intros n h3 ino H3'. set (fs2 := <[Clean lock := NFile (text_of lock fs1)]> fs1).
  change (at_ i (env := w_env (host_world h)) fs2 [HLock ino] (<[ino := i]> (h_flock h)) h3) in H3'.
  eapply (starts_open_stores He); [exact Hroot| | |exact H3'|].
  - unfold fs2. rewrite Clock, lookup_insert_ne; [done|exact Hne1].
  - unfold fs2. rewrite Clock, lookup_insert_ne; [done|exact Hne2].
  - intros h4 [A1 A2 A3 A4]. eexists. split; [done|]. by split_and!.
Qed.

(** ** Two processes on one state directory *)

Definition scanned_config : Config := UpdateRoutes sample_config.
Definition wiring_fs : gmap string node :=
  let rel := convertToRelPaths scanned_config (Dir (Dir project_path)) in
  <["/p" := NDir]> (<["/p/.phonewave" := NDir]> (<["/p/.phonewave/.run" := NDir]>
    (<[project_path := NFile (manifest_bytes (cfg_Repositories rel))]>
    (<["/p/.phonewave/.run/resolved.yaml" := NFile (bits (encode (cfg_LastSynced rel, cfg_Routes rel)))]> ∅)))).
Definition wiring_world (env : Env) : World := mkWorld wiring_fs ∅ [] [] [] [] [] None None no_state [] [] 0 env.
Definition wiring_host (env : Env) : Host := mkHost (mkStore (wiring_world env) 1) (λ _, 0) ∅ [] [].
Definition wiring_flags : RunFlags := mkFlags false false (60 * Second) 10 (30 * Minute) project_path.
Definition daemon_lock : string := "/p/.phonewave/.run/daemon.lock".

(** A daemon that runs for [n] steps. *)
Fixpoint run_steps (n : nat) : program (option error) :=
  match n with O => mret None | S n => _ ← atom (guarded "" (λ w, (Ok tt, w))); run_steps n end.
Definition wiring_process (n : nat) : prog Host (option error) :=
  @runDaemon sample_external sample_JSON sample_snapshots utc_date (λ _, "id") sample_YAML (λ _, run_steps n) wiring_flags.
Definition two_processes : list (prog Host (option error)) * Host :=
  sched ([wiring_process 100; wiring_process 100], wiring_host no_fault_env) (replicate 80 0 ++ replicate 80 1).


Lemma sched_host_step c schedule : rtc host_step c (sched c schedule).
Proof. apply (rtc_subrel pool_step host_step); [apply hs_run|apply sched_reachable]. Qed.

Lemma one_daemon_per_state_dir_witness :
  h_running (snd two_processes) = [(0, daemon_lock)] ∧
  ∀ i j, (i, daemon_lock) ∈ h_running (snd two_processes) → (j, daemon_lock) ∈ h_running (snd two_processes) → i = j.
Proof.
  split; [vm_compute; reflexivity|].
  refine (proj2 (@one_daemon_per_state_dir sample_external sample_JSON sample_snapshots sample_YAML utc_date (λ _, "id")
    (λ _, run_steps 100) [wiring_flags; wiring_flags] (wiring_host no_fault_env) (snd two_processes) (fst two_processes)
    daemon_lock _ _ _)).
  - by split_and!.
  - rewrite <- surjective_pairing. apply sched_host_step.
  - vm_compute. reflexivity.
Defined.

(** An environment in which one operation fails. *)
Definition fails_at (n : nat) : Env :=
  mkEnv (λ k, if k =? n then Some (errors_New "no space left on device") else None) (λ _, 0%Z) (λ _, 0%Z) (λ _, "x") (λ _, 0).
Definition failed_start : list (prog Host (option error)) * Host :=
  sched ([wiring_process 3], wiring_host (fails_at 38)) (replicate 80 0).


(** [phonewave clean], or anything that empties [.run]. *)
Definition without_run_files (s : Store) : Store :=
  mkStore (set_fs (filter (λ x, ¬ (Dir (fst x) = "/p/.phonewave/.run")) (w_fs (st_world s))) (st_world s)) (st_next s).
Definition cleaned : list (prog Host (option error)) * Host :=
  let '(ps, h) := sched ([wiring_process 100; wiring_process 100], wiring_host no_fault_env) (replicate 80 0) in
  (ps, put_store (without_run_files (h_store h)) h).

(**  the lock does not survive the removal of [.run].  From a running
    daemon, removing the files of [.run] (which [phonewave clean] does, after a
    warning) lets a second daemon take the lock of a new file: both are then
    inside [Daemon.Run] on one state directory. *)
Theorem removed_lock_admits_second_daemon :
  let c0 := (@runDaemon sample_external sample_JSON sample_snapshots utc_date (λ _, "id") sample_YAML (λ _, run_steps 100) <$>
               [wiring_flags; wiring_flags], wiring_host no_fault_env) in
  rtc host_step c0 (sched cleaned (replicate 80 1)) ∧
  h_running (snd (sched cleaned (replicate 80 1))) = [(1, daemon_lock); (0, daemon_lock)].
Proof.
  intros c0. split; [|vm_compute; reflexivity].
  etrans; [|apply sched_host_step]. etrans; [apply (sched_host_step c0 (replicate 80 0))|]. unfold cleaned.
  change (sched ([wiring_process 100; wiring_process 100], wiring_host no_fault_env) (replicate 80 0)) with (sched c0 (replicate 80 0)).
  destruct (sched c0 (replicate 80 0)) as [ps h]. apply rtc_once, hs_files.
Qed.

Definition migrated_host (env : Env) : Host := mkHost (mkStore (wiring_world env) 2) (λ _, 0) ∅ [] [].

Lemma scanned_stored : @stored sample_YAML project_path scanned_config (w_fs (host_world (migrated_host no_fault_env))).
Proof.
  change (w_fs (host_world (migrated_host no_fault_env))) with wiring_fs. split; eexists; (split; [reflexivity|]).
  - unfold wiring_fs. do 3 rewrite lookup_insert_ne by done. apply lookup_insert_eq.
  - unfold wiring_fs. do 4 rewrite lookup_insert_ne by done. apply lookup_insert_eq.
Qed.
Lemma scanned_fit : config_fit (@yaml_time sample_YAML) scanned_config.
Proof.
  split_and!; [|constructor; [right; split; reflexivity|constructor]|exact I]. split; [|apply NoDup_singleton|reflexivity].
  intros repo Hr%list_elem_of_singleton. subst repo. split; [done|]. intros ep He.
  cbn in He. rewrite !elem_of_cons in He. destruct He as [->|[->|[->|?%elem_of_nil]]]; [by split_and!..|done].
Qed.
Lemma scanned_ready : state_ready "/p" (w_fs (host_world (migrated_host no_fault_env))).
Proof.
  split_and!; [vm_compute; reflexivity| |vm_compute; discriminate]. intros d Hd.
  rewrite !elem_of_cons, elem_of_nil in Hd. destruct Hd as [->|[->|[->|[->|[]]]]]; vm_compute; auto.
Qed.

Lemma daemon_starts_from_config_witness :
  let '(r, h') := run 0 (@NewDaemonRunner sample_external sample_JSON sample_snapshots utc_date (λ _, "id") sample_YAML
    (NewRunDaemonCommand false false (mkRetryInterval (60 * Second)) (mkMaxRetries 10) (30 * Minute)) project_path
    (Dir project_path)) (migrated_host no_fault_env) in
  ∃ rn, r = Ok rn ∧ d_StateDir (rn_daemon rn) = "/p/.phonewave" ∧ own 0 h' = all_open (rn_lock rn).
Proof.
  pose proof (@daemon_starts_from_config sample_external sample_JSON sample_snapshots sample_YAML sample_YAMLLaws utc_date
    (λ _, "id") "/p" scanned_config wiring_flags
    (NewRunDaemonCommand false false (mkRetryInterval (60 * Second)) (mkMaxRetries 10) (30 * Minute)) 0
    (migrated_host no_fault_env)) as HT. cbv zeta in HT.
  change (DefaultConfigPath "/p") with project_path in HT.
  destruct (run 0 _ (migrated_host no_fault_env)) as [r h']. destruct HT as (routes & ino & -> & HT).
  - reflexivity.
  - intros n. reflexivity.
  - apply scanned_stored.
  - apply scanned_fit.
  - apply scanned_ready.
  - vm_compute. discriminate.
  - intros n. reflexivity.
  - reflexivity.
  - reflexivity.
  - reflexivity.
  - eexists. split; [reflexivity|]. split; [reflexivity|apply HT].
Defined.
