(* ===== verification/Status.v ===== *)
(** * The status report

    Models [session/status.go], the liveness check of [session/doctor.go],
    [loadProviderStateSnapshot] of [session/provider_state_file.go] and
    [domain/status_report.go] up to its printing.  The delivery log is read
    back from the lines [Daemon.DeliveryLog] writes, the PID and start files
    from what [DaemonRun] leaves in [w_state].  A snapshot file holds a
    snapshot the program encoded itself, so decoding it gives it back.  What
    the operating system says about a process is a parameter. *)
From S2P Require Import Prelude GoStrings GoPath GoTime DMail Router Provider Prog World ErrorQueue DeliverSafety SetupSafety Setup Daemon Files EventStore Insight Cutover Wiring WiringSafety Startup Metrics Skills.

#[local] Open Scope Z_scope.

(** ** [ParseDeliveryStats] *)

Record DeliveryStats24h := mkStats { st_Delivered : Z; st_Failed : Z; st_Retried : Z }.
Definition no_stats : DeliveryStats24h := mkStats 0 0 0.

(** [bufio.MaxScanTokenSize]: a line that does not fit with its newline ends
    the scan. *)
Definition MaxScanTokenSize : Z := 64 * 1024.
Fixpoint scanned (lines : list bytes) : list string :=
  match lines with
  | [] => []
  | l :: r => if MaxScanTokenSize <=? Z.of_nat (length l) then [] else str (dropCR l) :: scanned r
  end.

(** [s[:i]] and [s[i+1:]] at the first space. *)
Definition cut_space (s : string) : option (string * string) :=
  match IndexByte s " " with
  | Some i => Some (substring 0 i s, substring (S i) (slen s - S i) s)
  | None => None
  end.

Definition count_action (action : string) (s : DeliveryStats24h) : DeliveryStats24h :=
  if bool_decide (action = "DELIVERED") then mkStats (st_Delivered s + 1) (st_Failed s) (st_Retried s)
  else if bool_decide (action = "FAILED") then mkStats (st_Delivered s) (st_Failed s + 1) (st_Retried s)
  else if bool_decide (action = "RETRIED") then mkStats (st_Delivered s) (st_Failed s) (st_Retried s + 1)
  else s.

(** The body of the loop over the lines. *)
Definition count_line (cutoff : Time) (s : DeliveryStats24h) (line : string) : DeliveryStats24h :=
  if (slen line <? 20)%nat then s else
  match cut_space line with
  | None => s
  | Some (stamp, rest) =>
      match Parse_RFC3339 stamp with
      | None => s
      | Some ts =>
          if ts <? cutoff then s else
          let rest := TrimSpace rest in
          count_action (match cut_space rest with Some (a, _) => a | None => rest end) s
      end
  end.

Definition ParseDeliveryStats : act DeliveryStats24h := λ w,
  let '(f, w) := fault w in
  match f with
  | Some _ => (no_stats, w)
  | None =>
      let '(now, w) := Now w in
      let data := raw (String.concat "" (w_dlog w)) in
      (fold_left (count_line (now - 24 * Hour)) (scanned (split_lines [] data)) no_stats, w)
  end.

(** ** The daemon process *)

Inductive signal_result := SigOK | SigEPERM | SigError.
(** Answers of the operating system, numbered by step. *)
Class Processes := {
  pr_windows : bool;
  pr_FindProcess : nat → Z → bool;
  pr_signal0 : nat → Z → signal_result }.

Section Status.
Context `{MC : Machine} `{PR : Processes}.

Definition IsProcessAlive (pid : Z) : act bool := λ w,
  let n := w_tick w in
  (if pr_windows then pr_FindProcess n pid
   else if negb (pr_FindProcess n pid) then false
   else match pr_signal0 n pid with SigOK => true | SigEPERM => true | SigError => false end, bump w).

Record DaemonHealthStatus := mkDaemonStatus { ds_Checked : bool; ds_Running : bool; ds_PID : Z }.

(** [os.ReadFile] of one of the daemon's own files. *)
Definition read_state (f : StateFiles → option string) : act (option string) := λ w,
  let '(e, w) := fault w in
  match e with Some _ => (None, w) | None => (f (w_state w), w) end.

Definition checkDaemonStatus : program DaemonHealthStatus :=
  d ← atom (read_state sf_pid);
  match d with
  | None => mret (mkDaemonStatus true false 0)
  | Some data =>
      match Atoi (TrimSpace data) with
      | None => mret (mkDaemonStatus true false 0)
      | Some pid =>
          alive ← atom (IsProcessAlive pid);
          mret (if alive : bool then mkDaemonStatus true true pid else mkDaemonStatus true false 0)
      end
  end.

Definition loadProviderStateSnapshot : act (option ProviderStateSnapshot) := λ w,
  let '(e, w) := fault w in
  match e with Some _ => (None, w) | None => (sf_provider (w_state w), w) end.

(** ** [Status] *)

Record StatusReport := mkReport {
  sr_DaemonRunning : bool; sr_DaemonPID : Z; sr_OutboxCount : nat; sr_RouteCount : nat; sr_RepoCount : nat;
  sr_PendingErrors : nat; sr_ProviderState : string; sr_ProviderReason : string; sr_ProviderRetryBudget : Z;
  sr_ProviderResumeAt : Time; sr_ProviderResumeWhen : string; sr_Uptime : Duration;
  sr_DeliveredCount24h : Z; sr_FailedCount24h : Z; sr_RetriedCount24h : Z; sr_SuccessRate24h : option (Z * Z);
  sr_SkillsRefVenv : string; sr_SkillsRefReady : bool }.

Definition count_outboxes (cfg : Config) : nat :=
  fold_left (λ n repo, fold_left (λ n ep, if (0 <? length (epc_Produces ep))%nat then S n else n) (rc_Endpoints repo) n)
    (cfg_Repositories cfg) 0%nat.

(** [time.Since(startTime)], or 0 when there is no readable start. *)
Definition uptime : program Duration :=
  d ← atom (read_state sf_started);
  match d with
  | None => mret 0
  | Some data =>
      match Parse_RFC3339 (TrimSpace data) with
      | None => mret 0
      | Some start => now ← atom Now; mret (Sub now start)
      end
  end.

(** The queue is opened, and created when there is none: whether it is open
    now, and the count. *)
Definition pending_errors (stateDir : string) : prog Host (bool * nat) :=
  q ← NewSQLiteErrorQueueStore stateDir;
  match q with
  | Err _ => mret (false, 0%nat)
  | Ok _ =>
      c ← on_world (atom (PendingCount (2 ^ 31 - 1)));
      mret (true, match c with Ok n => n | Err _ => 0%nat end)
  end.

(** Without a snapshot file. *)
Definition assumed_snapshot (pending : nat) : ProviderStateSnapshot :=
  if (0 <? pending)%nat
  then mkSnapshot ProviderStateWaiting ProviderReasonDeliveryRetryBackoff 1 0 ResumeConditionBackoffElapses
  else ActiveProviderState.

Definition skills_ready : program bool :=
  p ← atom (exec_LookPath "skills-ref");
  match p with
  | Ok _ => mret true
  | Err _ =>
      u ← atom (exec_LookPath "uv");
      match u with
      | Err _ => mret false
      | Ok _ => dir ← findSkillsRefDir; mret (negb (bool_decide (dir = "")))
      end
  end.

Definition Status (cfg : Config) (stateDir : string) : prog Host StatusReport :=
  ds ← on_world checkDaemonStatus;
  up ← on_world uptime;
  stats ← on_world (atom ParseDeliveryStats);
  '(opened, pending) ← pending_errors stateDir;
  s ← on_world (atom loadProviderStateSnapshot);
  let snapshot := default (assumed_snapshot pending) s in
  ready ← on_world skills_ready;
  (* defer eq.Close() *)
  _ ← (if opened : bool then closes HQueue else mret tt);
  mret (mkReport (ds_Running ds) (ds_PID ds) (count_outboxes cfg) (length (cfg_Routes cfg)) (length (cfg_Repositories cfg))
    pending (ps_State snapshot) (ps_Reason snapshot) (ps_RetryBudget snapshot)
    (ps_ResumeAt snapshot) (ps_ResumeCondition snapshot) up
    (st_Delivered stats) (st_Failed stats) (st_Retried stats)
    (SuccessRate (mkMetrics (st_Delivered stats) (st_Failed stats) 0))
    (path_Join [mc_TempDir; SkillsRefVenvName]) ready).
End Status.

(** ** The log that is written is the log that is counted *)

(** A byte that is no part of a space. *)
Definition solid (c : ascii) : Prop := space1 c = false ∧ sep_byte c.

(** Trimming stops at a solid byte at the latest. *)
Section Stops.
Context (p1 : ascii → bool) (p2 : ascii → ascii → bool) (p3 : ascii → ascii → ascii → bool) (c : ascii).
Hypothesis H1 : p1 c = false.
Hypothesis H2 : ∀ d, p2 c d = false ∧ p2 d c = false.
Hypothesis H3 : ∀ d e, p3 c d e = false ∧ p3 d c e = false ∧ p3 d e c = false.
Lemma trim_stops x b : ∃ x', trim_with p1 p2 p3 (x ++ c :: b) = x' ++ c :: b.
Proof using H1 H2 H3.
  remember (x ++ c :: b) as l eqn:E. revert x E.
  induction l as [|l Hok Hne Hid|d r E1 IH|d e r E1 E2 IH|d e g r E1 E2 E3 IH] using (trim_with_ind p1 p2 p3); intros x E.
  - by destruct x.
  - exists x. by rewrite Hid, E.
  - cbn [trim_with]. rewrite E1. destruct x as [|d' x]; cbn in E; [injection E as -> _; congruence|].
    injection E as -> E. by eapply IH.
  - cbn [trim_with]. rewrite E1, E2. destruct x as [|d' [|e' x]]; simplify_eq/=.
    + by rewrite (proj1 (H2 e)) in E2.
    + by rewrite (proj2 (H2 _)) in E2.
    + by eapply IH.
  - cbn [trim_with]. rewrite E1, E2, E3. destruct x as [|d' [|e' [|g' x]]]; simplify_eq/=.
    + by rewrite (proj1 (H3 e g)) in E3.
    + by rewrite (proj1 (proj2 (H3 _ _))) in E3.
    + by rewrite (proj2 (proj2 (H3 _ _))) in E3.
    + by eapply IH.
Qed.
End Stops.

(** A word of solid bytes in front survives [TrimSpace], with what follows it
    cut at the end. *)
Lemma TrimSpace_word (u : string) (c : ascii) (t : string) :
  lead_ok (raw (u +:+ String c t)) = true → solid c →
  ∃ t' q, TrimSpace (u +:+ String c t) = u +:+ String c t' ∧ t = t' +:+ q.
Proof.
  intros Hl [Hc Hs]. unfold TrimSpace, trim_left. rewrite (head_ok_trim space1 space2 space3) by done.
  unfold trim_right. rewrite raw_app. change (raw (String c t)) with (c :: raw t).
  rewrite reverse_app, reverse_cons, <- app_assoc. cbn [app].
  destruct (trim_stops space1 (λ d c, space2 c d) (λ e d c, space3 c d e) c Hc
    (λ d, conj (space2_sep _ _ Hs) (space2_sep' _ _ Hs))
    (λ d e, conj (space3_sep _ _ _ Hs) (conj (space3_sep' _ _ _ Hs) (space3_sep'' _ _ _ Hs)))
    (reverse (raw t)) (reverse (raw u))) as [x' E].
  destruct (trim_with_suffix space1 (λ d c, space2 c d) (λ e d c, space3 c d e) (reverse (raw t) ++ c :: reverse (raw u))) as [p Ep].
  rewrite E in *. rewrite app_assoc in Ep. apply app_inv_tail in Ep.
  exists (str (reverse x')), (str (reverse p)). split.
  - rewrite reverse_app, reverse_cons, reverse_involutive, <- app_assoc. cbn [app]. rewrite str_app. by rewrite string_of_list_ascii_of_string.
  - apply raw_inj. rewrite raw_app, !list_ascii_of_string_of_list_ascii, <- reverse_app, <- Ep. by rewrite reverse_involutive.
Qed.

Lemma IndexByte_app s c t : has_byte c s = false → IndexByte (s +:+ String c t) c = Some (slen s).
Proof.
  induction s as [|d s IH]; intros Hn.
  - change (IndexByte (String c t) c = Some 0%nat). cbn. by rewrite bool_decide_true.
  - rewrite app_str_cons. cbn in Hn |- *. apply orb_false_iff in Hn as [Hd Hn].
    rewrite bool_decide_false by (intros ->; by rewrite bool_decide_true in Hd). by rewrite IH.
Qed.
Lemma IndexByte_none s c : has_byte c s = false → IndexByte s c = None.
Proof.
  induction s as [|d s IH]; intros Hn; [done|]. cbn in Hn |- *. apply orb_false_iff in Hn as [Hd Hn].
  rewrite bool_decide_false by (intros ->; by rewrite bool_decide_true in Hd). by rewrite IH.
Qed.
Lemma cut_space_app s t : has_byte " " s = false → cut_space (s +:+ String " " t) = Some (s, t).
Proof.
  intros Hs. unfold cut_space. rewrite IndexByte_app by done. f_equal. f_equal; [apply substring_take|].
  replace (s +:+ String " " t) with ((s +:+ " ") +:+ t) by (by rewrite <- app_str_assoc).
  replace (S (slen s)) with (slen (s +:+ " ") + 0)%nat by (rewrite slen_app; cbn; lia).
  rewrite substring_skip. apply substring_all. rewrite !slen_app. lia.
Qed.

Record log_entry := mkEntry { le_time : Time; le_action : string; le_details : string }.
Definition entry_text (e : log_entry) : string :=
  format_rfc3339 (le_time e) +:+ " " +:+ DeliveryLog.pad9 (le_action e) +:+ " " +:+ le_details e.
Definition entry_line (e : log_entry) : string := entry_text e +:+ String "010" "".

Definition log_actions : list string := ["DELIVERED"; "REMOVED"; "FAILED"; "RETRIED"].
(** What the log can hold without confusing its reader: years of four digits,
    one line per entry, lines the scanner has room for. *)
Record loggable (e : log_entry) : Prop := {
  lo_year : 0 <= year_of (le_time e) < 10000;
  lo_action : le_action e ∈ log_actions;
  lo_line : has_byte "010" (le_details e) = false;
  lo_fits : Z.of_nat (slen (entry_text e)) < MaxScanTokenSize }.

Lemma write_entry action details w :
  DeliveryLog.write action details w =
  (tt, set_dlog (w_dlog w ++ [entry_line (mkEntry (fst (Now w)) action details)]) (snd (Now w))).
Proof.
  unfold DeliveryLog.write, entry_line, entry_text, Now. cbn [fst snd le_time le_action le_details].
  by rewrite <- !app_str_assoc.
Qed.

Lemma raw_concat l : raw (String.concat "" l) = mjoin (raw <$> l).
Proof.
  induction l as [|s l IH]; [done|]. transitivity (raw s ++ raw (String.concat "" l)).
  - rewrite <- raw_app. destruct l as [|t l]; [by rewrite app_str_nil_r|done].
  - by rewrite IH.
Qed.
Lemma split_text (ls : list bytes) : Forall (λ l, nl ∉ l) ls → split_lines [] (mjoin ((λ l, l ++ [nl]) <$> ls)) = ls.
Proof.
  induction 1 as [|l ls Hl _ IH]; [done|]. cbn [fmap list_fmap].
  change (mjoin ((l ++ [nl]) :: ?r)) with ((l ++ [nl]) ++ mjoin r). rewrite <- app_assoc. cbn [app].
  rewrite split_lines_line by done. cbn [app]. by rewrite IH.
Qed.
Lemma scanned_short ls : Forall (λ l, Z.of_nat (length l) < MaxScanTokenSize) ls → scanned ls = (λ l, str (dropCR l)) <$> ls.
Proof.
  induction 1 as [|l ls Hl _ IH]; [done|]. cbn [scanned]. destruct (Z.leb_spec MaxScanTokenSize (Z.of_nat (length l))); [lia|].
  cbn. by rewrite IH.
Qed.

Lemma entry_no_nl e : loggable e → has_byte nl (entry_text e) = false.
Proof.
  intros [_ Ha Hl _]. unfold entry_text, nl. rewrite !has_byte_app, format_no_byte, Hl by done.
  unfold log_actions in Ha. rewrite !elem_of_cons, elem_of_nil in Ha. by destruct Ha as [->|[->|[->|[->|[]]]]].
Qed.

(** The scanner may take a carriage return off the details. *)
Lemma dropCR_details s t : ∃ t', str (dropCR (raw (s +:+ String " " t))) = s +:+ String " " t'.
Proof.
  unfold dropCR. case_bool_decide as E; [|exists t; by rewrite string_of_list_ascii_of_string].
  rewrite raw_app in E |- *. change (raw (String " " t)) with (" "%char :: raw t) in *. destruct t as [|c t].
  { change (raw "") with (@nil ascii) in E. rewrite last_snoc in E. done. }
  change (raw (String c t)) with (c :: raw t) in *. exists (str (take (length (raw t)) (c :: raw t))).
  rewrite length_app. cbn [length]. rewrite take_app.
  rewrite take_ge by lia. replace (_ + _ - 1 - _)%nat with (S (length (raw t))) by lia.
  cbn [take]. rewrite str_app, string_of_list_ascii_of_string. done.
Qed.

(** An action and its padding. *)
Lemma padded_action a : a ∈ log_actions →
  has_byte " " a = false ∧
  ∃ u c, a = u +:+ String c "" ∧ solid c ∧
  ∀ d, lead_ok (raw (a +:+ d)) = true ∧ ∃ r, DeliveryLog.pad9 a +:+ " " +:+ d = u +:+ String c (String " " r).
Proof.
  unfold log_actions. rewrite !elem_of_cons, elem_of_nil. intros [->|[->|[->|[->|[]]]]]; (split; [done|]).
  - exists "DELIVERE", "D"%char. split_and!; [done..|]. intros d. split; [done|]. by exists d.
  - exists "REMOVE", "D"%char. split_and!; [done..|]. intros d. split; [done|]. by exists (String " " (String " " d)).
  - exists "FAILE", "D"%char. split_and!; [done..|]. intros d. split; [done|]. by exists ("   " +:+ d).
  - exists "RETRIE", "D"%char. split_and!; [done..|]. intros d. split; [done|]. by exists (String " " (String " " d)).
Qed.

Lemma count_entry cutoff s e : loggable e →
  count_line cutoff s (str (dropCR (raw (entry_text e)))) =
  if le_time e / Second * Second <? cutoff then s else count_action (le_action e) s.
Proof.
  intros [Hy Ha _ _]. unfold entry_text.
  destruct (dropCR_details (format_rfc3339 (le_time e) +:+ " " +:+ DeliveryLog.pad9 (le_action e)) (le_details e)) as [d' Ed].
  rewrite <- !app_str_assoc in Ed.
  change (" " +:+ le_details e) with (String " " (le_details e)). rewrite Ed.
  set (rest := DeliveryLog.pad9 (le_action e) +:+ String " " d').
  change (" " +:+ rest) with (String " " rest). unfold count_line.
  rewrite cut_space_app by (by apply format_no_byte). rewrite Parse_format by done.
  assert ((slen (format_rfc3339 (le_time e) +:+ String " " rest) <? 20)%nat = false) as ->.
  { pose proof (slen_format (le_time e)) as Hl. apply Nat.ltb_ge. rewrite slen_app. lia. }
  destruct (_ <? cutoff); [done|]. f_equal.
  destruct (padded_action _ Ha) as (Hn & u & c & Ec & Hc & Hd). destruct (Hd d') as (_ & r & Er).
  change (" " +:+ d') with (String " " d') in Er. fold rest in Er. rewrite Er.
  assert (u +:+ String c (String " " r) = le_action e +:+ String " " r) as Eu by (rewrite Ec, <- app_str_assoc; done).
  destruct (TrimSpace_word u c (String " " r)) as (t' & q & -> & Eq); [rewrite Eu; by apply Hd|done|].
  destruct t' as [|b t'].
  - rewrite <- Ec. unfold cut_space. by rewrite IndexByte_none.
  - assert (b = " "%char) as -> by (change (String b t' +:+ q) with (String b (t' +:+ q)) in Eq; congruence).
    replace (u +:+ String c (String " " t')) with (le_action e +:+ String " " t') by (rewrite Ec, <- app_str_assoc; done).
    by rewrite cut_space_app.
Qed.

(** The entries of an action that are recent enough. *)
Definition counted_since (action : string) (cutoff : Time) (es : list log_entry) : Z :=
  Z.of_nat (length (filter (λ e, le_action e = action ∧ cutoff <= le_time e / Second * Second) es)).

Lemma counted_cons action cutoff e es :
  counted_since action cutoff (e :: es) =
  (if bool_decide (le_action e = action) && (cutoff <=? le_time e / Second * Second) then 1 else 0) + counted_since action cutoff es.
Proof.
  unfold counted_since. rewrite filter_cons. destruct (Z.leb_spec cutoff (le_time e / Second * Second)).
  - case_bool_decide; [rewrite decide_True by done; cbn [length andb]; lia|by rewrite decide_False by (by intros [? _])].
  - rewrite andb_false_r, decide_False by (intros [_ ?]; lia). done.
Qed.

Lemma count_entries cutoff es s : Forall loggable es →
  fold_left (count_line cutoff) ((λ e, str (dropCR (raw (entry_text e)))) <$> es) s =
  mkStats (st_Delivered s + counted_since "DELIVERED" cutoff es) (st_Failed s + counted_since "FAILED" cutoff es)
    (st_Retried s + counted_since "RETRIED" cutoff es).
Proof.
  intros Hes. revert s. induction Hes as [|e es He _ IH]; intros [d f r]; [unfold counted_since; rewrite !filter_nil; cbn; f_equal; lia|].
  cbn [fmap list_fmap fold_left]. rewrite count_entry, IH by done. rewrite !counted_cons.
  destruct He as [_ Ha _ _]. rewrite Z.ltb_antisym. destruct (cutoff <=? _); cbn [negb andb];
    [|rewrite !andb_false_r; cbn; by rewrite !Z.add_0_l].
  unfold log_actions in Ha. rewrite !elem_of_cons, elem_of_nil in Ha.
  destruct Ha as [->|[->|[->|[->|[]]]]]; unfold count_action;
    repeat case_bool_decide; try done; cbn -[Z.add counted_since]; f_equal; lia.
Qed.

(** C10: Over a log of entries as [DeliveryLog.write] appends them, the status
    counts exactly the deliveries, failures and retries whose stamp, cut to the
    second, is no more than 24 hours old. *)
Theorem stats_count_log (es : list log_entry) (w : World) :
  w_dlog w = entry_line <$> es → Forall loggable es → env_fault (w_env w) (w_tick w) = None →
  let cutoff := env_now (w_env w) (S (w_tick w)) - 24 * Hour in
  fst (ParseDeliveryStats w) =
    mkStats (counted_since "DELIVERED" cutoff es) (counted_since "FAILED" cutoff es) (counted_since "RETRIED" cutoff es) ∧
  ∀ action details v,
    w_dlog (snd (DeliveryLog.write action details v)) = w_dlog v ++ [entry_line (mkEntry (fst (Now v)) action details)].
Proof.
  intros Hw Hes Hf cutoff. split; [|intros; by rewrite write_entry].
  unfold ParseDeliveryStats, fault, Now. rewrite Hf. cbn [fst]. change (w_dlog (bump (bump w))) with (w_dlog w).
  rewrite Hw, raw_concat.
  assert (raw <$> (entry_line <$> es) = (λ l, l ++ [nl]) <$> ((λ e, raw (entry_text e)) <$> es)) as ->.
  { rewrite <- !list_fmap_compose. apply list_fmap_ext. intros _ e _. unfold compose, entry_line. by rewrite raw_app. }
  rewrite split_text, scanned_short.
  - rewrite <- list_fmap_compose. unfold compose. rewrite count_entries by done. cbn. unfold cutoff. cbn.
    done.
  - apply Forall_fmap. eapply Forall_impl; [exact Hes|]. intros e [_ _ _ Hl]. unfold compose. by rewrite length_raw.
  - apply Forall_fmap. eapply Forall_impl; [exact Hes|]. intros e He. unfold compose. by apply has_byte_raw, entry_no_nl.
Qed.

(** ** The report of a running daemon *)

Lemma count_outboxes_length cfg : count_outboxes cfg = length (CollectOutboxDirs cfg).
Proof.
  unfold count_outboxes, CollectOutboxDirs.
  assert (∀ repo eps n, fold_left (λ n ep, if (0 <? length (epc_Produces ep))%nat then S n else n) eps n =
    (n + length (omap (λ ep, match epc_Produces ep with [] => None | _ => Some (path_Join [rc_Path repo; epc_Dir ep; "outbox"]) end) eps))%nat) as Hep.
  { intros repo eps. induction eps as [|ep eps IH]; intros n; [cbn; lia|]. cbn [fold_left]. rewrite IH. cbn.
    destruct (epc_Produces ep); cbn; lia. }
  enough (∀ repos n, fold_left (λ n repo, fold_left (λ n ep, if (0 <? length (epc_Produces ep))%nat then S n else n) (rc_Endpoints repo) n) repos n =
    (n + length (mjoin (map (λ repo, omap (λ ep, match epc_Produces ep with [] => None | _ => Some (path_Join [rc_Path repo; epc_Dir ep; "outbox"]) end) (rc_Endpoints repo)) repos)))%nat) as He
    by (by rewrite He).
  induction repos as [|repo repos IH]; intros n; [cbn; lia|]. cbn [fold_left map]. rewrite IH, (Hep repo).
  assert (∀ {A} (x : list A) r, mjoin (x :: r) = x ++ mjoin r) as -> by done. rewrite length_app. lia.
Qed.

Lemma solid_trimmed s : Forall solid (raw s) → TrimSpace s = s.
Proof.
  assert (∀ p1 p2 p3 l, Forall solid l → (∀ c, solid c → p1 c = false) → (∀ c d, solid c → p2 c d = false) →
    (∀ c d e, solid c → p3 c d e = false) → head_ok p1 p2 p3 l = true) as Hh.
  { intros p1 p2 p3 l Hl H1 H2 H3. destruct Hl as [|c l Hc Hl]; [done|]. cbn. rewrite H1 by done. destruct l as [|d l]; [done|].
    rewrite H2 by done. destruct l as [|e l]; [done|]. by rewrite H3. }
  intros Hs. apply TrimSpace_id.
  - apply Hh; [done|..]; intros; try (by apply space2_sep', H || apply space3_sep''); by destruct H as [? ?]; eauto using space2_sep', space3_sep''.
  - apply Hh; [by apply Forall_reverse|..]; intros; by destruct H as [? ?]; eauto using space2_sep, space3_sep.
Qed.
Lemma stamp_bytes_solid c : has_byte c "0123456789-TZ:" = true → solid c.
Proof.
  cbn. rewrite !orb_true_iff, !bool_decide_eq_true. intros H. destruct_or!; subst; by split.
Qed.
Lemma Itoa_trimmed z : TrimSpace (Itoa z) = Itoa z.
Proof.
  apply solid_trimmed, Forall_forall. intros c Hc. apply stamp_bytes_solid.
  destruct (has_byte c "0123456789-TZ:") eqn:E; [done|]. exfalso. revert Hc. apply has_byte_raw, Itoa_no_byte.
  unfold no_digit. change "0123456789-TZ:" with ("0123456789-" +:+ "TZ:") in E. rewrite has_byte_app in E.
  apply orb_false_iff in E as [-> _]. done.
Qed.
Lemma format_trimmed t : TrimSpace (format_rfc3339 t) = format_rfc3339 t.
Proof.
  apply solid_trimmed, Forall_forall. intros c Hc. apply stamp_bytes_solid.
  destruct (has_byte c "0123456789-TZ:") eqn:E; [done|]. exfalso. revert Hc. by apply has_byte_raw, format_no_byte.
Qed.

(** *** What one program of the report returns *)

Section Running.
Context `{MC : Machine} `{PR : Processes}.
Variable i : nat.

(** A program that changes nothing and returns [P]. *)
Definition tells {A} (p : program A) (P : A → Prop) (w : World) : Prop :=
  no_faults (w_env w) → runs i p (λ a v, tick_only w v ∧ P a) w.

Lemma tells_on_world {A} (p : program A) P (Q : A → Host → Prop) h :
  no_faults (w_env (host_world h)) → tells p P (host_world h) →
  (∀ a h', P a → tick_only (host_world h) (host_world h') → h_open h' = h_open h → Q a h') → runs i (on_world p) Q h.
Proof.
  intros He Hp HQ. specialize (Hp He).
  assert (runs i (lift p) (λ a s, tick_only (host_world h) (st_world s) ∧ P a) (h_store h)) as Hl by (apply runs_lift; exact Hp).
  destruct (run_on_store i (lift p) h) as (E1 & E2 & E3 & E4). unfold runs, on_world in *. rewrite E1. destruct Hl as [Ht HP].
  apply HQ; [done| |done]. unfold host_world at 2. by rewrite E2.
Qed.
Lemma tick_env w w' : tick_only w w' → w_env w' = w_env w ∧ w_state w' = w_state w ∧ w_queue w' = w_queue w ∧ w_fs w' = w_fs w.
Proof. intros ->. done. Qed.

Lemma tells_status pid w : sf_pid (w_state w) = Some (Itoa pid) → - two63 <= pid < two63 → pr_windows = false →
  (∀ n, pr_FindProcess n pid = true ∧ pr_signal0 n pid ≠ SigError) →
  tells checkDaemonStatus (eq (mkDaemonStatus true true pid)) w.
Proof.
  intros Hp Hr Hw Ha He. unfold checkDaemonStatus. apply runs_bind, runs_atom. unfold read_state, fault. rewrite He. cbn [fst snd].
  change (w_state (bump w)) with (w_state w). rewrite Hp, Itoa_trimmed, Atoi_Itoa by done. apply runs_bind, runs_atom.
  unfold IsProcessAlive. rewrite Hw. destruct (Ha (w_tick (bump w))) as [-> Hs]. cbn [negb fst snd].
  destruct (pr_signal0 _ _); [| |done]; apply runs_ret; split; try done; by destruct w.
Qed.
Lemma tells_uptime start w : sf_started (w_state w) = Some (format_rfc3339 start) → 0 <= year_of start < 10000 →
  tells uptime (λ d, ∃ n, d = Sub (env_now (w_env w) n) (start / Second * Second)) w.
Proof.
  intros Hs Hy He. unfold uptime. apply runs_bind, runs_atom. unfold read_state, fault. rewrite He. cbn [fst snd].
  change (w_state (bump w)) with (w_state w). rewrite Hs, format_trimmed, Parse_format by done. apply runs_bind, runs_atom.
  apply runs_ret. split; [by destruct w|]. by eexists.
Qed.
Lemma tells_stats w : tells (atom ParseDeliveryStats) (λ _, True) w.
Proof. intros He. apply runs_atom. unfold ParseDeliveryStats, fault, Now. rewrite He. by destruct w. Qed.
Lemma tells_pending k w : tells (atom (PendingCount k)) (eq (Ok (length (List.filter (pending k) (w_queue w))))) w.
Proof. intros He. apply runs_atom. unfold PendingCount, guarded, fault. rewrite He. by destruct w. Qed.
Lemma tells_snapshot w : tells (atom loadProviderStateSnapshot) (eq (sf_provider (w_state w))) w.
Proof. intros He. apply runs_atom. unfold loadProviderStateSnapshot, fault. rewrite He. by destruct w. Qed.
Lemma tells_may_fail prefix w : tells (atom (guarded prefix (λ w, (Ok tt, w)))) (eq (Ok tt)) w.
Proof. intros He. apply runs_atom. unfold guarded, fault. rewrite He. by destruct w. Qed.
Lemma tells_mkdir p w : w_fs w !! Clean p = Some NDir → tells (atom (os_MkdirAll p)) (eq (Ok tt)) w.
Proof.
  intros Hp He. apply runs_atom. unfold os_MkdirAll, guarded, fault. rewrite He. change (w_fs (bump w)) with (w_fs w).
  rewrite mkdir_all_there by done. by destruct w.
Qed.

(** The host as it was, but for its step counter and the handles of [i]. *)
Definition sees (w : World) (l : list handle) (h : Host) : Prop := tick_only w (host_world h) ∧ own i h = l.
Lemma sees_world {A} (p : program A) P (Q : A → Host → Prop) w l h :
  no_faults (w_env w) → sees w l h → (∀ v, tick_only w v → tells p P v) → (∀ a h', P a → sees w l h' → Q a h') →
  runs i (on_world p) Q h.
Proof.
  intros He [Hw Ho] Hp HQ. apply (tells_on_world p P); [by rewrite (proj1 (tick_env _ _ Hw))|by apply Hp|].
  intros a h' HP Ht Eo. apply HQ; [done|]. split; [by eapply tick_only_trans|]. unfold own in *. by rewrite Eo.
Qed.
Lemma sees_db x name dir stmts (Q : result unit → Host → Prop) w l h :
  no_faults (w_env w) → w_fs w !! Clean dir = Some NDir → sees w l h →
  (∀ h', sees w (x :: l) h' → Q (Ok tt) h') → runs i (open_db x name dir stmts) Q h.
Proof.
  intros He Hd Hw HQ. unfold open_db. apply runs_bind.
  eapply sees_world; [done|exact Hw| |].
  { intros v Hv. apply tells_mkdir. by rewrite (proj2 (proj2 (proj2 (tick_env _ _ Hv)))). }
  intros a h1 <- Hw1. apply runs_bind. eapply sees_world; [done|exact Hw1|intros; apply tells_may_fail|].
  intros a h2 <- [Hw2 Ho2]. apply runs_bind. apply runs_atom_by. cbn [fst snd].
  match goal with |- runs _ _ _ ?hh => assert (sees w (x :: l) hh) as Hw3 end.
  { split; [exact Hw2|]. unfold own in *. cbn [set_open h_open]. rewrite own_in_cons, bool_decide_true by done. by f_equal. }
  revert Hw3. generalize (set_open ((i, x) :: h_open h2) h2). match goal with |- context [exec_stmts _ ?l] => generalize l end.
  clear stmts. intros stmts. clear h h1 h2 Hw Hw1 Hw2 Ho2.
  induction stmts as [|s stmts IH]; intros h Hh; cbn [exec_stmts]; [by apply runs_ret, HQ|]. apply runs_bind.
  eapply sees_world; [done|exact Hh|intros; apply tells_may_fail|]. intros a h' <- Hh'. by apply IH.
Qed.
Lemma sees_queue stateDir (Q : result unit → Host → Prop) w l h :
  no_faults (w_env w) → w_fs w !! Clean (path_Join [stateDir; ".run"]) = Some NDir → sees w l h →
  (∀ h', sees w (HQueue :: l) h' → Q (Ok tt) h') → runs i (NewSQLiteErrorQueueStore stateDir) Q h.
Proof. apply sees_db. Qed.
Lemma sees_ready (Q : bool → Host → Prop) h : (∀ b h', own i h' = own i h → Q b h') → runs i (on_world skills_ready) Q h.
Proof.
  intros HQ. unfold runs. apply HQ. unfold own. destruct (run_on_store i (lift skills_ready) h) as (_ & _ & _ & E).
  unfold on_world. by rewrite E.
Qed.
End Running.

(**  While the daemon whose PID and start files are in the state directory
    is alive, the status says so, with its PID and the time since the start
    cut to the second; it counts the outboxes the daemon watches, the queue's
    entries short of the largest retry count, and shows the snapshot file, or
    without one a state guessed from the queue.  The queue is closed again. *)
Theorem status_of_running_daemon `{MC : Machine} `{PR : Processes} (i : nat) (cfg : Config) (stateDir : string)
    (pid : Z) (start : Time) (h : Host) :
  let w := host_world h in
  no_faults (w_env w) → w_fs w !! Clean (path_Join [stateDir; ".run"]) = Some NDir →
  sf_pid (w_state w) = Some (Itoa pid) → - two63 <= pid < two63 →
  pr_windows = false → (∀ n, pr_FindProcess n pid = true ∧ pr_signal0 n pid ≠ SigError) →
  sf_started (w_state w) = Some (format_rfc3339 start) → 0 <= year_of start < 10000 →
  runs i (Status cfg stateDir) (λ r h',
    sr_DaemonRunning r = true ∧ sr_DaemonPID r = pid ∧
    (∃ n, sr_Uptime r = Sub (env_now (w_env w) n) (start / Second * Second)) ∧
    sr_OutboxCount r = length (CollectOutboxDirs cfg) ∧
    sr_PendingErrors r = length (List.filter (pending (2 ^ 31 - 1)) (w_queue w)) ∧
    (let s := default (assumed_snapshot (sr_PendingErrors r)) (sf_provider (w_state w)) in
     mkSnapshot (sr_ProviderState r) (sr_ProviderReason r) (sr_ProviderRetryBudget r) (sr_ProviderResumeAt r) (sr_ProviderResumeWhen r) = s) ∧
    own i h' = own i h) h.
Proof.
  intros w He Hd Hp Hr Hw Ha Hs Hy. assert (sees i w (own i h) h) as G0 by (split; [apply tick_only_refl|done]).
  unfold Status. apply runs_bind. eapply (sees_world i checkDaemonStatus _ _ w); [done|exact G0| |].
  { intros v Hv. apply (tells_status i pid v); [|exact Hr|exact Hw|exact Ha]. by rewrite (proj1 (proj2 (tick_env _ _ Hv))). }
  intros ds h1 <- G1. apply runs_bind.
  eapply (sees_world i uptime (λ d, ∃ n, d = Sub (env_now (w_env w) n) (start / Second * Second))); [done|exact G1| |].
  { intros v Hv He'. eapply runs_mono; [|apply (tells_uptime i start v); [by rewrite (proj1 (proj2 (tick_env _ _ Hv)))|done|done]].
    intros a u [Hu [n Hn]]. split; [exact Hu|]. exists n. rewrite (proj1 (tick_env _ _ Hv)) in Hn. exact Hn. }
  intros up h2 Hup G2. apply runs_bind. eapply sees_world; [done|exact G2|intros; by apply tells_stats|].
  intros stats h3 _ G3. apply runs_bind. unfold pending_errors. apply runs_bind. eapply sees_queue; [done|exact Hd|exact G3|].
  intros h4 G4. apply runs_bind.
  eapply (sees_world i _ (eq (Ok (length (List.filter (pending (2 ^ 31 - 1)) (w_queue w)))))); [done|exact G4| |].
  { intros v Hv. rewrite <- (proj1 (proj2 (proj2 (tick_env _ _ Hv)))). apply tells_pending. }
  intros c h5 <- G5. apply runs_ret. apply runs_bind. eapply (sees_world i _ (eq (sf_provider (w_state w)))); [done|exact G5| |].
  { intros v Hv. rewrite <- (proj1 (proj2 (tick_env _ _ Hv))). apply tells_snapshot. }
  intros s h6 <- [_ G6]. apply runs_bind. apply sees_ready. intros ready h7 G7. apply runs_bind. apply runs_atom_by. cbn [fst snd].
  apply runs_ret. cbn. split_and!; [done|done|exact Hup|apply count_outboxes_length|done| |].
  - by destruct (default _ _).
  - unfold own in G6, G7. change (own_in i (drop_first (i, HQueue) (h_open h7)) = own_in i (h_open h)).
    rewrite own_in_drop, bool_decide_true, G7, G6 by done. cbn [drop_one]. by rewrite bool_decide_true.
Qed.

(** ** A sample state directory *)

Definition day_start : Time := 738944 * (24 * Hour).
Definition status_env : Env := mkEnv (λ _, None) (λ _, day_start + 30 * Hour) (λ _, 0) (λ _, "x") (λ _, 0%nat).
Definition sample_entries : list log_entry :=
  [mkEntry (day_start + Hour) "DELIVERED" "kind=spec from=/r/a.md to=/r/b.md";
   mkEntry (day_start + 7 * Hour + 5) "DELIVERED" "kind=spec from=/r/a.md to=/r/b.md";
   mkEntry (day_start + 8 * Hour) "FAILED" ("kind=unknown from=/r/x.md reason=eof" +:+ String "013" "");
   mkEntry (day_start + 9 * Hour) "RETRIED" "";
   mkEntry (day_start + 10 * Hour) "REMOVED" "from=/r/a.md"].
Definition status_world : World :=
  set_state (mkState None None (Some "4711") (Some "2024-02-29T06:00:00Z"))
    (set_fs {["/p/.phonewave/.run" := NDir]} (set_dlog (entry_line <$> sample_entries) (sample_world [] status_env))).
Definition status_host : Host := mkHost (mkStore status_world 1) (λ _, 0%nat) ∅ [] [].
(** A process that runs under another user. *)
Definition sample_processes : Processes :=
  {| pr_windows := false; pr_FindProcess := λ _ _, true; pr_signal0 := λ _ _, SigEPERM |}.

Lemma stats_count_log_witness :
  fst (ParseDeliveryStats status_world) = mkStats 1 1 1 ∧ counted_since "DELIVERED" (day_start + 6 * Hour) sample_entries = 1.
Proof.
  assert (Forall loggable sample_entries) as Hl.
  { repeat (constructor; [constructor; [split; vm_compute; done|apply (bool_decide_unpack _); vm_compute; done|done|done]|]). constructor. }
  destruct (stats_count_log sample_entries status_world eq_refl Hl eq_refl) as [E _]. split; [exact E|vm_compute; reflexivity].
Defined.

Lemma status_of_running_daemon_witness :
  runs 0 (Status (MC := sample_machine) (PR := sample_processes) siren_config "/p/.phonewave")
    (λ r _, sr_DaemonRunning r = true ∧ sr_DaemonPID r = 4711 ∧ sr_OutboxCount r = 1%nat ∧ sr_Uptime r = 24 * Hour) status_host.
Proof.
  eapply runs_mono; [|apply (status_of_running_daemon (MC := sample_machine) (PR := sample_processes)
    0 siren_config "/p/.phonewave" 4711 (day_start + 6 * Hour) status_host); [done|vm_compute; reflexivity|done|
    split; vm_compute; congruence|done|intros n; by split|vm_compute; reflexivity|split; vm_compute; congruence]].
  intros r h' (E1 & E2 & [n E3] & E4 & _). split_and!; [exact E1|exact E2|exact E4|rewrite E3; vm_compute; reflexivity].
Defined.

(** A D-Mail file whose name holds a line break forges an entry: the failure
    to deliver it is counted as a delivery too. *)
Definition forging_name : string := "/r/outbox/a" +:+ String "010" "2024-03-01T00:00:00Z DELIVERED .md".
Example newline_forges_delivery :
  fst (ParseDeliveryStats (snd (DeliveryLog.Failed "unknown" forging_name "no route" (sample_world [] status_env)))) = mkStats 1 1 0.
Proof. vm_compute. reflexivity. Qed.
