(* ===== verification/Report.v ===== *)
(** * Printed rates and the text of the status report

    [FormatSuccessRate] of [domain/metrics.go] and [FormatText] of
    [domain/status_report.go].  A [float64] is a [spec_float] with the
    precision and exponent range of binary64, rounded to nearest, ties to
    even; [%.1f] rounds its exact value to one decimal, ties to even. *)
From Stdlib Require Import SpecFloat.
From S2P Require Import Prelude GoStrings GoPath GoTime DMail Router Provider World Daemon Metrics Skills Wiring Status.

#[local] Open Scope Z_scope.

(** ** [float64] *)

Abbreviation float64 := spec_float (only parsing).
Definition float64_of (z : Z) : float64 := binary_normalize 53 1024 z 0 false.
Definition float64_div : float64 → float64 → float64 := SFdiv 53 1024.
Definition float64_mul : float64 → float64 → float64 := SFmul 53 1024.

(** [a / b] rounded to the nearest integer, ties to even. *)
Definition round_half_even (a b : Z) : Z :=
  let q := a / b in let r := a mod b in
  if 2 * r <? b then q else if b <? 2 * r then q + 1 else if Z.even q then q else q + 1.
Definition tenths (f : float64) : option Z :=
  match f with
  | S754_finite s m e =>
      let n := if 0 <=? e then Zpos m * 10 * 2 ^ e else round_half_even (Zpos m * 10) (2 ^ (- e)) in
      Some (if s then - n else n)
  | S754_zero _ => Some 0
  | _ => None
  end.
(** [%.1f], of a number that is not negative. *)
Definition format_fixed1 (f : float64) : string :=
  match tenths f with
  | Some n => Itoa (n / 10) +:+ "." +:+ Itoa (n mod 10)
  | None => match f with S754_nan => "NaN" | _ => "+Inf" end
  end.

Definition rate_float (r : option (Z * Z)) : float64 :=
  match r with
  | None => S754_zero false
  | Some (d, total) => float64_div (float64_of d) (float64_of total)
  end.

Definition FormatSuccessRate (rate : float64) (success total : Z) : string :=
  if total =? 0 then "no deliveries"
  else format_fixed1 (float64_mul rate (float64_of 100)) +:+ "% (" +:+ Itoa success +:+ "/" +:+ Itoa total +:+ ")".

Example rate_two_thirds : FormatSuccessRate (rate_float (SuccessRate (mkMetrics 2 1 5))) 2 3 = "66.7% (2/3)".
Proof. vm_compute. reflexivity. Qed.
(** 12.25 per cent is a tie: it goes to the even digit. *)
Example rate_tie : FormatSuccessRate (rate_float (SuccessRate (mkMetrics 49 351 0))) 49 400 = "12.2% (49/400)".
Proof. vm_compute. reflexivity. Qed.
Example rate_all : FormatSuccessRate (rate_float (SuccessRate (mkMetrics 7 0 0))) 7 7 = "100.0% (7/7)".
Proof. vm_compute. reflexivity. Qed.

(** ** [FormatText] *)

(** [Duration.Truncate(time.Second).String()], of a duration that is not negative. *)
Definition format_seconds (d : Duration) : string :=
  let s := d / Second in
  let secs := Itoa (s mod 60) +:+ "s" in
  if s <? 60 then secs
  else if s <? 3600 then Itoa (s / 60) +:+ "m" +:+ secs
  else Itoa (s / 3600) +:+ "h" +:+ Itoa (s / 60 mod 60) +:+ "m" +:+ secs.

Definition newline : string := String "010" "".
(** ["  %-16s "] *)
Definition row_label (s : string) : string := "  " +:+ s +:+ String.concat "" (replicate (16 - slen s) " ") +:+ " ".
Definition row (name text : string) : string := row_label name +:+ text +:+ newline.
Definition row_if (b : bool) (name text : string) : string := if b then row name text else "".

Definition format_provider (r : StatusReport) : string :=
  if bool_decide (sr_ProviderState r = "") then "" else
  row "Provider:" (sr_ProviderState r +:+
    (if bool_decide (sr_ProviderReason r = "") then "" else " (" +:+ sr_ProviderReason r +:+ ")")) +:+
  row_if (0 <? sr_ProviderRetryBudget r) "Retry budget:" (Itoa (sr_ProviderRetryBudget r)) +:+
  row_if (negb (bool_decide (sr_ProviderResumeWhen r = ""))) "Resume when:" (sr_ProviderResumeWhen r) +:+
  row_if (negb (IsZero (sr_ProviderResumeAt r))) "Resume at:" (format_rfc3339 (sr_ProviderResumeAt r)).

Definition FormatText (r : StatusReport) : string :=
  "phonewave status" +:+ newline +:+ newline +:+
  row "Daemon:" (if sr_DaemonRunning r then "running (PID " +:+ Itoa (sr_DaemonPID r) +:+ ")" else "stopped") +:+
  row_if (0 <? sr_Uptime r) "Uptime:" (format_seconds (sr_Uptime r)) +:+
  row "Watching:" (Itoa (Z.of_nat (sr_OutboxCount r)) +:+ " outbox dirs across " +:+ Itoa (Z.of_nat (sr_RepoCount r)) +:+ " repos") +:+
  row "Routes:" (Itoa (Z.of_nat (sr_RouteCount r))) +:+
  row "Pending:" (Itoa (Z.of_nat (sr_PendingErrors r)) +:+ " items in error queue") +:+
  format_provider r +:+
  row "Last 24h:" (Itoa (sr_DeliveredCount24h r) +:+ " delivered, " +:+ Itoa (sr_FailedCount24h r) +:+ " failed, " +:+
    Itoa (sr_RetriedCount24h r) +:+ " retried") +:+
  row "Success:" (FormatSuccessRate (rate_float (sr_SuccessRate24h r)) (sr_DeliveredCount24h r)
    (sr_DeliveredCount24h r + sr_FailedCount24h r)) +:+
  row "Skills-ref:" (if sr_SkillsRefReady r then "ready (venv: " +:+ sr_SkillsRefVenv r +:+ ")" else "not available").

Example format_seconds_ex : (format_seconds (26 * Hour + 61 * Second), format_seconds Millisecond) = ("26h1m1s", "0s").
Proof. reflexivity. Qed.
