(* ===== verification/Doctor.v ===== *)
(** * The doctor

    Models [domain/doctor.go] and [session/doctor.go]: the report and its
    checks in the order the code makes them, on a [Host].  The PID and start
    files are those of [w_state]; the other files are looked up in [w_fs].
    The functions that tests replace have their default values.  Printing the
    report is left out. *)
From S2P Require Import Prelude GoStrings GoPath GoTime DMail Router Provider Prog World DeliveryStore DeliverSafety SetupSafety Setup Daemon Events Files EventStore Cutover ConfigFile Policies Wiring Metrics Skills Status Report.

#[local] Open Scope nat_scope.

(** ** [domain/doctor.go] *)

Inductive CheckStatus := CheckOK | CheckFail | CheckSkip | CheckWarn | CheckFixed.
#[export] Instance CheckStatus_eq_dec : EqDecision CheckStatus.
Proof. solve_decision. Defined.
Definition StatusLabel (s : CheckStatus) : string :=
  match s with CheckOK => "OK" | CheckFail => "FAIL" | CheckSkip => "SKIP" | CheckWarn => "WARN" | CheckFixed => "FIX" end.

Record DoctorCheck := mkDoctorCheck { dc_Name : string; dc_Status : CheckStatus; dc_Message : string; dc_Hint : string }.
Record EndpointHealth := mkHealth {
  eh_Repo : string; eh_Dir : string; eh_Produces : list string; eh_Consumes : list string; eh_OK : bool }.
Record DoctorReport := mkDoctor {
  dr_Healthy : bool; dr_Checks : list DoctorCheck; dr_Endpoints : list EndpointHealth; dr_DaemonStatus : DaemonHealthStatus }.

Definition add_check (c : DoctorCheck) (r : DoctorReport) : DoctorReport :=
  mkDoctor (dr_Healthy r) (dr_Checks r ++ [c]) (dr_Endpoints r) (dr_DaemonStatus r).
Definition unhealthy (r : DoctorReport) : DoctorReport :=
  mkDoctor false (dr_Checks r) (dr_Endpoints r) (dr_DaemonStatus r).
Definition AddError (name msg : string) (r : DoctorReport) : DoctorReport :=
  add_check (mkDoctorCheck name CheckFail msg "") (unhealthy r).
Definition AddWarn (name msg : string) (r : DoctorReport) : DoctorReport := add_check (mkDoctorCheck name CheckWarn msg "") r.
Definition AddErrorWithHint (name msg hint : string) (r : DoctorReport) : DoctorReport :=
  add_check (mkDoctorCheck name CheckFail msg hint) (unhealthy r).
Definition AddWarnWithHint (name msg hint : string) (r : DoctorReport) : DoctorReport :=
  add_check (mkDoctorCheck name CheckWarn msg hint) r.
Definition AddFixed (name msg : string) (r : DoctorReport) : DoctorReport := add_check (mkDoctorCheck name CheckFixed msg "") r.
Definition AddOK (name msg : string) (r : DoctorReport) : DoctorReport := add_check (mkDoctorCheck name CheckOK msg "") r.
Definition add_endpoint (e : EndpointHealth) (r : DoctorReport) : DoctorReport :=
  mkDoctor (dr_Healthy r) (dr_Checks r) (dr_Endpoints r ++ [e]) (dr_DaemonStatus r).
Definition set_daemon (s : DaemonHealthStatus) (r : DoctorReport) : DoctorReport :=
  mkDoctor (dr_Healthy r) (dr_Checks r) (dr_Endpoints r) s.
Definition new_report : DoctorReport := mkDoctor true [] [] (mkDaemonStatus true false 0).

(** [range] over a report that is filled in. *)
Fixpoint for_report {A} (l : list A) (body : A → DoctorReport → prog Host DoctorReport) (r : DoctorReport) : prog Host DoctorReport :=
  match l with
  | [] => mret r
  | a :: l => r ← body a r; for_report l body r
  end.

Definition sprint_list (l : list string) : string := "[" +:+ Join l " " +:+ "]".
Definition nat_text (n : nat) : string := Itoa (Z.of_nat n).

Section Doctor.
Context `{EX : External} `{JS : JSON} `{YL : YAML} `{MC : Machine} `{PR : Processes}.

(** ** The skills-ref toolchain *)

Definition skillsRefBinNames : list string := ["skills-ref"; "agentskills"].
Fixpoint find_bin (names : list string) : program (result string) :=
  match names with
  | [] => mret (Err (errors_New ("none of " +:+ sprint_list skillsRefBinNames +:+ " found on PATH")))
  | name :: names =>
      p ← atom (exec_LookPath name);
      match p with Ok path => mret (Ok path) | Err _ => find_bin names end
  end.
Definition findSkillsRefBin : program (result string) := find_bin skillsRefBinNames.

Definition exec_err (o : outcome) : option error :=
  match oc_err o with Some (ExitError _ e) => Some e | Some (RunError e) => Some e | None => None end.
(** [os.Stat] and [IsDir]. *)
Definition is_dir (p : string) : act bool := λ w,
  let '(f, w) := fault w in
  (match f, lookup_path w p with None, Some NDir => true | _, _ => false end, w).

Definition checkSkillsRefToolchain (repair : bool) (r : DoctorReport) : program DoctorReport :=
  b ← findSkillsRefBin;
  match b with
  | Ok path => mret (AddOK "skills-ref" ("skills-ref found on PATH (" +:+ Base path +:+ ")") r)
  | Err _ =>
  u ← atom (exec_LookPath "uv");
  match u with
  | Err _ => mret (AddWarnWithHint "skills-ref" "uv not found on PATH: SKILL.md spec validation is unavailable"
                     ("install uv (https://docs.astral.sh/uv/) or " +:+ quote "uv tool install skills-ref") r)
  | Ok _ =>
  subDir ← findSkillsRefDir;
  if negb (bool_decide (subDir = "")) then
    let venvDir := path_Join [mc_TempDir; SkillsRefVenvName] in
    d ← atom (is_dir venvDir);
    mret (AddOK "skills-ref"
      (if d : bool then "uv + submodule ready (venv: " +:+ venvDir +:+ ")"
       else "uv + submodule ready (venv will be created at " +:+ venvDir +:+ " on first use)") r)
  else if repair then
    o ← atom (exec_Run (mkCommand ["uv"; "tool"; "install"; "skills-ref"] []));
    match exec_err o with
    | Some err => mret (AddWarnWithHint "skills-ref" ("uv tool install skills-ref failed: " +:+ err_msg err)
                          ("try manually: " +:+ quote "uv tool install skills-ref") r)
    | None =>
        b ← findSkillsRefBin;
        mret (match b with
              | Err _ => AddWarnWithHint "skills-ref" "uv tool install skills-ref succeeded but skills-ref is not on PATH"
                           "add uv's tool bin directory to your PATH (e.g. ~/.local/bin)" r
              | Ok _ => AddFixed "skills-ref" "installed skills-ref via uv tool install" r
              end)
    end
  else mret (AddWarnWithHint "skills-ref" "uv found but skills-ref not installed"
               ("run " +:+ quote "phonewave doctor --repair" +:+ " or " +:+ quote "uv tool install skills-ref") r)
  end end.

(** ** One endpoint *)

Definition not_exist (r : result unit) : bool := match r with Err e => errors_Is e ErrNotExist | Ok _ => false end.

(** The directory is made when it is missing; the flag is the endpoint's. *)
Definition check_mailbox (epLabel epDir sub : string) (s : DoctorReport * bool) : program (DoctorReport * bool) :=
  let subDir := path_Join [epDir; sub] in
  st ← atom (os_Stat subDir);
  if not_exist st then
    m ← atom (os_MkdirAll subDir);
    mret (match m with
          | Err err => (AddErrorWithHint epLabel ("Failed to create " +:+ sub +:+ "/: " +:+ err_msg err)
                          "check file permissions on the endpoint directory" (fst s), false)
          | Ok _ => (AddFixed epLabel ("Created missing " +:+ sub +:+ "/ directory") (fst s), snd s)
          end)
  else mret s.

Definition spec_hint : string := "see Agent Skills spec for compliance requirements".
Definition check_skill (epLabel epDir skillName : string) (r : DoctorReport) : program DoctorReport :=
  let skillDir := path_Join [epDir; "skills"; skillName] in
  d ← atom (os_ReadFile (path_Join [skillDir; "SKILL.md"]));
  match d with
  | Err err =>
      mret (if errors_Is err ErrNotExist then r
            else AddWarnWithHint epLabel ("Failed to read " +:+ skillName +:+ " SKILL.md: " +:+ err_msg err)
                   "check file permissions on the skills directory" r)
  | Ok data =>
      let r := match ParseSkillFrontmatter data with
               | Err err => AddWarnWithHint epLabel (skillName +:+ " SKILL.md parse error: " +:+ err_msg err)
                              "fix YAML frontmatter in SKILL.md" r
               | Ok _ => r
               end in
      v ← ValidateSkillDir skillDir;
      mret (match v with
            | Err err => AddWarnWithHint epLabel ("skills-ref validate " +:+ skillName +:+ ": " +:+ err_msg err) spec_hint r
            | Ok problems => fold_left (λ r p, AddWarnWithHint epLabel ("skills-ref: " +:+ p) spec_hint r) problems r
            end)
  end.

Definition check_endpoint (repoPath : string) (ep : EndpointConfig) (r : DoctorReport) : program DoctorReport :=
  let epLabel := Base repoPath +:+ "/" +:+ epc_Dir ep in
  let health ok := mkHealth repoPath (epc_Dir ep) (epc_Produces ep) (epc_Consumes ep) ok in
  let epDir := path_Join [repoPath; epc_Dir ep] in
  st ← atom (os_Stat epDir);
  if not_exist st then
    mret (add_endpoint (health false)
      (AddErrorWithHint epLabel ("Endpoint directory missing: " +:+ epDir)
         ("create the directory or run " +:+ quote "phonewave sync" +:+ " to reconcile") r))
  else
    s ← check_mailbox epLabel epDir "outbox" (r, true);
    '(r, ok) ← check_mailbox epLabel epDir "inbox" s;
    r ← check_skill epLabel epDir SkillSendable r;
    r ← check_skill epLabel epDir SkillReadable r;
    mret (add_endpoint (health ok)
      (AddOK epLabel ("OK (produces: " +:+ sprint_list (epc_Produces ep) +:+ ", consumes: " +:+ sprint_list (epc_Consumes ep) +:+ ")") r)).

Definition check_repository (repo : RepoConfig) (r : DoctorReport) : prog Host DoctorReport :=
  st ← on_world (atom (os_Stat (rc_Path repo)));
  if not_exist st then
    mret (AddErrorWithHint "" ("Repository path does not exist: " +:+ rc_Path repo)
      ("check config.yaml repositories.path or run " +:+ quote "phonewave remove <path>") r)
  else for_report (rc_Endpoints repo) (λ ep r, on_world (check_endpoint (rc_Path repo) ep r)) r.

(** ** The other checks *)

Definition check_orphans (cfg : Config) (r : DoctorReport) : DoctorReport :=
  let orphans := DetectOrphansPerRepo cfg in
  let r := fold_left (λ r kind, AddWarnWithHint "" ("Orphaned: kind=" +:+ quote kind +:+ " is produced but not consumed")
    ("add a consumer for this kind or run " +:+ quote "phonewave sync") r) (UnconsumedKinds orphans) r in
  fold_left (λ r kind, AddWarnWithHint "" ("Orphaned: kind=" +:+ quote kind +:+ " is consumed but not produced")
    ("add a producer for this kind or run " +:+ quote "phonewave sync") r) (UnproducedKinds orphans) r.

(** [repairSyncFn] *)
Definition repairSync (cfg : Config) (stateDir : string) : program (option error) :=
  WriteResolvedOnly stateDir (UpdateRoutes cfg).

Definition check_resolved (cfg : Config) (stateDir : string) (repair : bool) (r : DoctorReport) : program DoctorReport :=
  st ← atom (os_Stat (path_Join [stateDir; ".run"; ResolvedStateFile]));
  if not_exist st then
    if repair then
      e ← repairSync cfg stateDir;
      mret (match e with
            | Some err => AddWarnWithHint "" ("resolved.yaml repair failed: " +:+ err_msg err)
                            ("run " +:+ quote "phonewave sync" +:+ " manually") r
            | None => AddFixed "" "generated resolved.yaml via sync" r
            end)
    else mret (AddWarnWithHint "" "resolved.yaml not found: routes are being derived on-the-fly"
                 ("run " +:+ quote "phonewave doctor --repair" +:+ " or " +:+ quote "phonewave sync" +:+ " to generate resolved state") r)
  else mret r.

Definition checkDeadLetters (stateDir : string) (r : DoctorReport) : prog Host DoctorReport :=
  st ← on_world (atom (os_Stat (path_Join [stateDir; ".run"; "delivery.db"])));
  match st with
  | Err _ => mret r
  | Ok _ =>
      s ← NewSQLiteDeliveryStore stateDir;
      match s with
      | Err err => mret (AddWarnWithHint "" ("dead-letter check: cannot open delivery store: " +:+ err_msg err)
                           "check file permissions on .phonewave/.run/delivery.db" r)
      | Ok _ =>
          c ← on_world (atom Staged.DeadLetterCount);
          _ ← closes HDelivery;
          mret (match c with
                | Err err => AddWarnWithHint "" ("dead-letter check: count failed: " +:+ err_msg err)
                               "delivery store may be corrupted" r
                | Ok count =>
                    if 0 <? count
                    then AddWarnWithHint "" (nat_text count +:+ " dead-lettered delivery item(s)")
                           "run 'phonewave dead-letters purge --execute' to remove" r
                    else AddOK "dead-letters" "no dead-lettered items" r
                end)
      end
  end.

Definition checkFsnotify (r : DoctorReport) : prog Host DoctorReport :=
  n ← may_fail "";
  match n with
  | Err err => mret (AddErrorWithHint "fsnotify" ("cannot create file watcher: " +:+ err_msg err)
                       "on Linux, increase inotify limit: sysctl fs.inotify.max_user_watches=524288" r)
  | Ok _ =>
      _ ← opens HWatcher;
      _ ← closes HWatcher;
      mret (AddOK "fsnotify" "file watcher available" r)
  end.

Definition check_rate (r : DoctorReport) : program DoctorReport :=
  stats ← atom ParseDeliveryStats;
  let m := mkMetrics (st_Delivered stats) (st_Failed stats) 0 in
  mret (AddOK "success-rate"
    (FormatSuccessRate (rate_float (SuccessRate m)) (st_Delivered stats) (st_Delivered stats + st_Failed stats)%Z) r).

Definition checkEventStoreIntegrity (stateDir : string) (r : DoctorReport) : program DoctorReport :=
  let eventsDir := path_Join [stateDir; "events"] in
  st ← atom (os_Stat eventsDir);
  match st with
  | Err _ => mret r
  | Ok _ =>
      l ← LoadAll eventsDir;
      mret (match l with
            | Err err => AddWarnWithHint "event-store" ("event store load failed: " +:+ err_msg err) ("check permissions on " +:+ eventsDir) r
            | Ok (_, res) =>
                if 0 <? lr_CorruptLineCount res
                then AddWarnWithHint "event-store"
                       (nat_text (lr_CorruptLineCount res) +:+ " corrupt line(s) in event store (" +:+ nat_text (lr_FileCount res) +:+ " file(s) scanned)")
                       ("corrupt lines are skipped during replay — review JSONL files in " +:+ eventsDir) r
                else AddOK "event-store" ("event store OK (" +:+ nat_text (lr_FileCount res) +:+ " file(s), 0 corrupt lines)") r
            end)
  end.

(** ** Stale files of a daemon that is gone *)

Definition stat_state (f : StateFiles → option string) : act (result unit) :=
  guarded "" (λ w, (match f (w_state w) with Some _ => Ok tt | None => Err (enoent "stat" "") end, w)).
Definition remove_state (f : StateFiles → option string) (clear : StateFiles → StateFiles) : act (result unit) :=
  guarded "" (λ w, match f (w_state w) with
                   | Some _ => (Ok tt, set_state (clear (w_state w)) w)
                   | None => (Err (enoent "remove" ""), w)
                   end).
Definition clear_pid (s : StateFiles) : StateFiles := mkState (sf_provider s) (sf_filter s) None (sf_started s).
Definition clear_started (s : StateFiles) : StateFiles := mkState (sf_provider s) (sf_filter s) (sf_pid s) None.
Definition warn_remove (what file : string) (e : result unit) (r : DoctorReport) : DoctorReport :=
  match e with
  | Err err => if errors_Is err ErrNotExist then r
               else AddWarnWithHint "stale-pid" ("failed to remove stale " +:+ what +:+ ": " +:+ err_msg err)
                      ("check file permissions on .phonewave/" +:+ file) r
  | Ok _ => r
  end.
Definition remove_stale (r : DoctorReport) : program DoctorReport :=
  st ← atom (stat_state sf_pid);
  match st with
  | Err _ => mret r
  | Ok _ =>
      e ← atom (remove_state sf_pid clear_pid);
      let r := warn_remove "PID file" "watch.pid" e r in
      e ← atom (remove_state sf_started clear_started);
      mret (warn_remove "start marker" "watch.started" e r)
  end.

(** ** [Doctor] *)

Definition Doctor (cfg : Config) (stateDir : string) (repair : bool) : prog Host DoctorReport :=
  r ← on_world (checkSkillsRefToolchain repair new_report);
  r ← for_report (cfg_Repositories cfg) check_repository r;
  r ← on_world (check_resolved cfg stateDir repair (check_orphans cfg r));
  r ← checkDeadLetters stateDir r;
  r ← checkFsnotify r;
  r ← on_world (check_rate r);
  ds ← on_world checkDaemonStatus;
  r ← on_world (checkEventStoreIntegrity stateDir (set_daemon ds r));
  if repair && negb (ds_Running ds) then on_world (remove_stale r) else mret r.
End Doctor.

(** * Theorems *)

(** ** Whatever the machine answers *)

(** Every result of the program satisfies [P]. *)
Fixpoint yields {W A} (p : prog W A) (P : A → Prop) : Prop :=
  match p with
  | Ret a => P a
  | Act m k => ∀ x, yields (k x) P
  end.
Lemma yields_run {W A} i (p : prog W A) P w : yields p P → P (fst (run i p w)).
Proof. revert w. induction p as [a|X m k IH]; intros w; cbn; [done|]. intros Hk. destruct (m i w) as [x w']. by apply IH. Qed.
Lemma yields_bind {W A B} (p : prog W A) (k : A → prog W B) P Q :
  yields p P → (∀ a, P a → yields (k a) Q) → yields (p ≫= k) Q.
Proof.
  intros Hp Hk. unfold mbind, prog_mbind. induction p as [a|X m k' IH]; cbn in *; [by apply Hk|]. intros x. by apply IH.
Qed.
Lemma yields_any {W A} (p : prog W A) : yields p (λ _, True).
Proof. by induction p. Qed.
Lemma yields_then {W A B} (p : prog W A) (k : A → prog W B) Q : (∀ a, yields (k a) Q) → yields (p ≫= k) Q.
Proof. intros Hk. eapply yields_bind; [apply yields_any|]. intros a _. apply Hk. Qed.
Lemma yields_on_store {A} (p : prog Store A) P : yields p P → yields (on_store p) P.
Proof. induction p as [a|X m k IH]; cbn; [done|]. auto. Qed.
Lemma yields_lift {A} (p : program A) P : yields p P → yields (lift p) P.
Proof. induction p as [a|X m k IH]; cbn; [done|]. auto. Qed.
Lemma yields_world {A} (p : program A) P : yields p P → yields (on_world p) P.
Proof. intros Hp. by apply yields_on_store, yields_lift. Qed.

(** A report is healthy when none of its checks failed. *)
Definition is_fail (c : DoctorCheck) : bool := bool_decide (dc_Status c = CheckFail).
Definition sound (r : DoctorReport) : Prop := dr_Healthy r = negb (existsb is_fail (dr_Checks r)).

Lemma sound_add c r : dc_Status c ≠ CheckFail → sound r → sound (add_check c r).
Proof. intros Hc Hr. unfold sound in *. cbn. rewrite existsb_app, Hr. cbn. unfold is_fail at 3. by rewrite bool_decide_false, !orb_false_r. Qed.
Lemma sound_fail name msg hint r : sound (AddErrorWithHint name msg hint r).
Proof. unfold sound. cbn. by rewrite existsb_app, orb_true_r. Qed.
Lemma sound_fold {A} (f : DoctorReport → A → DoctorReport) l r : (∀ r a, sound r → sound (f r a)) → sound r → sound (fold_left f l r).
Proof. intros Hf. revert r. induction l as [|a l IH]; intros r Hr; [done|]. by apply IH, Hf. Qed.
#[local] Hint Resolve sound_add sound_fail sound_fold : go.
#[local] Hint Extern 1 (dc_Status _ ≠ _) => done : go.

Lemma yields_for {A} (l : list A) body r :
  (∀ a r, sound r → yields (body a r) sound) → sound r → yields (for_report l body r) sound.
Proof. intros Hb. revert r. induction l as [|a l IH]; intros r Hr; cbn [for_report]; [done|]. eapply yields_bind; [by apply Hb|]. auto. Qed.

Section Verdict.
Context `{EX : External} `{JS : JSON} `{YL : YAML} `{MC : Machine} `{PR : Processes}.

Lemma yields_ret {W A} (a : A) (P : A → Prop) : P a → yields (mret a : prog W A) P.
Proof. done. Qed.
#[local] Hint Resolve yields_ret : go.
(** Calls and cases of a program, down to the report it returns. *)
Ltac each_report := repeat first [by eauto 6 with go | apply yields_then; intros ? | case_match].

Lemma toolchain_sound repair r : sound r → yields (checkSkillsRefToolchain repair r) sound.
Proof. intros Hr. unfold checkSkillsRefToolchain. each_report. Qed.
Lemma mailbox_sound l d sub s : sound (fst s) → yields (check_mailbox l d sub s) (λ s, sound (fst s)).
Proof. intros Hs. unfold check_mailbox. each_report; apply yields_ret; cbn; eauto with go. Qed.
Lemma skill_sound l d n r : sound r → yields (check_skill l d n r) sound.
Proof.
  intros Hr. unfold check_skill. apply yields_then. intros [data|e]; [|each_report]. cbv zeta. apply yields_then.
  assert (sound (match ParseSkillFrontmatter data with
               | Err err => AddWarnWithHint l (n +:+ " SKILL.md parse error: " +:+ err_msg err) "fix YAML frontmatter in SKILL.md" r
               | Ok _ => r end)) as Hp by (case_match; eauto with go).
  intros [ps|e]; apply yields_ret; eauto with go.
Qed.
Lemma endpoint_sound p ep r : sound r → yields (check_endpoint p ep r) sound.
Proof.
  intros Hr. unfold check_endpoint. cbv zeta. apply yields_then. intros st. destruct (not_exist st).
  { apply yields_ret. apply sound_fail. }
  eapply yields_bind; [by apply (mailbox_sound _ _ _ (r, true))|]. intros s Hs.
  eapply yields_bind; [by apply mailbox_sound|]. intros [r' ok] Hr'.
  eapply yields_bind; [by apply skill_sound|]. intros r2 H2. eapply yields_bind; [by apply skill_sound|]. intros r3 H3.
  apply yields_ret. unfold add_endpoint. apply sound_add; [done|exact H3].
Qed.
Lemma repository_sound repo r : sound r → yields (check_repository repo r) sound.
Proof.
  intros Hr. unfold check_repository. apply yields_then. intros st. destruct (not_exist st); [by eauto with go|].
  apply yields_for; [|done]. intros ep r' Hr'. by apply yields_world, endpoint_sound.
Qed.
Lemma orphans_sound cfg r : sound r → sound (check_orphans cfg r).
Proof. intros Hr. unfold check_orphans. apply sound_fold; eauto with go. Qed.
Lemma resolved_sound cfg d repair r : sound r → yields (check_resolved cfg d repair r) sound.
Proof. intros Hr. unfold check_resolved. each_report. Qed.
Lemma deadletters_sound d r : sound r → yields (checkDeadLetters d r) sound.
Proof. intros Hr. unfold checkDeadLetters. each_report. Qed.
Lemma fsnotify_sound r : sound r → yields (checkFsnotify r) sound.
Proof. intros Hr. unfold checkFsnotify. each_report. Qed.
Lemma rate_sound r : sound r → yields (check_rate r) sound.
Proof. intros Hr. unfold check_rate. each_report. Qed.
Lemma events_sound d r : sound r → yields (checkEventStoreIntegrity d r) sound.
Proof. intros Hr. unfold checkEventStoreIntegrity. each_report. Qed.
Lemma warn_sound a b e r : sound r → sound (warn_remove a b e r).
Proof. intros Hr. unfold warn_remove. repeat case_match; eauto with go. Qed.
Lemma stale_sound r : sound r → yields (remove_stale r) sound.
Proof.
  intros Hr. unfold remove_stale. apply yields_then. intros [u|e]; [|by eauto with go].
  apply yields_then. intros e1. apply yields_then. intros e2. apply yields_ret. by apply warn_sound, warn_sound.
Qed.
End Verdict.

Lemma doctor_sound `{EX : External} `{JS : JSON} `{YL : YAML} `{MC : Machine} `{PR : Processes} cfg stateDir repair :
  yields (Doctor cfg stateDir repair) sound.
Proof.
  unfold Doctor.
  eapply yields_bind; [by apply yields_world, toolchain_sound|]. intros r1 H1.
  eapply yields_bind; [apply yields_for; [intros; by apply repository_sound|done]|]. intros r2 H2.
  eapply yields_bind; [by apply yields_world, resolved_sound, orphans_sound|]. intros r3 H3.
  eapply yields_bind; [by apply deadletters_sound|]. intros r4 H4.
  eapply yields_bind; [by apply fsnotify_sound|]. intros r5 H5.
  eapply yields_bind; [by apply yields_world, rate_sound|]. intros r6 H6.
  apply yields_then. intros ds. eapply yields_bind; [by apply yields_world, events_sound|]. intros r7 H7.
  destruct (repair && _); [by apply yields_world, stale_sound|done].
Qed.

(**  Whatever the files, the tools and the operating system answer, the
    doctor calls the ecosystem healthy exactly when none of its checks is a
    failure: warnings and repairs do not count. *)
Theorem doctor_verdict `{EX : External} `{JS : JSON} `{YL : YAML} `{MC : Machine} `{PR : Processes}
    (i : nat) (cfg : Config) (stateDir : string) (repair : bool) (h : Host) :
  let r := fst (run i (Doctor cfg stateDir repair) h) in
  dr_Healthy r = negb (existsb (λ c, bool_decide (dc_Status c = CheckFail)) (dr_Checks r)).
Proof. exact (yields_run i _ sound h (doctor_sound cfg stateDir repair)). Qed.

(** ** What the doctor changes *)

Create HintDb ticks.

#[export] Instance tick_only_PreOrder : PreOrder tick_only.
Proof. split; [exact tick_only_refl|]. intros u v w. apply tick_only_trans. Qed.

Definition on_host (R : World → World → Prop) (h h' : Host) : Prop := R (host_world h) (host_world h').

(** A relation that allows for time to pass and directories to be made. *)
Section Frame.
Context `{EX : External} `{JS : JSON} `{YL : YAML} `{MC : Machine} `{PR : Processes}.
Context (R : World → World → Prop) `{HR : !PreOrder R}.
Hypothesis R_tick : ∀ w w', tick_only w w' → R w w'.
Hypothesis R_mkdir : ∀ p w, R w (snd (os_MkdirAll p w)).

#[local] Instance on_host_PreOrder : PreOrder (on_host R).
Proof using HR. split; [by intros h; unfold on_host|]. intros u v w. unfold on_host. by etrans. Qed.

Lemma acts_store {A} (p : program A) : acts R p → acts (on_host R) (on_world p).
Proof. unfold on_world. induction p as [a|X m k IH]; cbn; [done|]. intros [Hm Hk]. split; [|auto]. intros i h. apply (Hm i). Qed.

Lemma tick_fault {A} (a b : World → A) w : tick_only w (snd (let '(f, v) := fault w in (match f with Some _ => a v | None => b v end, v))).
Proof. by destruct w. Qed.
Lemma tick_guarded {A} pre (m : act (result A)) w : (∀ w, tick_only w (snd (m w))) → tick_only w (snd (guarded pre m w)).
Proof. intros Hm. unfold guarded, fault. destruct (env_fault _ _); [by destruct w|]. etrans; [|apply Hm]. by destruct w. Qed.
Lemma tick_Stat p w : tick_only w (snd (os_Stat p w)).
Proof. apply tick_guarded. intros v. by case_match. Qed.
Lemma tick_ReadFile p w : tick_only w (snd (os_ReadFile p w)).
Proof. apply tick_guarded. intros v. by repeat case_match. Qed.
Lemma tick_ReadDir p w : tick_only w (snd (os_ReadDir p w)).
Proof. apply tick_guarded. intros v. by repeat case_match. Qed.
Lemma tick_run c w : tick_only w (snd (exec_Run c w)).
Proof. by destruct w. Qed.
Lemma tick_look c w : tick_only w (snd (exec_LookPath c w)).
Proof. by destruct w. Qed.
Lemma tick_is_dir p w : tick_only w (snd (is_dir p w)).
Proof. by destruct w. Qed.
Lemma tick_stats w : tick_only w (snd (ParseDeliveryStats w)).
Proof. unfold ParseDeliveryStats, fault, Now. destruct (env_fault _ _); by destruct w. Qed.
Lemma tick_read_state f w : tick_only w (snd (read_state f w)).
Proof. unfold read_state, fault. destruct (env_fault _ _); by destruct w. Qed.
Lemma tick_alive pid w : tick_only w (snd (IsProcessAlive pid w)).
Proof. by destruct w. Qed.
Lemma tick_dead w : tick_only w (snd (Staged.DeadLetterCount w)).
Proof. by apply tick_guarded. Qed.
Lemma tick_none pre w : tick_only w (snd (guarded pre (λ w, (Ok tt, w)) w)).
Proof. by apply tick_guarded. Qed.
#[local] Hint Resolve tick_Stat tick_ReadFile tick_ReadDir tick_run tick_look tick_is_dir tick_stats tick_read_state tick_alive
  tick_dead tick_none : ticks.

(** Calls that only let time pass, one after the other. *)
Lemma quiet {X} (m : act X) : (∀ w, tick_only w (snd (m w))) → acts R (atom m).
Proof using R_tick. intros Hm. apply acts_atom. auto. Qed.
Ltac each_call := repeat first [exact I | solve [auto with ticks] | by (apply quiet; auto with ticks) | apply acts_bind; [|intros ?] | case_match].

Lemma walk_acts n d : acts R (walk_up n d).
Proof using R_tick. revert d. induction n as [|n IH]; intros d; cbn [walk_up]; [done|]. each_call. Qed.
Lemma walkUp_acts d : acts R (walkUpForSkillsRef d).
Proof using R_tick. apply walk_acts. Qed.
#[local] Hint Resolve walkUp_acts : ticks.
Lemma find_acts : acts R findSkillsRefDir.
Proof using R_tick. unfold findSkillsRefDir, from_override, from_executable, from_cwd. each_call. Qed.
Lemma bin_acts l : acts R (find_bin l).
Proof using R_tick. induction l as [|x l IH]; cbn [find_bin]; [done|]. each_call. Qed.
#[local] Hint Resolve find_acts bin_acts : ticks.
Lemma validate_acts d : acts R (ValidateSkillDir d).
Proof using R_tick. unfold ValidateSkillDir, skillsRefCommand. each_call. Qed.
Lemma toolchain_acts repair r : acts R (checkSkillsRefToolchain repair r).
Proof using R_tick. unfold checkSkillsRefToolchain, findSkillsRefBin. each_call. Qed.
Lemma mkdir_acts p : acts R (atom (os_MkdirAll p)).
Proof using R_mkdir. apply acts_atom. auto. Qed.
#[local] Hint Resolve validate_acts toolchain_acts mkdir_acts : ticks.
Lemma mailbox_acts l d sub s : acts R (check_mailbox l d sub s).
Proof using R_tick R_mkdir. unfold check_mailbox. each_call. Qed.
Lemma skill_acts l d n r : acts R (check_skill l d n r).
Proof using R_tick. unfold check_skill. each_call. Qed.
#[local] Hint Resolve mailbox_acts skill_acts : ticks.
Lemma endpoint_acts p ep r : acts R (check_endpoint p ep r).
Proof using R_tick R_mkdir. unfold check_endpoint. each_call. Qed.
Lemma status_acts : acts R checkDaemonStatus.
Proof using R_tick. unfold checkDaemonStatus. each_call. Qed.
Lemma rate_acts r : acts R (check_rate r).
Proof using R_tick. unfold check_rate. each_call. Qed.
Lemma load_acts d after : acts R (loadEvents d after).
Proof using R_tick.
  unfold loadEvents. apply acts_bind; [by apply quiet; auto with ticks|]. intros [entries|e]; [|by case_match].
  apply acts_bind; [|intros [[]|]; done]. apply acts_for_range. intros acc name. unfold load_file. each_call.
Qed.
#[local] Hint Resolve load_acts endpoint_acts status_acts rate_acts : ticks.
Lemma events_acts d r : acts R (checkEventStoreIntegrity d r).
Proof using R_tick. unfold checkEventStoreIntegrity, LoadAll. each_call. Qed.

(** On the host. *)
Lemma quiet_by {X} (m : nat → Host → X * Host) : (∀ i h, h_store (snd (m i h)) = h_store h) → acts (on_host R) (atom_by m).
Proof using HR. intros Hm. split; [|done]. intros i h. unfold on_host, host_world. by rewrite Hm. Qed.
Lemma may_fail_acts pre : acts (on_host R) (may_fail pre).
Proof using R_tick. apply acts_store, quiet. auto with ticks. Qed.
Lemma handle_acts x : acts (on_host R) (opens x) ∧ acts (on_host R) (closes x).
Proof using HR. split; by apply quiet_by. Qed.
Lemma stmts_acts x l : acts (on_host R) (exec_stmts x l).
Proof using HR R_tick.
  induction l as [|s l IH]; cbn [exec_stmts]; [done|]. apply acts_bind; [apply may_fail_acts|]. intros [u|e]; [done|].
  apply acts_bind; [apply handle_acts|done].
Qed.
Lemma db_acts x name d stmts : acts (on_host R) (open_db x name d stmts).
Proof using HR R_tick R_mkdir.
  unfold open_db. apply acts_bind; [apply acts_store; auto with ticks|]. intros [u|e]; [|done].
  apply acts_bind; [apply may_fail_acts|]. intros [u'|e]; [|done]. apply acts_bind; [apply handle_acts|]. intros _. apply stmts_acts.
Qed.
Lemma deadletters_acts d r : acts (on_host R) (checkDeadLetters d r).
Proof using HR R_tick R_mkdir.
  unfold checkDeadLetters. apply acts_bind; [apply acts_store, quiet; auto with ticks|]. intros [u|e]; [|done].
  apply acts_bind; [apply db_acts|]. intros [u'|e]; [|done].
  apply acts_bind; [apply acts_store, quiet; auto with ticks|]. intros c. apply acts_bind; [apply handle_acts|]. done.
Qed.
Lemma fsnotify_acts r : acts (on_host R) (checkFsnotify r).
Proof using HR R_tick.
  unfold checkFsnotify. apply acts_bind; [apply may_fail_acts|]. intros [u|e]; [|done].
  apply acts_bind; [apply handle_acts|]. intros _. apply acts_bind; [apply handle_acts|]. done.
Qed.
Lemma for_acts {A} (l : list A) body r : (∀ a r, acts (on_host R) (body a r)) → acts (on_host R) (for_report l body r).
Proof. intros Hb. revert r. induction l as [|a l IH]; intros r; cbn [for_report]; [done|]. apply acts_bind; auto. Qed.
Lemma repository_acts repo r : acts (on_host R) (check_repository repo r).
Proof using R_tick R_mkdir.
  unfold check_repository. apply acts_bind; [apply acts_store, quiet; auto with ticks|]. intros st. case_match; [done|].
  apply for_acts. intros ep r'. apply acts_store. auto with ticks.
Qed.
Lemma resolved_acts cfg d repair r : repair = false ∨ (∀ c, acts R (WriteResolvedOnly d c)) → acts R (check_resolved cfg d repair r).
Proof using R_tick.
  intros Hr. unfold check_resolved. apply acts_bind; [apply quiet; auto with ticks|]. intros st. case_match; [|done].
  destruct repair; [|done]. destruct Hr as [?|Hr]; [done|]. apply acts_bind; [apply Hr|done].
Qed.
End Frame.

(** Directories may appear; no file does, and nothing else changes. *)
Record adds_dirs (w w' : World) : Prop := {
  ad_kept : ∀ p n, w_fs w !! p = Some n → w_fs w' !! p = Some n;
  ad_files : ∀ p d, w_fs w' !! p = Some (NFile d) → w_fs w !! p = Some (NFile d);
  ad_rest : w_state w' = w_state w ∧ w_queue w' = w_queue w ∧ w_staged w' = w_staged w ∧ w_dedup w' = w_dedup w ∧
            w_dlog w' = w_dlog w ∧ w_env w' = w_env w }.
#[export] Instance adds_dirs_PreOrder : PreOrder adds_dirs.
Proof.
  split; [by constructor|]. intros u v w [K1 F1 R1] [K2 F2 R2]. constructor; [auto|auto|].
  destruct R1 as (?&?&?&?&?&?), R2 as (?&?&?&?&?&?). split_and!; congruence.
Qed.
Lemma tick_adds w w' : tick_only w w' → adds_dirs w w'.
Proof. intros ->. by constructor. Qed.
Lemma mkdir_adds p w : adds_dirs w (snd (os_MkdirAll p w)).
Proof.
  unfold os_MkdirAll, guarded, fault. destruct (env_fault _ _); [by constructor|]. change (w_fs (bump w)) with (w_fs w).
  destruct (mkdir_all _ _ _) as [fs'|e] eqn:E; [|by constructor]. destruct (mkdir_all_adds _ _ _ _ E) as [K F].
  by constructor.
Qed.

(**  Without [--repair] the doctor removes nothing and writes no file: it
    can only make missing directories, and leaves the PID and start files, the
    delivery log and the tables as they are. *)
Theorem doctor_adds_directories_only `{EX : External} `{JS : JSON} `{YL : YAML} `{MC : Machine} `{PR : Processes}
    (i : nat) (cfg : Config) (stateDir : string) (h : Host) :
  adds_dirs (host_world h) (host_world (snd (run i (Doctor cfg stateDir false) h))).
Proof.
  pose proof (on_host_PreOrder adds_dirs) as Hp. apply (acts_run (on_host adds_dirs)). unfold Doctor.
  apply acts_bind; [apply acts_store, (toolchain_acts _ tick_adds)|]. intros r1.
  apply acts_bind; [apply for_acts; intros; apply (repository_acts _ tick_adds mkdir_adds)|]. intros r2.
  apply acts_bind; [apply acts_store, (resolved_acts _ tick_adds); by left|]. intros r3.
  apply acts_bind; [apply (deadletters_acts _ tick_adds mkdir_adds)|]. intros r4.
  apply acts_bind; [apply (fsnotify_acts _ tick_adds)|]. intros r5.
  apply acts_bind; [apply acts_store, (rate_acts _ tick_adds)|]. intros r6.
  apply acts_bind; [apply acts_store, (status_acts _ tick_adds)|]. intros ds.
  apply acts_bind; [apply acts_store, (events_acts _ tick_adds)|]. intros r7. done.
Qed.

(** The daemon's own files are left alone. *)
Definition keeps_state (w w' : World) : Prop := w_state w' = w_state w ∧ w_env w' = w_env w.
#[local] Instance keeps_state_PreOrder : PreOrder keeps_state.
Proof. split; [by intros w|]. intros u v w [? ?] [? ?]. split; congruence. Qed.
Lemma tick_keeps w w' : tick_only w w' → keeps_state w w'.
Proof. intros ->. done. Qed.
Lemma mkdir_keeps p w : keeps_state w (snd (os_MkdirAll p w)).
Proof. unfold os_MkdirAll, guarded, fault. destruct (env_fault _ _); [done|]. by case_match. Qed.
Lemma WriteFile_keeps p d : acts keeps_state (os_WriteFile p d).
Proof.
  unfold os_WriteFile. apply acts_bind.
  { apply acts_atom. intros w. unfold os_OpenTrunc, guarded, fault. destruct (env_fault _ _); [done|]. by repeat case_match. }
  intros [u|e]; [|done]. apply acts_bind.
  { apply acts_atom. intros w. unfold file_Write, fault. destruct (env_fault _ _); cbn; by repeat case_match. }
  intros r. apply acts_bind; [|by destruct r]. apply acts_atom. intros w. unfold file_Close, guarded, fault. by destruct (env_fault _ _).
Qed.
Lemma resolved_keeps `{EX : External} `{YL : YAML} d c : acts keeps_state (WriteResolvedOnly d c).
Proof.
  unfold WriteResolvedOnly, write_resolved. apply acts_bind; [apply acts_atom, mkdir_keeps|]. intros [u|e]; [|done].
  destruct (yaml_resolved _ _); [|done]. apply acts_bind; [apply WriteFile_keeps|]. by intros [].
Qed.

Lemma runs_both {A B} (R : Host → Host → Prop) `{!PreOrder R} i (p : prog Host A) P (k : A → prog Host B) Q h :
  acts R p → yields p P → (∀ a h', P a → R h h' → runs i (k a) Q h') → runs i (p ≫= k) Q h.
Proof. intros Hp Hy Hk. apply runs_bind. unfold runs at 1. apply Hk; [by apply yields_run|by apply acts_run]. Qed.
Lemma runs_acts {A B} (R : Host → Host → Prop) `{!PreOrder R} i (p : prog Host A) (k : A → prog Host B) Q h :
  acts R p → (∀ a h', R h h' → runs i (k a) Q h') → runs i (p ≫= k) Q h.
Proof. intros Hp Hk. apply (runs_both R i p (λ _, True)); [done|apply yields_any|auto]. Qed.

Lemma events_daemon `{JS : JSON} d r :
  yields (checkEventStoreIntegrity d r) (λ r', dr_DaemonStatus r' = dr_DaemonStatus r).
Proof.
  unfold checkEventStoreIntegrity. apply yields_then. intros [u|e]; [|done]. apply yields_then. intros [[evs res]|e]; [|done].
  unfold yields. cbn. by case_match.
Qed.

(** C8: Without failures of the files the doctor, also with [--repair], leaves
    the PID and start files of a living daemon alone, and reports it as running. *)
Theorem repair_spares_live_daemon `{EX : External} `{JS : JSON} `{YL : YAML} `{MC : Machine} `{PR : Processes}
    (i : nat) (cfg : Config) (stateDir : string) (repair : bool) (pid : Z) (h : Host) :
  no_faults (w_env (host_world h)) →
  sf_pid (w_state (host_world h)) = Some (Itoa pid) → (- two63 <= pid < two63)%Z →
  pr_windows = false → (∀ n, pr_FindProcess n pid = true ∧ pr_signal0 n pid ≠ SigError) →
  runs i (Doctor cfg stateDir repair) (λ r h',
    dr_DaemonStatus r = mkDaemonStatus true true pid ∧ w_state (host_world h') = w_state (host_world h)) h.
Proof.
  intros He Hp Hr Hw Ha. pose proof (on_host_PreOrder keeps_state) as HP. unfold Doctor.
  apply (runs_acts (on_host keeps_state)); [apply acts_store, (toolchain_acts _ tick_keeps)|]. intros r1 h1 G1.
  apply (runs_acts (on_host keeps_state)); [apply for_acts; intros; apply (repository_acts _ tick_keeps mkdir_keeps)|]. intros r2 h2 G2.
  apply (runs_acts (on_host keeps_state)); [apply acts_store, (resolved_acts _ tick_keeps); right; intros; apply resolved_keeps|].
  intros r3 h3 G3.
  apply (runs_acts (on_host keeps_state)); [apply (deadletters_acts _ tick_keeps mkdir_keeps)|]. intros r4 h4 G4.
  apply (runs_acts (on_host keeps_state)); [apply (fsnotify_acts _ tick_keeps)|]. intros r5 h5 G5.
  apply (runs_acts (on_host keeps_state)); [apply acts_store, (rate_acts _ tick_keeps)|]. intros r6 h6 G6.
  assert (on_host keeps_state h h6) as [Es Ee] by (etrans; [exact G1|etrans; [exact G2|etrans; [exact G3|etrans; [exact G4|by etrans]]]]).
  apply runs_bind. eapply (tells_on_world i checkDaemonStatus); [by rewrite Ee| |].
  { apply (tells_status i pid); [by rewrite Es|done..]. }
  intros ds h7 <- (_ & Es7 & _)%tick_env _.
  apply (runs_both (on_host keeps_state) i _ (λ r', dr_DaemonStatus r' = mkDaemonStatus true true pid));
    [apply acts_store, (events_acts _ tick_keeps)|apply yields_world, events_daemon|]. intros r8 h8 E8 [G8 _].
  cbn [ds_Running negb]. rewrite andb_false_r. apply runs_ret. split; [exact E8|].
  congruence.
Qed.

(**  When the validator is installed under its other name only, the doctor
    reports it as found, while the validation of a skill is skipped without a
    word and the status calls the validator unavailable. *)
Theorem agentskills_not_used `{EX : External} `{MC : Machine} (i : nat) (path skillDir : string) (repair : bool) (r : DoctorReport) (w : World) :
  (∀ n, is_ok (mc_LookPath n "skills-ref") = false ∧ is_ok (mc_LookPath n "uv") = false) →
  (∀ n, mc_LookPath n "agentskills" = Ok path) →
  fst (run i (checkSkillsRefToolchain repair r) w) = AddOK "skills-ref" ("skills-ref found on PATH (" +:+ Base path +:+ ")") r ∧
  fst (run i (ValidateSkillDir skillDir) w) = Ok [] ∧
  fst (run i skills_ready w) = false.
Proof.
  intros Hn Ha.
  assert (∀ n, ∃ e, mc_LookPath n "skills-ref" = Err e) as Hs.
  { intros n. destruct (Hn n) as [E _]. destruct (mc_LookPath n "skills-ref"); [done|by eexists]. }
  assert (∀ n, ∃ e, mc_LookPath n "uv" = Err e) as Hu.
  { intros n. destruct (Hn n) as [_ E]. destruct (mc_LookPath n "uv"); [done|by eexists]. }
  split_and!.
  - assert (fst (run i findSkillsRefBin w) = Ok path) as Hb.
    { unfold findSkillsRefBin, skillsRefBinNames. cbn [find_bin]. rewrite run_mbind, run_atom. unfold exec_LookPath at 1.
      destruct (Hs (w_tick w)) as [e ->]. rewrite run_mbind, run_atom. unfold exec_LookPath. by rewrite Ha. }
    unfold checkSkillsRefToolchain. rewrite run_mbind. destruct (run i findSkillsRefBin w) as [b v]. cbn [fst] in Hb. by subst b.
  - assert (fst (run i (skillsRefCommand skillDir) w) = Err not_found) as Hb.
    { unfold skillsRefCommand. rewrite run_mbind, run_atom. unfold exec_LookPath at 1. destruct (Hs (w_tick w)) as [e ->].
      rewrite run_mbind, run_atom. unfold exec_LookPath. by destruct (Hu (w_tick (bump w))) as [e' ->]. }
    unfold ValidateSkillDir. rewrite run_mbind. destruct (run i (skillsRefCommand skillDir) w) as [b v]. cbn [fst] in Hb. by subst b.
  - unfold skills_ready. rewrite run_mbind, run_atom. unfold exec_LookPath at 1. destruct (Hs (w_tick w)) as [e ->].
    rewrite run_mbind, run_atom. unfold exec_LookPath. by destruct (Hu (w_tick (bump w))) as [e' ->].
Qed.

(** ** Samples *)

Definition agentskills_machine : Machine := {|
  mc_LookPath := λ _ name, if bool_decide (name = "agentskills") then Ok "/home/u/.local/bin/agentskills" else Err (errors_New "not found");
  mc_run := λ _ _, mkOutcome "" None;
  mc_Getenv := λ _, "";
  mc_Executable := Err (errors_New "none"); mc_EvalSymlinks := λ p, Ok p; mc_Getwd := Err (errors_New "none");
  mc_TempDir := "/tmp" |}.

Lemma agentskills_not_used_witness :
  fst (run 0 (ValidateSkillDir (H := agentskills_machine) "/r/.siren/skills/dmail-sendable") status_world) = Ok [] ∧
  dc_Status <$> dr_Checks (fst (run 0 (checkSkillsRefToolchain (EX := sample_external) (MC := agentskills_machine) false new_report) status_world)) = [CheckOK].
Proof.
  destruct (agentskills_not_used (EX := sample_external) (MC := agentskills_machine) 0 "/home/u/.local/bin/agentskills" "/r/.siren/skills/dmail-sendable"
    false new_report status_world) as (E1 & E2 & _); [by intros n|done|]. split; [exact E2|]. by rewrite E1.
Defined.

Definition sample_doctor (repair : bool) : prog Host DoctorReport :=
  Doctor (EX := sample_external) (JS := sample_JSON) (YL := sample_YAML) (MC := sample_machine) (PR := sample_processes)
    siren_config "/p/.phonewave" repair.
(** The sample repository, and a daemon with the process id 4711. *)
Definition doctor_host : Host :=
  mkHost (mkStore (set_fs (<["/p" := NDir]> (<["/p/.phonewave" := NDir]> (<["/p/.phonewave/.run" := NDir]> setup_fs))) status_world) 1)
    (λ _, 0) ∅ [] [].

Lemma repair_spares_live_daemon_witness :
  runs 0 (sample_doctor true) (λ r h',
    dr_DaemonStatus r = mkDaemonStatus true true 4711 ∧ w_state (host_world h') = w_state (host_world doctor_host)) doctor_host.
Proof.
  apply (repair_spares_live_daemon (EX := sample_external) (JS := sample_JSON) (YL := sample_YAML) (MC := sample_machine)
    (PR := sample_processes) 0 siren_config "/p/.phonewave" true 4711 doctor_host);
    [done|done|split; vm_compute; congruence|done|intros n; by split].
Defined.

Example doctor_example :
  let '(r, h) := run 0 (sample_doctor false) doctor_host in
  (dr_Healthy r, dc_Status <$> dr_Checks r, w_fs (host_world h) !! "/r/.siren/outbox") =
  (true, [CheckWarn; CheckFixed; CheckFixed; CheckOK; CheckWarn; CheckWarn; CheckOK; CheckOK], Some NDir).
Proof. vm_compute. reflexivity. Qed.
