(* ===== verification/Unified.v ===== *)
(** * The doctor of all tools

    Models [session/tool_runner.go], [domain/unified_doctor.go] and the
    commands of [cmd/doctor.go]: each tool's doctor is run, its JSON output is
    tried against three formats, and the sections are put together.  The
    syntax of JSON is a parameter; decoding a value into the code's structs
    follows [encoding/json]: keys match a field up to case, [null] leaves a
    field alone, a value of another type is an error reported at the end, and
    an array is decoded into the elements a slice already has.  The three
    goroutines write separate sections: here the tools run one after the
    other.  Printing is left out. *)
From S2P Require Import Prelude GoStrings GoPath GoTime DMail Router Provider Prog World DeliverSafety SetupSafety Setup Daemon Events Files EventStore Cutover StateDirs ConfigFile Wiring Metrics Skills Status Doctor.

#[local] Open Scope nat_scope.

(** ** [encoding/json] *)

Inductive json :=
  | JNull | JBool (b : bool) | JNum (literal : string) | JStr (s : string)
  | JArr (items : list json) | JObj (members : list (string * json)).
(** [None] when the text is not JSON. *)
Class JSONSyntax := { json_ast : bytes → option json }.

(** [foldName], as far as a comparison with an ASCII name can tell. *)
Definition upper_byte (c : ascii) : ascii :=
  let v := byte_val c in if ((97 <=? v) && (v <=? 122))%Z then ascii_of_N (Z.to_N (v - 32)) else c.
Fixpoint fold_name (s : bytes) : bytes :=
  match s with
  | [] => []
  | c :: r =>
      match r with
      | d :: r' =>
          if ((byte_val c =? 0xC5) && (byte_val d =? 0xBF))%Z then "S"%char :: fold_name r'
          else match r' with
               | e :: r'' =>
                   if ((byte_val c =? 0xE2) && (byte_val d =? 0x84) && (byte_val e =? 0xAA))%Z
                   then "K"%char :: fold_name r'' else upper_byte c :: fold_name r
               | [] => upper_byte c :: fold_name r
               end
      | [] => [upper_byte c]
      end
  end.
Definition names (key field : string) : bool := bool_decide (fold_name (raw key) = fold_name (raw field)).

(** A decoder changes the value it decodes into; the flag is false when a
    value had the wrong type. *)
Definition decoder (T : Type) : Type := json → T → T * bool.
Definition decode_string : decoder string := λ v cur,
  match v with JStr s => (s, true) | JNull => (cur, true) | _ => (cur, false) end.
Definition decode_bool : decoder bool := λ v cur,
  match v with JBool b => (b, true) | JNull => (cur, true) | _ => (cur, false) end.
Definition decode_int : decoder Z := λ v cur,
  match v with
  | JNum lit => match Atoi lit with Some z => (z, true) | None => (cur, false) end
  | JNull => (cur, true)
  | _ => (cur, false)
  end.

(** A struct: the members in order, by a function that takes a member to its field. *)
Definition decode_members {T} (field : string → json → T → T * bool) (members : list (string * json)) (s : T * bool) : T * bool :=
  fold_left (λ s m, let '(x, ok) := field (fst m) (snd m) (fst s) in (x, snd s && ok)) members s.
Definition decode_struct {T} (field : string → json → T → T * bool) : decoder T := λ v cur,
  match v with JObj m => decode_members field m (cur, true) | JNull => (cur, true) | _ => (cur, false) end.

(** A slice: what its array holds, its length, and whether it is nil. *)
Record slice (T : Type) := mkSlice { sl_array : list T; sl_len : nat; sl_nil : bool }.
#[global] Arguments mkSlice {T}.
#[global] Arguments sl_array {T}.
#[global] Arguments sl_len {T}.
#[global] Arguments sl_nil {T}.
Definition nil_slice {T} : slice T := mkSlice [] 0 true.
Definition items {T} (s : slice T) : list T := take (sl_len s) (sl_array s).

Section Slice.
Context {T : Type} (dec : decoder T) (zero : T).
Fixpoint decode_items (vs : list json) (i : nat) (array : list T) (ok : bool) : list T * bool :=
  match vs with
  | [] => (array, ok)
  | v :: r =>
      let '(e, b) := dec v (default zero (array !! i)) in
      decode_items r (S i) (if i <? length array then <[i := e]> array else array ++ [e]) (ok && b)
  end.
Definition decode_slice : decoder (slice T) := λ v s,
  match v with
  | JNull => (nil_slice, true)
  | JArr [] => (mkSlice [] 0 false, true)
  | JArr vs => let '(array, ok) := decode_items vs 0 (sl_array s) true in (mkSlice array (length vs) false, ok)
  | _ => (s, false)
  end.
End Slice.

(** ** [domain/unified_doctor.go] *)

Record ToolSection := mkSection { ts_Tool : string; ts_Path : string; ts_Checks : list UnifiedCheck; ts_Error : string }.
Record UnifiedDoctorReport := mkUnified { ud_Sections : list ToolSection; ud_CrossTool : list UnifiedCheck; ud_Healthy : bool }.

Definition failed (c : UnifiedCheck) : bool := bool_decide (uc_Status c = "FAIL").
Definition section_failed (s : ToolSection) : bool := negb (bool_decide (ts_Error s = "")) || existsb failed (ts_Checks s).
Definition IsHealthy (r : UnifiedDoctorReport) : bool :=
  if existsb section_failed (ud_Sections r) then false else negb (existsb failed (ud_CrossTool r)).

(** ** [tool_runner.go] *)

Definition zero_check : UnifiedCheck := mkCheck "" "" "" "".
Definition check_field (key : string) (v : json) (c : UnifiedCheck) : UnifiedCheck * bool :=
  if names key "name" then let '(s, ok) := decode_string v (uc_Name c) in (mkCheck s (uc_Status c) (uc_Message c) (uc_Hint c), ok)
  else if names key "status" then let '(s, ok) := decode_string v (uc_Status c) in (mkCheck (uc_Name c) s (uc_Message c) (uc_Hint c), ok)
  else if names key "message" then let '(s, ok) := decode_string v (uc_Message c) in (mkCheck (uc_Name c) (uc_Status c) s (uc_Hint c), ok)
  else if names key "hint" then let '(s, ok) := decode_string v (uc_Hint c) in (mkCheck (uc_Name c) (uc_Status c) (uc_Message c) s, ok)
  else (c, true).
Definition decode_checks : decoder (slice UnifiedCheck) := decode_slice (decode_struct check_field) zero_check.

(** [wrapped] *)
Definition wrapped_field (key : string) (v : json) (s : slice UnifiedCheck) : slice UnifiedCheck * bool :=
  if names key "checks" then decode_checks v s else (s, true).

(** [pwReport]; its checks have the fields of [UnifiedCheck]. *)
Record pwReport := mkPw { pw_Healthy : bool; pw_Checks : slice UnifiedCheck; pw_Running : bool; pw_PID : Z }.
Definition daemon_field (key : string) (v : json) (d : bool * Z) : (bool * Z) * bool :=
  if names key "running" then let '(b, ok) := decode_bool v (fst d) in ((b, snd d), ok)
  else if names key "pid" then let '(z, ok) := decode_int v (snd d) in ((fst d, z), ok)
  else (d, true).
Definition report_field (key : string) (v : json) (r : pwReport) : pwReport * bool :=
  if names key "healthy" then
    let '(b, ok) := decode_bool v (pw_Healthy r) in (mkPw b (pw_Checks r) (pw_Running r) (pw_PID r), ok)
  else if names key "checks" then
    let '(c, ok) := decode_checks v (pw_Checks r) in (mkPw (pw_Healthy r) c (pw_Running r) (pw_PID r), ok)
  else if names key "daemon_status" then
    let '(d, ok) := decode_struct daemon_field v (pw_Running r, pw_PID r) in (mkPw (pw_Healthy r) (pw_Checks r) (fst d) (snd d), ok)
  else (r, true).
Definition zero_report : pwReport := mkPw false nil_slice false 0.

(** [json.Unmarshal] into a variable: [None] is an error. *)
Definition Unmarshal `{JSONSyntax} {T} (dec : decoder T) (zero : T) (data : bytes) : option T :=
  match json_ast data with
  | None => None
  | Some v => let '(x, ok) := dec v zero in if ok then Some x else None
  end.

Definition known_status (s : string) : bool := bool_decide (s ∈ ["OK"; "FAIL"; "WARN"; "SKIP"; "FIX"]).
Definition report_check (c : UnifiedCheck) : UnifiedCheck :=
  mkCheck (if bool_decide (uc_Name c = "") then "-" else uc_Name c)
    (if known_status (uc_Status c) then uc_Status c else "WARN") (uc_Message c) (uc_Hint c).
Definition daemon_check (running : bool) (pid : Z) : UnifiedCheck :=
  mkCheck "daemon" "OK" (if running then "running (PID " +:+ Itoa pid +:+ ")" else "not running") "".

Section Tools.
Context `{JX : JSONSyntax}.

Definition format1 (out : bytes) : option (list UnifiedCheck) :=
  match Unmarshal (decode_struct wrapped_field) nil_slice out with
  | Some s => if sl_nil s then None else Some (items s)
  | None => None
  end.
Definition format2 (out : bytes) : option (list UnifiedCheck) :=
  match Unmarshal decode_checks nil_slice out with
  | Some s => if sl_nil s then None else Some (items s)
  | None => None
  end.
Definition format3 (out : bytes) : option (list UnifiedCheck) :=
  match Unmarshal (decode_struct report_field) zero_report out with
  | Some r => if 0 <? length (items (pw_Checks r))
              then Some (map report_check (items (pw_Checks r)) ++ [daemon_check (pw_Running r) (pw_PID r)]) else None
  | None => None
  end.
(** The formats in the order they are tried. *)
Definition parse_output (out : bytes) : option (list UnifiedCheck) :=
  match format1 out with
  | Some cs => Some cs
  | None => match format2 out with Some cs => Some cs | None => format3 out end
  end.

Context `{MC : Machine}.

Definition doctor_args (tool : string) (repoPath : string) (repair : bool) : option (list string) :=
  let rest := (if repair then ["--repair"] else []) ++ [repoPath] in
  if bool_decide (tool = "sightjack") then Some (["sightjack"; "doctor"; "-j"] ++ rest)
  else if bool_decide (tool = "paintress") then Some (["paintress"; "doctor"; "-o"; "json"] ++ rest)
  else if bool_decide (tool = "amadeus") then Some (["amadeus"; "doctor"; "-j"] ++ rest)
  else None.
(** Standard output and the error. *)
Definition runStaticToolDoctor (tool repoPath : string) (repair : bool) : program (bytes * option error) :=
  match doctor_args tool repoPath repair with
  | None => mret ([], Some (errors_New ("unknown tool: " +:+ tool)))
  | Some args => o ← atom (exec_Run (mkCommand args [])); mret (raw (oc_output o), exec_err o)
  end.

Definition RunToolDoctor (tool repoPath : string) (repair : bool) : program ToolSection :=
  '(out, err) ← runStaticToolDoctor tool repoPath repair;
  mret (match err, out with
        | Some e, [] => mkSection tool repoPath [] ("exec " +:+ tool +:+ ": " +:+ err_msg e)
        | _, _ => match parse_output out with
                  | Some checks => mkSection tool repoPath checks ""
                  | None => mkSection tool repoPath [] "failed to parse doctor JSON output"
                  end
        end).
End Tools.

(** ** [cmd/doctor.go] *)

Section Command.
Context `{EX : External} `{JS : JSON} `{YL : YAML} `{MC : Machine} `{PR : Processes} `{JX : JSONSyntax}.

Definition silent_issues : error := errors_New "ecosystem has issues".

(** [phonewave doctor], without [--all]. *)
Definition runDoctor (repair : bool) (cfgPath stateDir : string) : prog Host (option DoctorReport * option error) :=
  c ← on_world (LoadConfig cfgPath);
  match c with
  | Err err => mret (None, Some (errorf_w "load config: " err))
  | Ok cfg =>
      report ← Doctor cfg stateDir repair;
      mret (Some report, if dr_Healthy report then None else Some silent_issues)
  end.

Definition unified_check (c : DoctorCheck) : UnifiedCheck := mkCheck (dc_Name c) (StatusLabel (dc_Status c)) (dc_Message c) (dc_Hint c).
Definition phonewave_section (r : DoctorReport) : ToolSection :=
  mkSection "phonewave" "" (map unified_check (dr_Checks r) ++ [daemon_check (ds_Running (dr_DaemonStatus r)) (ds_PID (dr_DaemonStatus r))]) "".

Definition toolForDir : gmap string string := {[".siren" := "sightjack"; ".expedition" := "paintress"; ".gate" := "amadeus"]}.
Definition otherTools : list string := ["sightjack"; "paintress"; "amadeus"].
(** The last endpoint of a tool decides; without one it is the argument. *)
Definition tool_paths (cfg : option Config) : gmap string string :=
  match cfg with
  | None => ∅
  | Some cfg => fold_left (λ m repo, fold_left (λ m ep,
      match toolForDir !! epc_Dir ep with Some tool => <[tool := rc_Path repo]> m | None => m end)
      (rc_Endpoints repo) m) (cfg_Repositories cfg) ∅
  end.

Fixpoint run_tools (paths : gmap string string) (repoPath : string) (repair : bool) (tools : list string) : prog Host (list ToolSection) :=
  match tools with
  | [] => mret []
  | tool :: r =>
      s ← on_world (RunToolDoctor tool (default repoPath (paths !! tool)) repair);
      rest ← run_tools paths repoPath repair r;
      mret (s :: rest)
  end.

(** [cfgPath] is the flag's, or that of the repository given. *)
Definition runUnifiedDoctor (repoPath flagPath : string) (repair : bool) : prog Host (UnifiedDoctorReport * option error) :=
  let cfgPath := if bool_decide (repoPath = "") then flagPath else path_Join [repoPath; StateDir; "config.yaml"] in
  let stateDir := Dir cfgPath in
  c ← on_world (LoadConfig cfgPath);
  let cfg := match c with Ok cfg => Some cfg | Err _ => None end in
  pw ← match cfg with
       | None => mret (AddWarn "config" ("phonewave not initialized (" +:+ cfgPath +:+ ")")
                   (mkDoctor true [] [] (mkDaemonStatus false false 0)))
       | Some cfg => Doctor cfg stateDir repair
       end;
  others ← run_tools (tool_paths cfg) repoPath repair otherTools;
  let report := mkUnified (phonewave_section pw :: others) (CheckRoutingConsistency cfg) false in
  let report := mkUnified (ud_Sections report) (ud_CrossTool report) (IsHealthy report) in
  mret (report, if ud_Healthy report then None else Some (errors_New "unified doctor: issues found")).

(** The totals printed at the end. *)
Definition section_fails (s : ToolSection) : nat :=
  if bool_decide (ts_Error s = "") then length (List.filter failed (ts_Checks s)) else 1.
Definition totalFails (r : UnifiedDoctorReport) : nat :=
  sum_list (map section_fails (ud_Sections r)) + length (List.filter failed (ud_CrossTool r)).
End Command.

(** * Theorems *)

(** ** The third format *)

(** What is decoded into the wider struct is decoded into the narrower one:
    the checks agree, and an error of the narrower is one of the wider. *)
Definition narrower (w : slice UnifiedCheck * bool) (r : pwReport * bool) : Prop :=
  fst w = pw_Checks (fst r) ∧ (snd r = true → snd w = true).

Lemma names_checks key : names key "checks" = true → names key "healthy" = false ∧ names key "daemon_status" = false.
Proof. unfold names. rewrite bool_decide_eq_true. intros ->. done. Qed.
Lemma narrower_field key v s r : s = pw_Checks r → narrower (wrapped_field key v s) (report_field key v r).
Proof.
  intros ->. unfold wrapped_field, report_field. destruct (names key "checks") eqn:E.
  - destruct (names_checks key E) as [-> _]. by destruct (decode_checks v (pw_Checks r)).
  - destruct (names key "healthy"); [by destruct (decode_bool v (pw_Healthy r))|].
    destruct (names key "daemon_status"); [by destruct (decode_struct _ _ _)|done].
Qed.
Lemma narrower_members m w r : narrower w r →
  narrower (decode_members wrapped_field m w) (decode_members report_field m r).
Proof.
  revert w r. induction m as [|[k v] m IH]; intros [s okw] [p okr] [E Hok]; [done|]. cbn [fst snd] in *.
  unfold decode_members. cbn [fold_left fst snd]. pose proof (narrower_field k v s p E) as [E' Hok'].
  destruct (wrapped_field k v s) as [s' b], (report_field k v p) as [p' b']. cbn [fst snd] in *.
  apply IH. split; [done|]. cbn. rewrite !andb_true_iff. tauto.
Qed.

(** A slice with elements is not nil. *)
Lemma checks_not_nil v s : (items s ≠ [] → sl_nil s = false) → items (fst (decode_checks v s)) ≠ [] → sl_nil (fst (decode_checks v s)) = false.
Proof.
  intros Hs. unfold decode_checks, decode_slice. destruct v as [| | | |[|x l]|]; cbn; try done.
  by case_match.
Qed.
Lemma members_not_nil m w : (items (fst w) ≠ [] → sl_nil (fst w) = false) →
  items (fst (decode_members wrapped_field m w)) ≠ [] → sl_nil (fst (decode_members wrapped_field m w)) = false.
Proof.
  revert w. induction m as [|[k v] m IH]; intros [s ok] Hs; [exact Hs|]. unfold decode_members. cbn [fold_left fst snd] in *.
  assert (items (fst (wrapped_field k v s)) ≠ [] → sl_nil (fst (wrapped_field k v s)) = false) as Hw.
  { unfold wrapped_field. destruct (names k "checks"); [by apply checks_not_nil|exact Hs]. }
  destruct (wrapped_field k v s) as [s' b]. by apply (IH (s', ok && b)).
Qed.

Lemma format3_shadowed `{JX : JSONSyntax} out cs : format3 out = Some cs → is_Some (format1 out).
Proof.
  unfold format3, format1, Unmarshal. destruct (json_ast out) as [v|]; [|done].
  destruct v as [| | | | |m]; try done. unfold decode_struct.
  pose proof (narrower_members m (nil_slice, true) (zero_report, true) (conj eq_refl (λ H, H))) as [E Hok].
  pose proof (members_not_nil m (nil_slice, true)) as Hn.
  destruct (decode_members wrapped_field m _) as [s okw], (decode_members report_field m _) as [p okr]. cbn [fst snd] in *.
  destruct okr; [|done]. rewrite Hok by done. subst s.
  destruct (items (pw_Checks p)) as [|c l] eqn:El; [done|]. intros _. rewrite Hn; [by eexists|done|done].
Qed.


(** ** The verdict *)

Lemma filter_failed l : (length (List.filter failed l) =? 0) = negb (existsb failed l).
Proof. induction l as [|c l IH]; [done|]. cbn. by destruct (failed c). Qed.
Lemma fails_zero l : (sum_list (map section_fails l) =? 0) = negb (existsb section_failed l).
Proof.
  induction l as [|s l IH]; [done|]. cbn [map sum_list existsb]. rewrite negb_orb, <- IH.
  assert ((section_fails s =? 0) = negb (section_failed s)) as <-.
  { unfold section_fails, section_failed. case_bool_decide; cbn; [apply filter_failed|done]. }
  by destruct (section_fails s).
Qed.
Lemma verdict_totals r : IsHealthy r = (totalFails r =? 0).
Proof.
  unfold IsHealthy, totalFails. pose proof (fails_zero (ud_Sections r)) as H1. pose proof (filter_failed (ud_CrossTool r)) as H2.
  destruct (existsb section_failed (ud_Sections r)); cbn in H1.
  - destruct (sum_list _); done.
  - apply Nat.eqb_eq in H1. rewrite H1. by rewrite <- H2.
Qed.

Lemma label_fail s : bool_decide (StatusLabel s = "FAIL") = bool_decide (s = CheckFail).
Proof. by destruct s. Qed.
Lemma phonewave_failed r : section_failed (phonewave_section r) = existsb is_fail (dr_Checks r).
Proof.
  unfold section_failed, phonewave_section. cbn [ts_Error ts_Checks]. rewrite bool_decide_true by done. cbn [negb orb].
  rewrite existsb_app. unfold daemon_check. cbn [existsb failed uc_Status]. unfold failed at 2. cbn [uc_Status]. rewrite bool_decide_false, !orb_false_r by done.
  induction (dr_Checks r) as [|c l IH]; [done|]. cbn [map existsb]. rewrite IH. f_equal. apply label_fail.
Qed.

(**  However the files, the tools and the operating system answer,
    [doctor --all] fails exactly when the failures it prints are not zero; and
    it fails whenever phonewave's own report is not healthy. *)
Theorem unified_verdict `{EX : External} `{JS : JSON} `{YL : YAML} `{MC : Machine} `{PR : Processes} `{JX : JSONSyntax}
    (i : nat) (repoPath flagPath : string) (repair : bool) (h : Host) :
  let '(report, err) := fst (run i (runUnifiedDoctor repoPath flagPath repair) h) in
  (err = None ↔ totalFails report = 0) ∧
  ∃ pw others, ud_Sections report = phonewave_section pw :: others ∧
    dr_Healthy pw = negb (existsb is_fail (dr_Checks pw)) ∧ (dr_Healthy pw = false → is_Some err).
Proof.
  apply (yields_run i _ (λ x, let '(report, err) := x in _)). unfold runUnifiedDoctor. cbv zeta. apply yields_then. intros c.
  eapply yields_bind with (P := sound); [destruct c; [apply doctor_sound|done]|]. intros pw Hpw. apply yields_then. intros others.
  apply yields_ret. cbn [ud_Healthy ud_Sections ud_CrossTool].
  match goal with |- context [IsHealthy ?r] => set (rep := r) end.
  assert (∀ b, totalFails (mkUnified (phonewave_section pw :: others) (CheckRoutingConsistency match c with Ok cfg => Some cfg | Err _ => None end) b) = totalFails rep) as Et by done.
  rewrite !Et. pose proof (verdict_totals rep) as Hv. split.
  - destruct (IsHealthy rep); [|split; [done|intros E; by rewrite E in Hv]]. split; [|done]. intros _. by apply Nat.eqb_eq.
  - exists pw, others. split; [done|]. split; [exact Hpw|]. intros Hf. unfold IsHealthy. cbn [ud_Sections rep existsb].
    rewrite phonewave_failed. unfold sound in Hpw. rewrite Hf in Hpw. destruct (existsb is_fail (dr_Checks pw)); [by eexists|done].
Qed.

(** ** Samples *)

(** A tool that reports a failure in its own words. *)
#[local] Instance sample_syntax : JSONSyntax := {| json_ast := λ data,
  if bool_decide (data = raw "{checks}")
  then Some (JObj [("Checks", JArr [JObj [("name", JStr "db"); ("status", JStr "ERROR"); ("message", JStr "down")]])])
  else None |}.
Example error_is_healthy :
  parse_output (raw "{checks}") = Some [mkCheck "db" "ERROR" "down" ""] ∧
  section_failed (mkSection "amadeus" "/r" (default [] (parse_output (raw "{checks}"))) "") = false.
Proof. by vm_compute. Qed.
