(* ===== verification/Shell.v ===== *)
(** * Commands of the user

    Models [session/shell_quote.go], [session/notify.go],
    [session/approve.go], [usecase/port/approver.go] and the approval
    configuration of [domain/config.go].  A command that is run is an outcome
    of [Machine]; its arguments are what is modelled.  A reader is the list of
    the results its reads will give.  The shell that
    reads the command line is a parameter, [PosixShell], with what POSIX says
    about quoting as its laws. *)
From S2P Require Import Prelude GoStrings GoPath GoTime DMail Router Prog World DeliverSafety SetupSafety Setup Skills Status Doctor.

#[local] Open Scope nat_scope.

(** ** [strings.ReplaceAll], of a text that is not empty *)

Section Replace.
Context (old : bytes).
(** The text between the occurrences; [skip] bytes belong to one. *)
Fixpoint pieces (skip : nat) (s : bytes) : bytes * list bytes :=
  match s with
  | [] => ([], [])
  | c :: r =>
      match skip with
      | S k => pieces k r
      | O => if bool_decide (take (length old) s = old)
             then let '(p, ps) := pieces (length old - 1) r in ([], p :: ps)
             else let '(p, ps) := pieces 0 r in (c :: p, ps)
      end
  end.
Fixpoint weave (new : bytes) (ps : list bytes) : bytes :=
  match ps with [] => [] | p :: ps => new ++ p ++ weave new ps end.
End Replace.
Definition ReplaceAll (s old new : string) : string :=
  let '(p, ps) := pieces (raw old) 0 (raw s) in str (p ++ weave (raw new) ps).

(** ** [shell_quote.go] *)

Definition ShellQuoteUnix (s : string) : string := "'" +:+ ReplaceAll s "'" "'\''" +:+ "'".
Definition dquote : string := String "034" "".
Definition ShellQuoteCmd (s : string) : string :=
  let s := ReplaceAll s dquote (dquote +:+ dquote) in
  let s := ReplaceAll s "%" "%%" in
  dquote +:+ s +:+ dquote.
Definition ShellQuote (goos s : string) : string :=
  if bool_decide (goos = "windows") then ShellQuoteCmd s else ShellQuoteUnix s.
Definition shellName (goos : string) : string := if bool_decide (goos = "windows") then "cmd" else "sh".
Definition shellFlag (goos : string) : string := if bool_decide (goos = "windows") then "/c" else "-c".

Section Commands.
Context `{EX : External} `{MC : Machine}.
Variable goos : string.

Definition run_args (args : list string) : program (option exec_error) :=
  o ← atom (exec_Run (mkCommand args [])); mret (oc_err o).
Definition run_err (e : option exec_error) : option error :=
  match e with Some (ExitError _ e) => Some e | Some (RunError e) => Some e | None => None end.

(** ** [notify.go] *)

Definition psEscapeSingleQuote (s : string) : string := ReplaceAll s "'" "''".
Definition ErrUnsupportedOS : error := errors_New "notify: unsupported OS for local notifications".

Definition local_args (title message : string) : option (list string) :=
  if bool_decide (goos = "darwin") then
    Some ["osascript"; "-e"; "display notification " +:+ quote message +:+ " with title " +:+ quote title +:+ " sound name " +:+ dquote +:+ "Funk" +:+ dquote]
  else if bool_decide (goos = "linux") then Some ["notify-send"; title; message]
  else if bool_decide (goos = "windows") then
    Some ["powershell"; "-NoProfile"; "-Command";
      "Add-Type -AssemblyName System.Windows.Forms; $n = New-Object System.Windows.Forms.NotifyIcon; $n.Icon = [System.Drawing.SystemIcons]::Information; $n.BalloonTipTitle = '"
      +:+ psEscapeSingleQuote title +:+ "'; $n.BalloonTipText = '" +:+ psEscapeSingleQuote message +:+ "'; $n.Visible = $true; $n.ShowBalloonTip(5000)"]
  else None.
Definition LocalNotifier_Notify (title message : string) : program (option error) :=
  match local_args title message with
  | Some args => e ← run_args args; mret (run_err e)
  | None => mret (Some ErrUnsupportedOS)
  end.

Definition expand_notify (cmdTemplate title message : string) : string :=
  let expanded := ReplaceAll cmdTemplate "{title}" (ShellQuote goos title) in
  ReplaceAll expanded "{message}" (ShellQuote goos message).
Definition CmdNotifier_Notify (cmdTemplate title message : string) : program (option error) :=
  if bool_decide (cmdTemplate = "") then mret (Some (errors_New "notify: empty command template")) else
  e ← run_args [shellName goos; shellFlag goos; expand_notify cmdTemplate title message];
  mret (run_err e).

(** ** [approve.go] *)

Record FlagApproverConfig := mkApproverConfig { fa_AutoApprove : bool; fa_ApproveCmd : string }.
Inductive approver := AutoApprover | CmdApprover (cmdTemplate : string) | StdinApprover.
Definition BuildApprover (cfg : FlagApproverConfig) : approver :=
  if fa_AutoApprove cfg then AutoApprover
  else if negb (bool_decide (fa_ApproveCmd cfg = "")) then CmdApprover (fa_ApproveCmd cfg)
  else StdinApprover.

Definition expand_approve (cmdTemplate message : string) : string :=
  ReplaceAll cmdTemplate "{message}" (ShellQuote goos message).
Definition CmdApprover_Request (cmdTemplate message : string) : program (bool * option error) :=
  if bool_decide (cmdTemplate = "") then mret (false, Some (errors_New "approve: empty command template")) else
  e ← run_args [shellName goos; shellFlag goos; expand_approve cmdTemplate message];
  mret (match e with
        | None => (true, None)
        | Some (ExitError _ _) => (false, None)
        | Some (RunError err) => (false, Some err)
        end).

End Commands.

(** A read of one byte: what it stored and its error; after the list, the end
    of the input. *)
Abbreviation reader := (list (option ascii * option error)).
Definition io_EOF : error := errors_New "EOF".
Fixpoint readLine (buf : bytes) (r : reader) : (bytes * option error) * reader :=
  match r with
  | [] => ((buf, Some io_EOF), [])
  | (b, err) :: r =>
      match b with
      | Some c =>
          if bool_decide (c = "010"%char) then ((buf, None), r)
          else match err with
               | Some e => ((buf ++ [c], Some e), r)
               | None => readLine (buf ++ [c]) r
               end
      | None => match err with Some e => ((buf, Some e), r) | None => readLine buf r end
      end
  end.

(** What a request wrote and answered, and the rest of the input. *)
Record request := mkRequest { rq_written : string; rq_answer : bool * option error; rq_rest : reader }.
Definition approval_prompt (message : string) : string := message +:+ str ["010"%char] +:+ "Continue? [y/N]: ".
(** [None] for [input] is no reader.  The context may be done before the prompt
    ([done_before], with its error), or win the race with the answer
    ([done_first]); the goroutine that reads takes the line all the same. *)
Definition StdinApprover_Request (input : option reader) (done_before done_first : option error) (message : string) : request :=
  match input with
  | None => mkRequest "" (false, None) []
  | Some r =>
      match done_before with
      | Some e => mkRequest "" (false, Some e) r
      | None =>
          let '((line, err), rest) := readLine [] r in
          match done_first with
          | Some e => mkRequest (approval_prompt message) (false, Some e) rest
          | None =>
              let answer := TrimSpace (ToLower (str line)) in
              if bool_decide (answer = "") && bool_decide (is_Some err) then mkRequest (approval_prompt message) (false, None) rest
              else mkRequest (approval_prompt message) (bool_decide (answer = "y") || bool_decide (answer = "yes"), None) rest
          end
      end
  end.

(** ** The shell *)

(** A POSIX shell as a reader of its command line.  A state is what it has
    made of the text so far; [sh_literal] is the state in which these
    characters have been added to the word at hand, each with its literal
    value; [sh_unquoted] holds where the quoting characters of section 2.2 of
    the Shell Command Language are recognised as such: outside quotes, not
    after a backslash, and not in a comment, a here-document or backquotes. *)
Class PosixShell := {
  sh_state : Type;
  sh_start : sh_state;
  sh_reads : sh_state → bytes → sh_state;
  sh_literal : sh_state → bytes → sh_state;
  sh_unquoted : sh_state → Prop }.
(** Text is read from left to right.  2.2.2: enclosing characters in single
    quotes preserves the literal value of each character within them, and a
    single quote cannot occur within them.  2.2.1: a backslash that is not
    quoted preserves the literal value of the following character, but for a
    newline.  After either the shell is outside quotes again. *)
Class PosixLaws `{PosixShell} : Prop := {
  sh_reads_nil : ∀ s, sh_reads s [] = s;
  sh_reads_app : ∀ s a b, sh_reads s (a ++ b) = sh_reads (sh_reads s a) b;
  sh_single_quotes : ∀ s t, sh_unquoted s → "'"%char ∉ t → sh_reads s (["'"%char] ++ t ++ ["'"%char]) = sh_literal s t;
  sh_backslash : ∀ s c, sh_unquoted s → c ≠ "010"%char → sh_reads s ["\"%char; c] = sh_literal s [c];
  sh_literal_unquoted : ∀ s t, sh_unquoted s → sh_unquoted (sh_literal s t);
  sh_literal_app : ∀ s a b, sh_literal (sh_literal s a) b = sh_literal s (a ++ b) }.

(** ** What quoting protects *)

Definition quote_byte (c : ascii) : bytes := if bool_decide (c = "'"%char) then raw "'\''" else [c].
Lemma pieces_char (q : ascii) (new s : bytes) :
  (let '(p, ps) := pieces [q] 0 s in p ++ weave new ps) = s ≫= λ c, if bool_decide (c = q) then new else [c].
Proof.
  induction s as [|c s IH]; [done|]. rewrite bind_cons. cbn [pieces length take]. rewrite take_0.
  destruct (decide (c = q)) as [->|Hq].
  - rewrite !bool_decide_true by done. destruct (pieces [q] 0 s) as [p ps] eqn:E. cbn [Nat.sub]. rewrite E. cbn. by rewrite IH.
  - rewrite !bool_decide_false by congruence. destruct (pieces [q] 0 s) as [p ps] eqn:E. cbn in *. by rewrite IH.
Qed.
Lemma ShellQuoteUnix_bytes s : raw (ShellQuoteUnix s) = ["'"%char] ++ (raw s ≫= quote_byte) ++ ["'"%char].
Proof.
  unfold ShellQuoteUnix, ReplaceAll. pose proof (pieces_char "'"%char (raw "'\''") (raw s)) as E.
  change (raw "'") with ["'"%char]. destruct (pieces ["'"%char] 0 (raw s)) as [p ps].
  rewrite !raw_app, list_ascii_of_string_of_list_ascii. by rewrite E.
Qed.

(** The text is cut at its first quote. *)
Lemma quote_split (s : bytes) :
  ("'"%char ∉ s ∧ s ≫= quote_byte = s) ∨
  ∃ a b, s = a ++ "'"%char :: b ∧ "'"%char ∉ a ∧ s ≫= quote_byte = a ++ raw "'\''" ++ (b ≫= quote_byte).
Proof.
  induction s as [|c s IH]; [left; split; [by intros ?%elem_of_nil|done]|]. rewrite bind_cons. unfold quote_byte at 1 3.
  destruct (decide (c = "'"%char)) as [->|Hc].
  - right. exists [], s. split_and!; [done|by intros ?%elem_of_nil|done].
  - rewrite bool_decide_false by done. destruct IH as [[Hn E]|(a & b & -> & Hn & E)]; rewrite E.
    + left. split; [|done]. rewrite elem_of_cons. intros [?|?]; [by symmetry in H|done].
    + right. exists (c :: a), b. split_and!; [done| |done]. rewrite elem_of_cons. intros [?|?]; [by symmetry in H|done].
Qed.

Section Reading.
Context `{PL : PosixLaws}.

(** A quoted text is read as the text, with the literal value of each of its
    characters. *)
Lemma quoted_is_literal (s : bytes) st :
  sh_unquoted st → sh_reads st (["'"%char] ++ (s ≫= quote_byte) ++ ["'"%char]) = sh_literal st s.
Proof.
  revert st. remember (length s) as n eqn:En. revert s En. induction (Nat.lt_wf_0 n) as [n _ IH]. intros s -> st Hu.
  destruct (quote_split s) as [[Hn ->]|(a & b & -> & Hn & ->)]; [by apply sh_single_quotes|].
  replace (["'"%char] ++ (a ++ raw "'\''" ++ (b ≫= quote_byte)) ++ ["'"%char])
    with ((["'"%char] ++ a ++ ["'"%char]) ++ ["\"%char; "'"%char] ++ (["'"%char] ++ (b ≫= quote_byte) ++ ["'"%char]))
    by (rewrite <- !app_assoc; done).
  rewrite sh_reads_app, sh_single_quotes, sh_reads_app, sh_backslash by (done || by apply sh_literal_unquoted).
  rewrite (IH (length b)); [|rewrite length_app; cbn; lia|done|by do 2 apply sh_literal_unquoted].
  rewrite !sh_literal_app. done.
Qed.

(** The template is cut at its placeholders; each is met where quoting
    characters are recognised, whatever was put in for those before it. *)
Definition placeholder : string := "{message}".
Fixpoint unquoted_at (m : bytes) (st : sh_state) (ps : list bytes) : Prop :=
  match ps with [] => True | p :: ps => sh_unquoted st ∧ unquoted_at m (sh_reads (sh_literal st m) p) ps end.
Definition placeholders_unquoted (tmpl : string) : Prop :=
  ∀ m, let '(p, ps) := pieces (raw placeholder) 0 (raw tmpl) in unquoted_at m (sh_reads sh_start p) ps.
(** What the shell makes of the template with literal characters at the
    placeholders. *)
Definition filled_state (tmpl message : string) : sh_state :=
  let '(p, ps) := pieces (raw placeholder) 0 (raw tmpl) in
  fold_left (λ st q, sh_reads (sh_literal st (raw message)) q) ps (sh_reads sh_start p).

Lemma weave_reads message ps st :
  unquoted_at (raw message) st ps →
  sh_reads st (weave (raw (ShellQuoteUnix message)) ps) = fold_left (λ st q, sh_reads (sh_literal st (raw message)) q) ps st.
Proof.
  revert st. induction ps as [|p ps IH]; intros st; cbn [weave fold_left unquoted_at]; [intros _; apply sh_reads_nil|].
  intros [Hu Hps]. rewrite !sh_reads_app. rewrite ShellQuoteUnix_bytes at 1. rewrite quoted_is_literal by done. by apply IH.
Qed.
Lemma expand_reads goos tmpl message :
  goos ≠ "windows" → placeholders_unquoted tmpl →
  sh_reads sh_start (raw (expand_approve goos tmpl message)) = filled_state tmpl message.
Proof.
  unfold expand_approve, filled_state, ReplaceAll, ShellQuote. intros Hg Ht. specialize (Ht (raw message)).
  rewrite bool_decide_false by done. change (raw "{message}") with (raw placeholder).
  destruct (pieces (raw placeholder) 0 (raw tmpl)) as [p ps].
  rewrite list_ascii_of_string_of_list_ascii, sh_reads_app. by apply weave_reads.
Qed.
End Reading.

(** C13: outside Windows, for every template whose placeholders stand where
    the shell recognises quoting characters (outside quotes, comments,
    here-documents and backquotes), and for every message, a shell that keeps
    the quoting rules of POSIX makes of the command line exactly what it makes
    of the template with the characters of the message, each with its literal
    value, at the placeholders.  The request is approved exactly when the
    command succeeds, and a command that does not start is an error. *)
Theorem message_stays_data `{PL : PosixLaws} `{MC : Machine} (i : nat) (goos tmpl message : string) (w : World) :
  goos ≠ "windows" → tmpl ≠ "" → placeholders_unquoted tmpl →
  ∃ line, sh_reads sh_start (raw line) = filled_state tmpl message ∧
    run i (CmdApprover_Request goos tmpl message) w =
      (match oc_err (mc_run (w_tick w) (mkCommand ["sh"; "-c"; line] [])) with
       | None => (true, None)
       | Some (ExitError _ _) => (false, None)
       | Some (RunError e) => (false, Some e)
       end, bump w).
Proof.
  intros Hg Hn Hb. exists (expand_approve goos tmpl message). split; [by apply expand_reads|].
  unfold CmdApprover_Request, run_args, shellName, shellFlag. rewrite !bool_decide_false by done.
  rewrite !run_mbind, run_atom. cbn. by repeat case_match.
Qed.

(** *** A small shell that keeps the rules: words of characters, each with
    whether it was quoted, single quotes and backslashes *)

Inductive reading := Plain | Escaped | Quoted.
Definition sample_step (st : list (ascii * bool) * reading) (c : ascii) : list (ascii * bool) * reading :=
  let '(out, r) := st in
  match r with
  | Plain => if bool_decide (c = "'"%char) then (out, Quoted)
             else if bool_decide (c = "\"%char) then (out, Escaped) else (out ++ [(c, false)], Plain)
  | Escaped => (if bool_decide (c = "010"%char) then out else out ++ [(c, true)], Plain)
  | Quoted => if bool_decide (c = "'"%char) then (out, Plain) else (out ++ [(c, true)], Quoted)
  end.
Definition protected (s : bytes) : list (ascii * bool) := (λ c, (c, true)) <$> s.
#[local] Instance sample_shell : PosixShell := {|
  sh_state := list (ascii * bool) * reading;
  sh_start := ([], Plain);
  sh_reads := λ st s, fold_left sample_step s st;
  sh_literal := λ st t, (fst st ++ protected t, snd st);
  sh_unquoted := λ st, snd st = Plain |}.
Lemma sample_quoted t out : "'"%char ∉ t → fold_left sample_step t (out, Quoted) = (out ++ protected t, Quoted).
Proof.
  revert out. induction t as [|c t IH]; intros out; [by rewrite app_nil_r|]. rewrite elem_of_cons. intros Hn. cbn [fold_left sample_step].
  rewrite bool_decide_false by (intros ->; tauto). rewrite IH by tauto. by rewrite <- app_assoc.
Qed.
#[local] Instance sample_shell_laws : PosixLaws.
Proof.
  constructor; cbn.
  - done.
  - intros. apply fold_left_app.
  - intros [out r] t. cbn. intros -> Hn. rewrite bool_decide_true, fold_left_app, sample_quoted by done. cbn. by rewrite bool_decide_true.
  - intros [out r] c. cbn. intros -> Hn. rewrite (bool_decide_eq_false_2 (_ = "'"%char)), (bool_decide_eq_true_2 ("\"%char = "\"%char)) by done.
    cbn. by rewrite bool_decide_false.
  - done.
  - intros [out r] a b. unfold protected. cbn. by rewrite fmap_app, app_assoc.
Qed.

Lemma message_stays_data_witness :
  ∃ line, sh_reads sh_start (raw line) = (((λ c, (c, false)) <$> raw "ask ") ++ protected (raw "it's; rm -rf $HOME"), Plain) ∧
    fst (run 0 (CmdApprover_Request (MC := sample_machine) "linux" "ask {message}" "it's; rm -rf $HOME") status_world)
    = match oc_err (mc_run (Machine := sample_machine) (w_tick status_world) (mkCommand ["sh"; "-c"; line] [])) with
       | None => (true, None)
       | Some (ExitError _ _) => (false, None)
       | Some (RunError e) => (false, Some e)
       end.
Proof.
  destruct (message_stays_data (MC := sample_machine) 0 "linux" "ask {message}" "it's; rm -rf $HOME" status_world) as (line & E1 & E2);
    [done|done|intros m; split; [reflexivity|exact I]|].
  exists line. rewrite E1, E2. split; [by vm_compute|done].
Defined.

(** A placeholder inside double quotes is not enough: the quotes put around the
    message are plain characters there, and a [$] is not. *)
Example quoted_placeholder_expands :
  expand_approve "linux" ("ask " +:+ dquote +:+ "{message}" +:+ dquote) "$(reboot)" = "ask " +:+ dquote +:+ "'$(reboot)'" +:+ dquote.
Proof. reflexivity. Qed.
(** The two placeholders of a notification are filled one after the other: a
    title that contains the second one takes the message out of its quotes. *)
Example title_unquotes_message : expand_notify "linux" "say {title}" "{message}" "; reboot;" = "say ''; reboot;''".
Proof. reflexivity. Qed.

(** ** Asking on a terminal *)

(** The reads that give the bytes of [s], one each. *)
Definition typed (s : string) : reader := (λ c, (Some c, None)) <$> raw s.

Lemma readLine_typed s r buf : has_byte "010"%char s = false → readLine buf (typed s ++ (Some "010"%char, None) :: r) = ((buf ++ raw s, None), r).
Proof.
  revert buf. induction s as [|c s IH]; intros buf; cbn; [by rewrite app_nil_r|].
  intros [Hc Hs]%orb_false_iff. rewrite bool_decide_false by (intros ->; done). rewrite IH by done. by rewrite <- app_assoc.
Qed.

Lemma readLine_nothing_past r : ∀ buf l rest, readLine buf r = ((l, None), rest) → ∃ err pre, r = pre ++ (Some "010"%char, err) :: rest.
Proof.
  induction r as [|[[c|] err] r IH]; intros buf l rest; cbn; [done| |].
  - case_bool_decide as Hc; [intros [= _ <-]; subst c; by exists err, []|].
    destruct err as [e|]; [done|]. intros (err & pre & ->)%IH. by exists err, ((Some c, None) :: pre).
  - destruct err as [e|]; [done|]. intros (err & pre & ->)%IH. by exists err, ((None, None) :: pre).
Qed.

(** An approval asked for on the terminal is given only by a line that is
    [y] or [yes] up to case and surrounding space, ended by a newline, the end
    of the input or a failing read; any other line and a context that is done
    deny it, and nothing after the newline is taken from the input. *)
Theorem approval_is_explicit (message answer : string) (rest : reader) (done_before done_first : option error) (input : option reader) :
  (has_byte "010"%char answer = false →
   StdinApprover_Request (Some (typed answer ++ (Some "010"%char, None) :: rest)) None None message
   = mkRequest (approval_prompt message) (bool_decide (TrimSpace (ToLower answer) ∈ ["y"; "yes"]), None) rest) ∧
  (fst (rq_answer (StdinApprover_Request input done_before done_first message)) = true →
   done_before = None ∧ done_first = None ∧
   ∃ r line err, input = Some r ∧ fst (readLine [] r) = (line, err) ∧ TrimSpace (ToLower (str line)) ∈ ["y"; "yes"] ∧
     (err = None → ∃ e pre, r = pre ++ (Some "010"%char, e) :: rq_rest (StdinApprover_Request input done_before done_first message))).
Proof.
  split.
  - intros Ha. cbn. rewrite readLine_typed by done. cbn [app]. rewrite string_of_list_ascii_of_string, andb_false_r.
    do 3 f_equal. rewrite <- bool_decide_or. apply bool_decide_ext. set_solver.
  - destruct input as [r|]; [|done]. destruct done_before as [e|]; [done|]. cbn. destruct (readLine [] r) as [[line err] r'] eqn:E.
    destruct done_first as [e|]; [done|]. case_match; [done|]. cbn. rewrite <- bool_decide_or, bool_decide_eq_true. intros Hy.
    split_and!; [done..|]. exists r, line, err. rewrite E. split_and!; [done..|set_solver|].
    intros ->. by apply readLine_nothing_past in E.
Qed.

Lemma approval_is_explicit_witness :
  fst (rq_answer (StdinApprover_Request (Some (typed " Yes" ++ (Some "010"%char, None) :: typed "next")) None None "apply?")) = true ∧
  fst (rq_answer (StdinApprover_Request (Some (typed "yep" ++ (Some "010"%char, None) :: [])) None None "apply?")) = false.
Proof.
  split.
  - rewrite (proj1 (approval_is_explicit "apply?" " Yes" (typed "next") None None None)); [by vm_compute|done].
  - rewrite (proj1 (approval_is_explicit "apply?" "yep" [] None None None)); [by vm_compute|done].
Defined.
