(* ===== verification/MCP.v ===== *)
(** * The MCP server

    Models [session/mcp_server.go], up to its metrics and logging.  A message
    is decoded into the code's structs as in [Unified]; what is written is a
    value of [json], its text a parameter.  A [map] is printed with its keys
    sorted, a struct in the order of its fields.  Standard input is its bytes
    and the error after them, if any; a failing write to standard output may
    have written any prefix.  [ModTime] is the modification time of a file. *)
From Stdlib Require Import SpecFloat.
From S2P Require Import Prelude GoStrings GoPath GoTime DMail Router Prog World DeliverSafety DeliveryStore SetupSafety Setup Files EventStore Insight Cutover ConfigFile Wiring WiringSafety Metrics Skills Status Report Doctor Unified.

#[local] Open Scope nat_scope.

(** [json.Marshal] of a value; [json_float] is whether a number fits a
    [float64], which the decoding into an [any] needs. *)
Class JSONText := { json_text : json → string; json_float : string → bool }.

(** ** Messages *)

Record jsonrpcMessage := mkMessage { jm_JSONRPC : string; jm_ID : option json; jm_Method : string; jm_Params : option json }.
Definition zero_message : jsonrpcMessage := mkMessage "" None "" None.

(** [json.RawMessage]; it is empty when the member is missing. *)
Definition decode_raw : decoder (option json) := λ v _, (Some v, true).
(** [any]: of the kinds of values only a number can fail. *)
Fixpoint decode_any_ok `{JSONText} (v : json) : bool :=
  match v with
  | JNum lit => json_float lit
  | JArr vs => forallb decode_any_ok vs
  | JObj ms => forallb (λ m, decode_any_ok (snd m)) ms
  | _ => true
  end.
(** [*jsonrpcError]; its value is never used. *)
Definition error_field (key : string) (v : json) (u : unit) : unit * bool :=
  if names key "code" then (u, snd (decode_int v 0%Z))
  else if names key "message" then (u, snd (decode_string v "")) else (u, true).

Definition message_field `{JSONText} (key : string) (v : json) (m : jsonrpcMessage) : jsonrpcMessage * bool :=
  if names key "jsonrpc" then let '(s, ok) := decode_string v (jm_JSONRPC m) in (mkMessage s (jm_ID m) (jm_Method m) (jm_Params m), ok)
  else if names key "id" then let '(i, ok) := decode_raw v (jm_ID m) in (mkMessage (jm_JSONRPC m) i (jm_Method m) (jm_Params m), ok)
  else if names key "method" then let '(s, ok) := decode_string v (jm_Method m) in (mkMessage (jm_JSONRPC m) (jm_ID m) s (jm_Params m), ok)
  else if names key "params" then let '(p, ok) := decode_raw v (jm_Params m) in (mkMessage (jm_JSONRPC m) (jm_ID m) (jm_Method m) p, ok)
  else if names key "result" then (m, decode_any_ok v)
  else if names key "error" then (m, snd (decode_struct error_field v tt))
  else (m, true).

(** [call]: the name and the arguments of a tool. *)
Definition call_field (key : string) (v : json) (c : string * option json) : (string * option json) * bool :=
  if names key "name" then let '(s, ok) := decode_string v (fst c) in ((s, snd c), ok)
  else if names key "arguments" then let '(a, ok) := decode_raw v (snd c) in ((fst c, a), ok)
  else (c, true).
(** [json.Unmarshal] of a raw message. *)
Definition unmarshal_raw {T} (dec : decoder T) (zero : T) (raw : option json) : option T :=
  match raw with
  | Some v => let '(x, ok) := dec v zero in if ok then Some x else None
  | None => None
  end.
Definition payload_field (key : string) (v : json) (tool : string) : string * bool :=
  if names key "tool" then decode_string v tool else (tool, true).
(** [payload.Tool]; an error is dropped, with what was decoded before it kept. *)
Definition payload_tool (args : option json) : string :=
  match args with Some v => fst (decode_struct payload_field v "") | None => "" end.

(** ** Responses *)

Definition jstr (key text : string) : string * json := (key, JStr text).
Definition jnat (key : string) (n : nat) : string * json := (key, JNum (nat_text n)).
Definition jint (key : string) (n : Z) : string * json := (key, JNum (Itoa n)).

Definition id_member (id : option json) : list (string * json) := match id with Some v => [("id", v)] | None => [] end.
Definition respond (id : option json) (result : json) : json :=
  JObj ([jstr "jsonrpc" "2.0"] ++ id_member id ++ [("result", result)]).
Definition respondError (id : option json) (code : Z) (message : string) : json :=
  JObj ([jstr "jsonrpc" "2.0"] ++ id_member id ++ [("error", JObj [jint "code" code; jstr "message" message])]).

Definition mcpProtocolVersion : string := "2024-11-05".
Definition initializeResult : json :=
  JObj [("capabilities", JObj [("tools", JObj [("listChanged", JBool false)])]);
        jstr "instructions" "phonewave is the D-Mail courier daemon and its visibility surface for the tap 5-tool ecosystem: query queue depths, dead-letter counts and 24h delivery stats (outbox_status / inbox_status) to check whether emitted d-mails were delivered. Do NOT start `phonewave run` from the session — the daemon runs independently as the only surviving daemon post jun15 pivot.";
        jstr "protocolVersion" mcpProtocolVersion;
        ("serverInfo", JObj [jstr "name" "phonewave"; jstr "version" "0.1.0"])].

Definition tool_schema (tool_description : string) : json :=
  JObj [("properties", JObj [("tool", JObj [jstr "description" tool_description; jstr "type" "string"])]);
        ("required", JArr [JStr "tool"]);
        jstr "type" "object"].
Definition toolDescriptors : json :=
  JArr [JObj [jstr "description" "Health check. Returns 'pong'.";
              ("inputSchema", JObj [("properties", JObj []); jstr "type" "object"]);
              jstr "name" "ping"];
        JObj [jstr "description" "Return outbox queue depth + dead-letter count (SQLite delivery store) + oldest age in seconds + 24h delivery stats (delivered/failed/retried — answers whether emitted d-mails were delivered) for the given source tool.";
              ("inputSchema", tool_schema "source tool name (paintress / sightjack / amadeus / dominator)");
              jstr "name" "outbox_status"];
        JObj [jstr "description" "Return inbox queue depth + oldest age in seconds for the given target tool. Inbox has no dead-letter count (that is an outbox-side concept).";
              ("inputSchema", tool_schema "target tool name (paintress / sightjack / amadeus / dominator)");
              jstr "name" "inbox_status"]].

Definition textResult (text : string) : json := JObj [("content", JArr [JObj [jstr "text" text; jstr "type" "text"]])].

(** ** The tools *)

(** [int(d.Seconds())] *)
Definition float64_add : float64 → float64 → float64 := SFadd 53 1024.
Definition trunc (f : float64) : Z :=
  match f with
  | S754_finite s m e =>
      let n := if (0 <=? e)%Z then (Zpos m * 2 ^ e)%Z else (Zpos m / 2 ^ (- e))%Z in if s then (- n)%Z else n
  | _ => 0%Z
  end.
Definition Seconds (d : Duration) : float64 :=
  float64_add (float64_of (Z.quot d Second)) (float64_div (float64_of (Z.rem d Second)) (float64_of 1000000000)).

Section Server.
Context `{YL : YAML} `{JX : JSONSyntax} `{JT : JSONText}.
Variable ModTime : string → option Time.

Definition jsonResult (data : json) : json := textResult (json_text data).

(** The loop of [scanDirDepth] over the entries, with the count and the oldest
    time, zero when there is none. *)
Definition scan_entry (dir : string) (s : nat * Time) (e : string * bool) : nat * Time :=
  if snd e then s else
  match ModTime (path_Join [dir; fst e]) with
  | None => (S (fst s), snd s)
  | Some mt => (S (fst s), if IsZero (snd s) || (mt <? snd s)%Z then mt else snd s)
  end.
Definition scanDirDepth (dir : string) : program (nat * Time) :=
  r ← atom (os_ReadDir dir);
  mret (match r with Err _ => (0, 0%Z) | Ok entries => fold_left (scan_entry dir) entries (0, 0%Z) end).

Definition loadDeadLetterCount (stateDir : string) : prog Host (result nat) :=
  st ← on_world (atom (os_Stat (path_Join [stateDir; ".run"; "delivery.db"])));
  if not_exist st then mret (Ok 0) else
  s ← NewSQLiteDeliveryStore stateDir;
  match s with
  | Err err => mret (Err (errorf_w "open delivery store: " err))
  | Ok _ =>
      c ← on_world (atom Staged.DeadLetterCount);
      _ ← closes HDelivery;
      mret (match c with Err err => Err (errorf_w "delivery store dead-letter count: " err) | Ok n => Ok n end)
  end.

(** The loops over the repositories and their endpoints: the endpoints, the
    files and the oldest time so far. *)
Record depths := mkDepths { dp_endpoints : nat; dp_total : nat; dp_oldest : Time }.
Definition add_depth (s : depths) (d : nat * Time) : depths :=
  mkDepths (S (dp_endpoints s)) (dp_total s + fst d)
    (if negb (IsZero (snd d)) && (IsZero (dp_oldest s) || (snd d <? dp_oldest s)%Z) then snd d else dp_oldest s).
Section Queues.
Variables (sub tool : string) (kinds : EndpointConfig → list string).
Fixpoint endpoint_depths (repo : string) (eps : list EndpointConfig) (s : depths) : program depths :=
  match eps with
  | [] => mret s
  | ep :: eps =>
      if bool_decide (kinds ep = []) then endpoint_depths repo eps s else
      d ← scanDirDepth (path_Join [repo; epc_Dir ep; sub]);
      endpoint_depths repo eps (add_depth s d)
  end.
Definition of_tool (repo : RepoConfig) : bool := bool_decide (tool = "") || Contains (rc_Path repo) tool.
Fixpoint queue_depths (repos : list RepoConfig) (s : depths) : program depths :=
  match repos with
  | [] => mret s
  | repo :: repos =>
      if of_tool repo then s ← endpoint_depths (rc_Path repo) (rc_Endpoints repo) s; queue_depths repos s
      else queue_depths repos s
  end.
End Queues.
Definition no_depths : depths := mkDepths 0 0 0%Z.
Definition age_of (oldest : Time) : program Z :=
  if IsZero oldest then mret 0%Z else now ← atom Now; mret (trunc (Seconds (Sub now oldest))).

Definition uninitialized (reason tool : string) : json :=
  jsonResult (JObj [("initialized", JBool false); jstr "reason" reason; jstr "tool" tool]).

Definition realOutboxStatus (configPath : string) (args : option json) : prog Host json :=
  let tool := payload_tool args in
  if bool_decide (configPath = "") then mret (uninitialized "phonewave mcp config path not configured" tool) else
  c ← on_world (LoadConfig configPath);
  match c with
  | Err err => mret (uninitialized ("config load failed: " +:+ err_msg err) tool)
  | Ok cfg =>
      s ← on_world (queue_depths "outbox" tool epc_Produces (cfg_Repositories cfg) no_depths);
      n ← loadDeadLetterCount (Dir configPath);
      age ← on_world (age_of (dp_oldest s));
      stats ← on_world (atom ParseDeliveryStats);
      mret (jsonResult (JObj (
        [jnat "dead_letter_count" (match n with Ok n => n | Err _ => 0 end)] ++
        (match n with Err err => [jstr "dead_letter_error" (err_msg err)] | Ok _ => [] end) ++
        [jint "delivered_24h" (st_Delivered stats); jnat "endpoint_count" (dp_endpoints s); jint "failed_24h" (st_Failed stats);
         ("initialized", JBool true); jint "oldest_age_seconds" age; jint "retried_24h" (st_Retried stats);
         jstr "tool" tool; jnat "total_depth" (dp_total s)])))
  end.

Definition realInboxStatus (configPath : string) (args : option json) : prog Host json :=
  let tool := payload_tool args in
  if bool_decide (configPath = "") then mret (uninitialized "phonewave mcp config path not configured" tool) else
  c ← on_world (LoadConfig configPath);
  match c with
  | Err err => mret (uninitialized ("config load failed: " +:+ err_msg err) tool)
  | Ok cfg =>
      s ← on_world (queue_depths "inbox" tool epc_Consumes (cfg_Repositories cfg) no_depths);
      age ← on_world (age_of (dp_oldest s));
      mret (jsonResult (JObj [jnat "endpoint_count" (dp_endpoints s); ("initialized", JBool true);
        jint "oldest_age_seconds" age; jstr "tool" tool; jnat "total_depth" (dp_total s)]))
  end.

(** ** The server *)

Definition handleToolsCall (configPath : string) (msg : jsonrpcMessage) : prog Host json :=
  match unmarshal_raw (decode_struct call_field) ("", None) (jm_Params msg) with
  | None => mret (respondError (jm_ID msg) (-32602) "invalid tools/call params")
  | Some (name, arguments) =>
      if bool_decide (name = "ping") then mret (respond (jm_ID msg) (textResult "pong"))
      else if bool_decide (name = "outbox_status") then r ← realOutboxStatus configPath arguments; mret (respond (jm_ID msg) r)
      else if bool_decide (name = "inbox_status") then r ← realInboxStatus configPath arguments; mret (respond (jm_ID msg) r)
      else mret (respondError (jm_ID msg) (-32601) ("unknown tool: " +:+ name))
  end.

(** [handle] of the server, up to the write: the message written, if any. *)
Definition MCPServer_handle (configPath : string) (line : bytes) : prog Host (option json) :=
  match Unmarshal (decode_struct message_field) zero_message line with
  | None => mret None
  | Some msg =>
      if bool_decide (jm_Method msg = "initialize") then mret (Some (respond (jm_ID msg) initializeResult))
      else if bool_decide (jm_Method msg = "notifications/initialized") then mret None
      else if bool_decide (jm_Method msg = "tools/list") then mret (Some (respond (jm_ID msg) (JObj [("tools", toolDescriptors)])))
      else if bool_decide (jm_Method msg = "tools/call") then r ← handleToolsCall configPath msg; mret (Some r)
      else match jm_ID msg with
           | None => mret None
           | Some _ => mret (Some (respondError (jm_ID msg) (-32601) ("method not implemented: " +:+ jm_Method msg)))
           end
  end.

(** One write of a message and its newline: what reached standard output. *)
Definition writeMessage (msg : json) : act bytes := λ w,
  let data := raw (json_text msg) ++ ["010"%char] in
  let short := env_short (w_env w) (w_tick w) in
  let '(e, w) := fault w in (match e with Some _ => take short data | None => data end, w).

Definition scanner_limit : Z := 4 * 1024 * 1024.
(** [cancelled] says which check of the context finds it done. *)
Fixpoint serve (cancelled : nat → option error) (configPath : string) (n : nat) (lines : list bytes) (after : option error) (out : bytes)
    : prog Host (bytes * option error) :=
  match lines with
  | [] => mret (out, match after with Some err => Some (errorf_w "mcp server: read stdin: " err) | None => None end)
  | line :: lines =>
      if (scanner_limit <=? Z.of_nat (length line))%Z then mret (out, Some (errorf_w "mcp server: read stdin: " ErrTooLong)) else
      match cancelled n with
      | Some err => mret (out, Some err)
      | None =>
          let line := dropCR line in
          if bool_decide (line = []) then serve cancelled configPath (S n) lines after out else
          r ← MCPServer_handle configPath line;
          match r with
          | None => serve cancelled configPath (S n) lines after out
          | Some msg =>
              b ← on_world (atom (writeMessage msg));
              serve cancelled configPath (S n) lines after (out ++ b)
          end
      end
  end.
Definition Serve (cancelled : nat → option error) (configPath : string) (input : bytes) (after : option error) : prog Host (bytes * option error) :=
  serve cancelled configPath 0 (split_lines [] input) after [].
End Server.

(** * Theorems *)

(** ** Replies *)

Section Replies.
Context `{YL : YAML} `{JX : JSONSyntax} `{JT : JSONText}.
Variable ModTime : string → option Time.

(** The message of a line that is answered. *)
Definition awaits_reply (msg : jsonrpcMessage) : bool :=
  bool_decide (jm_Method msg ∈ ["initialize"; "tools/list"; "tools/call"])
  || bool_decide (is_Some (jm_ID msg)) && negb (bool_decide (jm_Method msg = "notifications/initialized")).
Definition request_of (line : bytes) : option jsonrpcMessage :=
  if bool_decide (dropCR line = []) then None else
  match Unmarshal (decode_struct message_field) zero_message (dropCR line) with
  | Some msg => if awaits_reply msg then Some msg else None
  | None => None
  end.
(** Its reply, with its id: what the method asks for, the result or the error
    of a tool, or that there is no such method. *)
Definition is_reply (msg : jsonrpcMessage) (v : json) : Prop :=
  if bool_decide (jm_Method msg = "initialize") then v = respond (jm_ID msg) initializeResult
  else if bool_decide (jm_Method msg = "tools/list") then v = respond (jm_ID msg) (JObj [("tools", toolDescriptors)])
  else if bool_decide (jm_Method msg = "tools/call") then
    (∃ r, v = respond (jm_ID msg) r) ∨ (∃ code text, v = respondError (jm_ID msg) code text)
  else v = respondError (jm_ID msg) (-32601) ("method not implemented: " +:+ jm_Method msg).
Definition replies_to (request : option jsonrpcMessage) (v : option json) : Prop :=
  match request, v with Some msg, Some v => is_reply msg v | None, None => True | _, _ => False end.

Lemma call_replies path msg : jm_Method msg = "tools/call" → yields (handleToolsCall ModTime path msg) (is_reply msg).
Proof.
  intros E. assert (∀ v, (∃ r, v = respond (jm_ID msg) r) ∨ (∃ code text, v = respondError (jm_ID msg) code text) → is_reply msg v) as Hr.
  { intros v Hv. unfold is_reply. rewrite E. exact Hv. }
  unfold handleToolsCall. destruct (unmarshal_raw _ _ _) as [[name args]|]; [|apply Hr; right; by eexists _, _].
  repeat case_bool_decide; [apply Hr; left; by eexists| | |apply Hr; right; by eexists _, _];
    (apply yields_then; intros r; apply Hr; left; by eexists).
Qed.

Lemma handle_replies path line : dropCR line ≠ [] → yields (MCPServer_handle ModTime path (dropCR line)) (replies_to (request_of line)).
Proof.
  intros Hl. unfold MCPServer_handle, request_of, awaits_reply. rewrite (bool_decide_false (dropCR line = [])) by done. destruct (Unmarshal _ _ _) as [msg|]; [|done].
  destruct (decide (jm_Method msg = "initialize")) as [E|N1].
  { assert (is_reply msg (respond (jm_ID msg) initializeResult)) as Hr by (unfold is_reply; by rewrite E). rewrite E. exact Hr. }
  rewrite bool_decide_false by done.
  destruct (decide (jm_Method msg = "notifications/initialized")) as [E|N2]; [by rewrite E, andb_false_r|].
  rewrite bool_decide_false by done.
  destruct (decide (jm_Method msg = "tools/list")) as [E|N3].
  { assert (is_reply msg (respond (jm_ID msg) (JObj [("tools", toolDescriptors)]))) as Hr by (unfold is_reply; by rewrite E). rewrite E. exact Hr. }
  rewrite bool_decide_false by done.
  destruct (decide (jm_Method msg = "tools/call")) as [E|N4].
  { rewrite !bool_decide_true by (rewrite E; set_solver). cbn [orb].
    eapply yields_bind; [by apply call_replies|]. intros v Hv. exact Hv. }
  rewrite !bool_decide_false by (done || set_solver). destruct (jm_ID msg) as [id|] eqn:Ei; cbn; [|done].
  unfold is_reply. rewrite !bool_decide_false by done. by rewrite Ei.
Qed.

(** ** What a server changes *)

Abbreviation dirs := (on_host adds_dirs).
#[local] Instance dirs_PreOrder : PreOrder dirs.
Proof. apply on_host_PreOrder, _. Qed.
#[local] Hint Resolve tick_Stat tick_ReadFile tick_ReadDir tick_stats tick_dead : ticks.
Lemma dirs_quiet {X} (m : act X) : (∀ w, tick_only w (snd (m w))) → acts dirs (on_world (atom m)).
Proof. intros Hm. apply acts_store, (quiet _ tick_adds), Hm. Qed.
Lemma world_quiet {X} (m : act X) : (∀ w, tick_only w (snd (m w))) → acts adds_dirs (atom m).
Proof. apply (quiet _ tick_adds). Qed.
Ltac each_call := repeat first [exact I | solve [auto with ticks] | by (apply dirs_quiet; auto with ticks) | by (apply world_quiet; auto with ticks)
  | apply acts_bind; [|intros ?] | case_match].

Lemma config_dirs path : acts adds_dirs (LoadConfig path).
Proof. unfold LoadConfig. each_call. Qed.
Lemma endpoints_dirs sub kinds repo eps s : acts adds_dirs (endpoint_depths ModTime sub kinds repo eps s).
Proof. revert s. induction eps as [|ep eps IH]; intros s; cbn [endpoint_depths]; [done|]. unfold scanDirDepth. each_call. Qed.
#[local] Hint Resolve endpoints_dirs : ticks.
Lemma queues_dirs sub tool kinds repos s : acts adds_dirs (queue_depths ModTime sub tool kinds repos s).
Proof. revert s. induction repos as [|repo repos IH]; intros s; cbn [queue_depths]; [done|]. each_call. Qed.
Lemma age_dirs t : acts adds_dirs (age_of t).
Proof. unfold age_of. each_call. Qed.
Lemma deadletters_dirs d : acts dirs (loadDeadLetterCount d).
Proof.
  unfold loadDeadLetterCount. apply acts_bind; [apply dirs_quiet; auto with ticks|]. intros st. case_match; [done|].
  apply acts_bind; [apply (db_acts _ tick_adds mkdir_adds)|]. intros [u|e]; [|done].
  apply acts_bind; [apply dirs_quiet; auto with ticks|]. intros c. apply acts_bind; [apply handle_acts, _|]. done.
Qed.
#[local] Hint Resolve deadletters_dirs : ticks.
Lemma outbox_dirs path args : acts dirs (realOutboxStatus ModTime path args).
Proof.
  unfold realOutboxStatus. case_bool_decide; [done|]. apply acts_bind; [apply acts_store, config_dirs|]. intros [cfg|e]; [|done].
  apply acts_bind; [apply acts_store, queues_dirs|]. intros s. each_call. apply acts_store, age_dirs.
Qed.
Lemma inbox_dirs path args : acts dirs (realInboxStatus ModTime path args).
Proof.
  unfold realInboxStatus. case_bool_decide; [done|]. apply acts_bind; [apply acts_store, config_dirs|]. intros [cfg|e]; [|done].
  apply acts_bind; [apply acts_store, queues_dirs|]. intros s. each_call. apply acts_store, age_dirs.
Qed.
#[local] Hint Resolve outbox_dirs inbox_dirs : ticks.
Lemma handle_dirs path line : acts dirs (MCPServer_handle ModTime path line).
Proof. unfold MCPServer_handle, handleToolsCall. each_call. Qed.

(** ** A session *)

(** What reached standard output of a reply: the whole line, or where the one
    call that writes it fails, as much of it as that call let through. *)
Definition reply_line (v : json) : bytes := raw (json_text v) ++ ["010"%char].
Definition wrote (env : Env) (c : bytes) (v : json) : Prop := ∃ n,
  c = match env_fault env n with Some _ => take (env_short env n) (reply_line v) | None => reply_line v end.
Lemma wrote_all env c v : no_faults env → wrote env c v → c = reply_line v.
Proof. intros Hf [n ->]. by rewrite Hf. Qed.
Lemma write_parts i v h : runs i (on_world (atom (writeMessage v))) (λ c h', wrote (w_env (host_world h)) c v ∧ dirs h h') h.
Proof.
  split.
  - unfold writeMessage, fault, wrote, reply_line, host_world. cbn. by eexists.
  - apply (acts_run dirs), dirs_quiet. intros w. unfold writeMessage, fault. by destruct w.
Qed.
Lemma serve_replies i path lines :
  Forall (λ l, (Z.of_nat (length l) < scanner_limit)%Z) lines →
  ∀ n out h, runs i (serve ModTime (λ _, None) path n lines None out) (λ r h',
    snd r = None ∧ dirs h h' ∧
    ∃ replies chunks, Forall2 is_reply (omap request_of lines) replies ∧
      Forall2 (wrote (w_env (host_world h))) chunks replies ∧ fst r = out ++ mjoin chunks) h.
Proof.
  induction 1 as [|line lines Hlen _ IH]; intros n out h; cbn [serve omap list_omap].
  { apply runs_ret. split_and!; [done..|]. exists [], []. cbn. rewrite app_nil_r. by repeat constructor. }
  destruct (Z.leb_spec scanner_limit (Z.of_nat (length line))) as [?|_]; [lia|].
  case_bool_decide as Hl.
  { unfold request_of at 1. rewrite bool_decide_true by done. apply IH. }
  apply (runs_both dirs i _ _ _ _ _ (handle_dirs _ _) (handle_replies _ _ Hl)). intros r h1 Hr H1.
  assert (∀ h2, dirs h1 h2 → w_env (host_world h2) = w_env (host_world h)) as Hk.
  { intros h2 H2. rewrite (proj2 (proj2 (proj2 (proj2 (proj2 (ad_rest _ _ H2)))))). apply H1. }
  destruct r as [v|], (request_of line) as [msg|] eqn:Er; try done.
  - apply runs_bind. eapply runs_mono; [|apply write_parts]. intros c h2 (Hc & H2).
    eapply runs_mono; [|apply IH]. intros [out' e] h3 (-> & H3 & replies & chunks & R1 & R2 & ->).
    split_and!; [done|by do 2 (etrans; [eassumption|])|]. exists (v :: replies), (c :: chunks).
    rewrite Hk in R2 by done. rewrite Hk in Hc by reflexivity. split_and!; [by constructor|by constructor|cbn; by rewrite app_assoc].
  - eapply runs_mono; [|apply IH]. intros [out' e] h3 (-> & H3 & replies & chunks & R1 & R2 & ->).
    split_and!; [done|by etrans|]. exists replies, chunks. by rewrite Hk in R2 by reflexivity.
Qed.
End Replies.

(** The text of a value is on one line, as [encoding/json] escapes newlines. *)
Class JSONTextLaws `{JSONText} : Prop := { json_one_line : ∀ v, has_byte "010"%char (json_text v) = false }.

Lemma split_replies `{JSONTextLaws} l : split_lines [] (mjoin (reply_line <$> l)) = (λ v, raw (json_text v)) <$> l.
Proof.
  induction l as [|v l IH]; [done|]. change (mjoin (reply_line <$> v :: l)) with ((raw (json_text v) ++ ["010"%char]) ++ mjoin (reply_line <$> l)).
  rewrite <- app_assoc. cbn [app].
  rewrite split_lines_line; [by rewrite IH|]. apply has_byte_raw, json_one_line.
Qed.

(** C11: A session of the MCP server that is not cancelled, on lines below the
    scanner's limit, goes through to the end of its input without an error and
    answers in order.  Exactly the lines that hold a JSON object with members
    of the right types, and in it either one of the methods the server has or
    any other method with an id (the initialized notification aside), get one
    reply each, with the id of the request: the method's result, a result or
    an error of a tool, or that there is no such method.  Standard output
    holds the line of each reply, or, where the call that writes it fails, what
    that call let through; without failures it is one line per reply.  Other
    lines, a message with an id and a wrongly typed member among them, get no
    reply.  Serving changes no file, table or log: at most a directory is
    made. *)
Theorem mcp_answers_in_order `{YL : YAML} `{JX : JSONSyntax} `{JT : JSONText} `{JL : !JSONTextLaws}
    (ModTime : string → option Time) (i : nat) (configPath : string) (input : bytes) (h : Host) :
  Forall (λ l, (Z.of_nat (length l) < scanner_limit)%Z) (split_lines [] input) →
  runs i (Serve ModTime (λ _, None) configPath input None) (λ r h',
    snd r = None ∧ adds_dirs (host_world h) (host_world h') ∧
    ∃ replies chunks, Forall2 is_reply (omap request_of (split_lines [] input)) replies ∧
      fst r = mjoin chunks ∧ Forall2 (wrote (w_env (host_world h))) chunks replies ∧
      (no_faults (w_env (host_world h)) → split_lines [] (fst r) = (λ v, raw (json_text v)) <$> replies)) h.
Proof.
  intros Hl. eapply runs_mono; [|by apply serve_replies]. intros [out e] h' (-> & Hd & replies & chunks & R1 & R2 & E).
  split_and!; [done..|]. exists replies, chunks. split_and!; [done..|]. intros Hf. cbn [fst app] in *.
  assert (chunks = reply_line <$> replies) as -> by (clear -R2 Hf; induction R2 as [|c v cs vs Hc _ IH]; [done|]; rewrite fmap_cons, (wrote_all _ _ _ Hf Hc); by f_equal).
  rewrite E. apply split_replies.
Qed.

(** ** What the queue tools count *)

Section Counts.
Context `{YL : YAML} `{JX : JSONSyntax} `{JT : JSONText}.
Variables (ModTime : string → option Time) (i : nat).
Hypothesis HM : ∀ p t, ModTime p = Some t → IsZero t = false.

(** The files of a directory, as [Info] is asked about them. *)
Definition files_in (fs : gmap string node) (dir : string) : list string :=
  match fs !! Clean dir with
  | Some NDir => omap (λ e, match snd e with NFile _ => Some (path_Join [dir; Base (fst e)]) | NDir => None end) (children fs dir)
  | _ => []
  end.
(** The queues of the endpoints that have one, in the repositories of the tool. *)
Definition queues_of (sub tool : string) (kinds : EndpointConfig → list string) (repos : list RepoConfig) : list string :=
  repos ≫= λ repo, if of_tool tool repo
    then (λ ep, path_Join [rc_Path repo; epc_Dir ep; sub]) <$> List.filter (λ ep, negb (bool_decide (kinds ep = []))) (rc_Endpoints repo)
    else [].
(** The least of the times, or zero when there is none. *)
Definition is_oldest (t : Time) (ts : list Time) : Prop := (ts = [] ∧ t = 0%Z) ∨ (t ∈ ts ∧ ∀ u, u ∈ ts → (t ≤ u)%Z).
Definition counts (files : list string) (s : nat * Time) : Prop := fst s = length files ∧ is_oldest (snd s) (omap ModTime files).

Lemma oldest_zero t (ts : list Time) : is_oldest t ts → (∀ u, u ∈ ts → IsZero u = false) → IsZero t = true → ts = [] ∧ t = 0%Z.
Proof. intros [?|[Ht _]] Hz E; [done|]. by rewrite Hz in E. Qed.
Lemma oldest_join t1 t2 (ts1 ts2 : list Time) :
  (∀ u, u ∈ ts1 → IsZero u = false) → (∀ u, u ∈ ts2 → IsZero u = false) → is_oldest t1 ts1 → is_oldest t2 ts2 →
  is_oldest (if negb (IsZero t2) && (IsZero t1 || (t2 <? t1)%Z) then t2 else t1) (ts1 ++ ts2).
Proof.
  intros Z1 Z2 H1 H2. destruct (IsZero t2) eqn:E2; cbn [negb andb].
  { destruct (oldest_zero _ _ H2 Z2 E2) as [-> ->]. by rewrite app_nil_r. }
  destruct (IsZero t1) eqn:E1; cbn [orb].
  { by destruct (oldest_zero _ _ H1 Z1 E1) as [-> ->]. }
  destruct H1 as [[-> ->]|[M1 L1]]; [done|]. destruct H2 as [[-> ->]|[M2 L2]]; [done|]. right.
  destruct (Z.ltb_spec t2 t1); (split; [set_solver|intros u [Hu|Hu]%elem_of_app]).
  - specialize (L1 u Hu). lia.
  - by apply L2.
  - by apply L1.
  - specialize (L2 u Hu). lia.
Qed.
Lemma oldest_perm t (ts ts' : list Time) : ts ≡ₚ ts' → is_oldest t ts → is_oldest t ts'.
Proof.
  intros Hp [[-> ->]|[M L]]; [left; split; [by apply Permutation_nil|done]|]. right. split; [by rewrite <- Hp|]. intros u. rewrite <- Hp. apply L.
Qed.
Lemma mtimes_real (files : list string) u : u ∈ omap ModTime files → IsZero u = false.
Proof. intros (p & _ & E)%list_elem_of_omap. by apply (HM p). Qed.

Definition file_entry (dir : string) (e : string * bool) : option string := if snd e then None else Some (path_Join [dir; fst e]).
Lemma scan_entries_count dir entries files s :
  counts files s → counts (files ++ omap (file_entry dir) entries) (fold_left (scan_entry ModTime dir) entries s).
Proof using HM.
  revert files s. induction entries as [|[name d] entries IH]; intros files [n t] [Hn Ht]; cbn [fst snd] in *.
  { cbn. by rewrite app_nil_r. }
  cbn [fold_left]. unfold scan_entry at 2. cbn [snd fst]. destruct d; [by apply IH|].
  change (omap (file_entry dir) ((name, false) :: entries)) with ([path_Join [dir; name]] ++ omap (file_entry dir) entries).
  rewrite app_assoc. apply IH. unfold counts. rewrite length_app, omap_app. cbn [omap list_omap].
  destruct (ModTime (path_Join [dir; name])) as [mt|] eqn:E; cbn [fst snd length]; (split; [lia|]).
  - pose proof (HM _ _ E) as Hz. pose proof (oldest_join t mt (omap ModTime files) [mt]) as HJ. rewrite Hz in HJ. cbn [negb andb] in HJ.
    apply HJ; [apply mtimes_real|intros u ->%list_elem_of_singleton; done|done|]. right. split; [by left|]. intros u ->%list_elem_of_singleton. lia.
  - by rewrite app_nil_r.
Qed.

Lemma counts_perm files files' s : files ≡ₚ files' → counts files s → counts files' s.
Proof. intros Hp [Hn Ht]. split; [by rewrite <- Hp|]. eapply oldest_perm; [|exact Ht]. by rewrite Hp. Qed.
Lemma counts_nil : counts [] (0, 0%Z).
Proof. split; [done|by left]. Qed.

(** Without failures the tools see the files as they are. *)
Lemma tells_scan dir w : tells i (scanDirDepth ModTime dir) (counts (files_in (w_fs w) dir)) w.
Proof using HM.
  intros He. unfold scanDirDepth. apply runs_bind, runs_atom. unfold os_ReadDir, guarded, fault. rewrite He. unfold lookup_path, files_in.
  change (w_fs (bump w)) with (w_fs w).
  destruct (w_fs w !! Clean dir) as [[b|]|]; (apply runs_ret; split; [by destruct w|]); [apply counts_nil| |apply counts_nil].
  cbn [fst]. eapply counts_perm; [|apply (scan_entries_count dir _ []), counts_nil]. cbn [app]. rewrite merge_sort_Permutation.
  apply reflexive_eq. induction (children (w_fs w) dir) as [|[p [b|]] l IH]; [done|exact (f_equal (cons _) IH)|exact IH].
Qed.

(** What has been counted over a list of queues. *)
Definition gathered (fs : gmap string node) (dirs : list string) (s : depths) : Prop :=
  dp_endpoints s = length dirs ∧ counts (dirs ≫= files_in fs) (dp_total s, dp_oldest s).
Lemma gathered_add fs dirs dir s d :
  gathered fs dirs s → counts (files_in fs dir) d → gathered fs (dirs ++ [dir]) (add_depth s d).
Proof using HM.
  intros [He [Hn Ht]] [Hd Ho]. unfold gathered, add_depth. rewrite length_app, bind_app. cbn [dp_endpoints dp_total dp_oldest fst snd length] in *.
  change ([dir] ≫= files_in fs) with (files_in fs dir ++ []). rewrite app_nil_r. split; [lia|]. split; cbn [fst snd].
  - rewrite length_app. lia.
  - rewrite omap_app. apply oldest_join; [apply mtimes_real|apply mtimes_real|exact Ht|exact Ho].
Qed.

Lemma tells_bind {A B} (p : program A) (k : A → program B) P Q w :
  tells i p P w → (∀ a v, tick_only w v → P a → tells i (k a) Q v) → tells i (p ≫= k) Q w.
Proof.
  intros Hp Hk He. apply runs_bind. eapply runs_mono; [|by apply Hp]. intros a v [Hv Ha].
  eapply runs_mono; [|apply (Hk a v Hv Ha); by rewrite (proj1 (tick_env _ _ Hv))]. intros b u [Hu Hb]. split; [by eapply tick_only_trans|done].
Qed.
Lemma tells_ret {A} (a : A) (P : A → Prop) w : P a → tells i (mret a : program A) P w.
Proof. intros HP He. apply runs_ret. split; [apply tick_only_refl|done]. Qed.
Lemma tick_fs w v : tick_only w v → w_fs v = w_fs w.
Proof. intros Hv. apply (tick_env _ _ Hv). Qed.

Lemma tells_endpoints sub kinds repo eps dirs s w :
  gathered (w_fs w) dirs s →
  tells i (endpoint_depths ModTime sub kinds repo eps s)
    (gathered (w_fs w) (dirs ++ ((λ ep, path_Join [repo; epc_Dir ep; sub]) <$> List.filter (λ ep, negb (bool_decide (kinds ep = []))) eps))) w.
Proof using HM.
  revert dirs s w. induction eps as [|ep eps IH]; intros dirs s w Hs; cbn [endpoint_depths List.filter].
  { apply tells_ret. cbn. by rewrite app_nil_r. }
  case_bool_decide; cbn [negb]; [by apply IH|]. eapply tells_bind; [apply tells_scan|]. intros d v Hv Hd.
  rewrite <- (tick_fs _ _ Hv) in *. rewrite fmap_cons, cons_middle, app_assoc. apply IH. by apply gathered_add.
Qed.
Lemma tells_queues sub tool kinds repos dirs s w :
  gathered (w_fs w) dirs s →
  tells i (queue_depths ModTime sub tool kinds repos s) (gathered (w_fs w) (dirs ++ queues_of sub tool kinds repos)) w.
Proof using HM.
  revert dirs s w. induction repos as [|repo repos IH]; intros dirs s w Hs; cbn [queue_depths].
  { apply tells_ret. cbn. by rewrite app_nil_r. }
  unfold queues_of. rewrite bind_cons, app_assoc. destruct (of_tool tool repo); [|rewrite app_nil_r; by apply IH].
  eapply tells_bind; [by apply tells_endpoints|]. intros s' v Hv Hs'. rewrite <- (tick_fs _ _ Hv) in *. by apply IH.
Qed.
Lemma tells_age t w : tells i (age_of t) (λ age, age = 0%Z ∧ t = 0%Z ∨ ∃ n, age = trunc (Seconds (Sub (env_now (w_env w) n) t))) w.
Proof.
  unfold age_of. destruct (IsZero t) eqn:E; [apply tells_ret; left; split; [done|]; by apply Z.eqb_eq|].
  intros He. apply runs_bind, runs_atom. apply runs_ret. split; [by destruct w|]. right. by eexists.
Qed.
End Counts.

Lemma tells_config `{YL : YAML} i path w : tells i (LoadConfig path) (eq (fst (run i (LoadConfig path) w))) w.
Proof.
  intros _. split; [|done]. apply (acts_run tick_only). unfold LoadConfig.
  repeat first [exact I | by (apply acts_atom; intros; apply tick_ReadFile) | apply acts_bind; [|intros ?] | case_match].
Qed.
Lemma sees_dead_letters stateDir i (Q : result nat → Host → Prop) w l h :
  no_faults (w_env w) → sees i w l h →
  (match w_fs w !! Clean (path_Join [stateDir; ".run"; "delivery.db"]) with
   | Some _ => w_fs w !! Clean (path_Join [stateDir; ".run"]) = Some NDir
   | None => List.filter Staged.dead_letter (w_staged w) = []
   end) →
  (∀ h', sees i w l h' → Q (Ok (length (List.filter Staged.dead_letter (w_staged w)))) h') →
  runs i (loadDeadLetterCount stateDir) Q h.
Proof.
  intros He Hw Hdb HQ. unfold loadDeadLetterCount. apply runs_bind.
  eapply (sees_world i _ (λ st, not_exist st = bool_decide (w_fs w !! Clean (path_Join [stateDir; ".run"; "delivery.db"]) = None))); [done|exact Hw| |].
  { intros v Hv Hf. apply runs_atom. unfold os_Stat, guarded, fault. rewrite Hf. unfold lookup_path. change (w_fs (bump v)) with (w_fs v).
    rewrite (tick_fs _ _ Hv). destruct (w_fs w !! _); (split; [by destruct v|done]). }
  intros st h1 -> H1. destruct (w_fs w !! Clean (path_Join [stateDir; ".run"; "delivery.db"])) eqn:E.
  2: { rewrite bool_decide_true by done. apply runs_ret. rewrite Hdb in HQ. by apply HQ. }
  rewrite bool_decide_false by done. apply runs_bind. eapply sees_db; [done|exact Hdb|exact H1|]. intros h2 H2.
  apply runs_bind. eapply (sees_world i _ (eq (Ok (length (List.filter Staged.dead_letter (w_staged w)))))); [done|exact H2| |].
  { intros v Hv Hf. apply runs_atom. unfold Staged.DeadLetterCount, guarded, fault. rewrite Hf. split; [by destruct v|]. by rewrite Hv. }
  intros c h3 <- [H3 H4]. apply runs_bind. apply runs_atom_by. apply runs_ret. apply HQ. split; [exact H3|].
  unfold own in *. cbn [snd]. unfold set_open. cbn [h_open]. rewrite own_in_drop, bool_decide_true, H4 by done. cbn [drop_one]. by rewrite bool_decide_true.
Qed.

(** C12: Without failures the queue tools report what is there: the number of
    outboxes (inboxes) of the endpoints that produce (consume) something in the
    repositories whose path contains the tool's name, the number of files in
    them, the age of the oldest in whole seconds, and for the outboxes the dead
    letters of the delivery table and the counts of the delivery log.  The
    database is closed again. *)
Theorem queue_tools_count_files `{YL : YAML} `{JX : JSONSyntax} `{JT : JSONText} (ModTime : string → option Time) (i : nat)
    (configPath : string) (args : option json) (cfg : Config) (h : Host) :
  let w := host_world h in
  let tool := payload_tool args in
  let outboxes := queues_of "outbox" tool epc_Produces (cfg_Repositories cfg) in
  let inboxes := queues_of "inbox" tool epc_Consumes (cfg_Repositories cfg) in
  let files dirs := dirs ≫= files_in (w_fs w) in
  let aged t age := age = 0%Z ∧ t = 0%Z ∨ ∃ n, age = trunc (Seconds (Sub (env_now (w_env w) n) t)) in
  (∀ p t, ModTime p = Some t → IsZero t = false) → no_faults (w_env w) →
  configPath ≠ "" → fst (run i (LoadConfig configPath) w) = Ok cfg →
  (match w_fs w !! Clean (path_Join [Dir configPath; ".run"; "delivery.db"]) with
   | Some _ => w_fs w !! Clean (path_Join [Dir configPath; ".run"]) = Some NDir
   | None => List.filter Staged.dead_letter (w_staged w) = []
   end) →
  runs i (realOutboxStatus ModTime configPath args) (λ r h', own i h' = own i h ∧
    ∃ t age v, is_oldest t (omap ModTime (files outboxes)) ∧ aged t age ∧ tick_only w v ∧
      let stats := fst (ParseDeliveryStats v) in
      r = jsonResult (JObj [jnat "dead_letter_count" (length (List.filter Staged.dead_letter (w_staged w)));
        jint "delivered_24h" (st_Delivered stats); jnat "endpoint_count" (length outboxes); jint "failed_24h" (st_Failed stats);
        ("initialized", JBool true); jint "oldest_age_seconds" age; jint "retried_24h" (st_Retried stats);
        jstr "tool" tool; jnat "total_depth" (length (files outboxes))])) h ∧
  runs i (realInboxStatus ModTime configPath args) (λ r h',
    ∃ t age, is_oldest t (omap ModTime (files inboxes)) ∧ aged t age ∧
      r = jsonResult (JObj [jnat "endpoint_count" (length inboxes); ("initialized", JBool true);
        jint "oldest_age_seconds" age; jstr "tool" tool; jnat "total_depth" (length (files inboxes))])) h.
Proof.
  intros w tool outboxes inboxes files aged HM He Hp Hc Hdb.
  assert (sees i w (own i h) h) as G0 by (split; [apply tick_only_refl|done]).
  assert (∀ kinds sub v, tick_only w v →
    tells i (queue_depths ModTime sub tool kinds (cfg_Repositories cfg) no_depths)
      (gathered ModTime (w_fs w) (queues_of sub tool kinds (cfg_Repositories cfg))) v) as Hq.
  { intros kinds sub v Hv. rewrite <- (tick_fs _ _ Hv). apply (tells_queues ModTime i HM sub tool kinds (cfg_Repositories cfg) []).
    split; [done|apply counts_nil]. }
  assert (∀ t v, tick_only w v → tells i (age_of t) (aged t) v) as Ha.
  { intros t v Hv. unfold aged. rewrite <- (proj1 (tick_env _ _ Hv)). apply tells_age. }
  split.
  - unfold realOutboxStatus. rewrite bool_decide_false by done. apply runs_bind.
    eapply (tells_on_world i _ (eq (Ok cfg))); [done|rewrite <- Hc; apply tells_config|]. intros c h1 <- H1 O1.
    assert (sees i w (own i h) h1) as G1 by (split; [done|unfold own; by rewrite O1]). apply runs_bind.
    eapply sees_world; [done|exact G1|apply Hq|]. intros s h2 [Hn [Hf Ho]] G2. apply runs_bind.
    eapply sees_dead_letters; [done|exact G2|exact Hdb|]. intros h3 G3. apply runs_bind.
    eapply sees_world; [done|exact G3|apply Ha|]. intros age h4 Hage G4. apply runs_bind.
    eapply (sees_world i _ (λ st, ∃ v, tick_only w v ∧ st = fst (ParseDeliveryStats v))); [done|exact G4| |].
    { intros v Hv Hf'. apply runs_atom. split; [apply tick_stats|]. by exists v. }
    intros st h5 (v & Hv & ->) G5. apply runs_ret. split; [apply G5|]. exists (dp_oldest s), age, v.
    split_and!; [exact Ho|exact Hage|exact Hv|]. cbn zeta. cbn [fst] in Hf. by rewrite Hn, Hf.
  - unfold realInboxStatus. rewrite bool_decide_false by done. apply runs_bind.
    eapply (tells_on_world i _ (eq (Ok cfg))); [done|rewrite <- Hc; apply tells_config|]. intros c h1 <- H1 O1.
    assert (sees i w (own i h) h1) as G1 by (split; [done|unfold own; by rewrite O1]). apply runs_bind.
    eapply sees_world; [done|exact G1|apply Hq|]. intros s h2 [Hn [Hf Ho]] G2. apply runs_bind.
    eapply sees_world; [done|exact G2|apply Ha|]. intros age h4 Hage G4. apply runs_ret. exists (dp_oldest s), age.
    split_and!; [exact Ho|exact Hage|]. cbn [fst] in Hf. by rewrite Hn, Hf.
Qed.

(** ** Samples *)

(** A printer of compact JSON; a newline in a text is dropped. *)
Definition one_line (s : string) : string := str (List.filter (λ c, negb (bool_decide (c = "010"%char))) (raw s)).
Definition quoted (s : string) : string := dq +:+ s +:+ dq.
Fixpoint print_json (v : json) : string :=
  match v with
  | JNull => "null"
  | JBool b => if b then "true" else "false"
  | JNum lit => lit
  | JStr s => quoted s
  | JArr l => "[" +:+ String.concat "," (map print_json l) +:+ "]"
  | JObj ms => "{" +:+ String.concat "," (map (λ m, quoted (fst m) +:+ ":" +:+ print_json (snd m)) ms) +:+ "}"
  end.
Definition sample_text : JSONText := {| json_text := λ v, one_line (print_json v); json_float := λ _, true |}.
Lemma mcp_text_laws : @JSONTextLaws sample_text.
Proof.
  constructor. intros v. apply has_byte_raw. cbn [json_text sample_text]. unfold one_line. rewrite list_ascii_of_string_of_list_ascii.
  intros [_ H]%list_elem_of_In%filter_In. by rewrite bool_decide_true in H.
Qed.
(** Three messages: a handshake, its notification, and a call with a bad tool. *)
Definition mcp_syntax : JSONSyntax := {| json_ast := λ data,
  if bool_decide (data = raw "initialize") then Some (JObj [("id", JNum "1"); ("method", JStr "initialize")])
  else if bool_decide (data = raw "initialized") then Some (JObj [("method", JStr "notifications/initialized")])
  else if bool_decide (data = raw "call") then
    Some (JObj [("ID", JStr "a"); ("method", JStr "tools/call"); ("params", JObj [("name", JStr "deliver")])])
  else None |}.
Definition newline_separated (l : list string) : bytes := mjoin ((λ s, raw s ++ ["010"%char]) <$> l).
Definition mcp_input : bytes := newline_separated ["initialize"; "initialized"; ""; "not json"; "call"].

Lemma mcp_input_fits : Forall (λ l, (Z.of_nat (length l) < scanner_limit)%Z) (split_lines [] mcp_input).
Proof. apply (bool_decide_unpack _). vm_compute. done. Qed.

Lemma mcp_answers_in_order_witness :
  runs 0 (Serve (YL := sample_YAML) (JX := mcp_syntax) (JT := sample_text) (λ _, None) (λ _, None) "/p/.phonewave/config.yaml" mcp_input None)
    (λ r _, snd r = None ∧ ∃ v1 v2 msg1 msg2, jm_ID msg1 = Some (JNum "1") ∧ jm_ID msg2 = Some (JStr "a") ∧
       is_reply msg1 v1 ∧ is_reply msg2 v2 ∧
       split_lines [] (fst r) = (λ v, raw (json_text (JSONText := sample_text) v)) <$> [v1; v2]) status_host.
Proof.
  eapply runs_mono; [|apply (mcp_answers_in_order (YL := sample_YAML) (JX := mcp_syntax) (JT := sample_text) (JL := mcp_text_laws)
    (λ _, None) 0 "/p/.phonewave/config.yaml" mcp_input status_host mcp_input_fits)].
  intros r h' (E & _ & replies & chunks & R & _ & _ & L). split; [exact E|].
  match type of R with Forall2 _ ?l _ =>
    assert (l = [mkMessage "" (Some (JNum "1")) "initialize" None;
                 mkMessage "" (Some (JStr "a")) "tools/call" (Some (JObj [("name", JStr "deliver")]))]) as El by (vm_compute; reflexivity) end.
  rewrite El in R. apply Forall2_cons_inv_l in R as (v1 & l1 & R1 & R & ->). apply Forall2_cons_inv_l in R as (v2 & l2 & R2 & R & ->).
  apply Forall2_nil_inv_l in R as ->. exists v1, v2. eexists _, _. split_and!; [| |exact R1|exact R2|apply L; by intros n]; reflexivity.
Defined.

(** A configuration with one endpoint, whose outbox holds two files. *)
Definition mcp_YAML : YAML := {|
  yaml_manifest := @yaml_manifest sample_YAML; yaml_resolved := @yaml_resolved sample_YAML; yaml_config := λ _, Ok siren_config;
  yaml_state := @yaml_state sample_YAML; yaml_time := @yaml_time sample_YAML |}.
Definition mcp_host : Host :=
  mkHost (mkStore (set_fs {["/p/.phonewave/config.yaml" := NFile []; "/p/.phonewave/.run" := NDir; "/r/.siren/outbox" := NDir;
    "/r/.siren/outbox/a.md" := NFile []; "/r/.siren/outbox/b.md" := NFile []]} status_world) 1) (λ _, 0) ∅ [] [].

Lemma queue_tools_count_files_witness :
  runs 0 (realOutboxStatus (YL := mcp_YAML) (JT := sample_text) (λ _, Some day_start) "/p/.phonewave/config.yaml" (Some (JObj [("tool", JStr "r")])))
    (λ r _, ∃ members, r = jsonResult (JT := sample_text) (JObj members) ∧ jnat "total_depth" 2 ∈ members ∧ jnat "endpoint_count" 1 ∈ members) mcp_host.
Proof.
  destruct (queue_tools_count_files (YL := mcp_YAML) (JX := mcp_syntax) (JT := sample_text) (λ _, Some day_start) 0 "/p/.phonewave/config.yaml"
    (Some (JObj [("tool", JStr "r")])) (UpdateRoutes siren_config) mcp_host) as [HO _];
    [by intros _ _ [= <-]|by intros n|done|vm_compute; reflexivity|vm_compute; reflexivity|].
  change (payload_tool (Some (JObj [("tool", JStr "r")]))) with "r" in HO.
  assert (length (queues_of "outbox" "r" epc_Produces (cfg_Repositories (UpdateRoutes siren_config))) = 1) as E1 by (vm_compute; reflexivity).
  assert (length (queues_of "outbox" "r" epc_Produces (cfg_Repositories (UpdateRoutes siren_config)) ≫= files_in (w_fs (host_world mcp_host))) = 2)
    as E2 by (vm_compute; reflexivity).
  eapply runs_mono; [|exact HO]. cbn beta. rewrite E1, E2. intros r h' (_ & t & age & v & _ & _ & _ & ->). eexists. split; [reflexivity|].
  split; repeat first [left; reflexivity|right].
Defined.

(** The filter of a tool is its name anywhere in the path of the repository:
    in a repository that several tools share, the queues of all are counted
    for none, and those of all for a tool that is named in the path. *)
Example tool_is_not_the_endpoint :
  of_tool "sightjack" (mkRepo "/home/u/app" [mkEndpointConfig ".siren" ["specification"] []]) = false ∧
  of_tool "paintress" (mkRepo "/home/u/paintress-demo" [mkEndpointConfig ".siren" ["specification"] []]) = true.
Proof. by vm_compute. Qed.
