(* ===== verification/ArchiveIndex.v ===== *)
(** * The archive index

    Models [session/archive_index.go]: what is taken from a Markdown file, the
    rebuild of the index from the four directories, and appending to it.  The
    three regular expressions are matchers for their leftmost match.  The
    text of an entry, and the modification time of a file, are parameters; a
    file is read by one action, and a directory that cannot be read has no
    entries. *)
From S2P Require Import Prelude GoStrings GoPath GoTime DMail Prog World DeliverSafety SetupSafety Setup Files EventStore Insight Cutover Wiring Status.

#[local] Open Scope nat_scope.

(** ** Texts *)

Definition maxSummaryLen : nat := 100.
Definition truncate (s : string) (max : nat) : string := if slen s <=? max then s else substring 0 max s.
Definition is_fence (line : string) : bool := bool_decide (TrimSpace line = "---").

(** The loop of [ExtractSummary] over the lines. *)
Fixpoint summary_loop (lines : list string) (firstLine inFrontmatter : bool) (fallback : string) : string :=
  match lines with
  | [] => truncate fallback maxSummaryLen
  | line :: lines =>
      if firstLine && is_fence line then summary_loop lines false true fallback
      else if inFrontmatter then summary_loop lines false (negb (is_fence line)) fallback
      else
        let trimmed := TrimSpace line in
        if bool_decide (trimmed = "") then summary_loop lines false false fallback
        else if HasPrefix trimmed "# " then truncate (TrimPrefix trimmed "# ") maxSummaryLen
        else summary_loop lines false false (if bool_decide (fallback = "") then trimmed else fallback)
  end.
Definition summary_of (data : bytes) : string := summary_loop (scanned (split_lines [] data)) true false "".

(** The leftmost place at which [m] matches. *)
Fixpoint find_match {A} (m : bytes → option A) (s : bytes) : option A :=
  match m s with
  | Some a => Some a
  | None => match s with [] => None | _ :: r => find_match m r end
  end.
Fixpoint span_while (p : ascii → bool) (s : bytes) : bytes * bytes :=
  match s with
  | [] => ([], [])
  | c :: r => if p c then let '(a, b) := span_while p r in (c :: a, b) else ([], s)
  end.
Definition is_digit (c : ascii) : bool := bool_decide (is_Some (digit c)).
Definition is_upper (c : ascii) : bool := ((65 <=? byte_val c) && (byte_val c <=? 90))%Z.
(** The class \s of the regular expressions. *)
Definition is_blank (c : ascii) : bool := existsb (Ascii.eqb c) ["009"; "010"; "012"; "013"; " "]%char.

(** The prefix of that shape, where 0 stands for any digit, and the rest. *)
Fixpoint shaped (shape s : bytes) : option (bytes * bytes) :=
  match shape, s with
  | [], _ => Some ([], s)
  | p :: shape, c :: s =>
      if (if bool_decide (p = "0"%char) then is_digit c else bool_decide (c = p))
      then match shaped shape s with Some (a, b) => Some (c :: a, b) | None => None end else None
  | _ :: _, [] => None
  end.
Definition date_shape : bytes := raw "0000-00-00".
Definition time_shape : bytes := raw "00:00:00".

(** [issueIDRe] *)
Definition issue_at (s : bytes) : option string :=
  match span_while is_upper s with
  | ((_ :: _) as u, "-"%char :: r) =>
      match span_while is_digit r with
      | ((_ :: _) as d, _) => Some (str (u ++ "-"%char :: d))
      | _ => None
      end
  | _ => None
  end.
(** [statusRe] *)
Definition status_at (s : bytes) : option string :=
  match strip (raw "**Status**:") s with
  | None => None
  | Some r =>
      let r := str (snd (span_while is_blank r)) in
      find (λ word, HasPrefix r word) ["success"; "failed"; "skipped"]
  end.
(** [dateRe] and the date alone. *)
Definition date_time_at (s : bytes) : option (string * string) :=
  match shaped date_shape s with
  | Some (d, sep :: r) =>
      if bool_decide (sep = "T"%char) || bool_decide (sep = " "%char)
      then match shaped time_shape r with Some (t, _) => Some (str d, str t) | None => None end else None
  | _ => None
  end.
Definition date_at (s : bytes) : option string := option_map (λ m, str (fst m)) (shaped date_shape s).

Definition normalizeToRFC3339 (s : string) : string :=
  match shaped date_shape (raw s) with Some (_, []) => s +:+ "T00:00:00Z" | _ => s end.

(** [strings.Trim], of both kinds of quotes. *)
Definition is_quote (c : ascii) : bool := bool_decide (c = "034"%char) || bool_decide (c = "'"%char).
Definition trim_quotes (s : string) : string :=
  let left s := snd (span_while is_quote s) in str (reverse (left (reverse (left (raw s))))).
(** The value of a line of the frontmatter, if it has that key. *)
Definition field_value (key line : string) : option string :=
  if HasPrefix line key then Some (trim_quotes (TrimSpace (TrimPrefix line key))) else None.
Definition filled_value (v : option string) : option string :=
  match v with Some v => if bool_decide (v = "") then None else Some v | None => None end.
Fixpoint frontmatter_stamp (lines : list string) : option string :=
  match lines with
  | [] => None
  | line :: lines =>
      if is_fence line then None else
      let trimmed := TrimSpace line in
      match filled_value (field_value "updated_at:" trimmed) with
      | Some v => Some v
      | None =>
          match filled_value (field_value "date:" trimmed) with
          | Some v => Some (normalizeToRFC3339 v)
          | None => frontmatter_stamp lines
          end
      end
  end.
Fixpoint body_stamp (lines : list string) : option string :=
  match lines with
  | [] => None
  | line :: lines =>
      match (if Contains line "**Date**:" then find_match date_time_at (raw line) else None) with
      | Some (d, t) => Some (d +:+ "T" +:+ t +:+ "Z")
      | None => body_stamp lines
      end
  end.
(** [extractTimestamp] up to the modification time. *)
Definition stamp_in (filePath content : string) : option string :=
  let lines := Split content "010" in
  let inFM := match lines with line :: _ => is_fence line | [] => false end in
  match (if inFM then frontmatter_stamp (List.tl lines) else None) with
  | Some v => Some v
  | None =>
      match body_stamp lines with
      | Some v => Some v
      | None => option_map (λ d, d +:+ "T00:00:00Z") (find_match date_at (raw (Base filePath)))
      end
  end.

Definition opFromTool (tool : string) : string :=
  if bool_decide (tool = "paintress") then "expedition"
  else if bool_decide (tool = "amadeus") then "divergence"
  else if bool_decide (tool = "sightjack") then "wave"
  else if bool_decide (tool = "phonewave") then "dmail" else "".

Record IndexEntry := mkIndexEntry {
  ie_Timestamp : string; ie_Operation : string; ie_Issue : string; ie_Status : string; ie_Tool : string; ie_Path : string; ie_Summary : string }.
#[export] Instance IndexEntry_eq_dec : EqDecision IndexEntry.
Proof. solve_decision. Defined.
Class EntryText := { entry_json : IndexEntry → bytes }.

Definition relative (stateDir filePath : string) : string :=
  match Rel stateDir filePath with Ok p => p | Err _ => filePath end.
Definition operation_of (relPath tool : string) : string :=
  let firstSeg := match IndexByte relPath "/" with Some i => substring 0 i relPath | None => relPath end in
  if bool_decide (firstSeg = "archive") then "dmail" else opFromTool tool.

Section Index.
Context `{ET : EntryText}.
Variable ModTime : string → option Time.
Variables (stateDir tool : string).

(** ** One file *)

Definition ExtractSummary (filePath : string) : program string :=
  r ← atom (os_ReadFile filePath);
  mret (match r with Err _ => "" | Ok data => summary_of data end).

Definition extractTimestamp (filePath content : string) : program string :=
  match stamp_in filePath content with
  | Some v => mret v
  | None =>
      st ← atom (os_Stat filePath);
      match (match st with Ok _ => ModTime filePath | Err _ => None end) with
      | Some t => mret (format_rfc3339 t)
      | None => now ← atom Now; mret (format_rfc3339 now)
      end
  end.

Definition ExtractMeta (filePath : string) : program IndexEntry :=
  let relPath := relative stateDir filePath in
  summary ← ExtractSummary filePath;
  let op := operation_of relPath tool in
  r ← atom (os_ReadFile filePath);
  match r with
  | Err _ => mret (mkIndexEntry "" op "" "" tool relPath summary)
  | Ok data =>
      ts ← extractTimestamp filePath (str data);
      mret (mkIndexEntry ts op (default "" (find_match issue_at data)) (default "unknown" (find_match status_at data))
              tool relPath summary)
  end.

(** ** The walk *)

Fixpoint for_entries {A B} (f : A → program (list B)) (l : list A) : program (list B) :=
  match l with
  | [] => mret []
  | a :: l => x ← f a; xs ← for_entries f l; mret (x ++ xs)
  end.
(** [filepath.WalkDir] with the function of [Rebuild], from a path that is a
    directory or not; [fuel] bounds the depth. *)
Fixpoint walk (fuel : nat) (path : string) (isDir : bool) : program (list IndexEntry) :=
  match fuel with
  | O => mret []
  | S n =>
      if isDir then
        r ← atom (os_ReadDir path);
        match r with
        | Err _ => mret []
        | Ok entries => for_entries (λ e, walk n (path_Join [path; fst e]) (snd e)) entries
        end
      else if bool_decide (Ext path = ".md") then m ← ExtractMeta path; mret [m] else mret []
  end.
(** No path has more parents than bytes. *)
Definition walk_fuel (fs : gmap string node) : nat := S (list_max ((λ e, slen (fst e)) <$> map_to_list fs)).
Definition os_Lstat (p : string) : act (result bool) := guarded "" (λ w,
  match lookup_path w p with
  | Some n => (Ok (match n with NDir => true | NFile _ => false end), w)
  | None => (Err (enoent "lstat" p), w)
  end).
Definition WalkDir (root : string) : program (list IndexEntry) :=
  d ← atom (os_Lstat root);
  match d with
  | Err _ => mret []
  | Ok isDir => fuel ← atom (λ w, (walk_fuel (w_fs w), w)); walk fuel root isDir
  end.

(** ** The index file *)

Definition indexDirs : list string := ["archive"; "journal"; "journals"; "insights"].
Definition index_text (entries : list IndexEntry) : bytes := mjoin ((λ e, entry_json e ++ ["010"%char]) <$> entries).

(** Opening the lock file and waiting for its lock. *)
Definition index_lock (indexPath : string) : program (option error) :=
  let lockPath := indexPath +:+ ".lock" in
  o ← atom (os_OpenAppend lockPath);
  match o with
  | Err err => mret (Some (errorf_w "open lock: " err))
  | Ok _ => l ← atom (guarded "" (λ w, (Ok tt, w))); mret (match l with Err err => Some (errorf_w "flock: " err) | Ok _ => None end)
  end.

Definition index_sub (sub : string) : program (list IndexEntry) :=
  let dir := path_Join [stateDir; sub] in
  st ← atom (os_Stat dir);
  match st with Err _ => mret [] | Ok _ => WalkDir dir end.

Definition write_index (indexPath : string) (entries : list IndexEntry) : program (result nat) :=
  let tmpPath := indexPath +:+ ".tmp" in
  r ← os_WriteFile tmpPath (index_text entries);
  match r with
  | Err err => mret (Err (errorf_w "write tmp: " err))
  | Ok _ =>
      r ← atom (os_Rename tmpPath indexPath);
      mret (match r with Err err => Err (errorf_w "rename: " err) | Ok _ => Ok (length entries) end)
  end.

Definition Rebuild (indexPath : string) : program (result nat) :=
  r ← atom (os_MkdirAll (Dir indexPath));
  match r with
  | Err err => mret (Err (errorf_w "mkdir index dir: " err))
  | Ok _ =>
      e ← index_lock indexPath;
      match e with
      | Some err => mret (Err err)
      | None => entries ← for_entries index_sub indexDirs; write_index indexPath entries
      end
  end.

Definition IndexWriter_Append (indexPath : string) (entries : list IndexEntry) : program (option error) :=
  if bool_decide (entries = []) then mret None else
  e ← index_lock indexPath;
  match e with
  | Some err => mret (Some err)
  | None =>
      o ← atom (os_OpenAppend indexPath);
      match o with
      | Err err => mret (Some (errorf_w "open index: " err))
      | Ok _ =>
          r ← atom (file_Append indexPath (index_text entries));
          mret (match r with Err err => Some (errorf_w "write index: " err) | Ok _ => None end)
      end
  end.
End Index.

Example summary_ex :
  summary_of (raw ("---" +:+ String "010" "name: x" +:+ String "010" "---" +:+ String "010" "text" +:+ String "010" "# Title" +:+ String "010" "")) = "Title".
Proof. by vm_compute. Qed.
Example issue_ex : find_match issue_at (raw "see A-, AB-C and MY-123x") = Some "MY-123".
Proof. by vm_compute. Qed.
Example status_ex : find_match status_at (raw "**Status**: done **Status**:  skipped") = Some "skipped".
Proof. by vm_compute. Qed.
Example stamp_ex :
  stamp_in "/s/insights/2024-05-06-a.md" ("x" +:+ String "010" "**Date**: on 2024-02-30 07:08:09") = Some "2024-02-30T07:08:09Z" ∧
  stamp_in "/s/insights/2024-05-06-a.md" "x" = Some "2024-05-06T00:00:00Z".
Proof. by vm_compute. Qed.

(** * Theorems *)

(** A program that only lets [R] happen, inside one whose crash points satisfy [P]. *)
Lemma always_acts {A B} (R : World → World → Prop) `{!PreOrder R} i (p : program A) (k : A → program B) P Q w :
  acts R p → (∀ v, R w v → P v) → (∀ a v, R w v → run i p w = (a, v) → always i (k a) P Q v) → always i (p ≫= k) P Q w.
Proof.
  revert w. induction p as [a|X m k' IH]; intros w Hp HP Hk; [by apply Hk|].
  destruct Hp as [Hm Hp]. split; [by apply HP|]. specialize (Hm i w). cbn in Hk. destruct (m i w) as [x w1]. cbn [fst snd] in *.
  apply IH; [apply Hp| |].
  - intros v Hv. apply HP. by etrans.
  - intros a v Hv E. apply Hk; [by etrans|done].
Qed.

(** ** At every crash point *)

Section Atomic.
Context `{ET : EntryText}.
Variables (ModTime : string → option Time) (stateDir tool indexPath : string).

Create HintDb quiet.
#[local] Instance ticks_PreOrder : PreOrder tick_only.
Proof. split; [exact tick_only_refl|]. intros u v w. apply tick_only_trans. Qed.
Lemma looks {X} (f : gmap string node → result X) p : acts tick_only (atom (guarded p (λ w, (f (w_fs w), w)))).
Proof. apply acts_atom. intros w. unfold guarded, fault. destruct (env_fault _ _); by destruct w. Qed.
Lemma stat_quiet p : acts tick_only (atom (os_Stat p)).
Proof. apply acts_atom. intros w. unfold os_Stat, guarded, fault. destruct (env_fault _ _); [by destruct w|]. by repeat case_match; destruct w. Qed.
Lemma read_quiet p : acts tick_only (atom (os_ReadFile p)).
Proof. apply acts_atom. intros w. unfold os_ReadFile, guarded, fault. destruct (env_fault _ _); [by destruct w|]. by repeat case_match; destruct w. Qed.
Lemma dir_quiet p : acts tick_only (atom (os_ReadDir p)).
Proof. apply acts_atom. intros w. unfold os_ReadDir, guarded, fault. destruct (env_fault _ _); [by destruct w|]. by repeat case_match; destruct w. Qed.
Lemma lstat_quiet p : acts tick_only (atom (os_Lstat p)).
Proof. apply acts_atom. intros w. unfold os_Lstat, guarded, fault. destruct (env_fault _ _); [by destruct w|]. by repeat case_match; destruct w. Qed.
#[local] Hint Resolve stat_quiet read_quiet dir_quiet lstat_quiet : quiet.
Ltac each_call := repeat first [exact I | solve [auto with quiet] | by (apply acts_atom; intros []) | apply acts_bind; [|intros ?] | case_match].

Lemma meta_quiet p : acts tick_only (ExtractMeta ModTime stateDir tool p).
Proof. unfold ExtractMeta, ExtractSummary, extractTimestamp. each_call. Qed.
#[local] Hint Resolve meta_quiet : quiet.
Lemma entries_quiet {A B} (f : A → program (list B)) l : (∀ a, acts tick_only (f a)) → acts tick_only (for_entries f l).
Proof. intros Hf. induction l as [|a l IH]; cbn [for_entries]; [done|]. each_call. Qed.
Lemma walk_quiet n p d : acts tick_only (walk ModTime stateDir tool n p d).
Proof. revert p d. induction n as [|n IH]; intros p d; cbn [walk]; [done|]. each_call. by apply entries_quiet. Qed.
#[local] Hint Resolve walk_quiet : quiet.
Lemma subs_quiet : acts tick_only (for_entries (index_sub ModTime stateDir tool) indexDirs).
Proof. apply entries_quiet. intros sub. unfold index_sub, WalkDir. each_call. Qed.

(** The three files have different, clean names in one directory that exists. *)
Record index_place (fs : gmap string node) : Prop := {
  ip_path : clean indexPath; ip_lock : clean (indexPath +:+ ".lock"); ip_tmp : clean (indexPath +:+ ".tmp");
  ip_dir : fs !! Clean (Dir indexPath) = Some NDir }.

Lemma suffix_ne s t : t ≠ "" → s +:+ t ≠ s.
Proof. intros Ht E. apply Ht. apply (app_str_inj s). by rewrite E, app_str_nil_r. Qed.

(** The index before, or what one walk found. *)
Definition found (i : nat) (w : World) (entries : list IndexEntry) : Prop :=
  ∃ v, (∀ k, k ≠ indexPath +:+ ".lock" → w_fs v !! k = w_fs w !! k) ∧
    fst (run i (for_entries (index_sub ModTime stateDir tool) indexDirs) v) = entries.
Definition index_is (i : nat) (w : World) (v : World) : Prop :=
  w_fs v !! indexPath = w_fs w !! indexPath ∨
  ∃ entries, found i w entries ∧ w_fs v !! indexPath = Some (NFile (index_text entries)).
Definition rebuilt (i : nat) (w : World) (r : result nat) (v : World) : Prop :=
  match r with
  | Ok n => ∃ entries, found i w entries ∧ n = length entries ∧ w_fs v !! indexPath = Some (NFile (index_text entries))
  | Err _ => w_fs v !! indexPath = w_fs w !! indexPath
  end.

Lemma mkdir_there p w : w_fs w !! Clean p = Some NDir → tick_only w (snd (os_MkdirAll p w)).
Proof.
  intros Hp. unfold os_MkdirAll, guarded, fault. destruct (env_fault _ _); [by destruct w|]. change (w_fs (bump w)) with (w_fs w).
  rewrite mkdir_all_there by done. by destruct w.
Qed.

Lemma Rebuild_always i w :
  index_place (w_fs w) → always i (Rebuild ModTime stateDir tool indexPath) (index_is i w) (rebuilt i w) w.
Proof.
  intros [Hp Hl Ht Hd]. unfold clean in *. set (old := w_fs w !! indexPath).
  assert (∀ v, w_fs v !! indexPath = old → index_is i w v) as HI by (by left).
  assert (indexPath +:+ ".lock" ≠ indexPath ∧ indexPath +:+ ".tmp" ≠ indexPath) as [Nl Nt] by (split; by apply suffix_ne).
  unfold Rebuild. apply always_atom; [by apply HI|]. pose proof (mkdir_there _ _ Hd) as H1.
  destruct (os_MkdirAll (Dir indexPath) w) as [[u|e] w1]; cbn [fst snd] in *;
    assert (w_fs w1 = w_fs w) as E1 by (by rewrite H1); [|apply always_ret; [apply HI|unfold rebuilt]; by rewrite E1].
  unfold index_lock. split; [apply HI; by rewrite E1|]. cbn [fst snd].
  pose proof (OpenAppend_touches (indexPath +:+ ".lock") w1) as [H2 _]. rewrite Hl in H2.
  destruct (os_OpenAppend (indexPath +:+ ".lock") w1) as [[o|e] w2]; cbn [fst snd] in *;
    assert (∀ k, k ≠ indexPath +:+ ".lock" → w_fs w2 !! k = w_fs w !! k) as E2 by (intros k Hk; rewrite H2 by done; by rewrite E1);
    [|apply always_ret; [apply HI|unfold rebuilt]; by apply E2].
  split; [by apply HI, E2|]. cbn [fst snd].
  destruct (guarded_cases "" (λ w, (Ok tt, w)) w2) as [[e ->]| ->]; cbn [fst snd]; [apply always_ret; [apply HI|unfold rebuilt]; by apply E2|].
  change (always i (for_entries (index_sub ModTime stateDir tool) indexDirs ≫= write_index indexPath) (index_is i w) (rebuilt i w) (bump w2)).
  apply (always_acts tick_only); [apply subs_quiet|intros v Hv; apply HI; rewrite Hv; by apply E2|].
  intros entries w3 H3 Er. assert (w_fs w3 = w_fs w2) as E3 by (by rewrite H3).
  assert (found i w entries) as Hf by (exists (bump w2); split; [exact E2|by rewrite Er]).
  unfold write_index. apply WriteFile_always; rewrite ?Ht.
  - intros v [Hv _]. apply HI. rewrite Hv by done. rewrite E3. by apply E2.
  - intros r v [Hv _] Hr. assert (w_fs v !! indexPath = old) as Eo by (rewrite Hv by done; rewrite E3; by apply E2).
    destruct r as [u'|e]; [|apply always_ret; [by apply HI|done]].
    assert (u' = tt) as r' by (by destruct u'). rewrite r' in Hr. specialize (Hr eq_refl).
    apply always_atom; [by apply HI|]. unfold os_Rename.
    match goal with |- context [guarded "" ?m v] => destruct (guarded_cases "" m v) as [[e ->]| ->] end; cbn [fst snd];
      [apply always_ret; [by apply HI|done]|].
    unfold lookup_path. change (w_fs (bump v)) with (w_fs v). rewrite Ht, Hp, Hr.
    destruct (w_fs v !! indexPath) as [[d|]|] eqn:Ev; cbn [fst snd].
    + apply always_ret; [right; exists entries; split; [done|]|exists entries; split_and!; [done|done|]]; cbn [w_fs add_effect set_fs]; apply lookup_insert_eq.
    + apply always_ret; [apply HI|unfold rebuilt]; (etrans; [exact Ev|exact Eo]).
    + apply always_ret; [right; exists entries; split; [done|]|exists entries; split_and!; [done|done|]]; cbn [w_fs add_effect set_fs]; apply lookup_insert_eq.
Qed.
End Atomic.

(**  A rebuild replaces the archive index atomically: at every crash point,
    with any failures, the index is the old one or the complete text of what
    one walk over the directories found; a rebuild that reports no error wrote
    that and returns the number of its entries, one that reports an error left
    the old index. *)
Theorem rebuild_is_atomic `{ET : EntryText} (ModTime : string → option Time) (stateDir tool indexPath : string) (i n : nat) (w : World) :
  index_place indexPath (w_fs w) →
  let p := Rebuild ModTime stateDir tool indexPath in
  index_is ModTime stateDir tool indexPath i w (run_for n i p w) ∧
  rebuilt ModTime stateDir tool indexPath i w (fst (run i p w)) (snd (run i p w)).
Proof.
  intros Hp p. pose proof (Rebuild_always ModTime stateDir tool indexPath i w Hp) as HA.
  split; [by eapply always_run_for|by apply always_run in HA].
Qed.

(** ** What a walk finds *)

Section Finds.
Context `{ET : EntryText} {env : Env}.
Hypothesis env_ok : no_faults env.
Variables (ModTime : string → option Time) (stateDir tool : string).
Hypothesis mtimes : ∀ p, is_Some (ModTime p).
Abbreviation does := (Files.does (env := env)).

(** The entry of a file with that text. *)
Definition meta_of (p : string) (data : bytes) : IndexEntry :=
  mkIndexEntry (match stamp_in p (str data) with Some v => v | None => format_rfc3339 (default 0%Z (ModTime p)) end)
    (operation_of (relative stateDir p) tool) (default "" (find_match issue_at data)) (default "unknown" (find_match status_at data))
    tool (relative stateDir p) (summary_of data).

(** [b] is listed when the directory [a] is read. *)
Definition child (fs : gmap string node) (a b : string) : Prop := fs !! a = Some NDir ∧ Dir b = a ∧ b ≠ a ∧ is_Some (fs !! b).
(** The Markdown files below a path. *)
Definition markdown (fs : gmap string node) (root k : string) (data : bytes) : Prop :=
  rtc (child fs) root k ∧ fs !! k = Some (NFile data) ∧ Ext k = ".md".

Definition dir_entries (fs : gmap string node) (p : string) : list (string * bool) :=
  merge_sort entry_le ((λ e, (Base (fst e), match snd e with NDir => true | NFile _ => false end)) <$> children fs p).
(** The paths of the Markdown files, in the order of the walk. *)
Fixpoint paths (fuel : nat) (fs : gmap string node) (p : string) (isDir : bool) : list string :=
  match fuel with
  | O => []
  | S n =>
      if isDir then dir_entries fs p ≫= λ e, paths n fs (path_Join [p; fst e]) (snd e)
      else if bool_decide (Ext p = ".md") then [p] else []
  end.
Definition is_dir_node (n : node) : bool := match n with NDir => true | NFile _ => false end.

Lemma rooted_cases k : clean k → IsAbs k = true → k = "/" ∨ plain (Base k).
Proof using.
  intros Hc Ha. destruct (Base_rooted k Hc Ha) as [Hb|?]; [|by right]. left.
  pose proof (elems_nf k) as Hnf. unfold clean in Hc. rewrite Clean_elems, Ha in Hc. rewrite Ha in Hnf. unfold elems in Hc. rewrite Ha in Hc.
  inversion Hnf as [E|stk ? _ E|f stk Hf Hs E]; [|done|].
  - rewrite <- E in Hc. by rewrite <- Hc.
  - rewrite <- E, reverse_cons, render_snoc in Hc. destruct Hf as (H0 & _ & _ & Hf). rewrite <- Hc in Hb.
    assert (has_byte slash "/" = true) as Hs' by done. exfalso. revert Hb. destruct (reverse stk) as [|x l].
    + change (String slash f) with ("" +:+ String slash f). rewrite Base_slash_gen; [intros ->; congruence|exact H0|exact Hf].
    + rewrite Base_slash_gen; [intros ->; congruence|exact H0|exact Hf].
Qed.

Lemma child_join fs a b : fs_rooted fs → child fs a b → plain (Base b) ∧ path_Join [a; Base b] = b.
Proof using.
  intros Hr (_ & Hd & Hn & [n Hb]). destruct (Hr _ _ Hb) as [Hc Ha]. destruct (rooted_cases b Hc Ha) as [->|Hp].
  - by rewrite <- Hd in Hn.
  - split; [done|]. rewrite <- Hd. by apply Join_Dir_Base.
Qed.
Lemma join_longer d f : IsAbs d = true → plain f → slen (Clean d) < slen (path_Join [d; f]).
Proof using.
  intros Ha Hp. rewrite path_Join_plain, render_snoc, Clean_elems, Ha by done. unfold render. destruct f as [|c f]; [by destruct Hp|].
  destruct (elems d) as [|x l]; rewrite ?slen_app; cbn [slen]; [change (Join [] "/") with ""; cbn [slen]|]; lia.
Qed.
Lemma child_longer fs a b : fs_rooted fs → child fs a b → slen a < slen b.
Proof using.
  intros Hr Hc. destruct (child_join fs a b Hr Hc) as [Hp Hj]. destruct Hc as (Ha & _). destruct (Hr _ _ Ha) as [Hca Haa].
  pose proof (join_longer a (Base b) Haa Hp) as H. by rewrite Hj, Hca in H.
Qed.

Lemma entry_child fs p e : fs_rooted fs → fs !! p = Some NDir →
  e ∈ dir_entries fs p ↔ ∃ b n, child fs p b ∧ fs !! b = Some n ∧ e = (Base b, is_dir_node n).
Proof using.
  intros Hr Hp. unfold dir_entries. rewrite merge_sort_Permutation, list_elem_of_fmap. unfold children.
  assert (Clean p = p) as Hc by apply (Hr _ _ Hp). rewrite Hc. split.
  - intros ([b n] & -> & [[Hd Hn] Hb]%list_elem_of_filter). apply elem_of_map_to_list in Hb. exists b, n. by repeat (split; [done|]).
  - intros (b & n & (_ & Hd & Hn & _) & Hb & ->). exists (b, n). split; [done|]. apply list_elem_of_filter. split; [done|].
    by apply elem_of_map_to_list.
Qed.

Lemma paths_spec n fs p node k : fs_rooted fs → fs !! p = Some node →
  k ∈ paths n fs p (is_dir_node node) ↔ ∃ m data, m < n ∧ nsteps (child fs) m p k ∧ fs !! k = Some (NFile data) ∧ Ext k = ".md".
Proof using.
  intros Hr. revert p node. induction n as [|n IH]; intros p node Hp; cbn [paths].
  { split; [by intros []%elem_of_nil|]. intros (m & ? & ? & _). lia. }
  destruct node as [data|]; cbn [is_dir_node].
  - split.
    + case_bool_decide; [|by intros []%elem_of_nil]. intros ->%list_elem_of_singleton. exists 0, data. split_and!; [lia|constructor|done|done].
    + intros (m & d' & _ & Hs & Hk & He). destruct Hs as [|m p q k (Hd & _) _]; [|congruence]. rewrite bool_decide_true by done. by left.
  - rewrite list_elem_of_bind. split.
    + intros (e & Hk & (b & nb & Hc & Hb & ->)%(entry_child _ _ _ Hr Hp)). cbn [fst snd] in Hk.
      rewrite (proj2 (child_join _ _ _ Hr Hc)) in Hk. apply (IH _ _ Hb) in Hk as (m & data & ? & Hs & Hk & He).
      exists (S m), data. split_and!; [lia|by econstructor|done|done].
    + intros (m & data & ? & Hs & Hk & He). inversion Hs as [|m' p' q k' Hc Hs']; subst; [congruence|].
      pose proof Hc as (_ & _ & _ & [nb Hb]). exists (Base q, is_dir_node nb). split; [|by apply (entry_child _ _ _ Hr Hp); eauto].
      cbn [fst snd]. rewrite (proj2 (child_join _ _ _ Hr Hc)). apply (IH _ _ Hb). exists m', data. split_and!; [lia|done|done|done].
Qed.

Lemma steps_longer fs m p k : fs_rooted fs → nsteps (child fs) m p k → m + slen p ≤ slen k.
Proof using. intros Hr. induction 1 as [|m p q k Hc _ IH]; [done|]. pose proof (child_longer _ _ _ Hr Hc). lia. Qed.
Lemma markdown_paths fs p node k : fs_rooted fs → fs !! p = Some node →
  k ∈ paths (walk_fuel fs) fs p (is_dir_node node) ↔ ∃ data, markdown fs p k data.
Proof using.
  intros Hr Hp. rewrite paths_spec by done. unfold markdown. split.
  - intros (m & data & _ & Hs & Hk). exists data. split; [|done]. by apply rtc_nsteps; exists m.
  - intros (data & [m Hs]%rtc_nsteps & Hk & He). exists m, data. split; [|done].
    pose proof (steps_longer _ _ _ _ Hr Hs). unfold walk_fuel.
    pose proof (proj1 (list_max_le ((λ e, slen (fst e)) <$> map_to_list fs) _) (Nat.le_refl _)) as Hm. rewrite List.Forall_forall in Hm.
    assert (slen k ≤ list_max ((λ e, slen (fst e)) <$> map_to_list fs)); [|lia]. apply Hm. apply list_elem_of_In, list_elem_of_fmap.
    exists (k, NFile data). split; [done|]. by apply elem_of_map_to_list.
Qed.

(** A path is reached in one way only: of two entries of one directory at
    most one leads to it. *)
Lemma level_unique fs b1 b2 k : fs_rooted fs → Dir b1 = Dir b2 → slen (Dir b1) < slen b1 → slen (Dir b2) < slen b2 →
  rtc (child fs) b1 k → rtc (child fs) b2 k → b1 = b2.
Proof using.
  intros Hr HD H1 H2 [m1 S1]%rtc_nsteps [m2 S2]%rtc_nsteps.
  assert (∀ m1 m2 b1 b2, Dir b1 = Dir b2 → slen (Dir b2) < slen b2 → m1 ≤ m2 → nsteps (child fs) m1 b1 k → nsteps (child fs) m2 b2 k → b1 = b2) as Hle.
  { clear -Hr. intros m1 m2 b1 b2 HD H2 Hm S1 S2. replace m2 with ((m2 - m1) + m1) in S2 by lia.
    assert (∀ m a q, nsteps (child fs) m a q → a = Nat.iter m Dir q) as Hiter.
    { induction 1 as [|m a q' q (_ & <- & _) _ IH]; [done|]. by rewrite IH. }
    apply nsteps_add_inv in S2 as (q & S2 & Sq). apply Hiter in S1, Sq. rewrite <- S1 in Sq. subst q.
    destruct (m2 - m1) as [|d]; [by inversion S2|]. apply nsteps_inv_r in S2 as (y & S2 & (_ & Hy & _)).
    pose proof (steps_longer _ _ _ _ Hr S2). subst y. rewrite HD in *. lia. }
  destruct (Nat.le_ge_cases m1 m2); [by eapply (Hle m1 m2)|symmetry; by eapply (Hle m2 m1)].
Qed.
Lemma dir_entries_NoDup fs p : fs_rooted fs → fs !! p = Some NDir → NoDup (dir_entries fs p).
Proof using.
  intros Hr Hp. unfold dir_entries. rewrite merge_sort_Permutation. apply NoDup_fmap_2_strong.
  - assert (∀ e, e ∈ children fs p → child fs p (fst e) ∧ fs !! fst e = Some (snd e)) as Hc.
    { intros [b n] [[Hd Hn] Hb]%list_elem_of_filter. rewrite (proj1 (Hr _ _ Hp)) in Hd, Hn. apply elem_of_map_to_list in Hb.
      cbn [fst snd] in *. split_and!; [|done]. unfold child. by rewrite Hb. }
    intros [b1 n1] [b2 n2] [C1 E1]%Hc [C2 E2]%Hc HB. cbn [fst snd] in *. apply (f_equal fst) in HB. cbn [fst] in HB.
    assert (b1 = b2) as <- by (rewrite <- (proj2 (child_join _ _ _ Hr C1)), <- (proj2 (child_join _ _ _ Hr C2)); by rewrite HB). congruence.
  - unfold children. apply NoDup_filter, NoDup_map_to_list.
Qed.
Lemma paths_NoDup n fs p node : fs_rooted fs → fs !! p = Some node → NoDup (paths n fs p (is_dir_node node)).
Proof using.
  intros Hr. revert p node. induction n as [|n IH]; intros p node Hp; cbn [paths]; [apply NoDup_nil_2|].
  destruct node as [data|]; cbn [is_dir_node]; [case_bool_decide; [apply NoDup_singleton|apply NoDup_nil_2]|].
  apply NoDup_bind; [| |by apply dir_entries_NoDup].
  - intros e1 e2 k (b1 & n1 & C1 & E1 & ->)%(entry_child _ _ _ Hr Hp) (b2 & n2 & C2 & E2 & ->)%(entry_child _ _ _ Hr Hp). cbn [fst snd].
    rewrite (proj2 (child_join _ _ _ Hr C1)), (proj2 (child_join _ _ _ Hr C2)).
    intros (m1 & d1 & _ & S1 & _)%(paths_spec _ _ _ _ _ Hr E1) (m2 & d2 & _ & S2 & _)%(paths_spec _ _ _ _ _ Hr E2).
    pose proof (child_longer _ _ _ Hr C1). pose proof (child_longer _ _ _ Hr C2). destruct C1 as (_ & D1 & _), C2 as (_ & D2 & _).
    assert (b1 = b2) as <-; [|congruence]. eapply (level_unique fs b1 b2 k Hr); rewrite ?D1, ?D2; try done; apply rtc_nsteps; by eexists.
  - intros e (b & nb & C & E & ->)%(entry_child _ _ _ Hr Hp). cbn [fst snd]. rewrite (proj2 (child_join _ _ _ Hr C)). by apply IH.
Qed.

(** *** Running the walk *)

Lemma for_entries_does {A B} (f : A → program (list B)) (g : A → list B) l fs :
  (∀ a, a ∈ l → does (f a) fs (g a) fs) → does (for_entries f l) fs (l ≫= g) fs.
Proof using.
  induction l as [|a l IH]; intros Hf; cbn [for_entries]; [apply does_ret|]. rewrite bind_cons.
  eapply does_bind; [apply Hf; by left|]. eapply does_bind; [apply IH; intros b Hb; apply Hf; by right|]. apply does_ret.
Qed.
Lemma meta_does fs p data : clean p → fs !! p = Some (NFile data) → does (ExtractMeta ModTime stateDir tool p) fs (meta_of p data) fs.
Proof using env_ok mtimes.
  intros Hc Hp. assert (does (atom (os_ReadFile p)) fs (Ok data) fs) as HR.
  { pose proof (ReadFile_does env_ok p fs) as HR. by rewrite Hc, Hp in HR. }
  unfold ExtractMeta, ExtractSummary. eapply does_bind; [eapply does_bind; [exact HR|apply does_ret]|]. cbn beta iota zeta.
  eapply does_bind; [exact HR|]. cbn beta iota. unfold meta_of, extractTimestamp.
  eapply does_bind; [|apply does_ret]. destruct (stamp_in p (str data)); [apply does_ret|].
  pose proof (Stat_does env_ok p fs) as HS. rewrite Hc, Hp in HS. eapply does_bind; [exact HS|]. cbn beta iota.
  destruct (mtimes p) as [t ->]. apply does_ret.
Qed.
Definition metas (fs : gmap string node) (ps : list string) : list IndexEntry :=
  omap (λ p, match fs !! p with Some (NFile data) => Some (meta_of p data) | _ => None end) ps.
Lemma metas_app fs a b : metas fs (a ++ b) = metas fs a ++ metas fs b.
Proof using. apply omap_app. Qed.
Lemma metas_bind {A} fs (f : A → list string) l : metas fs (l ≫= f) = l ≫= λ a, metas fs (f a).
Proof using. induction l as [|a l IH]; [done|]. by rewrite !bind_cons, metas_app, IH. Qed.

Lemma ReadDir_does fs p : clean p → fs !! p = Some NDir → does (atom (os_ReadDir p)) fs (Ok (dir_entries fs p)) fs.
Proof using env_ok.
  intros Hc Hp. apply does_guarded; [done|]. intros w [Hf He]. unfold lookup_path. by rewrite Hf, Hc, Hp.
Qed.
Lemma md_walk_does n fs p node : fs_rooted fs → fs !! p = Some node →
  does (walk ModTime stateDir tool n p (is_dir_node node)) fs (metas fs (paths n fs p (is_dir_node node))) fs.
Proof using env_ok mtimes.
  intros Hr. revert p node. induction n as [|n IH]; intros p node Hp; cbn [walk paths]; [apply does_ret|].
  assert (clean p) as Hc by apply (Hr _ _ Hp). destruct node as [data|]; cbn [is_dir_node].
  - case_bool_decide; [|apply does_ret]. eapply does_bind; [by apply meta_does|]. cbn [metas omap list_omap].
    unfold metas. cbn [omap list_omap]. rewrite Hp. apply does_ret.
  - eapply does_bind; [by apply ReadDir_does|]. cbn beta iota. rewrite metas_bind.
    apply (for_entries_does _ (λ e, metas fs (paths n fs (path_Join [p; fst e]) (snd e)))).
    intros e (b & nb & Hb & Hn & ->)%(entry_child _ _ _ Hr Hp). cbn [fst snd]. rewrite (proj2 (child_join _ _ _ Hr Hb)). by apply IH.
Qed.
(** What is found in one directory, and its entries. *)
Definition sub_paths (fs : gmap string node) (sub : string) : list string :=
  let dir := path_Join [stateDir; sub] in
  match fs !! dir with Some node => paths (walk_fuel fs) fs dir (is_dir_node node) | None => [] end.
Definition sub_entries (fs : gmap string node) (sub : string) : list IndexEntry := metas fs (sub_paths fs sub).
Lemma sub_does fs sub : fs_rooted fs → clean (path_Join [stateDir; sub]) →
  does (index_sub ModTime stateDir tool sub) fs (sub_entries fs sub) fs.
Proof using env_ok mtimes.
  intros Hr Hc. unfold index_sub, sub_entries, sub_paths. cbv zeta. eapply does_bind; [by apply Stat_does|]. rewrite Hc.
  destruct (fs !! path_Join [stateDir; sub]) as [node|] eqn:Hp; [|apply does_ret].
  unfold WalkDir. eapply does_bind; [apply (does_guarded env_ok "" _ _ (Ok (is_dir_node node)) fs)|].
  - intros w [Hf He]. unfold lookup_path. by rewrite Hf, Hc, Hp.
  - cbn beta iota. eapply does_bind; [apply (does_atom _ fs (walk_fuel fs) fs); intros w [Hf He]; by rewrite Hf|]. by apply md_walk_does.
Qed.
Lemma sub_paths_spec fs sub k : fs_rooted fs → k ∈ sub_paths fs sub ↔ ∃ data, markdown fs (path_Join [stateDir; sub]) k data.
Proof using.
  intros Hr. unfold sub_paths. cbv zeta. destruct (fs !! path_Join [stateDir; sub]) as [node|] eqn:Hp; [by apply markdown_paths|].
  split; [by intros []%elem_of_nil|]. intros (data & Hs & Hk & _). exfalso.
  apply rtc_inv in Hs as [<-|(b & (Hd & _) & _)]; congruence.
Qed.
(** No file is found twice, not even from two of the directories. *)
Lemma index_paths_NoDup fs : fs_rooted fs → NoDup (indexDirs ≫= sub_paths fs).
Proof using.
  intros Hr. assert (∀ sub, sub ∈ indexDirs → plain sub) as Hpl.
  { intros sub. unfold indexDirs. rewrite !elem_of_cons, elem_of_nil. intros [->|[->|[->|[->|[]]]]]; done. }
  assert (∀ sub k data, sub ∈ indexDirs → markdown fs (path_Join [stateDir; sub]) k data →
    Dir (path_Join [stateDir; sub]) = Clean stateDir ∧ slen (Clean stateDir) < slen (path_Join [stateDir; sub])) as Hlvl.
  { intros sub k data Hs%Hpl (Hk & Hd & _). split; [by apply Dir_Join|]. apply join_longer; [|done].
    assert (∃ n, fs !! path_Join [stateDir; sub] = Some n) as [n [_ Ha]%Hr]
      by (apply rtc_inv in Hk as [<-|(b & (? & _) & _)]; by eexists).
    rewrite path_Join_plain in Ha by done. pose proof (IsAbs_render _ _ (elems_snoc_nf stateDir sub Hs)) as HI.
    rewrite reverse_cons in HI. unfold elems in Ha. by rewrite Ha in HI. }
  apply NoDup_bind.
  - intros s1 s2 k Hs1 Hs2 [d1 M1]%(sub_paths_spec _ _ _ Hr) [d2 M2]%(sub_paths_spec _ _ _ Hr).
    destruct (Hlvl _ _ _ Hs1 M1) as [D1 L1], (Hlvl _ _ _ Hs2 M2) as [D2 L2].
    rewrite <- (Base_Join stateDir s1), <- (Base_Join stateDir s2) by by apply Hpl. f_equal.
    eapply (level_unique fs _ _ k Hr); rewrite ?D1, ?D2; [done..|apply M1|apply M2].
  - intros sub _. unfold sub_paths. cbv zeta. destruct (fs !! _) as [node|] eqn:Hp; [by apply paths_NoDup|apply NoDup_nil_2].
  - unfold indexDirs. apply (bool_decide_unpack (NoDup ["archive"; "journal"; "journals"; "insights"])). by vm_compute.
Qed.
(** The files with those paths, each once, in order. *)
Lemma metas_files fs ps : NoDup ps → ∃ files : list (string * bytes), NoDup (fst <$> files) ∧
  (∀ k data, (k, data) ∈ files ↔ k ∈ ps ∧ fs !! k = Some (NFile data)) ∧ metas fs ps = (λ f, meta_of (fst f) (snd f)) <$> files.
Proof using.
  induction 1 as [|p ps Hp _ (files & Hn & He & Hm)].
  - exists []. split_and!; [apply NoDup_nil_2| |done]. intros k data. rewrite !elem_of_nil. tauto.
  - unfold metas. cbn [omap list_omap]. destruct (fs !! p) as [[data|]|] eqn:E.
    + exists ((p, data) :: files). rewrite fmap_cons. split_and!.
      * cbn [fst]. apply NoDup_cons. split; [|done]. intros ([k d] & -> & [Hk _]%He)%list_elem_of_fmap. done.
      * intros k d. rewrite !elem_of_cons, He. split; [intros [[= -> ->]|[? ?]]; by auto|intros [[->|?] Hk]; [left; congruence|by right]].
      * rewrite fmap_cons. cbn [fst snd]. by f_equal.
    + exists files. split_and!; [done| |done]. intros k d. rewrite elem_of_cons, He.
      split; [tauto|intros [[->|?] Hk]; [congruence|done]].
    + exists files. split_and!; [done| |done]. intros k d. rewrite elem_of_cons, He.
      split; [tauto|intros [[->|?] Hk]; [congruence|done]].
Qed.
End Finds.

Lemma cut_last_no_sep c s t : has_byte c t = false →
  cut_last c (s +:+ t) = match cut_last c s with Some (a, b) => Some (a, b +:+ t) | None => None end.
Proof.
  intros Ht. induction s as [|d s IH]; [by apply cut_last_None|]. rewrite app_str_cons. cbn [cut_last]. rewrite IH.
  destruct (cut_last c s) as [[a b]|]; [done|]. by case_bool_decide.
Qed.
Lemma Ext_lock s : Ext (s +:+ ".lock") = ".lock".
Proof.
  unfold Ext. rewrite cut_last_no_sep by done.
  destruct (cut_last slash s) as [[a b]|]; change ".lock" with (String dot "lock"); by rewrite cut_last_app.
Qed.

(** The lock file is no Markdown file, so making it changes nothing here. *)
Lemma markdown_lock fs lock text root k data : Ext lock ≠ ".md" → fs !! lock ≠ Some NDir →
  markdown (<[lock := NFile text]> fs) root k data ↔ markdown fs root k data.
Proof.
  intros He Hd. unfold markdown.
  assert (∀ a b, b ≠ lock → child (<[lock := NFile text]> fs) a b ↔ child fs a b) as Hc.
  { intros a b Hb. unfold child. rewrite (lookup_insert_ne _ lock b) by done. destruct (decide (a = lock)) as [->|Ha].
    - rewrite lookup_insert_eq. split; [by intros [? _]|by intros [? _]].
    - by rewrite lookup_insert_ne. }
  assert (∀ f1 f2 : gmap string node, (∀ a b, b ≠ lock → child f1 a b → child f2 a b) → f1 !! lock ≠ Some NDir →
    ∀ a b, rtc (child f1) a b → b ≠ lock → rtc (child f2) a b) as Hr.
  { intros f1 f2 H12 Hl a b Hs. revert b Hs. apply (rtc_ind_r (λ b, b ≠ lock → rtc (child f2) a b)); [done|].
    intros b c Hs Hbc IH Hn. eapply rtc_r; [apply IH; intros ->; by destruct Hbc as (? & _)|by apply H12]. }
  split; intros (Hs & Hk & Hx); (assert (k ≠ lock) as Hn by (by intros ->)); rewrite ?lookup_insert_ne in * by done; split_and!; try done.
  - eapply (Hr (<[lock := NFile text]> fs) fs); [|by rewrite lookup_insert_eq|exact Hs|done]. intros a b Hb. by apply Hc.
  - eapply (Hr fs); [|exact Hd|exact Hs|done]. intros a b Hb. by apply Hc.
Qed.

(** C14: Without failures a rebuild writes an index with exactly one line for
    each Markdown file that can be reached through directories from the four
    directories, at any depth, and no other line, each with what is taken from
    that file's path and text, and returns the number of these files. *)
Theorem rebuild_indexes_markdown `{ET : EntryText} (ModTime : string → option Time) (stateDir tool indexPath : string) (i : nat) (w : World) :
  let fs := w_fs w in
  no_faults (w_env w) → (∀ p, is_Some (ModTime p)) → fs_rooted fs → index_place indexPath fs → IsAbs indexPath = true →
  (∀ ext, ext ∈ [""; ".lock"; ".tmp"] → fs !! (indexPath +:+ ext) ≠ Some NDir) → Dir (indexPath +:+ ".lock") = Dir indexPath →
  Dir (indexPath +:+ ".tmp") = Dir indexPath →
  runs i (Rebuild ModTime stateDir tool indexPath) (λ r w', ∃ files : list (string * bytes),
    NoDup (fst <$> files) ∧
    (∀ k data, (k, data) ∈ files ↔ ∃ sub, sub ∈ indexDirs ∧ markdown fs (path_Join [stateDir; sub]) k data) ∧
    r = Ok (length files) ∧
    w_fs w' !! indexPath = Some (NFile (index_text ((λ f, meta_of ModTime stateDir tool (fst f) (snd f)) <$> files)))) w.
Proof.
  intros fs He Hm Hr Hp Ha Hn Dl Dt. destruct Hp as [Hcp Hcl Hct Hd]. unfold clean in *. set (env := w_env w).
  set (lock := indexPath +:+ ".lock"). set (tmp := indexPath +:+ ".tmp").
  change (Clean lock = lock) in Hcl. change (Clean tmp = tmp) in Hct. change (Dir lock = Dir indexPath) in Dl. change (Dir tmp = Dir indexPath) in Dt.
  assert (fs !! lock ≠ Some NDir ∧ fs !! tmp ≠ Some NDir) as [Nl Nt] by (split; apply Hn; set_solver).
  assert (fs !! indexPath ≠ Some NDir) as Ni by (rewrite <- (app_str_nil_r indexPath); apply Hn; set_solver).
  set (fs1 := <[lock := NFile (text_of lock fs)]> fs).
  assert (fs_rooted fs1) as Hr1.
  { intros k n. destruct (decide (k = lock)) as [->|Hk]; [|unfold fs1; rewrite lookup_insert_ne by done; apply Hr].
    intros _. split; [exact Hcl|]. unfold lock. apply prefix_spec in Ha as [q ->]. rewrite <- app_str_assoc. apply prefix_spec. by eexists. }
  set (entries := indexDirs ≫= sub_entries ModTime stateDir tool fs1).
  assert (lock ≠ tmp) as Nlt by (by intros E%app_str_inj).
  assert (∀ q, Clean (Dir q) = Clean (Dir indexPath) → lock ≠ Clean (Dir indexPath) → fs1 !! Clean (Dir q) = Some NDir) as Hdir.
  { intros q -> Hq. unfold fs1. by rewrite lookup_insert_ne. }
  assert (lock ≠ Clean (Dir indexPath)) as Nld by (intros E; by rewrite <- E in Hd).
  assert (does (env := env) (Rebuild ModTime stateDir tool indexPath) fs (Ok (length entries))
    (<[indexPath := NFile (index_text entries)]> (delete tmp (<[tmp := NFile (index_text entries)]> fs1)))) as HD.
  { unfold Rebuild. eapply does_bind; [apply (MkdirAll_does He); by apply mkdir_all_there|]. cbn beta iota.
    eapply does_bind.
    { unfold index_lock. eapply does_bind; [apply (OpenAppend_does He)|].
      - unfold writable. fold lock. rewrite Hcl, Dl. destruct (fs !! lock) as [[]|]; done.
      - cbn beta iota. eapply does_bind; [by apply (does_guarded He "" _ _ (Ok tt))|]. apply does_ret. }
    fold lock. rewrite Hcl. fold fs1. cbn beta iota. eapply does_bind.
    { apply for_entries_does. intros sub Hsub. apply (sub_does He _ _ _ Hm); [done|]. apply Clean_Join.
      unfold indexDirs in Hsub. repeat (apply elem_of_cons in Hsub as [->|Hsub]; [done|]). by apply elem_of_nil in Hsub. }
    fold entries. unfold write_index. cbv zeta. fold tmp. eapply does_bind; [apply (WriteFile_clean He); [exact Hct|]|].
    - unfold writable. rewrite Hct, Dt. unfold fs1. rewrite lookup_insert_ne by done. fold fs1.
      destruct (fs !! tmp) as [[]|]; [done|done|]. by apply Hdir.
    - cbn beta iota. eapply does_bind; [apply (Rename_does He _ _ (index_text entries))|].
      + by rewrite Hct, lookup_insert_eq.
      + rewrite Hcp. unfold tmp. rewrite lookup_insert_ne by (apply suffix_ne; done). unfold fs1, lock.
        by rewrite lookup_insert_ne by (apply suffix_ne; done).
      + rewrite Hct, Hcp. apply does_ret. }
  destruct (HD i w) as [E1 [E2 _]]; [done|].
  destruct (metas_files ModTime stateDir tool fs1 _ (index_paths_NoDup stateDir fs1 Hr1)) as (files & Hnd & Hf & Hmt).
  assert (entries = (λ f, meta_of ModTime stateDir tool (fst f) (snd f)) <$> files) as Hen by (rewrite <- Hmt, metas_bind; done).
  exists files. rewrite <- Hen. split_and!; [done| |by rewrite E1, Hen, length_fmap|rewrite E2; apply lookup_insert_eq].
  intros k data. rewrite Hf, list_elem_of_bind.
  assert (∀ sub d, markdown fs1 (path_Join [stateDir; sub]) k d ↔ markdown fs (path_Join [stateDir; sub]) k d) as Hml
    by (intros sub d; apply markdown_lock; [unfold lock; by rewrite Ext_lock|done]). split.
  - intros [(sub & [d Hk]%(sub_paths_spec _ _ _ _ Hr1) & Hsub) Hkd]. pose proof Hk as (_ & Hkd' & _). exists sub. split; [done|].
    apply Hml. replace data with d by congruence. done.
  - intros (sub & Hsub & Hk%Hml). split; [|by apply Hk]. exists sub. split; [|done]. apply (sub_paths_spec _ _ _ _ Hr1). by exists data.
Qed.

(** Appending leaves what the index has: the new lines, or when the write
    fails a part of them, come after it; without an error all of them do. *)
Theorem index_append_extends `{ET : EntryText} (indexPath : string) (entries : list IndexEntry) (i : nat) (w : World) :
  clean indexPath → clean (indexPath +:+ ".lock") → w_fs w !! indexPath ≠ Some NDir →
  runs i (IndexWriter_Append indexPath entries) (λ err w',
    ∃ k, text_of indexPath (w_fs w') = text_of indexPath (w_fs w) ++ take k (index_text entries) ∧
      (err = None → text_of indexPath (w_fs w') = text_of indexPath (w_fs w) ++ index_text entries)) w.
Proof.
  intros Hp Hl Hn. unfold clean in *. unfold text_of. rewrite Hp.
  set (old := match w_fs w !! indexPath with Some (NFile b) => b | _ => [] end).
  assert (indexPath +:+ ".lock" ≠ indexPath) as Nl by by apply suffix_ne. unfold IndexWriter_Append.
  case_bool_decide as He; [subst; apply runs_ret; exists 0; cbn; by rewrite app_nil_r|].
  assert (∀ (err : error) v, w_fs v !! indexPath = w_fs w !! indexPath → ∃ k,
    match w_fs v !! indexPath with Some (NFile b) => b | _ => [] end = old ++ take k (index_text entries) ∧
    (Some err = None → match w_fs v !! indexPath with Some (NFile b) => b | _ => [] end = old ++ index_text entries)) as Hfail.
  { intros err v ->. exists 0. split; [by rewrite app_nil_r|done]. }
  apply runs_bind. unfold index_lock. apply runs_bind, runs_atom.
  pose proof (OpenAppend_touches (indexPath +:+ ".lock") w) as [H1 _]. rewrite Hl in H1. specialize (H1 indexPath (not_eq_sym Nl)).
  destruct (os_OpenAppend (indexPath +:+ ".lock") w) as [[o|e] w1]; cbn [fst snd] in *; [|by apply runs_ret, runs_ret, Hfail].
  apply runs_bind, runs_atom. destruct (guarded_cases "" (λ w, (Ok tt, w)) w1) as [[e ->]| ->]; cbn [fst snd];
    [by apply runs_ret, runs_ret, Hfail|]. apply runs_ret. apply runs_bind, runs_atom. unfold os_OpenAppend.
  match goal with |- context [guarded "" ?m ?v] => destruct (guarded_cases "" m v) as [[e ->]| ->] end; cbn [fst snd];
    [by apply runs_ret, Hfail|]. unfold lookup_path. change (w_fs (bump (bump w1))) with (w_fs w1). rewrite Hp, H1.
  assert (∀ v, w_fs v !! indexPath = Some (NFile old) → runs i (r ← atom (file_Append indexPath (index_text entries));
    mret (match r with Err err => Some (errorf_w "write index: " err) | Ok _ => None end)) (λ err w', ∃ k,
      match w_fs w' !! indexPath with Some (NFile b) => b | _ => [] end = old ++ take k (index_text entries) ∧
      (err = None → match w_fs w' !! indexPath with Some (NFile b) => b | _ => [] end = old ++ index_text entries)) v) as Hgo.
  { intros v Hv. apply runs_bind, runs_atom. unfold file_Append, fault, lookup_path. cbn [fst snd].
    destruct (env_fault _ _); cbn [fst snd]; change (w_fs (bump v)) with (w_fs v); rewrite Hp, Hv; apply runs_ret; cbn [w_fs set_fs];
      rewrite lookup_insert_eq; [by eexists|]. exists (length (index_text entries)). by rewrite firstn_all. }
  assert (∀ d, w_fs w !! indexPath = Some (NFile d) → old = d) as Ho by (intros d E; unfold old; by rewrite E).
  assert (w_fs w !! indexPath = None → old = []) as Ho' by (intros E; unfold old; by rewrite E).
  clearbody old. destruct (w_fs w !! indexPath) as [[d|]|] eqn:Ew; cbn [fst snd]; [|done|].
  - apply Hgo. by rewrite (Ho d eq_refl).
  - destruct (w_fs w1 !! Clean (Dir indexPath)) as [[]|]; cbn [fst snd]; try (by apply runs_ret, Hfail).
    apply Hgo. cbn. rewrite (Ho' eq_refl). apply lookup_insert_eq.
Qed.

(** ** Samples *)

Definition sample_entry_text : EntryText := {| entry_json := λ e, raw (ie_Path e +:+ " " +:+ ie_Summary e) |}.
Definition index_world (env : Env) : World :=
  set_fs {["/" := NDir; "/p" := NDir; "/p/archive" := NDir; "/p/archive/a.md" := NFile (raw "# One"); "/p/insights" := NDir;
    "/p/insights/old" := NDir; "/p/insights/old/b.md" := NFile (raw "# Two"); "/p/insights/x.txt" := NFile []; "/p/c.md" := NFile []]}
    (sample_world [] env).
Definition index_env : Env := mkEnv (λ _, None) (λ _, 0%Z) (λ _, 0%Z) (λ _, "x") (λ _, 0).

Lemma index_sample_place : index_place "/p/archive/index.jsonl" (w_fs (index_world index_env)).
Proof. constructor; vm_compute; reflexivity. Qed.
Lemma index_sample_rooted : fs_rooted (w_fs (index_world index_env)).
Proof.
  intros k n Hk%elem_of_map_to_list. revert k n Hk. cut (Forall (λ e : string * node, clean (fst e) ∧ IsAbs (fst e) = true) (map_to_list (w_fs (index_world index_env)))).
  { intros H k n Hk. rewrite Forall_forall in H. exact (H _ Hk). }
  vm_compute. repeat constructor.
Qed.

Lemma rebuild_is_atomic_witness :
  let w := index_world (mkEnv (λ k, if bool_decide (k = 20) then Some (errors_New "disk full") else None) (λ _, 0%Z) (λ _, 0%Z) (λ _, "x") (λ _, 3)) in
  let p := Rebuild (ET := sample_entry_text) (λ _, None) "/p" "phonewave" "/p/archive/index.jsonl" in
  index_is (ET := sample_entry_text) (λ _, None) "/p" "phonewave" "/p/archive/index.jsonl" 0 w (run_for 17 0 p w) ∧
  rebuilt (ET := sample_entry_text) (λ _, None) "/p" "phonewave" "/p/archive/index.jsonl" 0 w (fst (run 0 p w)) (snd (run 0 p w)).
Proof.
  intros w p. apply (rebuild_is_atomic (ET := sample_entry_text) (λ _, None) "/p" "phonewave" "/p/archive/index.jsonl" 0 17 w).
  exact index_sample_place.
Defined.

Lemma rebuild_indexes_markdown_witness :
  let '(r, w') := run 0 (Rebuild (ET := sample_entry_text) (λ _, Some 0%Z) "/p" "phonewave" "/p/archive/index.jsonl") (index_world index_env) in
  r = Ok 2 ∧ w_fs w' !! "/p/archive/index.jsonl" = Some (NFile (raw ("archive/a.md One" +:+ String "010" "insights/old/b.md Two" +:+ String "010" ""))) ∧
  ∃ files : list (string * bytes), NoDup (fst <$> files) ∧ r = Ok (length files) ∧
    ∀ k data, (k, data) ∈ files ↔ ∃ sub, sub ∈ indexDirs ∧ markdown (w_fs (index_world index_env)) (path_Join ["/p"; sub]) k data.
Proof.
  pose proof (rebuild_indexes_markdown (ET := sample_entry_text) (λ _, Some 0%Z) "/p" "phonewave" "/p/archive/index.jsonl" 0 (index_world index_env)) as HT.
  unfold runs in HT. destruct (run 0 _ (index_world index_env)) as [r w'] eqn:E. cbn [fst snd] in HT.
  destruct HT as (files & Hn & Hf & -> & Hw).
  - by intros n.
  - intros p. by eexists.
  - exact index_sample_rooted.
  - exact index_sample_place.
  - reflexivity.
  - intros ext. rewrite !elem_of_cons, elem_of_nil. intros [->|[->|[->|[]]]]; vm_compute; discriminate.
  - reflexivity.
  - reflexivity.
  - split_and!.
    + etrans; [symmetry; exact (f_equal fst E)|vm_compute; reflexivity].
    + etrans; [symmetry; exact (f_equal (λ x, w_fs (snd x) !! "/p/archive/index.jsonl") E)|vm_compute; reflexivity].
    + exists files. by split_and!.
Defined.

Lemma index_append_extends_witness :
  runs 0 (IndexWriter_Append (ET := sample_entry_text) "/p/archive/index.jsonl" [mkIndexEntry "" "dmail" "" "" "phonewave" "archive/z.md" "Z"])
    (λ err w', err = None ∧ text_of "/p/archive/index.jsonl" (w_fs w') = raw ("archive/z.md Z" +:+ String "010" "")) (index_world index_env).
Proof.
  pose proof (index_append_extends (ET := sample_entry_text) "/p/archive/index.jsonl" [mkIndexEntry "" "dmail" "" "" "phonewave" "archive/z.md" "Z"] 0
    (index_world index_env) eq_refl eq_refl) as HT.
  unfold runs in *. destruct HT as (k & _ & HT); [vm_compute; discriminate|]. split; [vm_compute; reflexivity|]. rewrite HT; vm_compute; reflexivity.
Defined.

(** The summary is cut after 100 bytes, also in the middle of a character. *)
Example summary_cut : length (raw (truncate (str (repeat "x"%char 99 ++ ["227"; "129"; "130"]%char)) maxSummaryLen)) = 100.
Proof. by vm_compute. Qed.
(** The date wins over a later update, since it comes first. *)
Example date_before_update :
  frontmatter_stamp ["date: 2024-01-02"; "updated_at: 2024-06-07T00:00:00Z"] = Some "2024-01-02T00:00:00Z".
Proof. by vm_compute. Qed.
