(* ===== verification/Maintenance.v ===== *)
(** * Maintenance commands

    Models [cmd/clean.go], [cmd/archive_prune.go], [cmd/dead_letters.go] and
    [cmd/helpers.go], up to flags and printing.  The files of the state
    directory that [World] holds apart from [w_fs] go with the paths they have:
    [delivery.log] is [w_dlog], [watch.pid] and [watch.started] are in
    [w_state], the tables of the three databases and the delivery filter are
    in [.run].  A [RemoveAll] that fails may have removed any part of what is
    below its path. *)
From S2P Require Import Prelude GoStrings GoPath GoTime DMail Prog World DeliverSafety DeliveryStore SetupSafety Setup Files EventStore Insight Cutover StateDirs ConfigFile Wiring WiringSafety Startup Metrics Skills Status Doctor Unified MCP ArchiveIndex.

#[local] Open Scope nat_scope.

(** ** [helpers.go] *)

Definition configBase (config : string) : string := Dir config.
Definition projectRoot (config : string) : string := Dir (configBase config).

(** [os.Stat] and [IsDir]. *)
Definition os_StatDir (p : string) : act (result bool) := guarded "" (λ w,
  match lookup_path w p with
  | Some n => (Ok (match n with NDir => true | NFile _ => false end), w)
  | None => (Err (enoent "stat" p), w)
  end).

Section Base.
Variables (cwd config : string).

Definition resolveBaseDir (args : list string) : program (result string) :=
  match args with
  | arg :: _ =>
      a ← atom (Abs cwd arg);
      match a with
      | Err err => mret (Err (errorf_w "resolve path: " err))
      | Ok abs =>
          info ← atom (os_StatDir abs);
          mret (match info with
                | Err err => Err (errorf_w "path not found: " err)
                | Ok true => Ok abs
                | Ok false => Err (errors_New ("not a directory: " +:+ abs))
                end)
      end
  | [] => atom (Abs cwd (projectRoot config))
  end.
End Base.

(** What the confirmation reads: the end of the input, maybe with an error,
    or a line. *)
Inductive confirmation := NoLine (err : option error) | Line (text : string).
Definition confirm (c : confirmation) : result bool :=
  match c with
  | NoLine (Some err) => Err (errorf_w "read confirmation: " err)
  | NoLine None => Ok false
  | Line text => let answer := TrimSpace text in Ok (bool_decide (answer = "y") || bool_decide (answer = "Y"))
  end.

(** ** [archive_prune.go] *)

Record prune_flags := mkPruneFlags {
  pf_execute : bool; pf_dry_run : bool; pf_rebuild_index : bool; pf_json : bool; pf_yes : bool; pf_days : Z }.
(** The files that were listed, those deleted, the entries of a rebuilt index. *)
Record pruned := mkPruned { pr_listed : list string; pr_deleted : list string; pr_rebuilt : option nat }.

Section Prune.
Context `{ET : EntryText}.
Variables (cwd config : string) (ModTime : string → option Time).

Definition prune_now (stateDir : string) (files : list string) : program (result pruned) :=
  d ← PruneEventFiles stateDir files;
  mret (match d with
        | (_, Some err) => Err (errorf_w "event prune failed: " err)
        | (deleted, None) => Ok (mkPruned files deleted None)
        end).
Definition archive_prune (fl : prune_flags) (args : list string) (input : confirmation) : program (result pruned) :=
  if pf_execute fl && pf_dry_run fl then mret (Err (errors_New "--execute and --dry-run are mutually exclusive")) else
  b ← resolveBaseDir cwd config args;
  match b with
  | Err err => mret (Err err)
  | Ok base =>
      let stateDir := path_Join [base; StateDir] in
      if pf_rebuild_index fl then
        if pf_execute fl then mret (Err (errors_New "--rebuild-index cannot be combined with --execute")) else
        n ← Rebuild ModTime stateDir "phonewave" (path_Join [stateDir; "archive"; "index.jsonl"]);
        mret (match n with Err err => Err (errorf_w "rebuild index: " err) | Ok n => Ok (mkPruned [] [] (Some n)) end)
      else
      l ← ListExpiredEventFiles stateDir ModTime (pf_days fl);
      match l with
      | Err err => mret (Err (errorf_w "failed to list expired events: " err))
      | Ok files =>
          if pf_json fl then
            if pf_execute fl && (0 <? length files) then prune_now stateDir files else mret (Ok (mkPruned files [] None))
          else if bool_decide (files = []) then mret (Ok (mkPruned [] [] None))
          else if negb (pf_execute fl) then mret (Ok (mkPruned files [] None))
          else if pf_yes fl then prune_now stateDir files
          else match confirm input with
               | Err err => mret (Err err)
               | Ok false => mret (Ok (mkPruned files [] None))
               | Ok true => prune_now stateDir files
               end
      end
  end.
End Prune.

(** ** [dead_letters.go] *)

Record purge_flags := mkPurgeFlags { gf_execute : bool; gf_yes : bool }.

(** The dead letters that were counted and those purged; [None] without a
    database. *)
Definition purge_open (fl : purge_flags) (input : confirmation) : prog Host (result (option (nat * nat))) :=
  c ← on_world (atom Staged.DeadLetterCount);
  match c with
  | Err err => mret (Err (errorf_w "count dead letters: " err))
  | Ok count =>
      if bool_decide (count = 0) || negb (gf_execute fl) then mret (Ok (Some (count, 0))) else
      match (if gf_yes fl then Ok true else confirm input) with
      | Err err => mret (Err err)
      | Ok false => mret (Ok (Some (count, 0)))
      | Ok true =>
          p ← on_world (atom Staged.PurgeDeadLetters);
          mret (match p with Err err => Err (errorf_w "purge dead letters: " err) | Ok n => Ok (Some (count, n)) end)
      end
  end.
Definition purge (config : string) (fl : purge_flags) (input : confirmation) : prog Host (result (option (nat * nat))) :=
  let stateDir := configBase config in
  st ← on_world (atom (os_Stat (path_Join [stateDir; ".run"; "delivery.db"])));
  match st with
  | Err _ => mret (Ok None)
  | Ok _ =>
      s ← NewSQLiteDeliveryStore stateDir;
      match s with
      | Err err => mret (Err (errorf_w "open delivery store: " err))
      | Ok _ => r ← purge_open fl input; _ ← closes HDelivery; mret r
      end
  end.

(** ** [clean.go] *)

(** Whether a path is [p] or below it. *)
Definition below (p k : string) : bool := bool_decide (k = p) || HasPrefix k (p +:+ "/").

Inductive target := TLog | TRun | TPid | TStarted | TEvents | TVenv.
#[export] Instance target_eq_dec : EqDecision target.
Proof. solve_decision. Defined.

Section Clean.
Context `{MC : Machine} `{PR : Processes}.
(** Whether an empty delivery log exists; what a [RemoveAll] that failed at a
    step had removed. *)
Variables (empty_log : bool) (partial : nat → string → bool).
Variables (cwd config : string).

Definition target_path (stateDir : string) (t : target) : string :=
  match t with
  | TLog => path_Join [stateDir; "delivery.log"]
  | TRun => path_Join [stateDir; ".run"]
  | TPid => path_Join [stateDir; "watch.pid"]
  | TStarted => path_Join [stateDir; "watch.started"]
  | TEvents => path_Join [stateDir; "events"]
  | TVenv => path_Join [mc_TempDir; SkillsRefVenvName]
  end.
Definition target_there (stateDir : string) (t : target) (w : World) : bool :=
  match t with
  | TLog => negb (bool_decide (w_dlog w = [])) || empty_log
  | TPid => bool_decide (is_Some (sf_pid (w_state w)))
  | TStarted => bool_decide (is_Some (sf_started (w_state w)))
  | TRun | TEvents | TVenv => bool_decide (is_Some (lookup_path w (target_path stateDir t)))
  end.
Definition stat_target (stateDir : string) (t : target) : act bool := λ w,
  let '(e, w) := fault w in (match e with Some _ => false | None => target_there stateDir t w end, w).

(** Without the paths of [gone], and what is at them. *)
Definition remove_paths (gone : string → bool) (w : World) : World :=
  set_owner (filter (λ e, gone (fst e) = false) (w_owner w)) (set_fs (filter (λ e, gone (fst e) = false) (w_fs w)) w).
Definition remove_run (run : string) (gone : string → bool) (w : World) : World :=
  let gone_file name := gone (path_Join [run; name]) in
  let s := w_state w in
  remove_paths (λ k, below run k && gone k)
    (set_state (mkState (sf_provider s) (if gone_file "delivered.bloom" then None else sf_filter s) (sf_pid s) (sf_started s))
      (set_queue (if gone_file "error_queue.db" then [] else w_queue w)
        (set_dedup (if gone_file "delivery_dedup.db" then [] else w_dedup w)
          (set_staged (if gone_file "delivery.db" then [] else w_staged w) w)))).
Definition os_RemoveAll (stateDir : string) (t : target) : act (option error) := λ w,
  let n := w_tick w in
  let '(e, w) := fault w in
  let gone k := match e with None => true | Some _ => partial n k end in
  let path := Clean (target_path stateDir t) in
  (e, match t with
      | TLog => if gone path then set_dlog [] w else w
      | TPid => if gone path then set_state (clear_pid (w_state w)) w else w
      | TStarted => if gone path then set_state (clear_started (w_state w)) w else w
      | TRun => remove_run path gone w
      | TEvents | TVenv => remove_paths (λ k, below path k && gone k) w
      end).

Fixpoint find_targets (stateDir : string) (ts : list target) : program (list target) :=
  match ts with
  | [] => mret []
  | t :: ts =>
      s ← atom (stat_target stateDir t);
      l ← find_targets stateDir ts;
      mret (if s : bool then t :: l else l)
  end.
Definition collectCleanTargets (stateDir : string) : program (list target) :=
  find_targets stateDir [TLog; TRun; TPid; TStarted; TEvents].

(** [daemonRunning]; the text of the file is not trimmed, and only a signal
    that was sent counts. *)
Definition daemonRunning : program bool :=
  d ← atom (read_state sf_pid);
  match d with
  | None => mret false
  | Some data =>
      match Atoi data with
      | None => mret false
      | Some pid =>
          if (pid <=? 0)%Z then mret false else
          atom (λ w, (pr_FindProcess (w_tick w) pid && match pr_signal0 (w_tick w) pid with SigOK => true | _ => false end, bump w))
      end
  end.

Fixpoint remove_targets (stateDir : string) (ts : list target) (removed : nat) : program nat :=
  match ts with
  | [] => mret removed
  | t :: ts =>
      e ← atom (os_RemoveAll stateDir t);
      remove_targets stateDir ts (match e with Some _ => removed | None => S removed end)
  end.

(** Whether the daemon seemed to run, and the number of items removed; [None]
    when there was nothing to remove or no consent. *)
Definition consents (yes : bool) (answer : string) : bool := yes || bool_decide (answer = "y") || bool_decide (answer = "Y").
Definition clean_cmd (yes : bool) (answer : string) (args : list string) : program (result (bool * option nat)) :=
  b ← resolveBaseDir cwd config args;
  match b with
  | Err err => mret (Err err)
  | Ok base =>
      let stateDir := path_Join [base; StateDir] in
      info ← atom (os_StatDir stateDir);
      match info with
      | Err _ | Ok false => mret (Ok (false, None))
      | Ok true =>
          running ← daemonRunning;
          targets ← collectCleanTargets stateDir;
          venv ← atom (stat_target stateDir TVenv);
          let targets := targets ++ if venv : bool then [TVenv] else [] in
          if bool_decide (targets = []) || negb (consents yes answer) then mret (Ok (running, None)) else
          n ← remove_targets stateDir targets 0;
          mret (Ok (running, Some n))
      end
  end.
End Clean.

(** * Theorems *)

(** ** Nothing is deleted without consent *)

Section Consent.
Context `{ET : EntryText} `{MC : Machine} `{PR : Processes}.
Variables (cwd config : string) (ModTime : string → option Time) (empty_log : bool) (partial : nat → string → bool).

Create HintDb maintenance.
Lemma tick_Abs p w : tick_only w (snd (Abs cwd p w)).
Proof. unfold Abs. destruct (IsAbs p); [apply tick_only_refl|]. by apply tick_guarded. Qed.
Lemma tick_StatDir p w : tick_only w (snd (os_StatDir p w)).
Proof. apply tick_guarded. intros v. by case_match. Qed.
Lemma tick_stat_target d t w : tick_only w (snd (stat_target empty_log d t w)).
Proof. unfold stat_target, fault. by destruct w. Qed.
#[local] Hint Resolve tick_Abs tick_StatDir tick_stat_target tick_ReadDir tick_read_state : maintenance.
Lemma still {X} (m : act X) : (∀ w, tick_only w (snd (m w))) → acts tick_only (atom m).
Proof. by apply (quiet tick_only). Qed.
Ltac each_call := repeat first [exact I | solve [auto with maintenance] | by (apply still; auto with maintenance) | by (apply still; intros [])
  | apply acts_bind; [|intros ?] | case_match].

Lemma base_still args : acts tick_only (resolveBaseDir cwd config args).
Proof. unfold resolveBaseDir. each_call. Qed.
Lemma list_still d n : acts tick_only (ListExpiredEventFiles d ModTime n).
Proof. unfold ListExpiredEventFiles. each_call. Qed.
Lemma running_still : acts tick_only daemonRunning.
Proof. unfold daemonRunning. each_call. Qed.
Lemma targets_still d ts : acts tick_only (find_targets empty_log d ts).
Proof. induction ts as [|t ts IH]; cbn [find_targets]; each_call. Qed.
#[local] Hint Resolve base_still list_still running_still targets_still : maintenance.

Definition prune_consent (fl : prune_flags) (input : confirmation) : Prop :=
  pf_rebuild_index fl = true ∨
  pf_execute fl = true ∧ (pf_json fl = true ∨ pf_yes fl = true ∨ confirm input = Ok true).
Lemma prune_still fl args input : ¬ prune_consent fl input → acts tick_only (archive_prune cwd config ModTime fl args input).
Proof.
  unfold prune_consent. intros Hn. unfold archive_prune. destruct (pf_execute fl && pf_dry_run fl); [done|].
  apply acts_bind; [auto with maintenance|]. intros [base|e]; [|done]. destruct (pf_rebuild_index fl); [tauto|].
  apply acts_bind; [auto with maintenance|]. intros [files|e]; [|done].
  destruct (pf_execute fl), (pf_json fl); cbn [andb negb]; try done; try tauto; (case_bool_decide; [done|]); try done.
  destruct (pf_yes fl); [tauto|]. destruct (confirm input) as [[]|e]; [tauto|done|done].
Qed.
Lemma clean_still yes answer args : consents yes answer = false → acts tick_only (clean_cmd empty_log partial cwd config yes answer args).
Proof.
  intros Hn. unfold clean_cmd. apply acts_bind; [auto with maintenance|]. intros [base|e]; [|done]. cbv zeta.
  apply acts_bind; [apply still; auto with maintenance|]. intros [[]|e]; [|done|done].
  apply acts_bind; [auto with maintenance|]. intros r. apply acts_bind; [unfold collectCleanTargets; auto with maintenance|]. intros ts.
  apply acts_bind; [apply still; auto with maintenance|]. intros v. rewrite Hn, orb_true_r. done.
Qed.
Definition purge_consent (fl : purge_flags) (input : confirmation) : Prop :=
  gf_execute fl = true ∧ (gf_yes fl = true ∨ confirm input = Ok true).
Lemma purge_still fl input : ¬ purge_consent fl input → acts (on_host adds_dirs) (purge config fl input).
Proof.
  unfold purge_consent. intros Hn. pose proof (on_host_PreOrder adds_dirs) as HP. unfold purge.
  apply acts_bind; [apply acts_store, (quiet _ tick_adds), tick_Stat|]. intros [u|e]; [|done].
  apply acts_bind; [apply (db_acts _ tick_adds mkdir_adds)|]. intros [u'|e]; [|done].
  apply acts_bind; [|intros r; apply acts_bind; [apply handle_acts, _|done]].
  unfold purge_open. apply acts_bind; [apply acts_store, (quiet _ tick_adds), tick_dead|]. intros [n|e]; [|done].
  destruct (gf_execute fl); [|by rewrite orb_true_r]. destruct (bool_decide (n = 0)); [done|]. cbn [orb negb].
  destruct (gf_yes fl); [tauto|]. destruct (confirm input) as [[]|e]; [tauto|done|done].
Qed.
End Consent.

(** C15: Without consent the maintenance commands delete nothing, whatever
    fails: [clean] without [--yes] or the answer y, [archive-prune] without
    [--execute] and, but for JSON output, [--yes] or that answer, and
    [dead-letters purge] without [--execute] and [--yes] or that answer, leave
    files, logs and tables as they are; the last can make the directory of its
    database. *)
Theorem nothing_deleted_without_consent `{ET : EntryText} `{MC : Machine} `{PR : Processes} (cwd config : string)
    (ModTime : string → option Time) (empty_log : bool) (partial : nat → string → bool) (i : nat) (args : list string) (w : World) (h : Host) :
  (∀ yes answer, consents yes answer = false → tick_only w (snd (run i (clean_cmd empty_log partial cwd config yes answer args) w))) ∧
  (∀ fl input, ¬ prune_consent fl input → tick_only w (snd (run i (archive_prune cwd config ModTime fl args input) w))) ∧
  (∀ fl input, ¬ purge_consent fl input → adds_dirs (host_world h) (host_world (snd (run i (purge config fl input) h)))).
Proof.
  split_and!.
  - intros yes answer Hn. by apply (acts_run tick_only), clean_still.
  - intros fl input Hn. by apply (acts_run tick_only), prune_still.
  - intros fl input Hn. pose proof (on_host_PreOrder adds_dirs). by apply (acts_run (on_host adds_dirs)), purge_still.
Qed.

(** ** What [clean] removes *)

Lemma below_sibling d a b : plain a → plain b → a ≠ b → below (path_Join [d; a]) (path_Join [d; b]) = false.
Proof.
  intros Ha Hb Hn. unfold below. rewrite bool_decide_false by (intros [E _]%path_Join_inj; congruence). cbn [orb].
  destruct (HasPrefix _ _) eqn:E; [|done]. apply prefix_spec in E as [r E]. exfalso.
  assert (∃ D, path_Join [d; a] = D +:+ a ∧ path_Join [d; b] = D +:+ b) as (D & Ea & Eb).
  { rewrite !path_Join_plain, !render_snoc by done. destruct (elems d); [destruct (IsAbs d); [by exists "/"|by exists ""]|].
    match goal with |- ∃ D, ?x +:+ String slash a = _ ∧ _ => exists (x +:+ "/") end. by rewrite <- !app_str_assoc. }
  rewrite Ea, Eb, <- !app_str_assoc in E. apply app_str_inj in E. destruct Hb as (_ & _ & _ & Hb).
  rewrite E, !has_byte_app in Hb. cbn in Hb. by rewrite orb_true_r in Hb.
Qed.

Section Cleaned.
Context `{MC : Machine} `{PR : Processes}.
Variables (empty_log : bool) (partial : nat → string → bool) (stateDir : string).
Abbreviation path t := (Clean (target_path stateDir t)).

(** Outside the three directories nothing changes, nor does the provider state. *)
Record spared (w w' : World) : Prop := {
  sp_fs : ∀ k, below (path TRun) k = false → below (path TEvents) k = false → below (path TVenv) k = false → w_fs w' !! k = w_fs w !! k;
  sp_rest : sf_provider (w_state w') = sf_provider (w_state w) ∧ w_env w' = w_env w }.
#[export] Instance spared_PreOrder : PreOrder spared.
Proof.
  split; [by constructor|]. intros u v w [F1 [P1 E1]] [F2 [P2 E2]]. constructor; [|split; congruence].
  intros k H1 H2 H3. by rewrite F2, F1.
Qed.
(** What is gone stays gone. *)
Definition target_gone (t : target) (w : World) : Prop :=
  match t with
  | TLog => w_dlog w = []
  | TPid => sf_pid (w_state w) = None
  | TStarted => sf_started (w_state w) = None
  | TRun => (∀ k, below (path TRun) k = true → w_fs w !! k = None) ∧ w_staged w = [] ∧ w_dedup w = [] ∧ w_queue w = [] ∧ sf_filter (w_state w) = None
  | TEvents | TVenv => ∀ k, below (path t) k = true → w_fs w !! k = None
  end.

Lemma lookup_filter_gone (gone : string → bool) (m : gmap string node) k :
  filter (λ e : string * node, gone (fst e) = false) m !! k = if gone k then None else m !! k.
Proof.
  destruct (gone k) eqn:E.
  - apply map_lookup_filter_None. right. intros x _. cbn. by rewrite E.
  - destruct (m !! k) as [x|] eqn:Ex; [by apply map_lookup_filter_Some|by apply map_lookup_filter_None; left].
Qed.
Lemma remove_paths_fs gone w k : w_fs (remove_paths gone w) !! k = if gone k then None else w_fs w !! k.
Proof. unfold remove_paths. cbn. apply lookup_filter_gone. Qed.
Lemma remove_run_world run gone w :
  (∀ k, w_fs (remove_run run gone w) !! k = if below run k && gone k then None else w_fs w !! k) ∧
  (∀ rows, w_staged w = rows → w_staged (remove_run run gone w) = [] ∨ w_staged (remove_run run gone w) = rows) ∧
  (w_dedup (remove_run run gone w) = [] ∨ w_dedup (remove_run run gone w) = w_dedup w) ∧
  (w_queue (remove_run run gone w) = [] ∨ w_queue (remove_run run gone w) = w_queue w) ∧
  (sf_filter (w_state (remove_run run gone w)) = None ∨ sf_filter (w_state (remove_run run gone w)) = sf_filter (w_state w)) ∧
  w_dlog (remove_run run gone w) = w_dlog w ∧ sf_pid (w_state (remove_run run gone w)) = sf_pid (w_state w) ∧
  sf_started (w_state (remove_run run gone w)) = sf_started (w_state w) ∧
  sf_provider (w_state (remove_run run gone w)) = sf_provider (w_state w) ∧ w_env (remove_run run gone w) = w_env w.
Proof.
  split_and!; try done.
  - intros k. unfold remove_run. by rewrite remove_paths_fs.
  - intros rows <-. unfold remove_run. destruct (gone (path_Join [run; "delivery.db"])); [by left|by right].
  - unfold remove_run. destruct (gone (path_Join [run; "delivery_dedup.db"])); [by left|by right].
  - unfold remove_run. destruct (gone (path_Join [run; "error_queue.db"])); [by left|by right].
  - unfold remove_run. destruct (gone (path_Join [run; "delivered.bloom"])); [by left|by right].
Qed.

Lemma RemoveAll_spared t w : spared w (snd (os_RemoveAll partial stateDir t w)).
Proof.
  unfold os_RemoveAll, fault. cbn [snd]. set (gone := λ k, _ : bool).
  destruct t; cbn [target_path].
  - case_match; by constructor.
  - destruct (remove_run_world (path TRun) gone (bump w)) as (F & _ & _ & _ & _ & _ & _ & _ & P & E).
    constructor; [|by split]. intros k H1 _ _. cbn [target_path] in F. rewrite F. cbn [target_path] in H1. by rewrite H1.
  - case_match; by constructor.
  - case_match; by constructor.
  - constructor; [|done]. intros k _ H _. rewrite remove_paths_fs. cbn [target_path] in H. by rewrite H.
  - constructor; [|done]. intros k _ _ H. rewrite remove_paths_fs. cbn [target_path] in H. by rewrite H.
Qed.
Lemma RemoveAll_gone t w : env_fault (w_env w) (w_tick w) = None → target_gone t (snd (os_RemoveAll partial stateDir t w)).
Proof.
  intros Hf. unfold os_RemoveAll, fault. rewrite Hf. cbn [snd]. destruct t; cbn [target_gone target_path]; try done.
  - destruct (remove_run_world (path TRun) (λ _, true) (bump w)) as (F & _). split; [intros k H; cbn [target_path] in F; rewrite F; by rewrite H|]. done.
  - intros k H. by rewrite remove_paths_fs, H.
  - intros k H. by rewrite remove_paths_fs, H.
Qed.
Lemma RemoveAll_keeps_gone t t' w : target_gone t w → target_gone t (snd (os_RemoveAll partial stateDir t' w)).
Proof.
  intros Hg. unfold os_RemoveAll, fault. cbn [snd]. set (gone := λ k, _ : bool).
  assert (∀ f k, w_fs w !! k = None → w_fs (remove_paths f (bump w)) !! k = None) as HF.
  { intros f k Hk. rewrite remove_paths_fs. by case_match. }
  destruct t'.
  - by destruct t; cbn [target_gone] in *; case_match.
  - destruct (remove_run_world (path TRun) gone (bump w)) as (F & S & D & Q & B & L & P & T & _).
    cbn [target_path] in *. destruct t; cbn [target_gone] in *; [by rewrite L| |by rewrite P|by rewrite T| |].
    + destruct Hg as (G & G1 & G2 & G3 & G4). split; [intros k H; rewrite F; case_match; auto|].
      split_and!; [by destruct (S [] G1)|destruct D as [D|D]; [exact D|exact (eq_trans D G2)]|destruct Q as [Q|Q]; [exact Q|exact (eq_trans Q G3)]
        |destruct B as [B|B]; [exact B|exact (eq_trans B G4)]].
    + intros k H. rewrite F. case_match; auto.
    + intros k H. rewrite F. case_match; auto.
  - by destruct t; cbn [target_gone] in *; case_match.
  - by destruct t; cbn [target_gone] in *; case_match.
  - destruct t; cbn [target_gone] in *; try done; [|auto..]. destruct Hg as (G & ?). split; [auto|done].
  - destruct t; cbn [target_gone] in *; try done; [|auto..]. destruct Hg as (G & ?). split; [auto|done].
Qed.
End Cleaned.

Section CleanRun.
Context `{MC : Machine} `{PR : Processes}.
Variables (empty_log : bool) (partial : nat → string → bool) (cwd config : string) (i : nat).
Abbreviation there d w := (λ t, target_there empty_log d t w).

Lemma remove_spared d ts n w :
  spared d w (snd (run i (remove_targets partial d ts n) w)).
Proof.
  revert n w. induction ts as [|t ts IH]; intros n w; cbn [remove_targets]; [reflexivity|].
  rewrite run_mbind, run_atom. pose proof (RemoveAll_spared partial d t w) as H. destruct (os_RemoveAll partial d t w) as [e w1]. cbn [snd] in H.
  etrans; [exact H|]. apply IH.
Qed.
(** Without failures every target is removed and counted. *)
Lemma remove_gone d ts n w : no_faults (w_env w) →
  let '(r, w') := run i (remove_targets partial d ts n) w in
  r = n + length ts ∧ (∀ t, t ∈ ts ∨ target_gone d t w → target_gone d t w').
Proof.
  revert n w. induction ts as [|t ts IH]; intros n w He; cbn [remove_targets].
  { cbn. split; [lia|]. intros t [H|H]; [by apply elem_of_nil in H|done]. }
  rewrite run_mbind, run_atom. pose proof (RemoveAll_spared partial d t w) as [_ [_ Ee]].
  pose proof (RemoveAll_gone partial d t w (He _)) as Hg. pose proof (λ t', RemoveAll_keeps_gone partial d t' t w) as Hk.
  assert (fst (os_RemoveAll partial d t w) = None) as Ef by (unfold os_RemoveAll, fault; by rewrite He).
  destruct (os_RemoveAll partial d t w) as [e w1]. cbn [fst snd] in *. subst e.
  specialize (IH (S n) w1). rewrite Ee in IH. specialize (IH He). destruct (run i _ w1) as [r w']. destruct IH as [-> IH].
  split; [cbn; lia|]. intros t' [[->|H]%elem_of_cons|H]; apply IH; [by right|by left|right; by apply Hk].
Qed.

Lemma there_tick d t w v : tick_only w v → target_there empty_log d t v = target_there empty_log d t w.
Proof. intros ->. done. Qed.
Lemma tells_find d ts w : tells i (find_targets empty_log d ts) (eq (List.filter (there d w) ts)) w.
Proof.
  revert w. induction ts as [|t ts IH]; intros w; cbn [find_targets List.filter]; [by apply tells_ret|].
  eapply (tells_bind i _ _ (eq (target_there empty_log d t w))).
  { intros He. apply runs_atom. split; [apply tick_stat_target|]. unfold stat_target, fault. rewrite He. done. }
  intros s v Hv <-. eapply tells_bind; [apply IH|]. intros l u Hu <-. apply tells_ret.
  assert (List.filter (there d v) ts = List.filter (there d w) ts) as ->; [|by destruct (target_there empty_log d t w)].
  apply List.filter_ext. intros t'. by apply there_tick.
Qed.
End CleanRun.

Definition all_targets : list target := [TLog; TRun; TPid; TStarted; TEvents; TVenv].

(** C16: [clean] touches nothing but the delivery log, the PID and start files
    and what is in [.run], [events] and the validator's environment, whatever
    fails: other entries of the state directory, the configuration among them,
    and the provider state stay.  Without failures, and with consent, it
    removes every one of those that is there and counts them. *)
Theorem clean_removes_runtime_state `{MC : Machine} `{PR : Processes} (empty_log : bool) (partial : nat → string → bool) (cwd config : string)
    (i : nat) (yes : bool) (answer : string) (args : list string) (base : string) (w : World) :
  fst (run i (resolveBaseDir cwd config args) w) = Ok base →
  let d := path_Join [base; StateDir] in
  let '(r, w') := run i (clean_cmd empty_log partial cwd config yes answer args) w in
  spared d w w' ∧
  (∀ name, plain name → name ∉ [".run"; "events"] → let k := path_Join [d; name] in
    below (Clean (target_path d TVenv)) k = false → w_fs w' !! k = w_fs w !! k) ∧
  (no_faults (w_env w) → consents yes answer = true → lookup_path w d = Some NDir →
   let found := List.filter (λ t, target_there empty_log d t w) all_targets in
   (∃ running, r = Ok (running, if bool_decide (found = []) then None else Some (length found))) ∧
   ∀ t, t ∈ found → target_gone d t w').
Proof.
  intros Hb d. destruct (run i (clean_cmd _ _ _ _ _ _ _) w) as [r w'] eqn:E.
  assert (∀ w, acts tick_only (resolveBaseDir cwd config args) ∧ spared d w w) as Hbase by (intros v; split; [apply base_still|reflexivity]).
  assert (∀ u v, tick_only u v → spared d u v) as Hts by (intros u v ->; by constructor).
  assert (spared d w w' ∧ (no_faults (w_env w) → consents yes answer = true → lookup_path w d = Some NDir →
    let found := List.filter (λ t, target_there empty_log d t w) all_targets in
    (∃ running, r = Ok (running, if bool_decide (found = []) then None else Some (length found))) ∧ ∀ t, t ∈ found → target_gone d t w')) as [HS HG].
  2: { split; [exact HS|]. split; [|exact HG]. intros name Hn [N1 [N2 _]%not_elem_of_cons]%not_elem_of_cons k Hv. apply HS; [| |exact Hv].
    - cbn [target_path]. rewrite (Clean_Join d ".run") by done. apply below_sibling; [done|done|by apply not_eq_sym].
    - cbn [target_path]. rewrite (Clean_Join d "events") by done. apply below_sibling; [done|done|by apply not_eq_sym]. }
  revert E. unfold clean_cmd. rewrite run_mbind.
  pose proof (acts_run tick_only i _ w (base_still cwd config args)) as H1. destruct (run i (resolveBaseDir cwd config args) w) as [b w1].
  cbn [fst snd] in *. subst b. fold d. rewrite run_mbind, run_atom. pose proof (tick_StatDir d w1) as H2.
  assert (no_faults (w_env w) → lookup_path w d = Some NDir → fst (os_StatDir d w1) = Ok true) as Hst.
  { intros He Hd. unfold os_StatDir, guarded, fault. rewrite (proj1 (tick_env _ _ H1)), He. unfold lookup_path in *.
    change (w_fs (bump w1)) with (w_fs w1). by rewrite (tick_fs _ _ H1), Hd. }
  destruct (os_StatDir d w1) as [info w2]. cbn [fst snd] in *. assert (tick_only w w2) as T2 by (by eapply tick_only_trans).
  destruct info as [[]|e]; [|intros [= <- <-]; split; [by apply Hts|]; intros He _ Hd; specialize (Hst He Hd); done..].
  clear Hst. rewrite run_mbind. pose proof (acts_run tick_only i _ w2 running_still) as H3. destruct (run i daemonRunning w2) as [running w3].
  cbn [snd] in H3. assert (tick_only w w3) as T3 by (by eapply tick_only_trans). rewrite run_mbind. unfold collectCleanTargets.
  set (five := [TLog; TRun; TPid; TStarted; TEvents]).
  pose proof (acts_run tick_only i _ w3 (targets_still empty_log d five)) as H4.
  pose proof (tells_find empty_log i d five w3) as HF. unfold tells, runs in HF. destruct (run i (find_targets empty_log d five) w3) as [ts w4].
  cbn [fst snd] in *. assert (tick_only w w4) as T4 by (by eapply tick_only_trans). rewrite run_mbind, run_atom.
  pose proof (tick_stat_target empty_log d TVenv w4) as H5.
  assert (no_faults (w_env w) → fst (stat_target empty_log d TVenv w4) = target_there empty_log d TVenv w) as Hv.
  { intros He. unfold stat_target, fault. rewrite (proj1 (tick_env _ _ T4)), He. cbn [fst]. by rewrite <- (there_tick empty_log d TVenv w w4 T4). }
  destruct (stat_target empty_log d TVenv w4) as [venv w5]. cbn [fst snd] in *. assert (tick_only w w5) as T5 by (by eapply tick_only_trans).
  set (targets := ts ++ _).
  assert (no_faults (w_env w) → targets = List.filter (λ t, target_there empty_log d t w) all_targets) as Ht.
  { intros He. unfold targets. rewrite (Hv He). destruct HF as [_ <-]; [by rewrite (proj1 (tick_env _ _ T3))|].
    change all_targets with (five ++ [TVenv]). rewrite List.filter_app. f_equal. apply List.filter_ext. intros t. by apply there_tick. }
  destruct (bool_decide (targets = []) || negb (consents yes answer)) eqn:Eb.
  - intros [= <- <-]. split; [by apply Hts|]. intros He Hc _. rewrite Hc, orb_false_r in Eb. rewrite Ht in Eb by done.
    cbv zeta. rewrite Eb. apply bool_decide_eq_true in Eb as ->. split; [by eexists|]. by intros t []%elem_of_nil.
  - rewrite run_mbind. pose proof (remove_spared partial i d targets 0 w5) as H6. pose proof (remove_gone partial i d targets 0 w5) as H7.
    destruct (run i (remove_targets partial d targets 0) w5) as [n w6]. cbn [snd] in H6. intros [= <- <-].
    split; [etrans; [by apply Hts|exact H6]|]. intros He Hc _. cbv zeta. rewrite <- Ht by done.
    destruct H7 as [-> H7]; [by rewrite (proj1 (tick_env _ _ T5))|]. rewrite Hc, orb_false_r in Eb. rewrite Eb.
    split; [by eexists|]. intros t Hi. apply H7. by left.
Qed.

(** Without failures, and with consent, the purge removes the dead letters
    from the delivery table, all and only those, and returns their number. *)
Theorem purge_removes_dead_letters (config : string) (fl : purge_flags) (input : confirmation) (i : nat) (h : Host) :
  let w := host_world h in
  let dead := List.filter Staged.dead_letter (w_staged w) in
  no_faults (w_env w) → purge_consent fl input →
  is_Some (lookup_path w (path_Join [configBase config; ".run"; "delivery.db"])) →
  w_fs w !! Clean (path_Join [configBase config; ".run"]) = Some NDir →
  runs i (purge config fl input) (λ r h',
    r = Ok (Some (length dead, length dead)) ∧
    w_staged (host_world h') = List.filter (λ r, negb (Staged.dead_letter r)) (w_staged w) ∧
    w_fs (host_world h') = w_fs w ∧ own i h' = own i h) h.
Proof.
  intros w dead He [Hx Hc] Hdb Hd. assert (sees i w (own i h) h) as G0 by (split; [apply tick_only_refl|done]).
  unfold purge. apply runs_bind. eapply (sees_world i _ (eq (Ok tt))); [done|exact G0| |].
  { intros v Hv Hf. apply runs_atom. split; [apply tick_Stat|]. unfold os_Stat, guarded, fault. rewrite Hf. unfold lookup_path in *.
    change (w_fs (bump v)) with (w_fs v). rewrite (tick_fs _ _ Hv). by destruct Hdb as [n ->]. }
  intros st h1 <- G1. apply runs_bind. eapply sees_db; [done|exact Hd|exact G1|]. intros h2 G2. apply runs_bind.
  unfold purge_open. apply runs_bind. eapply (sees_world i _ (eq (Ok (length dead)))); [done|exact G2| |].
  { intros v Hv Hf. apply runs_atom. split; [apply tick_dead|]. unfold Staged.DeadLetterCount, guarded, fault. rewrite Hf. by rewrite Hv. }
  intros c h3 <- [T3 O3]. rewrite Hx. cbn [negb]. rewrite orb_false_r.
  assert (∀ h4, own i h4 = HDelivery :: own i h → own i (set_open (drop_first (i, HDelivery) (h_open h4)) h4) = own i h) as Hown.
  { intros h4 O4. unfold own in *. cbn [set_open h_open]. rewrite own_in_drop, bool_decide_true, O4 by done. cbn [drop_one]. by rewrite bool_decide_true. }
  case_bool_decide as Hn.
  - apply runs_ret. apply runs_bind, runs_atom_by. apply runs_ret. cbn [snd]. split_and!; [by rewrite Hn| | |by apply Hown].
    + change (w_staged (host_world h3) = List.filter (λ r, negb (Staged.dead_letter r)) (w_staged w)). rewrite (f_equal w_staged T3). cbn [w_staged set_tick].
      apply nil_length_inv in Hn. unfold dead in Hn. clear -Hn. induction (w_staged w) as [|r l IH]; [done|]. cbn in *.
      destruct (Staged.dead_letter r); [done|]. cbn. by f_equal; apply IH.
    + exact (f_equal w_fs T3).
  - assert (Ok true = (if gf_yes fl then Ok true else confirm input)) as <- by (destruct Hc as [->|Hc]; [done|by case_match]).
    apply runs_bind. apply (runs_mono i _ (λ a h4, a = Ok (length dead) ∧
      w_staged (host_world h4) = List.filter (λ r, negb (Staged.dead_letter r)) (w_staged w) ∧ w_fs (host_world h4) = w_fs w ∧
      own i h4 = HDelivery :: own i h)).
    2: { unfold runs, on_world. destruct (run_on_store i (lift (atom Staged.PurgeDeadLetters)) h3) as (E1 & E2 & _ & E4).
      assert (runs i (lift (atom Staged.PurgeDeadLetters)) (λ a s, a = Ok (length dead) ∧
        w_staged (st_world s) = List.filter (λ r, negb (Staged.dead_letter r)) (w_staged w) ∧ w_fs (st_world s) = w_fs w) (h_store h3)) as HP.
      { apply runs_lift, runs_atom. unfold Staged.PurgeDeadLetters, guarded, fault.
        change (st_world (h_store h3)) with (host_world h3). assert (w_env (host_world h3) = w_env w) as Ee by exact (f_equal w_env T3).
        assert (w_staged (host_world h3) = w_staged w) as Es by exact (f_equal w_staged T3).
        rewrite Ee, (He _). cbn [w_env bump set_tick set_staged]. rewrite Ee, (He _). cbn [fst snd st_world w_staged w_fs bump set_tick set_staged].
        rewrite Es. split_and!; [done|done|exact (f_equal w_fs T3)]. }
      unfold runs in HP. rewrite E1. unfold host_world. rewrite E2. destruct HP as (-> & Hs & Hf). split_and!; [done|done|done|].
      unfold own in *. by rewrite E4, O3. }
    intros a h4 (-> & Hs & Hf & Ho).
    apply runs_ret. apply runs_bind, runs_atom_by. apply runs_ret. cbn [snd]. split_and!; [done|exact Hs|exact Hf|by apply Hown].
Qed.

(** ** Samples *)

Definition clean_world : World :=
  set_state (mkState None (Some []) (Some "4711") (Some "2024-02-29T06:00:00Z"))
    (set_fs {["/p" := NDir; "/p/.phonewave" := NDir; "/p/.phonewave/config.yaml" := NFile (raw "x"); "/p/.phonewave/.run" := NDir;
      "/p/.phonewave/.run/daemon.lock" := NFile []; "/p/.phonewave/events" := NDir; "/p/.phonewave/events/2024-02-29.jsonl" := NFile [];
      "/p/.phonewave/.run/delivery.db" := NFile []]} (set_dlog ["x"] status_world)).

Lemma config_is_kept : plain "config.yaml" ∧ "config.yaml" ∉ [".run"; "events"].
Proof. split; [done|by apply (bool_decide_unpack _)]. Qed.

Lemma clean_removes_runtime_state_witness :
  let '(r, w') := run 0 (clean_cmd (MC := sample_machine) (PR := sample_processes) false (λ _ _, true) "/" "/p/.phonewave/config.yaml" false "y" ["/p"]) clean_world in
  r = Ok (false, Some 5) ∧ w_fs w' !! "/p/.phonewave/config.yaml" = Some (NFile (raw "x")) ∧
  w_fs w' !! "/p/.phonewave/.run/daemon.lock" = None ∧ sf_pid (w_state w') = None.
Proof.
  pose proof (clean_removes_runtime_state (MC := sample_machine) (PR := sample_processes) false (λ _ _, true) "/" "/p/.phonewave/config.yaml"
    0 false "y" ["/p"] "/p" clean_world ltac:(vm_compute; reflexivity)) as HT. cbv zeta in HT.
  destruct (run 0 (clean_cmd _ _ _ _ _ _ _) clean_world) as [r w'] eqn:E. destruct HT as (_ & HK & HG).
  destruct HG as [[running HR] HG]; [by intros n|reflexivity|vm_compute; reflexivity|].
  split_and!.
  - etrans; [symmetry; exact (f_equal fst E)|vm_compute; reflexivity].
  - assert (path_Join [path_Join ["/p"; StateDir]; "config.yaml"] = "/p/.phonewave/config.yaml") as Ep by (vm_compute; reflexivity).
    specialize (HK "config.yaml"). rewrite Ep in HK.
    destruct config_is_kept as [Hpl Hni]. specialize (HK Hpl Hni).
    assert (below (Clean (target_path (MC := sample_machine) (path_Join ["/p"; StateDir]) TVenv)) "/p/.phonewave/config.yaml" = false) as Hb by (vm_compute; reflexivity).
    specialize (HK Hb).
    rewrite HK. vm_compute. reflexivity.
  - apply (HG TRun); [apply list_elem_of_In; vm_compute; tauto|vm_compute; reflexivity].
  - apply (HG TPid). apply list_elem_of_In. vm_compute. tauto.
Defined.

Lemma nothing_deleted_without_consent_witness :
  tick_only clean_world (snd (run 0 (clean_cmd (MC := sample_machine) (PR := sample_processes) false (λ _ _, true) "/" "/p/.phonewave/config.yaml" false "yes" []) clean_world)) ∧
  tick_only clean_world (snd (run 0 (archive_prune (ET := sample_entry_text) "/" "/p/.phonewave/config.yaml" (λ _, Some 0%Z)
    (mkPruneFlags true false false false false 30) [] (NoLine None)) clean_world)).
Proof.
  destruct (nothing_deleted_without_consent (ET := sample_entry_text) (MC := sample_machine) (PR := sample_processes) "/" "/p/.phonewave/config.yaml"
    (λ _, Some 0%Z) false (λ _ _, true) 0 [] clean_world mcp_host) as (H1 & H2 & _).
  split; [by apply H1|]. apply H2. intros [H|[_ [H|[H|H]]]]; discriminate H.
Defined.

Definition purge_host : Host :=
  mkHost (mkStore (set_fs {["/p/.run" := NDir; "/p/.run/delivery.db" := NFile []]}
    (set_staged [mkStaged "/o/a" "/i/a" [] false Staged.maxDeliveryRetryCount; mkStaged "/o/a" "/i/b" [] true Staged.maxDeliveryRetryCount] status_world)) 1) (λ _, 0) ∅ [] [].
Lemma purge_removes_dead_letters_witness :
  runs 0 (purge "/p/config.yaml" (mkPurgeFlags true false) (Line " Y")) (λ r h', r = Ok (Some (1, 1)) ∧ length (w_staged (host_world h')) = 1) purge_host.
Proof.
  eapply runs_mono; [|apply (purge_removes_dead_letters "/p/config.yaml" (mkPurgeFlags true false) (Line " Y") 0 purge_host)].
  - intros r h' (-> & -> & _). vm_compute. done.
  - by intros n.
  - split; [done|]. right. vm_compute. done.
  - vm_compute. by eexists.
  - vm_compute. done.
Defined.

(** A daemon of another user is not reported here, though [status] and the
    doctor see it run: the two checks of a process differ. *)
Example other_user_unseen :
  fst (run 0 (daemonRunning (PR := sample_processes)) clean_world) = false ∧
  fst (run 0 (checkDaemonStatus (PR := sample_processes)) clean_world) = mkDaemonStatus true true 4711.
Proof. by vm_compute. Qed.
