(* ===== verification/CommandLine.v ===== *)
(** * The command line

    Models [cmd/default_run.go], the command and flag tables of
    [cmd/root.go], [run] of [cmd/phonewave/main.go] with [domain.ExitCode],
    [cmd/otelenv.go], [platform/otel_env.go], [cmd/init.go] and
    [cmd/metrics.go].  Cobra parses the flags and picks the command: what it
    returns is a parameter of [main_run], and the commands take the values of
    their flags.  The environment of the process is a map. *)
From S2P Require Import Prelude GoStrings GoPath GoTime DMail Router Prog World SetupSafety Setup Files Insight Events EventStore Cutover StateDirs ConfigFile Wiring Metrics Skills Maintenance.

#[local] Open Scope nat_scope.

(** ** [root.go]: flags that every command has, and the commands *)

Record flag := mkFlag { fl_Name : string; fl_Shorthand : string; fl_Type : string }.
Definition persistent_flags : list flag :=
  [mkFlag "verbose" "v" "bool"; mkFlag "no-color" "" "bool"; mkFlag "quiet" "q" "bool";
   mkFlag "config" "c" "string"; mkFlag "output" "o" "string"; mkFlag "linear" "" "bool"].
(** Names and aliases; no command has an alias. *)
Definition commands : list (string * list string) :=
  (λ n, (n, [])) <$>
  ["init"; "add"; "remove"; "sync"; "doctor"; "run"; "status"; "metrics"; "clean"; "archive-prune";
   "dead-letters"; "version"; "update"; "mcp"].

(** ** [default_run.go] *)

Section DefaultRun.
Variables (flags : list flag) (cmds : list (string * list string)).

Definition asks_help (arg : string) : bool := bool_decide (arg ∈ ["--version"; "--help"; "-h"]).
Definition known : list string := ["help"; "completion"] ++ (c ← cmds; fst c :: snd c).
Definition valueTakers : list string :=
  f ← flags;
  if bool_decide (fl_Type f = "bool") then []
  else ("--" +:+ fl_Name f) :: (if bool_decide (fl_Shorthand f = "") then [] else ["-" +:+ fl_Shorthand f]).

(** The flag takes the next argument as its value. *)
Definition takes_value (arg : string) : bool := negb (Contains arg "=") && bool_decide (arg ∈ valueTakers).
Fixpoint scan_args (skipNext : bool) (args : list string) : bool :=
  match args with
  | [] => true
  | arg :: r =>
      if skipNext then scan_args false r
      else if bool_decide (arg = "--") then true
      else if HasPrefix arg "-" then scan_args (takes_value arg) r
      else if bool_decide (arg ∈ known) then false
      else scan_args false r
  end.
Definition NeedsDefaultRun (args : list string) : bool :=
  if length args =? 0 then true
  else if existsb asks_help args then false
  else scan_args false args.

(** ** The reading of a command line *)

(** A flag, a flag with its value, or a word. *)
Inductive token := TFlag (arg : string) | TValue (arg v : string) | TWord (w : string).
Definition well_formed (t : token) : Prop :=
  match t with
  | TFlag arg => HasPrefix arg "-" = true ∧ arg ≠ "--" ∧ takes_value arg = false
  | TValue arg _ => HasPrefix arg "-" = true ∧ arg ≠ "--" ∧ takes_value arg = true
  | TWord w => HasPrefix w "-" = false
  end.
Definition written (t : token) : list string :=
  match t with TFlag arg => [arg] | TValue arg v => [arg; v] | TWord w => [w] end.
Definition words (ts : list token) : list string :=
  t ← ts; match t with TWord w => [w] | _ => [] end.
(** What may follow: nothing, the end of the flags and anything, or a flag
    whose value is missing. *)
Definition ending (tail : list string) : Prop :=
  tail = [] ∨ (∃ r, tail = "--" :: r) ∨
  (∃ arg, tail = [arg] ∧ HasPrefix arg "-" = true ∧ arg ≠ "--" ∧ takes_value arg = true).
Definition reading_of (args : list string) (ts : list token) : Prop :=
  ∃ tail, args = (t ← ts; written t) ++ tail ∧ Forall well_formed ts ∧ ending tail.

Lemma reading_tail tail : ending tail → reading_of tail [].
Proof. intros H. exists tail. by split_and!. Qed.
Lemma reading_cons t args ts : well_formed t → reading_of args ts → reading_of (written t ++ args) (t :: ts).
Proof.
  intros Ht (tail & -> & Hts & He). exists tail. split_and!; [|by constructor|done].
  rewrite bind_cons. by rewrite app_assoc.
Qed.

(** Every command line can be read. *)
Lemma reading_total args : ∃ ts, reading_of args ts.
Proof.
  remember (length args) as n eqn:En. revert args En.
  induction (Nat.lt_wf_0 n) as [n _ IH]. intros [|arg r] ->; [by exists []; apply reading_tail; left|].
  cbn [length] in IH.
  destruct (HasPrefix arg "-") eqn:Hp.
  - destruct (decide (arg = "--")) as [->|Hn]; [exists []; apply reading_tail; right; left; by exists r|].
    destruct (takes_value arg) eqn:Ht.
    + destruct r as [|v r]; [exists []; apply reading_tail; right; right; by exists arg|].
      destruct (IH (length r) ltac:(cbn; lia) r eq_refl) as [ts Hts]. exists (TValue arg v :: ts).
      by apply (reading_cons (TValue arg v)).
    + destruct (IH (length r) ltac:(lia) r eq_refl) as [ts Hts]. exists (TFlag arg :: ts).
      by apply (reading_cons (TFlag arg)).
  - destruct (IH (length r) ltac:(lia) r eq_refl) as [ts Hts]. exists (TWord arg :: ts).
    by apply (reading_cons (TWord arg)).
Qed.

Lemma scan_ending tail : ending tail → scan_args false tail = true.
Proof.
  intros [->|[[r ->]|(arg & -> & Hp & Hn & Ht)]]; [done..|]. cbn [scan_args].
  by rewrite bool_decide_false, Hp by done.
Qed.
Lemma scan_reading args ts :
  reading_of args ts → scan_args false args = forallb (λ w, negb (bool_decide (w ∈ known))) (words ts).
Proof.
  intros (tail & -> & Hts & He). induction Hts as [|t ts Ht Hts IH]; [by apply scan_ending|].
  rewrite bind_cons, <- app_assoc. unfold words. rewrite bind_cons, forallb_app. fold (words ts). rewrite <- IH.
  destruct t as [arg|arg v|w]; cbn [well_formed written app scan_args forallb] in *.
  - destruct Ht as (Hp & Hn & Ht). by rewrite bool_decide_false, Hp, Ht by done.
  - destruct Ht as (Hp & Hn & Ht). by rewrite bool_decide_false, Hp, Ht by done.
  - rewrite bool_decide_false, Ht by (by intros ->). destruct (bool_decide (w ∈ known)); [done|]. by rewrite andb_true_r.
Qed.
End DefaultRun.

(** ** [main.go] *)

(** A command line runs as it is, or as one of [run]. *)
Definition dispatch (args : list string) : list string :=
  if NeedsDefaultRun persistent_flags commands args then "run" :: args else args.

(** An error of a command, and whether a [SilentError] is in its chain. *)
Record cmd_error := mkCmdError { ce_err : error; ce_silent : bool }.
Definition ExitCode (err : option cmd_error) : Z := match err with None => 0 | Some _ => 1 end.

(** [run]: the exit code and what is written to standard error.  [execute] is
    [ExecuteContext]; [cancelled] is whether a signal has cancelled the context
    when it returns. *)
Definition main_run (execute : list string → option cmd_error) (cancelled : bool) (args : list string) : Z * list string :=
  let err := execute (dispatch args) in
  if match err with Some e => errors_Is (ce_err e) ErrContext && cancelled | None => false end then (130%Z, [])
  else (ExitCode err,
        match err with
        | Some e => if ce_silent e then [] else ["error: " +:+ err_msg (ce_err e)]
        | None => []
        end).

(** ** [os.Getenv], [os.Setenv], [os.ExpandEnv] *)

Abbreviation environ := (gmap string string).
Definition Getenv (env : environ) (key : string) : string := default "" (env !! key).
Definition nul : ascii := "000".
Definition Setenv (key value : string) (env : environ) : result environ :=
  if bool_decide (key = "") || has_byte "=" key || has_byte nul key || has_byte nul value
  then Err (errors_New "setenv: invalid argument") else Ok (<[key := value]> env).

Definition isShellSpecialVar (c : ascii) : bool :=
  has_byte c "*#$@!?-" || ((48 <=? byte_val c) && (byte_val c <=? 57))%Z.
Definition isAlphaNum (c : ascii) : bool :=
  let v := byte_val c in
  bool_decide (c = "_"%char) || ((48 <=? v) && (v <=? 57))%Z || ((97 <=? v) && (v <=? 122))%Z || ((65 <=? v) && (v <=? 90))%Z.
Fixpoint take_name (s : bytes) : bytes :=
  match s with c :: r => if isAlphaNum c then c :: take_name r else [] | [] => [] end.
(** The text before the closing brace. *)
Fixpoint braced (s : bytes) : option bytes :=
  match s with
  | [] => None
  | c :: r => if bool_decide (c = "}"%char) then Some [] else n ← braced r; Some (c :: n)
  end.
(** The name after a dollar, and how many bytes it takes. *)
Definition getShellName (s : bytes) : bytes * nat :=
  match s with
  | [] => ([], 0)
  | c :: r =>
      if bool_decide (c = "{"%char) then
        match r with
        | a :: b :: _ =>
            if isShellSpecialVar a && bool_decide (b = "}"%char) then ([a], 3) else
            match braced r with Some [] => ([], 2) | Some n => (n, length n + 2) | None => ([], 1) end
        | _ => match braced r with Some [] => ([], 2) | Some n => (n, length n + 2) | None => ([], 1) end
        end
      else if isShellSpecialVar c then ([c], 1)
      else let n := take_name s in (n, length n)
  end.
(** [skip] bytes belong to a name. *)
Fixpoint expand (mapping : string → string) (skip : nat) (s : bytes) : bytes :=
  match s with
  | [] => []
  | c :: r =>
      match skip with
      | S k => expand mapping k r
      | O =>
          if bool_decide (c = "$"%char) && negb (bool_decide (r = [])) then
            let '(name, w) := getShellName r in
            (match name with
             | [] => if w =? 0 then [c] else []
             | _ => raw (mapping (str name))
             end) ++ expand mapping w r
          else c :: expand mapping 0 r
      end
  end.
Definition ExpandEnv (env : environ) (s : string) : string := str (expand (Getenv env) 0 (raw s)).

Example expand_forms :
  let env : environ := {[ "KEY" := "k1"; "1" := "one" ]} in
  ExpandEnv env "a=${KEY}b$KEY-$1x$1$ ${}c${ $" = "a=k1bk1-onexone$ c $".
Proof. reflexivity. Qed.

(** ** [otelenv.go], [otel_env.go] *)

Definition apply_line (env : environ) (l : string) : environ :=
  let l := TrimSpace l in
  if bool_decide (l = "") || HasPrefix l "#" then env else
  match Cut l "=" with
  | None => env
  | Some (key, val) =>
      let key := TrimSpace key in
      let val := ExpandEnv env (TrimSpace val) in
      if bool_decide (Getenv env key = "")
      then match Setenv key val env with Ok env' => env' | Err _ => env end
      else env
  end.
Definition apply_text (env : environ) (data : bytes) : environ := fold_left apply_line (Split (str data) nl) env.
Definition otel_path (stateDir : string) : string := path_Join [stateDir; ".otel.env"].
Definition applyOtelEnv (stateDir : string) (env : environ) : program environ :=
  r ← atom (os_ReadFile (otel_path stateDir));
  mret (match r with Err _ => env | Ok data => apply_text env data end).

Section Otel.
Context `{External}.
Definition OtelEnvContent (backend entity project : string) : result string :=
  if bool_decide (backend = "jaeger") then Ok (line "OTEL_EXPORTER_OTLP_ENDPOINT=http://localhost:4318")
  else if bool_decide (backend = "weave") then
    if bool_decide (entity = "") || bool_decide (project = "")
    then Err (errors_New "weave requires --otel-entity and --otel-project")
    else Ok (line "OTEL_EXPORTER_OTLP_ENDPOINT=https://trace.wandb.ai/otel" +:+
             line "OTEL_EXPORTER_OTLP_HEADERS=wandb-api-key=${WANDB_API_KEY}" +:+
             line ("OTEL_RESOURCE_ATTRIBUTES=wandb.entity=" +:+ entity +:+ ",wandb.project=" +:+ project))
  else if bool_decide (backend = "") then Ok ""
  else Err (errors_New ("unknown otel backend: " +:+ quote backend +:+ " (supported: jaeger, weave)")).

(** ** [init.go] *)

(** The last step: the file for the chosen backend. *)
Definition write_otel (cfgPath backend entity project : string) : program (option error) :=
  if bool_decide (backend = "") then mret None else
  match OtelEnvContent backend entity project with
  | Err otelErr => mret (Some otelErr)
  | Ok content =>
      let stateDir := Dir cfgPath in
      r ← atom (os_MkdirAll stateDir);
      match r with
      | Err err => mret (Some (errorf_w "create state dir: " err))
      | Ok _ =>
          r ← os_WriteFile (otel_path stateDir) (raw content);
          mret (match r with Err err => Some (errorf_w "write .otel.env: " err) | Ok _ => None end)
      end
  end.

Context `{YAML}.
Variable cwd : string.
Variable validateEndpointSkills : string → EndpointConfig → list string.

Fixpoint repo_paths (args : list string) : result (list RepoPath) :=
  match args with
  | [] => Ok []
  | arg :: r => let! rp := NewRepoPath arg in let! rps := repo_paths r in Ok (rp :: rps)
  end.
Definition init_cmd (force : bool) (args : list string) (cfgPath backend entity project : string) : program (option error) :=
  there ← (if force then mret false else r ← atom (os_Stat cfgPath); mret (is_ok r));
  if there : bool
  then mret (Some (errors_New ("already initialized: " +:+ cfgPath +:+ " exists (use --force to overwrite)")))
  else
  match (let! rps := repo_paths args in
         let! _ := NewNonEmptyRepoPaths rps in
         let! _ := NewConfigPath cfgPath in Ok rps) with
  | Err err => mret (Some err)
  | Ok rps =>
      r ← ScanAndInit cwd validateEndpointSkills (rp_v <$> rps) cfgPath;
      match r with
      | Err err => mret (Some err)
      | Ok _ => write_otel cfgPath backend entity project
      end
  end.
End Otel.

(** * The default command *)

(** C31: a command line without a command is one of [run], and this is decided
    by the words of the line.  Every line can be read as a sequence of flags,
    flags with a value and words, up to a flag whose value is missing or the
    end of the flags; and for any such reading, [run] is put in front exactly
    when no argument asks for help or the version and no word is a command.
    The line that cobra gets is then settled: deciding again adds nothing,
    and either it was the user's or it is his with [run] in front. *)
Theorem default_run_reading (flags : list flag) (cmds : list (string * list string)) (args : list string) :
  (∃ ts, reading_of flags args ts) ∧
  (∀ ts, reading_of flags args ts →
     (NeedsDefaultRun flags cmds args = true ↔
      Forall (λ a, asks_help a = false) args ∧ Forall (λ w, w ∉ known cmds) (words ts))) ∧
  NeedsDefaultRun persistent_flags commands (dispatch args) = false ∧
  (dispatch args = args ∨ dispatch args = "run" :: args).
Proof.
  split_and!.
  - apply reading_total.
  - intros ts Hts. unfold NeedsDefaultRun. rewrite (scan_reading _ _ _ _ Hts).
    assert (forallb (λ w, negb (bool_decide (w ∈ known cmds))) (words ts) = true ↔ Forall (λ w, w ∉ known cmds) (words ts)) as Hw.
    { rewrite forallb_forall, Forall_forall. split; intros H w Hw%list_elem_of_In.
      - specialize (H w Hw). by apply negb_true_iff, bool_decide_eq_false in H.
      - by apply negb_true_iff, bool_decide_eq_false, H. }
    destruct args as [|arg r]; cbn [length Nat.eqb].
    + split; [intros _; split; [done|]|done]. apply Hw. by rewrite <- (scan_reading _ _ _ _ Hts).
    + destruct (existsb asks_help (arg :: r)) eqn:E.
      * split; [done|]. intros [Hh _]. apply existsb_exists in E as (a & Ha%list_elem_of_In & E).
        rewrite Forall_forall in Hh. by rewrite Hh in E.
      * rewrite Hw. split; [|tauto]. intros H. split; [|done]. apply Forall_forall. intros a Ha.
        apply not_true_iff_false. intros E'. rewrite <- not_true_iff_false in E. apply E, existsb_exists.
        exists a. split; [by apply list_elem_of_In|done].
  - unfold dispatch. destruct (NeedsDefaultRun _ _ args) eqn:E; [|done]. unfold NeedsDefaultRun. cbn [length Nat.eqb].
    by destruct (existsb _ _).
  - unfold dispatch. destruct (NeedsDefaultRun _ _ args); [by right|by left].
Qed.

Lemma default_run_reading_witness :
  let ts := [TValue "-c" "status"; TFlag "-v"] in
  reading_of persistent_flags ["-c"; "status"; "-v"] ts ∧
  NeedsDefaultRun persistent_flags commands ["-c"; "status"; "-v"] = true ∧
  dispatch ["-c"; "status"; "-v"] = ["run"; "-c"; "status"; "-v"] ∧
  dispatch ["--config=x"; "status"] = ["--config=x"; "status"].
Proof.
  intros ts. destruct (default_run_reading persistent_flags commands ["-c"; "status"; "-v"]) as (_ & H & _ & _).
  assert (reading_of persistent_flags ["-c"; "status"; "-v"] ts) as Hr.
  { exists []. split_and!; [done| |by left]. repeat constructor; done. }
  split_and!; [done| |vm_compute; reflexivity..].
  apply (H ts Hr). split; [repeat constructor|]. cbn. constructor.
Defined.

(** A shorthand joined with another flag still takes a value, which is then
    read as a word. *)
Example joined_shorthand : dispatch ["-vc"; "status"] = ["-vc"; "status"].
Proof. vm_compute. reflexivity. Qed.

(** ** Exit codes *)

Lemma exit_codes execute cancelled args :
  fst (main_run execute cancelled args) ∈ [0%Z; 1%Z; 130%Z] ∧
  (fst (main_run execute cancelled args) = 0%Z ↔ execute (dispatch args) = None) ∧
  (fst (main_run execute cancelled args) = 130%Z → cancelled = true ∧ snd (main_run execute cancelled args) = []).
Proof.
  unfold main_run. destruct (execute (dispatch args)) as [e|].
  - destruct (errors_Is (ce_err e) ErrContext && cancelled) eqn:E; cbn [fst snd ExitCode]; (split_and!; [set_solver|split; [by intros [=]|done]|]).
    + intros _. split; [|done]. by apply andb_true_iff in E as [_ ?].
    + by intros [=].
  - cbn. split_and!; [set_solver|done|by intros [=]].
Qed.

(** * The environment of the exporters *)

Lemma Index_byte a c b : has_byte c a = false → Index (a +:+ String c b) (String c "") = Some (slen a).
Proof.
  induction a as [|d a IH]; intros H.
  - change ("" +:+ String c b) with (String c "" +:+ b). apply Index_prefix.
  - cbn [has_byte] in H. apply orb_false_iff in H as [Hd H]. apply bool_decide_eq_false in Hd.
    rewrite app_str_cons. cbn [Index String.prefix]. destruct (ascii_dec c d) as [->|_]; [done|].
    rewrite IH by done. done.
Qed.
Lemma Cut_byte a c b : has_byte c a = false → Cut (a +:+ String c b) (String c "") = Some (a, b).
Proof. intros H. apply (Cut_at a (String c "") b). by apply Index_byte. Qed.

Lemma expand_plain m s : has_byte "$" s = false → expand m 0 (raw s) = raw s.
Proof.
  induction s as [|c s IH]; [done|]. cbn [has_byte]. intros [Hc H]%orb_false_iff.
  change (raw (String c s)) with (c :: raw s). cbn [expand]. by rewrite Hc, IH.
Qed.
Lemma expand_app m s b : has_byte "$" s = false → expand m 0 (raw (s +:+ b)) = raw s ++ expand m 0 (raw b).
Proof.
  induction s as [|c s IH]; [done|]. cbn [has_byte]. intros [Hc H]%orb_false_iff.
  rewrite app_str_cons. change (raw (String c (s +:+ b))) with (c :: raw (s +:+ b)).
  cbn [expand]. rewrite Hc, IH by done. done.
Qed.
Lemma ExpandEnv_plain env s : has_byte "$" s = false → ExpandEnv env s = s.
Proof. intros H. unfold ExpandEnv. rewrite expand_plain by done. by autorewrite with go_rw. Qed.

(** A line that assigns a variable that is not set. *)
Lemma apply_assignment env k v v' :
  k ≠ "" → HasPrefix k "#" = false → has_byte "=" k = false → has_byte nul k = false → has_byte nul v' = false →
  TrimSpace (k +:+ "=" +:+ v) = k +:+ "=" +:+ v → TrimSpace k = k → TrimSpace v = v → ExpandEnv env v = v' →
  Getenv env k = "" → apply_line env (k +:+ "=" +:+ v) = <[k := v']> env.
Proof.
  intros Hk Hp He Hn Hv Ht Htk Htv Hx Hg. unfold apply_line. rewrite Ht.
  rewrite bool_decide_false by (by destruct k).
  replace (HasPrefix (k +:+ "=" +:+ v) "#") with false; last first.
  { symmetry. destruct k as [|c k]; [done|]. rewrite app_str_cons. unfold HasPrefix in *. cbn [String.prefix] in *.
    destruct (ascii_dec "#" c) as [<-|]; [|done]. replace (String.prefix "" k) with true in Hp by (by destruct k). done. }
  cbn [orb]. change ("=" +:+ v) with (String "=" v). rewrite Cut_byte by done.
  rewrite Htk, Htv, Hx, Hg, bool_decide_true by done. unfold Setenv.
  by rewrite bool_decide_false, He, Hn, Hv by done.
Qed.

(** What is set stays set, whatever the file says. *)
Lemma apply_line_keeps env l k : Getenv env k ≠ "" → Getenv (apply_line env l) k = Getenv env k.
Proof.
  intros Hk. unfold apply_line. destruct (_ || _); [done|].
  destruct (Cut (TrimSpace l) "=") as [[key val]|]; [|done].
  case_bool_decide as Hg; [|done]. unfold Setenv. destruct (_ || _); [done|].
  unfold Getenv in *. rewrite lookup_insert_ne; [done|]. intros E. by rewrite <- E in Hk.
Qed.
Lemma apply_text_keeps data env k : Getenv env k ≠ "" → Getenv (apply_text env data) k = Getenv env k.
Proof.
  unfold apply_text. revert env. induction (Split (str data) nl) as [|l ls IH]; intros env Hk; [done|].
  cbn [fold_left]. rewrite IH; by rewrite apply_line_keeps.
Qed.

Lemma Split_joined l s : has_byte nl l = false → Split (line l +:+ s) nl = l :: Split s nl.
Proof. intros H. unfold line. rewrite <- app_str_assoc. change (String nl "" +:+ s) with (String nl s). by apply Split_app. Qed.

Definition weave_attributes (entity project : string) : string :=
  "wandb.entity=" +:+ entity +:+ ",wandb.project=" +:+ project.
(** A value that the file can hold: on one line, without references. *)
Definition file_value (s : string) : Prop := has_byte nl s = false ∧ has_byte "$" s = false ∧ has_byte nul s = false.

Lemma attributes_trimmed p entity project :
  p ≠ "" → lead_ok (raw p) = true → project ≠ "" → TrimSpace project = project →
  TrimSpace (p +:+ "=" +:+ entity +:+ ",wandb.project=" +:+ project) = p +:+ "=" +:+ entity +:+ ",wandb.project=" +:+ project.
Proof.
  intros Hp Hl Hn Ht. apply TrimSpace_id; [by apply lead_ok_join|].
  replace (p +:+ "=" +:+ entity +:+ ",wandb.project=" +:+ project)
    with ((p +:+ "=" +:+ entity +:+ ",wandb.project") +:+ String "=" project)
    by (rewrite <- !app_str_assoc; done).
  apply trail_ok_join; [done..|]. rewrite <- Ht. apply TrimSpace_spec.
Qed.

Section Roundtrip.
Context `{External} {env : Env}.
Hypothesis env_ok : no_faults env.

Lemma write_otel_does cfgPath backend entity project content fs :
  backend ≠ "" → OtelEnvContent backend entity project = Ok content →
  dir_ready (Dir cfgPath) fs → fs !! otel_path (Dir cfgPath) ≠ Some NDir →
  ∃ fs', does (env := env) (write_otel cfgPath backend entity project) fs None fs' ∧
    fs' !! otel_path (Dir cfgPath) = Some (NFile (raw content)) ∧
    (∀ p, p ≠ otel_path (Dir cfgPath) → p ≠ Clean (Dir cfgPath) → fs' !! p = fs !! p).
Proof using env_ok.
  intros Hb Hc Hd Hf. set (d := Dir cfgPath) in *.
  assert (plain ".otel.env") as Hp by done.
  pose proof (path_Join_ne d ".otel.env" Hp) as Hne. fold (otel_path d) in Hne.
  assert (∃ fs1, mkdir_all (slen d) (Clean d) fs = Ok fs1 ∧ fs1 !! Clean d = Some NDir ∧
                 (∀ p, p ≠ Clean d → fs1 !! p = fs !! p)) as (fs1 & E1 & E2 & E3).
  { destruct (mkdir_all_ready d fs Hd) as [[E1 E2]|E1]; [by exists fs|].
    eexists. split; [exact E1|]. split; [by rewrite lookup_insert_eq|]. intros p Hpd. by rewrite lookup_insert_ne. }
  exists (<[otel_path d := NFile (raw content)]> fs1). split_and!.
  - unfold write_otel. fold d. rewrite bool_decide_false, Hc by done. cbv zeta.
    eapply does_bind; [by apply MkdirAll_does|]. eapply does_bind.
    + apply WriteFile_clean; [done|by apply Clean_Join|]. unfold writable, otel_path.
      rewrite (Clean_Join d ".otel.env" Hp). rewrite (Dir_Join d ".otel.env" Hp), Clean_idem. fold (otel_path d).
      rewrite (E3 _ Hne). destruct (fs !! otel_path d) as [[]|]; [done| |done]. by destruct Hf.
    + apply does_ret.
  - by rewrite lookup_insert_eq.
  - intros p H1 H2. rewrite lookup_insert_ne by done. by apply E3.
Qed.

Lemma applyOtelEnv_does stateDir env0 data fs :
  fs !! otel_path stateDir = Some (NFile data) →
  does (env := env) (applyOtelEnv stateDir env0) fs (apply_text env0 data) fs.
Proof using env_ok.
  intros E. eapply does_bind; [by apply ReadFile_does|].
  unfold otel_path in *. rewrite Clean_Join by done. rewrite E. apply does_ret.
Qed.
End Roundtrip.

Definition weave_text (entity project : string) : string :=
  line "OTEL_EXPORTER_OTLP_ENDPOINT=https://trace.wandb.ai/otel" +:+
  line "OTEL_EXPORTER_OTLP_HEADERS=wandb-api-key=${WANDB_API_KEY}" +:+
  line ("OTEL_RESOURCE_ATTRIBUTES" +:+ "=" +:+ weave_attributes entity project) +:+ "".
Lemma OtelEnvContent_weave `{External} entity project :
  entity ≠ "" → project ≠ "" → OtelEnvContent "weave" entity project = Ok (weave_text entity project).
Proof.
  intros He Hp. unfold OtelEnvContent. change (bool_decide ("weave" = "jaeger")) with false.
  change (bool_decide ("weave" = "weave")) with true. cbn match. rewrite !bool_decide_false by done. cbn [orb].
  unfold weave_text. by rewrite app_str_nil_r.
Qed.

Lemma expand_key m : expand m 0 (raw "${WANDB_API_KEY}") = raw (m "WANDB_API_KEY").
Proof. transitivity (raw (m "WANDB_API_KEY") ++ []); [reflexivity|apply app_nil_r]. Qed.
Lemma ExpandEnv_header env : ExpandEnv env "wandb-api-key=${WANDB_API_KEY}" = "wandb-api-key=" +:+ Getenv env "WANDB_API_KEY".
Proof.
  unfold ExpandEnv. change "wandb-api-key=${WANDB_API_KEY}" with ("wandb-api-key=" +:+ "${WANDB_API_KEY}").
  rewrite expand_app by done. rewrite expand_key, str_app. by autorewrite with go_rw.
Qed.

Lemma apply_weave (env0 : environ) entity project :
  project ≠ "" → TrimSpace project = project → file_value entity → file_value project →
  has_byte nul (Getenv env0 "WANDB_API_KEY") = false →
  Forall (λ k, Getenv env0 k = "") ["OTEL_EXPORTER_OTLP_ENDPOINT"; "OTEL_EXPORTER_OTLP_HEADERS"; "OTEL_RESOURCE_ATTRIBUTES"] →
  apply_text env0 (raw (weave_text entity project)) =
    <["OTEL_RESOURCE_ATTRIBUTES" := weave_attributes entity project]>
      (<["OTEL_EXPORTER_OTLP_HEADERS" := "wandb-api-key=" +:+ Getenv env0 "WANDB_API_KEY"]>
        (<["OTEL_EXPORTER_OTLP_ENDPOINT" := "https://trace.wandb.ai/otel"]> env0)).
Proof.
  intros Hpn Htp (E1 & E2 & E3) (P1 & P2 & P3) Hk Hu.
  inversion_clear Hu as [|? ? U1 Hu']. inversion_clear Hu' as [|? ? U2 Hu]. inversion_clear Hu as [|? ? U3 _].
  assert (∀ c, has_byte c entity = false → has_byte c project = false → has_byte c "wandb.entity=,wandb.project=" = false →
            has_byte c (weave_attributes entity project) = false) as Hb.
  { intros c B1 B2 B3. unfold weave_attributes. change "wandb.entity=,wandb.project=" with ("wandb.entity=" +:+ ",wandb.project=") in B3.
    rewrite has_byte_app in B3. apply orb_false_iff in B3 as [B3 B4]. by rewrite !has_byte_app, B1, B2, B3, B4. }
  unfold apply_text. autorewrite with go_rw. unfold weave_text.
  rewrite Split_joined by reflexivity. rewrite Split_joined by reflexivity.
  rewrite Split_joined by (rewrite !has_byte_app, (Hb nl) by done; reflexivity).
  cbn [Split fold_left]. set (last := apply_line _ (_ +:+ _ +:+ weave_attributes entity project)).
  change (apply_line last "") with last. subst last.
  change "OTEL_EXPORTER_OTLP_ENDPOINT=https://trace.wandb.ai/otel" with ("OTEL_EXPORTER_OTLP_ENDPOINT" +:+ "=" +:+ "https://trace.wandb.ai/otel").
  change "OTEL_EXPORTER_OTLP_HEADERS=wandb-api-key=${WANDB_API_KEY}"
    with ("OTEL_EXPORTER_OTLP_HEADERS" +:+ "=" +:+ "wandb-api-key=${WANDB_API_KEY}").
  rewrite (apply_assignment env0 "OTEL_EXPORTER_OTLP_ENDPOINT" "https://trace.wandb.ai/otel" "https://trace.wandb.ai/otel")
    by (done || by apply ExpandEnv_plain).
  set (env1 := <["OTEL_EXPORTER_OTLP_ENDPOINT" := _]> env0).
  assert (∀ k, k ≠ "OTEL_EXPORTER_OTLP_ENDPOINT" → Getenv env1 k = Getenv env0 k) as G1
    by (intros k Hne; unfold Getenv, env1; by rewrite lookup_insert_ne).
  rewrite (apply_assignment env1 "OTEL_EXPORTER_OTLP_HEADERS" "wandb-api-key=${WANDB_API_KEY}"
             ("wandb-api-key=" +:+ Getenv env0 "WANDB_API_KEY"))
    by (done || (by rewrite has_byte_app, Hk) || (by rewrite ExpandEnv_header, G1) || by rewrite G1).
  set (env2 := <["OTEL_EXPORTER_OTLP_HEADERS" := _]> env1).
  apply apply_assignment; [done|done|done|done|by apply Hb| |done| | |].
  - by apply (attributes_trimmed "OTEL_RESOURCE_ATTRIBUTES=wandb.entity").
  - by apply (attributes_trimmed "wandb.entity").
  - by apply ExpandEnv_plain, Hb.
  - unfold Getenv at 1, env2. rewrite lookup_insert_ne by done. change (default "" (env1 !! ?k)) with (Getenv env1 k). by rewrite G1.
Qed.

(**  the environment file round trips.  Without failures, for an entity
    and a project on one line and without dollars, [init --otel-backend weave]
    ends without error and changes nothing but its file and the directory of
    it; and the environment that every later command starts its exporters
    with is the one the command was started in, with the endpoint, the header
    with the key expanded in it, and the attributes that name exactly this
    entity and project, when they were not set.  What is set already stays,
    for any contents of the file. *)
Theorem otel_env_roundtrip `{External} (env : Env) (cfgPath entity project : string) (fs : gmap string node) (env0 : environ) :
  no_faults env → dir_ready (Dir cfgPath) fs → fs !! otel_path (Dir cfgPath) ≠ Some NDir →
  entity ≠ "" → project ≠ "" → TrimSpace project = project → file_value entity → file_value project →
  has_byte nul (Getenv env0 "WANDB_API_KEY") = false →
  Forall (λ k, Getenv env0 k = "") ["OTEL_EXPORTER_OTLP_ENDPOINT"; "OTEL_EXPORTER_OTLP_HEADERS"; "OTEL_RESOURCE_ATTRIBUTES"] →
  (∃ fs', does (env := env) (write_otel cfgPath "weave" entity project) fs None fs' ∧
     (∀ p, p ≠ otel_path (Dir cfgPath) → p ≠ Clean (Dir cfgPath) → fs' !! p = fs !! p) ∧
     does (env := env) (applyOtelEnv (Dir cfgPath) env0) fs'
       (<["OTEL_RESOURCE_ATTRIBUTES" := weave_attributes entity project]>
        (<["OTEL_EXPORTER_OTLP_HEADERS" := "wandb-api-key=" +:+ Getenv env0 "WANDB_API_KEY"]>
         (<["OTEL_EXPORTER_OTLP_ENDPOINT" := "https://trace.wandb.ai/otel"]> env0))) fs') ∧
  (∀ data k, Getenv env0 k ≠ "" → Getenv (apply_text env0 data) k = Getenv env0 k).
Proof.
  intros He Hd Hf Hen Hpn Htp Hev Hpv Hk Hu. split; [|intros; by apply apply_text_keeps].
  destruct (write_otel_does He cfgPath "weave" entity project _ fs ltac:(done) (OtelEnvContent_weave _ _ Hen Hpn) Hd Hf)
    as (fs' & W1 & W2 & W3).
  exists fs'. split_and!; [done..|].
  pose proof (applyOtelEnv_does He (Dir cfgPath) env0 _ fs' W2) as HA. by rewrite apply_weave in HA.
Qed.

Lemma otel_env_roundtrip_witness :
  let fs : gmap string node := {[ "/s" := NDir ]} in
  let env0 : environ := {[ "WANDB_API_KEY" := "k1"; "HOME" := "/home/u" ]} in
  ∃ fs', does (env := quiet_env) (@write_otel sample_external "/s/config.yaml" "weave" "acme" "mail room") fs None fs' ∧
    ∃ e, does (env := quiet_env) (applyOtelEnv "/s" env0) fs' e fs' ∧
      Getenv e "OTEL_EXPORTER_OTLP_HEADERS" = "wandb-api-key=k1" ∧
      Getenv e "OTEL_RESOURCE_ATTRIBUTES" = "wandb.entity=acme,wandb.project=mail room" ∧ Getenv e "HOME" = "/home/u".
Proof.
  intros fs env0.
  destruct (@otel_env_roundtrip sample_external quiet_env "/s/config.yaml" "acme" "mail room" fs env0)
    as [(fs' & H1 & _ & H2) _].
  - done.
  - split_and!; [done|done|by left].
  - done.
  - done.
  - done.
  - vm_compute. reflexivity.
  - split_and!; reflexivity.
  - split_and!; reflexivity.
  - reflexivity.
  - repeat constructor; reflexivity.
  - exists fs'. split; [exact H1|]. eexists. split; [exact H2|]. split_and!; vm_compute; reflexivity.
Defined.

(** A dollar in a name is a reference when the file is read. *)
Example dollar_is_lost :
  Getenv (apply_text ∅ (raw (weave_text "acme" "us$mail"))) "OTEL_RESOURCE_ATTRIBUTES" = "wandb.entity=acme,wandb.project=us".
Proof. vm_compute. reflexivity. Qed.

(** A first [init] with a wrong backend fails after it has written the
    configuration; whatever is then given to [init] is refused. *)
Lemma repo_paths_ok (args : list string) : Forall (λ a, a ≠ "") args → repo_paths args = Ok (mkRepoPath <$> args).
Proof.
  intros Ha. induction Ha as [|a args Ha _ IH]; [done|]. cbn. unfold NewRepoPath. rewrite bool_decide_false by done.
  cbn. by rewrite IH.
Qed.
Lemma repo_paths_strings (args : list string) : rp_v <$> (mkRepoPath <$> args) = args.
Proof. induction args as [|a args IH]; [done|]. cbn. by rewrite IH. Qed.

Lemma failed_init_blocks `{External} `{YAML} cwd validate (env : Env) args cfgPath backend entity project err fs fs1 res :
  no_faults env → backend ≠ "" → OtelEnvContent backend entity project = Err err →
  Forall (λ a, a ≠ "") args → args ≠ [] → cfgPath ≠ "" →
  fs !! Clean cfgPath = None → does (env := env) (ScanAndInit cwd validate args cfgPath) fs (Ok res) fs1 →
  fs1 !! Clean cfgPath ≠ None →
  does (env := env) (init_cmd cwd validate false args cfgPath backend entity project) fs (Some err) fs1 ∧
  ∀ args' backend' entity' project', ∃ e,
    does (env := env) (init_cmd cwd validate false args' cfgPath backend' entity' project') fs1 (Some e) fs1.
Proof.
  intros He Hb Ho Ha Hne Hc Hf Hs Hf1. split.
  - unfold init_cmd. eapply does_bind.
    { eapply does_bind; [by apply Stat_does|]. rewrite Hf. apply does_ret. }
    cbn [is_ok enoent]. rewrite repo_paths_ok by done.
    cbn [rbind]. unfold NewNonEmptyRepoPaths, NewConfigPath. rewrite length_fmap, bool_decide_false by done.
    replace (length args =? 0) with false by (by destruct args). cbn [rbind]. rewrite repo_paths_strings.
    eapply does_bind; [exact Hs|]. cbn. unfold write_otel. rewrite bool_decide_false, Ho by done. apply does_ret.
  - intros args' b e p. eexists. unfold init_cmd. eapply does_bind.
    { eapply does_bind; [by apply Stat_does|]. destruct (fs1 !! Clean cfgPath); [|done]. apply does_ret. }
    apply does_ret.
Qed.

(** * [metrics.go] *)

Section MetricsCommand.
Context `{External} `{JSON}.
Variable latency_ms : bytes → option Z.

(** From the parsed durations on; [None] is a panic. *)
Definition metrics_cmd (stateDir : string) (windowDur bucketDur : Duration) (now : Time)
    : program (result (option HealthTimeSeries)) :=
  if (bucketDur <=? 0)%Z then mret (Err (errors_New "--bucket must be positive")) else
  let windowStart := (now + i64 (- windowDur))%Z in
  r ← LoadSince (EventsDir stateDir) windowStart;
  mret match r with
       | Err err => Err (errorf_w "load events: " err)
       | Ok (events, _) =>
           Ok (ts ← AggregateHealthTimeSeries latency_ms events windowStart bucketDur now;
               Some (mkSeries (ht_GeneratedAt ts) windowDur (ht_BucketSize ts) (ht_Buckets ts) (ht_Totals ts)))
       end.
End MetricsCommand.

(** The events of a type in the reported window. *)
Definition reported (windowStart now : Time) (ty : EventType) (log : list Event) : Z :=
  Z.of_nat (length (List.filter (λ e, bool_decide (ev_Type e = ty) &&
    ((windowStart <? ev_Timestamp e) && (ev_Timestamp e <=? now))%Z) log)).

Lemma filter_length_perm {A} (P : A → bool) l l' : l ≡ₚ l' → length (List.filter P l) = length (List.filter P l').
Proof.
  induction 1 as [|x l l' _ IH|x y l|l l' l'' _ IH1 _ IH2]; cbn [List.filter]; [done| | |by rewrite IH1].
  - destruct (P x); cbn [length]; by rewrite IH.
  - by destruct (P x), (P y).
Qed.
Lemma filter_filter_length {A} (P Q : A → bool) l :
  length (List.filter P (List.filter Q l)) = length (List.filter (λ x, Q x && P x) l).
Proof. induction l as [|x l IH]; [done|]. cbn [List.filter]. destruct (Q x); cbn [List.filter andb]; [|done]. destruct (P x); cbn [length]; by rewrite IH. Qed.

Lemma count_all_reported windowStart now ty evs log :
  (0 < windowStart)%Z → evs ≡ₚ List.filter (newer windowStart) log →
  count_all windowStart now ty evs = reported windowStart now ty log.
Proof.
  intros Hw Hp. unfold count_all, reported. rewrite (filter_length_perm _ _ _ Hp), filter_filter_length.
  do 2 f_equal. apply filter_ext. intros e. unfold newer, in_window, IsZero.
  destruct (bool_decide _); rewrite ?andb_false_r; [|done]. lia.
Qed.

Lemma count_in_perm windowStart now bucketSize ty k evs evs' :
  evs ≡ₚ evs' → count_in windowStart now bucketSize ty k evs = count_in windowStart now bucketSize ty k evs'.
Proof. intros Hp. unfold count_in. by rewrite (filter_length_perm _ _ _ Hp). Qed.

(** C30: [phonewave metrics] counts the event log.  Without failures, on an
    event store that holds a log of storable events, for a positive bucket
    size and a window that reaches back to a time after the zero time, the
    command reports, and does not fail or panic: the totals are the numbers
    of delivered, failed and retried events of the log after the start of
    the window and not after now, each bucket has the same counts for its
    span, there is one bucket per started bucket size, and the window is the
    one asked for; a bucket size that is not positive is refused. *)
Theorem metrics_count_log `{External} `{JSONLaws} (latency_ms : bytes → option Z) (stateDir : string)
    (date : Event → string) (i : nat) (log : list Event) (w : World) (windowDur bucketDur : Duration) (now : Time) :
  (∀ e, plain (date e +:+ ".jsonl")) → no_faults (w_env w) →
  store_at (EventsDir stateDir) date (w_env w) log w →
  (0 ≤ windowDur < two63)%Z → (0 < now - windowDur)%Z →
  let windowStart := (now - windowDur)%Z in
  ((0 < bucketDur)%Z → ∃ s,
    fst (run i (metrics_cmd latency_ms stateDir windowDur bucketDur now) w) = Ok (Some s) ∧
    ht_Window s = windowDur ∧
    ht_Totals s = mkMetrics (reported windowStart now EventDeliveryCompleted log)
                    (reported windowStart now EventDeliveryFailed log)
                    (reported windowStart now EventErrorRetried log) ∧
    Z.of_nat (length (ht_Buckets s)) = num_buckets windowStart bucketDur now ∧
    (∀ k b, ht_Buckets s !! k = Some b →
       bm_Start b = (windowStart + Z.of_nat k * bucketDur)%Z ∧
       bm_Delivered b = count_in windowStart now bucketDur EventDeliveryCompleted k (List.filter (newer windowStart) log) ∧
       bm_Failed b = count_in windowStart now bucketDur EventDeliveryFailed k (List.filter (newer windowStart) log) ∧
       bm_Retried b = count_in windowStart now bucketDur EventErrorRetried k (List.filter (newer windowStart) log))) ∧
  ((bucketDur ≤ 0)%Z → fst (run i (metrics_cmd latency_ms stateDir windowDur bucketDur now) w) =
                        Err (errors_New "--bucket must be positive")).
Proof.
  intros Hd He Hs Hw Hn windowStart. unfold metrics_cmd. split; intros Hb.
  - replace (bucketDur <=? 0)%Z with false by lia. cbv zeta.
    assert (now + i64 (- windowDur) = windowStart)%Z as -> by (unfold windowStart; rewrite i64_id; unfold two63 in *; lia).
    rewrite run_mbind. pose proof (loadEvents_ok (EventsDir stateDir) date Hd (w_env w) He i windowStart log w Hs) as HL.
    unfold runs in HL. unfold LoadSince. destruct (run i (loadEvents _ _) w) as [r v]. cbn [fst snd] in HL.
    destruct HL as [-> _]. cbn [run mret prog_mret fst].
    set (evs := stable_sort time_less (loaded date windowStart log)).
    assert (evs ≡ₚ List.filter (newer windowStart) log) as Hp by (unfold evs; by rewrite stable_sort_perm, loaded_perm).
    destruct (health_series_counts latency_ms evs windowStart now bucketDur) as (s & -> & HB & HK & HT & _);
      [done|unfold windowStart; lia|].
    eexists. split; [done|]. cbn [ht_Window ht_Totals ht_Buckets]. split_and!; [done| |done|].
    + rewrite HT. by rewrite !(count_all_reported _ _ _ evs log) by (done || unfold windowStart; lia).
    + intros k b Hk. destruct (HK k b Hk) as (B1 & B2 & B3 & B4).
      pose proof (λ ty, count_in_perm windowStart now bucketDur ty k _ _ Hp) as E. by rewrite <- !E.
  - by replace (bucketDur <=? 0)%Z with true by lia.
Qed.

Lemma metrics_count_log_witness :
  let log := [sample_ev "a" 20 2; sample_ev "b" 10 1; sample_ev "c" 35 3] in
  let '(_, v) := run 0 (@append_all sample_external sample_JSON "/s/events" utc_date [log]) (store_world quiet_env) in
  ∃ s, fst (run 0 (@metrics_cmd sample_JSON (λ _, None) "/s" 25 10 35) v) = Ok (Some s) ∧
    ht_Totals s = mkMetrics 2 0 0 ∧ length (ht_Buckets s) = 3.
Proof.
  intros log.
  pose proof (@append_all_ok sample_external sample_JSON sample_JSONLaws "/s/events" utc_date quiet_env 0 [log] []
    (store_world quiet_env)) as HA. unfold runs in HA.
  destruct (run 0 (append_all "/s/events" utc_date [log]) (store_world quiet_env)) as [rs v]. cbn [fst snd app] in HA.
  destruct HA as [_ Hv].
  - apply utc_date_plain.
  - done.
  - repeat constructor; try done; intros b [= <-]; vm_compute; reflexivity.
  - right. split; [done|]. split; [|done]. split_and!; [done|done|done|done|].
    intros k [n Hk]. cbn in Hk. apply lookup_singleton_Some in Hk as [<- _]. done.
  - assert (w_env v = quiet_env) as Ev by (destruct Hv as [[_ ?]|(_ & _ & ?)]; done).
    destruct (@metrics_count_log sample_external sample_JSON sample_JSONLaws (λ _, None) "/s" utc_date 0 log v 25 10 35)
      as [HM _].
    + apply utc_date_plain.
    + by rewrite Ev.
    + rewrite Ev. exact Hv.
    + unfold two63. lia.
    + lia.
    + destruct HM as (s & H1 & _ & H2 & H3 & _); [lia|]. exists s. split; [exact H1|].
      rewrite H2. split; [vm_compute; reflexivity|]. apply Nat2Z.inj. rewrite H3. vm_compute. reflexivity.
Defined.

(** ** [update.go] *)

(** The updater and semver libraries: a version is parsed and compared; the
    latest release is found or not; an update is installed or fails. *)
Class Updater := {
  semver : Type;
  NewVersion : string → option semver;
  LessThan : semver → semver → bool;
  NewUpdater : option error;
  DetectLatest : result (option string);
  ExecutablePath : result string;
  UpdateTo : string → string → option error }.

Section Update.
Context `{Updater}.
Definition isUpToDate (current latest : string) : bool :=
  match NewVersion current with
  | None => false
  | Some cv => match NewVersion latest with None => false | Some lv => negb (LessThan cv lv) end
  end.

(** The error, and what [UpdateTo] was called with. *)
Definition update_cmd (version : string) (checkOnly : bool) : option error * option (string * string) :=
  match NewUpdater with
  | Some err => (Some (errorf_w "failed to create updater: " err), None)
  | None =>
      match DetectLatest with
      | Err err => (Some (errorf_w "failed to detect latest version: " err), None)
      | Ok None => (None, None)
      | Ok (Some latest) =>
          if isUpToDate version latest then (None, None)
          else if checkOnly then (None, None)
          else match ExecutablePath with
               | Err err => (Some (errorf_w "failed to locate executable: " err), None)
               | Ok exe =>
                   (match UpdateTo latest exe with Some err => Some (errorf_w "update failed: " err) | None => None end,
                    Some (latest, exe))
               end
      end
  end.

(** An update is installed over the running executable only, without
    [--check] only, and never over a version that is not older. *)
Lemma update_installs_newer version checkOnly latest exe :
  snd (update_cmd version checkOnly) = Some (latest, exe) →
  checkOnly = false ∧ DetectLatest = Ok (Some latest) ∧ ExecutablePath = Ok exe ∧
  ∀ cv lv, NewVersion version = Some cv → NewVersion latest = Some lv → LessThan cv lv = true.
Proof.
  unfold update_cmd. destruct NewUpdater; [done|]. destruct DetectLatest as [[l|]|]; [|done..].
  destruct (isUpToDate version l) eqn:Eu; [done|]. destruct checkOnly; [done|]. destruct ExecutablePath as [x|]; [|done].
  intros [= <- <-]. split_and!; [done..|]. intros cv lv E1 E2. unfold isUpToDate in Eu. rewrite E1, E2 in Eu.
  by apply negb_false_iff.
Qed.
End Update.
