(* ===== verification/InitCommand.v ===== *)
(** * What [phonewave init] leaves

    The commands [add], [remove] and [sync] and the daemon start from a disk
    that holds a consistent configuration ([holds_config] of [ConfigFile]).
    This file shows that [init] makes such a disk. *)
From S2P Require Import Prelude GoStrings GoPath GoTime DMail Router Prog World Deliver Safety DeliverSafety Setup SetupSafety Files StateDirs ConfigFile Insight Wiring CommandLine.

#[local] Open Scope nat_scope.

Section Scan.
Context `{External}.
Variables (cwd : string) (validate : string → EndpointConfig → list string).
Hypothesis cwd_abs : IsAbs cwd = true.

(** The absolute path of an argument. *)
Definition abs_path (p : string) : string := if IsAbs p then Clean p else path_Join [cwd; p].

Lemma Abs_path p w a : fst (Abs cwd p w) = Ok a → a = abs_path p.
Proof.
  unfold Abs, abs_path. destruct (IsAbs p); [by intros [= <-]|].
  match goal with |- context [guarded "" ?m w] => destruct (guarded_cases "" m w) as [[? ->]| ->] end; [done|].
  by intros [= <-].
Qed.

Lemma scan_abs_keeps p : acts ConfigFile.keeps (scan_abs cwd p).
Proof.
  apply acts_bind; [apply Abs_keeps|]. intros [a|e]; [|done].
  apply acts_bind; [apply reads_keeps, ScanRepository_reads|]. by intros [eps|e].
Qed.
Lemma run_all_acts {A B} (f : A → program B) l : (∀ a, acts ConfigFile.keeps (f a)) → acts ConfigFile.keeps (run_all f l).
Proof.
  intros Hf. induction l as [|a l IH]; [done|]. cbn [run_all]. apply acts_bind; [done|]. intros b.
  by apply acts_bind.
Qed.
Lemma Init_keeps args : acts ConfigFile.keeps (Init cwd validate args).
Proof.
  apply acts_bind; [by apply acts_atom|]. intros now. apply acts_bind; [apply run_all_acts, scan_abs_keeps|].
  intros rs. by destruct (collect id rs).
Qed.

(** One repository of a scan: its path, and endpoints that are directories. *)
Definition scanned_well (s : string * list Endpoint) : Prop :=
  fst s ≠ "" ∧ rooted_path (fst s) ∧ ∀ ep, ep ∈ snd s → plain (ep_Dir ep).

Lemma scan_abs_ok i p w s :
  fs_rooted (w_fs w) → fst (run i (scan_abs cwd p) w) = Ok s → fst s = abs_path p ∧ scanned_well s.
Proof using cwd_abs.
  intros Hfs. unfold scan_abs. run_bind. rewrite run_atom. pose proof (Abs_path p w) as Hp.
  assert (cwd ≠ "") as Hne by (intros E; by rewrite E in cwd_abs).
  pose proof (Abs_nonempty cwd Hne p w) as Ha. pose proof (Abs_rooted cwd cwd_abs p w) as Hr. pose proof (Abs_frame cwd p w) as Hf.
  destruct (Abs cwd p w) as [[a|e] w1]; cbn [fst snd] in *; [|done]. run_bind.
  pose proof (ScanRepository_plain i a w1) as Hs. destruct (run i (ScanRepository a) w1) as [[eps|e] w2]; [|done].
  cbn in *. intros [= <-]. split; [by apply Hp|]. split_and!; [by apply Ha|by apply Hr|]. apply Hs; [by rewrite Hf|done].
Qed.

Lemma scan_all_ok i args w scanned :
  fs_rooted (w_fs w) → collect id (fst (run i (run_all (scan_abs cwd) args) w)) = Ok scanned →
  fst <$> scanned = abs_path <$> args ∧ Forall scanned_well scanned.
Proof using cwd_abs.
  revert w scanned. induction args as [|p args IH]; intros w scanned Hfs; cbn [run_all]; [by intros [= <-]|].
  run_bind. pose proof (scan_abs_ok i p w) as Hs.
  pose proof (acts_run ConfigFile.keeps i _ w (scan_abs_keeps p)) as [Hf _].
  destruct (run i (scan_abs cwd p) w) as [r w1]. cbn [fst snd] in *. run_bind. specialize (IH w1).
  destruct (run i (run_all (scan_abs cwd) args) w1) as [rs w2]. cbn [run mret prog_mret fst] in *. cbn [collect id].
  destruct r as [s|e]; [|done]. destruct (collect id rs) as [ss|e]; [|done]. intros [= <-].
  destruct (IH ss) as [E1 E2]; [by rewrite Hf|done|]. destruct (Hs s Hfs eq_refl) as [E3 E4].
  split; [|by constructor]. cbn. by rewrite E1, E3.
Qed.

(** Whether a scan succeeds depends on the files only. *)
Lemma scan_abs_reads p : SetupSafety.reads (scan_abs cwd p).
Proof.
  apply reads_bind.
  - apply reads_atom. unfold Abs. destruct (IsAbs p); [by split|]. apply (read_guarded (λ _, Ok (path_Join [cwd; p]))).
  - intros [a|e]; [|constructor]. apply reads_bind; [apply ScanRepository_reads|]. intros [?|?]; constructor.
Qed.
Lemma Init_is_ok i args w w' :
  w_fs w = w_fs w' → no_faults (w_env w) → no_faults (w_env w') →
  is_ok (fst (run i (Init cwd validate args) w)) = is_ok (fst (run i (Init cwd validate args) w')).
Proof.
  intros Hf He He'. unfold Init. rewrite !run_mbind, !run_atom. cbn [Now fst snd]. rewrite !run_mbind.
  pose proof (reads_det i (run_all (scan_abs cwd) args) (bump w) (bump w') (reads_run_all _ _ scan_abs_reads)) as HD.
  specialize (HD Hf He He'). destruct (run i (run_all _ args) (bump w)) as [rs v], (run i (run_all _ args) (bump w')) as [rs' v'].
  cbn [fst] in HD. subst rs'. by destruct (collect id rs).
Qed.

Definition add_scanned (c : Config) (s : string * list Endpoint) : Config := AddRepository c (fst s) (snd s).
Lemma add_all scanned c :
  let c' := fold_left add_scanned scanned c in
  cfg_Repositories c' = cfg_Repositories c ++ ((λ s, mkRepo (fst s) (map to_EndpointConfig (snd s))) <$> scanned) ∧
  cfg_LastSynced c' = cfg_LastSynced c.
Proof.
  revert c. induction scanned as [|s ss IH]; intros c; cbn [fold_left]; [by rewrite app_nil_r|].
  destruct (IH (add_scanned c s)) as [-> ->]. cbn. by rewrite <- app_assoc.
Qed.

(** What a successful scan of different repositories gives. *)
Lemma Init_fit (clock : Time → Prop) i args w :
  fs_rooted (w_fs w) → (∀ n, clock (env_now (w_env w) n)) → NoDup (abs_path <$> args) →
  let r := fst (run i (Init cwd validate args) w) in
  ∀ res, r = Ok res → config_fit clock (ir_Config res) ∧ paths (ir_Config res) = abs_path <$> args.
Proof using cwd_abs.
  intros Hfs Hck Hnd r res. subst r. unfold Init. run_bind. rewrite run_atom. cbn [Now].
  run_bind. pose proof (scan_all_ok i args (snd (Now w))) as HS.
  destruct (run i (run_all (scan_abs cwd) args) _) as [rs w2]. cbn [fst] in HS.
  destruct (collect id rs) as [scanned|e]; [|done]. cbn [run mret prog_mret fst]. intros [= <-]. cbn [ir_Config].
  destruct (HS scanned) as [E1 E2]; [done|done|].
  set (c := fold_left _ scanned _). destruct (add_all scanned (mkConfig (fst (Now w)) [] [])) as [ER ET].
  fold add_scanned in c. change (fold_left add_scanned scanned (mkConfig (fst (Now w)) [] [])) with c in ER, ET. cbn [cfg_Repositories app] in ER.
  assert (paths (UpdateRoutes c) = abs_path <$> args) as EP.
  { unfold paths. cbn. rewrite ER, <- list_fmap_compose. exact E1. }
  split; [|done]. split; [split|split].
  - intros repo Hr. cbn in Hr. rewrite ER in Hr. apply list_elem_of_fmap in Hr as (s & -> & Hs).
    rewrite Forall_forall in E2. destruct (E2 s Hs) as (N & _ & P). cbn. split; [done|].
    intros ep (ep0 & -> & He)%list_elem_of_fmap. by apply P.
  - by rewrite EP.
  - done.
  - rewrite EP, <- E1. apply Forall_fmap. eapply Forall_impl; [exact E2|]. by intros s (_ & ? & _).
  - cbn. rewrite ET. apply Hck.
Qed.
End Scan.

Section Command.
Context `{External} `{YL : YAMLLaws}.
Variables (cwd : string) (validate : string → EndpointConfig → list string).
Hypothesis cwd_abs : IsAbs cwd = true.
Variable root : string.
Hypothesis root_clean : clean root.
Hypothesis root_abs : IsAbs root = true.

#[local] Abbreviation path := (DefaultConfigPath root).
#[local] Abbreviation S := (path_Join [root; StateDir]).
#[local] Abbreviation sub x := (path_Join [S; x]).

Lemma path_dir : Dir path = S.
Proof. rewrite newPath_sub, Dir_Join by (by split_and!). apply S_clean. Qed.
Lemma path_base : Base path = ConfigFile.
Proof. rewrite newPath_sub. apply Base_Join. by split_and!. Qed.
Lemma join_abs d f : IsAbs d = true → plain f → IsAbs (path_Join [d; f]) = true.
Proof. intros Hd Hf. by apply (rooted_join d f). Qed.
Lemma path_abs : IsAbs path = true.
Proof using root_abs. rewrite newPath_sub. apply join_abs; [apply join_abs; [done|apply plain_State]|by split_and!]. Qed.
Lemma path_name : plain (Base path).
Proof. rewrite path_base. by split_and!. Qed.
Lemma path_not_run : Base path ≠ ".run".
Proof. by rewrite path_base. Qed.

Lemma resolved_others : (resolvedStatePath path ∉ [S; sub ".run"; sub "events"; sub "insights"]) ∧ resolvedStatePath path ≠ sub ".gitignore".
Proof.
  rewrite resolved_Join, path_dir. assert (∀ x, length (elems (path_Join [sub ".run"; ResolvedStateFile])) ≠ length (elems (sub x)) ∨ ¬ plain x) as HN.
  { intros x. destruct (decide (length (elems (path_Join [sub ".run"; ResolvedStateFile])) = length (elems (sub x)))) as [E|]; [right|by left].
    intros Hx. rewrite !elems_Join, !length_app in E by (done || by split_and!). cbn in E. lia. }
  assert (path_Join [sub ".run"; ResolvedStateFile] ≠ S) as HS.
  { intros E. apply (f_equal (λ p, length (elems p))) in E. rewrite !elems_Join, !length_app in E by (by split_and!). cbn in E. lia. }
  assert (∀ x, plain x → path_Join [sub ".run"; ResolvedStateFile] ≠ sub x) as Hx.
  { intros x Hx E. destruct (HN x) as [N|N]; [|done]. by rewrite E in N. }
  rewrite !elem_of_cons, elem_of_nil. split; [|apply Hx; by split_and!].
  intros [E|[E|[E|[E|[]]]]]; [done|by apply Hx in E..].
Qed.

Lemma ensured_dir fs : fs !! path ≠ Some NDir → fs !! resolvedStatePath path ≠ Some NDir → config_dir path (ensured root fs).
Proof.
  intros H1 H2. destruct (ensured_complete root fs) as [Hd _]. destruct (new_others root) as [N1 N2].
  destruct resolved_others as [R1 R2]. unfold config_dir. rewrite path_dir. split_and!.
  - apply Hd. by left.
  - by rewrite ensured_lookup.
  - by rewrite ensured_lookup.
  - right. apply Hd. right. by left.
Qed.
Lemma ensured_rooted fs : fs_rooted fs → fs_rooted (ensured root fs).
Proof using root_abs.
  intros Hfs k nd Hk.
  assert (∀ x, plain x → clean (sub x) ∧ IsAbs (sub x) = true) as Hsub.
  { intros x Hx. split; [by apply Clean_Join|]. apply join_abs; [apply join_abs; [done|apply plain_State]|done]. }
  destruct (decide (k ∈ [S; sub ".run"; sub "events"; sub "insights"])) as [Hin|N1].
  { rewrite !elem_of_cons, elem_of_nil in Hin. destruct Hin as [->|[->|[->|[->|[]]]]]; [|by apply Hsub..].
    split; [apply S_clean|apply join_abs; [done|apply plain_State]]. }
  destruct (decide (k = sub ".gitignore")) as [->|N2]; [by apply Hsub|].
  rewrite ensured_lookup in Hk by done. by apply (Hfs k nd).
Qed.

Lemma repo_paths_inv args rps : repo_paths args = Ok rps → rp_v <$> rps = args.
Proof.
  revert rps. induction args as [|a args IH]; intros rps; cbn; [by intros [= <-]|]. unfold NewRepoPath.
  case_bool_decide; [done|]. cbn. destruct (repo_paths args) as [rps'|]; [|done]. intros [= <-]. cbn. by rewrite (IH rps').
Qed.

Lemma repo_paths_valid args rps : repo_paths args = Ok rps → Forall (λ a, a ≠ "") args.
Proof.
  revert rps. induction args as [|a args IH]; intros rps; cbn; [constructor|]. unfold NewRepoPath.
  case_bool_decide; [done|]. cbn. destruct (repo_paths args) as [rps'|]; [|done]. intros _. constructor; [done|]. by apply (IH rps').
Qed.

(** The scan, the state directory and the two files. *)
Lemma ScanAndInit_ok i args w :
  no_faults (w_env w) → (∀ n, yaml_time (env_now (w_env w) n)) → fs_rooted (w_fs w) → state_ready root (w_fs w) →
  w_fs w !! path ≠ Some NDir → w_fs w !! resolvedStatePath path ≠ Some NDir → NoDup (abs_path cwd <$> args) →
  runs i (ScanAndInit cwd validate args path) (λ r w',
    r = fst (run i (Init cwd validate args) w) ∧ w_env w' = w_env w ∧
    match r with
    | Ok res => holds_config path (ir_Config res) (w_fs w') ∧ paths (ir_Config res) = abs_path cwd <$> args ∧
                others_same path (ensured root (w_fs w)) (w_fs w')
    | Err _ => w_fs w' = w_fs w
    end) w.
Proof using YL cwd_abs root_clean root_abs.
  intros He Hck Hfs Hr H1 H2 Hnd. unfold ScanAndInit. apply runs_bind. unfold runs at 1.
  pose proof (Init_fit cwd validate cwd_abs yaml_time i args w Hfs Hck Hnd) as HI.
  destruct (acts_run ConfigFile.keeps i _ w (Init_keeps cwd validate args)) as [Kf Ke].
  destruct (run i (Init cwd validate args) w) as [[res|err] v]; cbn [fst snd] in *; [|by apply runs_ret].
  destruct (HI res eq_refl) as [Hfit Hp]. rewrite <- Ke in He.
  rewrite path_dir, Dir_S by done. apply runs_bind.
  eapply (does_runs (env := w_env v) _ _ _ _ _ _ _ (Ensure_does He root root_clean (w_fs v) ltac:(by rewrite Kf))); [done|].
  intros v2 [F2 E2]. cbn beta iota. rewrite Kf in F2. apply runs_bind.
  destruct (Write_stores (env := w_env v) He path (newPath_clean root) path_name path_not_run (ir_Config res) (ensured root (w_fs w)))
    as (fs' & HW & Hst & Hcd & Ho); [apply Hfit|by apply ensured_dir|].
  eapply does_runs; [exact HW|by split|]. intros v3 [F3 E3]. cbn beta iota. apply runs_ret. rewrite F3, E3, Ke.
  split_and!; [done|done| |done|done]. split_and!; [|done|done|done].
  eapply (written_rooted path path_abs (newPath_clean root) path_name); [|exact Ho]. by apply ensured_rooted.
Qed.
(** The file of the telemetry settings is none of the other paths. *)
Lemma otel_others : (otel_path S ∉ [S; sub ".run"; sub "events"; sub "insights"]) ∧ otel_path S ≠ sub ".gitignore".
Proof.
  unfold otel_path. rewrite !elem_of_cons, elem_of_nil. split; [|intros E; by apply sub_inj in E].
  intros [E|[E|[E|[E|[]]]]]; [by apply sub_ne_S in E|by apply sub_inj in E..].
Qed.
Lemma otel_kept fs fs' : others_same path (ensured root fs) fs' → fs' !! otel_path S = fs !! otel_path S ∧ fs' !! S = Some NDir.
Proof.
  intros Ho. destruct (ensured_complete root fs) as [Hd _]. destruct otel_others as [N1 N2].
  assert (∀ x, plain x → resolvedStatePath path ≠ sub x) as Hx.
  { intros x Hx E. apply (f_equal (λ p, length (elems p))) in E. rewrite resolved_Join, path_dir in E.
    rewrite !elems_Join, !length_app in E by (done || by split_and!). cbn in E. lia. }
  assert (resolvedStatePath path ≠ S) as HS.
  { intros E. apply (f_equal (λ p, length (elems p))) in E. rewrite resolved_Join, path_dir in E.
    rewrite !elems_Join, !length_app in E by (by split_and!). cbn in E. lia. }
  split.
  - rewrite (Ho (otel_path S)), ensured_lookup; [done|done|done|..].
    + rewrite newPath_sub. intros E. by apply sub_inj in E.
    + rewrite path_dir. intros E. by apply sub_inj in E.
    + intros E. symmetry in E. by apply Hx in E.
  - rewrite (Ho S); [apply Hd; by left|..].
    + rewrite newPath_sub. intros E. symmetry in E. by apply sub_ne_S in E.
    + rewrite path_dir. intros E. symmetry in E. by apply sub_ne_S in E.
    + done.
Qed.

(** What [--otel-backend] adds to the files of a written configuration. *)
Definition otel_outcome (backend entity project : string) (fs : gmap string node) (e : option error) (fs' : gmap string node) : Prop :=
  if bool_decide (backend = "") then e = None ∧ fs' = fs else
  match OtelEnvContent backend entity project with
  | Err err => e = Some err ∧ fs' = fs
  | Ok content => e = None ∧ fs' = <[otel_path (Dir path) := NFile (raw content)]> fs
  end.
Lemma write_otel_outcome i backend entity project w :
  no_faults (w_env w) → w_fs w !! S = Some NDir → w_fs w !! otel_path S ≠ Some NDir →
  runs i (write_otel path backend entity project) (λ e w', otel_outcome backend entity project (w_fs w) e (w_fs w')) w.
Proof.
  intros He Hd Hf. unfold write_otel, otel_outcome. case_bool_decide as Hb; [by apply runs_ret|].
  destruct (OtelEnvContent backend entity project) as [content|err]; [|by apply runs_ret]. cbv zeta. rewrite path_dir.
  eapply (does_runs (env := w_env w) _ _ (w_fs w) None (<[otel_path S := NFile (raw content)]> (w_fs w))); [|done|by intros v [-> _]].
  eapply does_bind.
  - apply (MkdirAll_does He). apply mkdir_all_there. by rewrite S_clean.
  - cbn beta iota. eapply does_bind; [apply (WriteFile_clean He); [by apply Clean_Join|]|apply does_ret].
    unfold writable, otel_path. rewrite (Clean_Join S ".otel.env"), (Dir_Join S ".otel.env"), Clean_idem, S_clean by done. fold (otel_path S).
    destruct (w_fs w !! otel_path S) as [[]|]; done.
Qed.
End Command.

(** C26: [phonewave init] makes the disk that the other commands and the daemon
    start from.  Without failures, in a project whose state directory is not
    obstructed and for arguments that name pairwise different directories (a
    directory named twice would be in the configuration twice), the command
    goes on to write exactly when there is an argument and none is empty, the
    directories can be scanned, and the configuration is not there or [--force]
    is given; otherwise it fails and leaves every file as it was.  When it goes
    on, the two files hold a consistent configuration for exactly the named
    directories, in their order, and every other path is as the completed state
    directory has it.  Then the command succeeds if no telemetry backend is
    named; if one is named that gives settings, they are all that is in
    [.otel.env], and nothing else changes; and if its settings cannot be made
    the command reports that error, with the configuration in place. *)
Theorem init_establishes_config `{External} `{YAMLLaws} (i : nat) (cwd root backend entity project : string)
    (validate : string → EndpointConfig → list string) (force : bool) (args : list string) (w : World) :
  IsAbs cwd = true → IsAbs root = true → clean root →
  no_faults (w_env w) → (∀ n, yaml_time (env_now (w_env w) n)) → fs_rooted (w_fs w) → state_ready root (w_fs w) →
  w_fs w !! DefaultConfigPath root ≠ Some NDir → w_fs w !! resolvedStatePath (DefaultConfigPath root) ≠ Some NDir →
  w_fs w !! otel_path (path_Join [root; StateDir]) ≠ Some NDir → NoDup (abs_path cwd <$> args) →
  let path := DefaultConfigPath root in
  let accepted := Forall (λ a, a ≠ "") args ∧ args ≠ [] ∧ (force = true ∨ w_fs w !! path = None) ∧
                  is_ok (fst (run i (Init cwd validate args) w)) = true in
  let '(e, w') := run i (init_cmd cwd validate force args path backend entity project) w in
  (¬ accepted → is_Some e ∧ w_fs w' = w_fs w) ∧
  (accepted → ∃ c fs, holds_config path c fs ∧ paths c = abs_path cwd <$> args ∧
     others_same path (ensured root (w_fs w)) fs ∧ otel_outcome root backend entity project fs e (w_fs w')).
Proof.
  intros Hcwd Hra Hrc He Hck Hfs Hr Hd1 Hd2 Hd3 Hnd path accepted. subst path accepted. unfold init_cmd. rewrite run_mbind.
  set (first := if force then mret false else _).
  set (open := force || match w_fs w !! DefaultConfigPath root with None => true | Some _ => false end).
  assert (∃ v, run i first w = (negb open, v) ∧ ConfigFile.keeps w v) as (v & -> & Kf & Ke).
  { subst first open. destruct force; [by exists w|]. rewrite run_mbind.
    destruct (Stat_does (env := w_env w) He (DefaultConfigPath root) (w_fs w) i w) as [E [Ef Ee]]; [done|].
    destruct (run i (atom (os_Stat (DefaultConfigPath root))) w) as [r v]. cbn [fst snd] in *. exists v. split; [|done]. subst r.
    rewrite newPath_clean. by destruct (w_fs w !! DefaultConfigPath root). }
  assert (open = true ↔ force = true ∨ w_fs w !! DefaultConfigPath root = None) as Ho.
  { unfold open. destruct force, (w_fs w !! DefaultConfigPath root); cbn; intuition congruence. }
  destruct open; cbn [negb]; last first.
  { cbn. split; [done|]. intros (_ & _ & Hx & _). by apply Ho in Hx. }
  pose proof (repo_paths_inv args) as Hi. destruct (repo_paths args) as [rps|err] eqn:Er; cbn [rbind]; last first.
  { cbn. split; [done|]. intros (Ha & _). by rewrite repo_paths_ok in Er. }
  specialize (Hi rps eq_refl). unfold NewNonEmptyRepoPaths, NewConfigPath.
  destruct (length rps =? 0) eqn:El; cbn [rbind].
  { cbn. split; [done|]. intros (_ & Hn & _). apply Nat.eqb_eq, nil_length_inv in El. by subst. }
  rewrite bool_decide_false by (intros E; pose proof (path_abs root Hra) as HE; by rewrite E in HE). cbn [rbind].
  rewrite Hi, run_mbind. pose proof (ScanAndInit_ok cwd validate Hcwd root Hrc Hra i args v) as HS.
  rewrite Ke, Kf in HS. specialize (HS He Hck Hfs Hr Hd1 Hd2 Hnd). unfold runs in HS.
  pose proof (Init_is_ok cwd validate i args w v (eq_sym Kf) He ltac:(by rewrite Ke)) as HI.
  assert (Forall (λ a, a ≠ "") args ∧ args ≠ []) as [Ha Hn] by (split; [by eapply repo_paths_valid|intros ->; by destruct rps]).
  destruct (run i (ScanAndInit _ _ _ _) v) as [[res|err] v']; cbn [fst snd] in HS; destruct HS as (ES & Ev & HS);
    rewrite <- ES in HI; cbn [is_ok] in HI; rewrite HI; last first.
  { cbn. split; [done|]. by intros (_ & _ & _ & ?). }
  destruct HS as (Hc & Hp & Hos). destruct (otel_kept root _ _ Hos) as [Hk HkS].
  pose proof (write_otel_outcome root i backend entity project v' ltac:(by rewrite Ev) HkS ltac:(by rewrite Hk)) as HW. unfold runs in HW.
  destruct (run i (write_otel _ _ _ _) v') as [e w']. cbn [fst snd] in HW.
  split; [intros Hx; exfalso; apply Hx; split_and!; [done|done|by apply Ho|done]|]. intros _. by exists (ir_Config res), (w_fs v').
Qed.

(** ** A fresh project next to the sample repository *)

Definition fresh_project : World := set_fs (<["/p" := NDir]> setup_fs) (sample_world [] no_fault_env).
Lemma fresh_rooted : fs_rooted (w_fs fresh_project).
Proof.
  intros k n Hk. change (w_fs fresh_project) with (<["/p" := NDir]> setup_fs) in Hk.
  apply lookup_insert_Some in Hk as [[<- _]|[_ Hk]]; [split; reflexivity|]. by apply setup_fs_rooted in Hk.
Qed.

Lemma init_establishes_config_witness :
  let '(e, w') := run 0 (@init_cmd sample_external sample_YAML "/" no_warnings false ["r"] "/p/.phonewave/config.yaml" "jaeger" "" "")
                    fresh_project in
  e = None ∧ w_fs w' !! "/p/.phonewave/.otel.env" = Some (NFile (raw (line "OTEL_EXPORTER_OTLP_ENDPOINT=http://localhost:4318"))) ∧
  ∃ c fs, @holds_config sample_YAML "/p/.phonewave/config.yaml" c fs ∧ paths c = ["/r"] ∧
    ∀ p, p ≠ "/p/.phonewave/.otel.env" → w_fs w' !! p = fs !! p.
Proof.
  pose proof (@init_establishes_config sample_external sample_YAML sample_YAMLLaws 0 "/" "/p" "jaeger" "" "" no_warnings false ["r"]
    fresh_project) as HI. cbv zeta in HI. change (DefaultConfigPath "/p") with "/p/.phonewave/config.yaml" in HI.
  destruct (run 0 (init_cmd _ _ _ _ _ _ _ _) fresh_project) as [e w'].
  destruct HI as [_ HI].
  - reflexivity.
  - reflexivity.
  - reflexivity.
  - intros n. reflexivity.
  - intros n. exact I.
  - exact fresh_rooted.
  - split_and!; [reflexivity| |vm_compute; discriminate]. intros d Hd. left.
    rewrite !elem_of_cons, elem_of_nil in Hd. destruct Hd as [->|[->|[->|[->|[]]]]]; reflexivity.
  - vm_compute. discriminate.
  - vm_compute. discriminate.
  - vm_compute. discriminate.
  - apply NoDup_singleton.
  - destruct HI as (c & fs & H3 & H4 & _ & H5); [split_and!; [by repeat constructor|done|right; reflexivity|vm_compute; reflexivity]|].
    change (e = None ∧ w_fs w' = <["/p/.phonewave/.otel.env" :=
      NFile (raw (line "OTEL_EXPORTER_OTLP_ENDPOINT=http://localhost:4318"))]> fs) in H5.
    destruct H5 as [-> ->]. split; [done|]. split; [by rewrite lookup_insert_eq|]. exists c, fs. split_and!; [exact H3|exact H4|].
    intros p Hp. by rewrite lookup_insert_ne.
Defined.
