(* ===== verification/Contract.v ===== *)
(** * The parser of the contract tests

    Models [tests/contract/parser.go], with which the contract tests of all
    tools read and write D-Mails.  The YAML library at the types of this file
    is a class of parameters; a slice out of range panics. *)
From S2P Require Import Prelude GoStrings GoPath DMail Sha256 EventStore Insight CommandLine.

#[local] Open Scope nat_scope.

(** ** The data *)

Record DMail := mkDMail {
  cm_SchemaVersion : string; cm_Name : string; cm_Kind : string; cm_Description : string;
  cm_Issues : list string; cm_Severity : string; cm_Targets : list string;
  cm_Metadata : gmap string string; cm_Body : string }.
Definition set_body (b : string) (m : DMail) : DMail :=
  mkDMail (cm_SchemaVersion m) (cm_Name m) (cm_Kind m) (cm_Description m) (cm_Issues m) (cm_Severity m)
    (cm_Targets m) (cm_Metadata m) b.

(** [yaml.Marshal] and [yaml.Unmarshal]; the body is not part of the YAML. *)
Class MailYAML := {
  yaml_any : Type;
  yaml_marshal : DMail → result string;
  yaml_unmarshal : string → result DMail;
  yaml_map : string → result (gmap string yaml_any) }.

(** What a call does: it returns, or it panics. *)
Inductive outcome (A : Type) := Returns (r : result A) | Panics.
Arguments Returns {A} r.
Arguments Panics {A}.

Definition opening : string := line "---".
Definition closing : string := String nl (line "---").
Definition ending_fence : string := String nl "---".

(** [strings.TrimLeft] for line ends. *)
Fixpoint trim_lines (s : string) : string :=
  match s with String c r => if bool_decide (c = nl) then trim_lines r else s | EmptyString => "" end.

Definition find_closing (rest : string) : option nat :=
  match Index rest closing with
  | Some idx => Some idx
  | None => if HasSuffix rest ending_fence then Some (slen rest - 4) else None
  end.

Section Parser.
Context `{MailYAML}.

Definition Parse (data : bytes) : outcome DMail :=
  let s := str data in
  if negb (HasPrefix s opening) then Returns (Err (errors_New "missing opening frontmatter delimiter")) else
  let rest := String.substring 4 (slen s - 4) s in
  match find_closing rest with
  | None => Returns (Err (errors_New "missing closing frontmatter delimiter"))
  | Some idx =>
      let yamlPart := String.substring 0 idx rest in
      if slen rest <? idx + 5 then Panics else
      let bodyPart := String.substring (idx + 5) (slen rest - (idx + 5)) rest in
      match yaml_unmarshal yamlPart with
      | Err err => Returns (Err (errorf_w "parse frontmatter: " err))
      | Ok dm => Returns (Ok (set_body (trim_lines bodyPart) dm))
      end
  end.

Definition Marshal (dm : DMail) : result bytes :=
  match yaml_marshal dm with
  | Err err => Err (errorf_w "marshal frontmatter: " err)
  | Ok yamlData =>
      Ok (raw (opening +:+ yamlData +:+ opening +:+
        (if bool_decide (cm_Body dm = "") then ""
         else String nl (cm_Body dm) +:+ (if HasSuffix (cm_Body dm) (String nl "") then "" else String nl ""))))
  end.

Definition ParseFrontmatterMap (data : bytes) : result (gmap string yaml_any) :=
  let s := str data in
  if negb (HasPrefix s opening) then Err (errors_New "missing opening frontmatter delimiter") else
  let rest := String.substring 4 (slen s - 4) s in
  match find_closing rest with
  | None => Err (errors_New "missing closing frontmatter delimiter")
  | Some idx =>
      match yaml_map (String.substring 0 idx rest) with
      | Err err => Err (errorf_w "parse frontmatter: " err)
      | Ok m => Ok m
      end
  end.
End Parser.

Definition key_text (dm : DMail) : string :=
  cm_Name dm +:+ String nul (cm_Kind dm +:+ String nul (cm_Description dm +:+ String nul (cm_Body dm))).
Definition IdempotencyKey (dm : DMail) : string := EncodeToString (Sum256 (raw (key_text dm))).

(** * Lemmas *)

Lemma after_opening r : String.substring 4 (slen (opening +:+ r) - 4) (opening +:+ r) = r.
Proof.
  rewrite slen_app. change (slen opening) with 4. replace (4 + slen r - 4) with (slen r) by lia.
  change 4 with (slen opening + 0). rewrite substring_skip. by apply substring_all.
Qed.
Lemma HasSuffix_spec s p : HasSuffix s p = true → ∃ a, s = a +:+ p.
Proof.
  induction s as [|c s IH]; cbn [HasSuffix]; case_bool_decide as E; try done.
  - intros _. exists "". by rewrite <- E.
  - intros _. exists "". by rewrite <- E.
  - intros H. destruct (IH H) as [a ->]. by exists (String c a).
Qed.
Lemma HasPrefix_spec s p : HasPrefix s p = true → ∃ r, s = p +:+ r.
Proof. unfold HasPrefix. by rewrite prefix_spec. Qed.
Lemma HasPrefix_app p r : HasPrefix (p +:+ r) p = true.
Proof. apply prefix_refl_app. Qed.

Lemma find_closing_bound rest idx :
  find_closing rest = Some idx →
  (slen rest <? idx + 5) = true ↔ Contains rest closing = false ∧ HasSuffix rest ending_fence = true.
Proof.
  unfold find_closing. destruct (Index rest closing) as [k|] eqn:E.
  - intros [= <-]. pose proof E as E'. apply Index_Some in E' as (a & b & -> & <- & _).
    rewrite !slen_app. change (slen closing) with 5. split; [intros H%Nat.ltb_lt; lia|].
    intros [Hc _]. enough (Contains (a +:+ closing +:+ b) closing = true) by congruence. apply Contains_spec. by exists a, b.
  - apply Index_None in E. destruct (HasSuffix rest ending_fence) eqn:Es; [|done]. intros [= <-].
    apply HasSuffix_spec in Es as [a ->]. rewrite slen_app. change (slen ending_fence) with 4.
    split; [done|]. intros _. apply Nat.ltb_lt. lia.
Qed.

(** The first closing line stays the first when the text goes on. *)
Lemma Index_extend a sub t :
  Index (a +:+ sub) sub = Some (slen a) → Index (a +:+ sub +:+ t) sub = Some (slen a).
Proof.
  intros E. apply Index_Some in E as (a0 & b0 & E0 & El & Hmin).
  destruct (Index (a +:+ sub +:+ t) sub) as [k|] eqn:Ek.
  - apply Index_Some in Ek as (a' & b' & Heq & <- & Hm'). f_equal. specialize (Hm' (slen a) a t eq_refl eq_refl).
    destruct (decide (slen a ≤ slen a')); [lia|]. exfalso.
    assert (∃ b'', b' = b'' +:+ t) as [b'' ->].
    { assert (slen t ≤ slen b') as Hl by (apply (f_equal slen) in Heq; rewrite !slen_app in Heq; lia).
      exists (String.substring 0 (slen b' - slen t) b').
      assert (HasSuffix b' t = true) as Hs.
      { clear -Heq Hl. revert Heq. rewrite !app_str_assoc. generalize (a +:+ sub) as p. generalize (a' +:+ sub) as q.
        intros q p. revert q. induction p as [|c p IH]; intros q Heq.
        - change ("" +:+ t) with t in Heq. assert (q = "") as ->; [|change ("" +:+ b') with b' in Heq; subst t].
          { destruct q as [|d q]; [done|]. apply (f_equal slen) in Heq. rewrite slen_app in Heq. cbn in Heq. lia. }
          destruct b'; cbn; by rewrite bool_decide_eq_true_2.
        - destruct q as [|d q]; [|rewrite !app_str_cons in Heq; injection Heq as _ Heq; by apply (IH q)].
          change ("" +:+ b') with b' in Heq. subst b'. apply HasSuffix_app. }
      apply HasSuffix_spec in Hs as [b'' ->]. rewrite slen_app. replace (slen b'' + slen t - slen t) with (slen b'') by lia.
      by rewrite substring_take. }
    assert (a +:+ sub = a' +:+ sub +:+ b'') as Heq'.
    { rewrite !app_str_assoc in Heq. rewrite app_str_assoc. clear -Heq.
      assert (∀ p q : string, p +:+ t = q +:+ t → p = q) as Hinj.
      { intros p q E. apply raw_inj. apply (f_equal raw) in E. rewrite !raw_app in E. by apply app_inv_tail in E. }
      by apply Hinj. }
    specialize (Hmin (slen a') a' b'' Heq' eq_refl). lia.
  - apply Index_None in Ek. enough (Contains (a +:+ sub +:+ t) sub = true) by congruence. apply Contains_spec. by exists a, t.
Qed.

(** ** The key *)

Lemma framed_inj c a b a' b' :
  has_byte c a = false → has_byte c a' = false → a +:+ String c b = a' +:+ String c b' → a = a' ∧ b = b'.
Proof.
  revert a'. induction a as [|d a IH]; intros [|d' a'] H1 H2 E.
  - change (String c b = String c b') in E. by injection E.
  - rewrite app_str_cons in E. change ("" +:+ String c b) with (String c b) in E. injection E as <- E.
    cbn in H2. by rewrite bool_decide_true in H2.
  - rewrite app_str_cons in E. change ("" +:+ String c b') with (String c b') in E. injection E as <- E.
    cbn in H1. by rewrite bool_decide_true in H1.
  - rewrite !app_str_cons in E. injection E as <- E. cbn in H1, H2. apply orb_false_iff in H1 as [_ H1], H2 as [_ H2].
    destruct (IH a' H1 H2 E) as [-> ->]. done.
Qed.

(** A D-Mail whose short fields hold no zero byte. *)
Definition no_zero (m : DMail) : Prop :=
  has_byte nul (cm_Name m) = false ∧ has_byte nul (cm_Kind m) = false ∧ has_byte nul (cm_Description m) = false.
Lemma key_text_inj m m' :
  no_zero m → no_zero m' → key_text m = key_text m' →
  cm_Name m = cm_Name m' ∧ cm_Kind m = cm_Kind m' ∧ cm_Description m = cm_Description m' ∧ cm_Body m = cm_Body m'.
Proof.
  intros (N & K & D) (N' & K' & D') E. unfold key_text in E.
  apply framed_inj in E as [E1 E]; [|done..]. apply framed_inj in E as [E2 E]; [|done..].
  by apply framed_inj in E as [E3 E4].
Qed.

(** ** Bodies *)

Definition ends_line (b : string) : bool := HasSuffix b (String nl "").
(** What a body becomes when it is written and read. *)
Definition settled_body (b : string) : string :=
  if bool_decide (b = "") then "" else trim_lines (b +:+ (if ends_line b then "" else String nl "")).

Lemma trim_lines_suffix s : ∃ p, s = p +:+ trim_lines s.
Proof.
  induction s as [|c s [p IH]]; [by exists ""|]. cbn. case_bool_decide; [|by exists ""].
  exists (String c p). rewrite app_str_cons. by rewrite <- IH.
Qed.
Lemma trim_lines_idem s : trim_lines (trim_lines s) = trim_lines s.
Proof. induction s as [|c s IH]; [done|]. cbn. case_bool_decide as E; [done|]. cbn. by rewrite bool_decide_false. Qed.
Lemma ends_line_spec s : ends_line s = true ↔ ∃ a, s = a +:+ String nl "".
Proof.
  split; [apply HasSuffix_spec|]. intros [a ->]. apply HasSuffix_app.
Qed.
Lemma ends_line_suffix p s : s ≠ "" → ends_line (p +:+ s) = true → ends_line s = true.
Proof.
  induction p as [|c p IH]; [done|]. intros Hs. rewrite app_str_cons. unfold ends_line. cbn [HasSuffix].
  case_bool_decide as E; [|by apply IH]. injection E as _ E. destruct p; [|done]. change ("" +:+ s) with s in E. done.
Qed.
Lemma settled_body_idem b : settled_body (settled_body b) = settled_body b.
Proof.
  unfold settled_body at 2 3. case_bool_decide as Hb; [done|].
  set (t := b +:+ (if ends_line b then "" else String nl "")). unfold settled_body. case_bool_decide as Ht; [done|].
  assert (ends_line t = true) as He.
  { unfold t. destruct (ends_line b) eqn:E; [by rewrite app_str_nil_r|]. apply ends_line_spec. by exists b. }
  destruct (trim_lines_suffix t) as [p Ep]. rewrite Ep in He. apply ends_line_suffix in He; [|done].
  by rewrite He, app_str_nil_r, trim_lines_idem.
Qed.

(** * Theorems *)

(** What YAML says about a marshalled mapping: it ends with its last line's
    end, and no line of it is a document marker. *)
Class MailYAMLLaws `{MailYAML} : Prop := {
  yaml_mail_lines : ∀ m y, yaml_marshal m = Ok y → ∃ z, y = line z ∧ Index (z +:+ closing) closing = Some (slen z) }.

(** What the decoder makes of a text, and the fields it found with a body. *)
Definition decoded {A} (r : result A) : result A := match r with Ok m => Ok m | Err err => Err (errorf_w "parse frontmatter: " err) end.
Definition with_body (b : string) (r : result DMail) : result DMail := rbind r (λ m, Ok (set_body b m)).

(** The parts of a marshalled D-Mail. *)
Lemma Marshal_frame `{MailYAMLLaws} (dm : DMail) (data : bytes) : Marshal dm = Ok data →
  ∃ z tail, yaml_marshal dm = Ok (line z) ∧ str data = opening +:+ z +:+ closing +:+ tail ∧
    Index (z +:+ closing +:+ tail) closing = Some (slen z) ∧ trim_lines tail = settled_body (cm_Body dm).
Proof.
  unfold Marshal. destruct (yaml_marshal dm) as [y|] eqn:Ey; [|done]. intros Hd. destruct (yaml_mail_lines dm y Ey) as (z & -> & Hz).
  exists z. eexists. split; [done|]. apply (f_equal (λ r, match r with Ok b => str b | Err _ => "" end)) in Hd. cbv beta iota in Hd.
  rewrite string_of_list_ascii_of_string in Hd. rewrite <- Hd.
  split_and!; [unfold line, closing, opening; by rewrite <- !app_str_assoc|by apply Index_extend|].
  unfold settled_body. fold (ends_line (cm_Body dm)). destruct (bool_decide (cm_Body dm = "")); [done|].
  rewrite app_str_cons. cbn [trim_lines]. by rewrite bool_decide_true by done.
Qed.

(** C32: the contract parser frames D-Mails: what [Marshal] writes is split
    again where it was put together.  Both readers give the YAML decoder exactly
    the marshalled text without the end of its last line, and [Parse] returns
    the fields the decoder finds there, or its error, with the body the D-Mail
    had, settled: it begins with no line end and ends with one, and a settled
    body comes back as it was.  So a D-Mail whose fields the decoder reads back
    from that text round trips.  On other texts [Parse] returns except on those
    it says to handle, which end with the fence without a line end, and there
    it panics. *)
Theorem contract_parser_frames `{MailYAMLLaws} (dm : DMail) (data : bytes) :
  (Marshal dm = Ok data → ∃ z, yaml_marshal dm = Ok (line z) ∧
     Parse data = Returns (with_body (settled_body (cm_Body dm)) (decoded (yaml_unmarshal z))) ∧
     ParseFrontmatterMap data = decoded (yaml_map z) ∧
     (yaml_unmarshal z = Ok (set_body "" dm) → Parse data = Returns (Ok (set_body (settled_body (cm_Body dm)) dm)))) ∧
  settled_body (settled_body (cm_Body dm)) = settled_body (cm_Body dm) ∧
  (Parse data = Panics ↔
     ∃ rest, str data = opening +:+ rest ∧ Contains rest closing = false ∧ HasSuffix rest ending_fence = true).
Proof.
  split; [|split; [apply settled_body_idem|]].
  - intros (z & tail & Ey & Ed & Hi & Ht)%Marshal_frame. exists z. split; [done|].
    assert (Parse data = Returns (with_body (settled_body (cm_Body dm)) (decoded (yaml_unmarshal z)))) as HP.
    { unfold Parse. rewrite Ed, HasPrefix_app. cbn [negb]. rewrite after_opening. unfold find_closing. rewrite Hi.
      replace (slen (z +:+ closing +:+ tail) <? slen z + 5) with false
        by (symmetry; apply Nat.ltb_ge; rewrite !slen_app; change (slen closing) with 5; lia).
      rewrite substring_take.
      assert (String.substring (slen z + 5) (slen (z +:+ closing +:+ tail) - (slen z + 5)) (z +:+ closing +:+ tail) = tail) as ->.
      { rewrite !slen_app. change (slen closing) with 5. rewrite substring_skip. change 5 with (slen closing + 0) at 1.
        rewrite substring_skip. apply substring_all. lia. }
      rewrite Ht. by destruct (yaml_unmarshal z). }
    split; [done|]. split; [|by intros E; rewrite HP, E].
    unfold ParseFrontmatterMap. rewrite Ed, HasPrefix_app. cbn [negb]. rewrite after_opening. unfold find_closing. rewrite Hi, substring_take.
    by destruct (yaml_map z).
  - unfold Parse. destruct (HasPrefix (str data) opening) eqn:Hp; cbn [negb]; last first.
    { split; [done|]. intros (rest & E & _). by rewrite E, HasPrefix_app in Hp. }
    apply HasPrefix_spec in Hp as [rest E]. rewrite E, after_opening.
    assert ((∃ rest0, opening +:+ rest = opening +:+ rest0 ∧ Contains rest0 closing = false ∧ HasSuffix rest0 ending_fence = true) ↔
            Contains rest closing = false ∧ HasSuffix rest ending_fence = true) as ->.
    { split; [|by exists rest]. intros (rest0 & E0 & ?). apply app_str_inj in E0. by subst. }
    destruct (find_closing rest) as [idx|] eqn:Ef.
    + rewrite <- (find_closing_bound rest idx Ef). destruct (slen rest <? idx + 5); [done|].
      destruct (yaml_unmarshal _); done.
    + split; [done|]. intros [Hc Hs]. unfold find_closing in Ef. apply Index_None in Hc. by rewrite Hc, Hs in Ef.
Qed.

(** The key is made of the four fields and frames them: for short fields
    without zero bytes, the hashed text is the same exactly when they are. *)
Theorem contract_key_frames (m m' : DMail) :
  no_zero m → no_zero m' →
  IdempotencyKey m = EncodeToString (Sum256 (raw (key_text m))) ∧
  (key_text m = key_text m' ↔
   cm_Name m = cm_Name m' ∧ cm_Kind m = cm_Kind m' ∧ cm_Description m = cm_Description m' ∧ cm_Body m = cm_Body m').
Proof.
  intros H H'. split; [done|]. split; [by apply key_text_inj|]. unfold key_text. by intros (-> & -> & -> & ->).
Qed.

(** ** A sample library *)

#[export] Instance DMail_eq_dec : EqDecision DMail.
Proof. solve_decision. Defined.
#[export] Instance DMail_countable : Countable DMail.
Proof.
  refine (inj_countable' (λ m, (cm_SchemaVersion m, cm_Name m, cm_Kind m, cm_Description m, cm_Issues m, cm_Severity m,
      cm_Targets m, cm_Metadata m, cm_Body m))
    (λ '(v, n, k, d, i, s, t, e, b), mkDMail v n k d i s t e b) _).
  by intros [].
Defined.

Definition sample_mail_yaml : MailYAML := {|
  yaml_any := unit;
  yaml_marshal := λ m, Ok (line (str (bits (encode (set_body "" m)))));
  yaml_unmarshal := λ z, match decode (unbits (raw z)) with Some m => Ok m | None => Err (errors_New "yaml: unmarshal") end;
  yaml_map := λ z, Ok ∅ |}.

Lemma Index_closing z : has_byte nl z = false → Index (z +:+ closing) closing = Some (slen z).
Proof.
  induction z as [|c z IH]; [done|]. cbn [has_byte]. intros [Hc H]%orb_false_iff. apply bool_decide_eq_false in Hc.
  rewrite app_str_cons. unfold closing at 2. cbn [Index String.prefix]. destruct (ascii_dec nl c) as [E|_]; [by destruct Hc|].
  fold closing. by rewrite IH.
Qed.
Lemma bits_lines p : has_byte nl (str (bits p)) = false.
Proof.
  induction p as [p IH|p IH|]; [change (has_byte nl (String "1" (str (bits p))) = false)|
    change (has_byte nl (String "0" (str (bits p))) = false)|reflexivity]; cbn [has_byte]; by rewrite bool_decide_false.
Qed.
Lemma sample_mail_laws : @MailYAMLLaws sample_mail_yaml.
Proof. constructor. intros m y [= <-]. eexists. split; [done|]. apply Index_closing, bits_lines. Qed.
Lemma sample_mail_reads m z : @yaml_marshal sample_mail_yaml m = Ok (line z) → @yaml_unmarshal sample_mail_yaml z = Ok (set_body "" m).
Proof.
  intros [= E]. cbn [yaml_unmarshal sample_mail_yaml].
  assert (z = str (bits (encode (set_body "" m)))) as ->.
  { apply raw_inj. apply (f_equal raw) in E. unfold line in E. rewrite !raw_app in E. by apply app_inv_tail in E. }
  autorewrite with go_rw. by rewrite unbits_bits, decode_encode.
Qed.

Definition sample_mail : DMail := mkDMail "1" "m1" "report" "d" [] "" [] ∅ "text".
Lemma contract_parser_frames_witness :
  (∃ data, @Marshal sample_mail_yaml sample_mail = Ok data ∧
     @Parse sample_mail_yaml data = Returns (Ok (set_body (line "text") sample_mail))) ∧
  @Parse sample_mail_yaml (raw (line "---" +:+ line "name: m1" +:+ "---")) = Panics.
Proof.
  split.
  - eexists. split; [reflexivity|].
    destruct (proj1 (@contract_parser_frames sample_mail_yaml sample_mail_laws sample_mail _) eq_refl) as (z & Ez & _ & _ & HP).
    apply HP. by apply sample_mail_reads.
  - apply (@contract_parser_frames sample_mail_yaml sample_mail_laws sample_mail).
    exists (line "name: m1" +:+ "---"). split_and!; vm_compute; reflexivity.
Defined.

(** The map of the same text is read. *)
Example map_of_open_ending :
  @ParseFrontmatterMap sample_mail_yaml (raw (line "---" +:+ line "name: m1" +:+ "---")) = Ok ∅.
Proof. vm_compute. reflexivity. Qed.

(** Line ends of another system: the daemon reads them, the contract parser
    does not. *)
Example stricter_than_the_daemon `{External} `{MailYAML} :
  let crlf := String "013" (String nl "") in
  let text := "---" +:+ crlf +:+ "kind: report" +:+ crlf +:+ "---" +:+ crlf in
  Parse (raw text) = Returns (Err (errors_New "missing opening frontmatter delimiter")) ∧
  ParseDMailFrontmatter (raw text) = yaml_DMail (crlf +:+ "kind: report" +:+ crlf).
Proof. split; vm_compute; reflexivity. Qed.

(** Two D-Mails that differ in their metadata have one contract key and two
    keys for the daemon. *)
Example keys_disagree :
  let a := raw (line "---" +:+ line "name: m1" +:+ line "---") in
  let b := raw (line "---" +:+ line "name: m1" +:+ line "severity: low" +:+ line "---") in
  ContentIdempotencyKey a ≠ ContentIdempotencyKey b ∧
  ∀ m s, IdempotencyKey (mkDMail (cm_SchemaVersion m) (cm_Name m) (cm_Kind m) (cm_Description m) (cm_Issues m) s
           (cm_Targets m) (cm_Metadata m) (cm_Body m)) = IdempotencyKey m.
Proof. split; [vm_compute; discriminate|done]. Qed.
