(* ===== verification/Console.v ===== *)
(** * Log lines

    Models [platform/logger.go], with the interface of
    [domain/logger_interface.go], and of the telemetry settings
    [platform/telemetry.go] and [parseExtraEndpoints] of [cmd/telemetry.go].  A
    message is taken after [fmt.Sprintf]; a writer is the list of what was
    written, one entry for each call of the writer; the mutex makes each
    method one step. *)
From S2P Require Import Prelude GoStrings DMail Doctor CommandLine.

#[local] Open Scope nat_scope.

Definition esc : ascii := "027".
Definition ansi (code : string) : string := String esc ("[" +:+ code +:+ "m").
Definition ansiReset : string := ansi "0".
Definition ansiCyan : string := ansi "36".
Definition ansiBoldBlue : string := ansi "1;34".
Definition ansiYellow : string := ansi "33".
Definition ansiBoldRed : string := ansi "1;31".
Definition ansiGray : string := ansi "90".
Definition ansiInvertGreen : string := ansi "7;32".
Definition ansiInvertCyan : string := ansi "7;36".
Definition ansiInvertWhite : string := ansi "7;1".
Definition ansiInvertBlue : string := ansi "7;34".

Record Logger := mkLogger {
  lg_out : list string; lg_extra : option (list string); lg_verbose : bool; lg_noColor : bool }.

(** [NewLogger]: whether [NO_COLOR] is set, and whether the output is a
    terminal. *)
Definition NewLogger (env : gmap string string) (terminal verbose : bool) : Logger :=
  mkLogger [] None verbose (negb (bool_decide (Getenv env "NO_COLOR" = "")) || negb terminal).
Definition SetNoColor (v : bool) (l : Logger) : Logger := mkLogger (lg_out l) (lg_extra l) (lg_verbose l) v.
Definition SetExtraWriter (w : option (list string)) (l : Logger) : Logger :=
  mkLogger (lg_out l) w (lg_verbose l) (lg_noColor l).
(** One line for the output and one for the extra writer. *)
Definition emit_line (text plain : string) (l : Logger) : Logger :=
  mkLogger (lg_out l ++ [text]) ((λ e, e ++ [plain]) <$> lg_extra l) (lg_verbose l) (lg_noColor l).

Definition newline : string := String "010" "".
Definition Colorize (text color : string) (l : Logger) : string :=
  if lg_noColor l then text else color +:+ text +:+ ansiReset.
Definition colorPrefix (prefix color : string) (l : Logger) : string :=
  if lg_noColor l then prefix else color +:+ prefix +:+ ansiReset.
Definition stamped (ts prefix msg : string) : string := "[" +:+ ts +:+ "] " +:+ prefix +:+ " " +:+ msg +:+ newline.
Definition logLine (ts prefix color msg : string) (l : Logger) : Logger :=
  emit_line (stamped ts (colorPrefix prefix color l) msg) (stamped ts prefix msg) l.

Definition Info (ts msg : string) : Logger → Logger := logLine ts "INFO" ansiCyan msg.
Definition OK (ts msg : string) : Logger → Logger := logLine ts " OK " ansiBoldBlue msg.
Definition Warn (ts msg : string) : Logger → Logger := logLine ts "WARN" ansiYellow msg.
Definition Error_line (ts msg : string) : Logger → Logger := logLine ts " ERR" ansiBoldRed msg.
Definition Debug_line (ts msg : string) (l : Logger) : Logger :=
  if lg_verbose l then logLine ts "DBUG" ansiGray msg l else l.

Definition StatusColor (s : CheckStatus) : string :=
  match s with
  | CheckOK => ansiBoldBlue | CheckWarn => ansiYellow | CheckFail => ansiBoldRed
  | CheckSkip => ansiGray | CheckFixed => ansiBoldBlue
  end.
Definition StatusColorFromLabel (label : string) : string :=
  if bool_decide (label ∈ ["OK"; "FIX"]) then ansiBoldBlue
  else if bool_decide (label = "WARN") then ansiYellow
  else if bool_decide (label = "FAIL") then ansiBoldRed
  else if bool_decide (label = "SKIP") then ansiGray
  else ansiYellow.

Inductive BannerDirection := BannerSend | BannerRecv.

Section Lines.
Context `{External}.

Definition shortened (description : string) : string :=
  if 50 <? slen description then String.substring 0 47 description +:+ "..." else description.
(** The parts of a banner: arrow, label, color, plain arrow. *)
Definition banner_parts (dir : BannerDirection) : string * string * string * string :=
  match dir with
  | BannerSend => ("▶", "D-MAIL SEND", ansiInvertGreen, ">>>")
  | BannerRecv => ("◀", "D-MAIL RECV", ansiInvertCyan, "<<<")
  end.
Definition Banner (ts : string) (dir : BannerDirection) (kind name description : string) (l : Logger) : Logger :=
  let desc := shortened description in
  let '(arrow, label, color, plainArrow) := banner_parts dir in
  let content a := a +:+ " " +:+ label +:+ " " +:+ kind +:+ " (" +:+ name +:+ ") " +:+ quote desc in
  let plain := "[" +:+ ts +:+ "] " +:+ content plainArrow +:+ newline in
  emit_line (if lg_noColor l then plain
             else color +:+ "[" +:+ ts +:+ "] " +:+ content arrow +:+ ansiReset +:+ newline) plain l.
Definition Header (toolName version : string) (l : Logger) : Logger :=
  let content := " " +:+ toolName +:+ " " +:+ version +:+ " " in
  let plain := "=== " +:+ content +:+ " ===" +:+ newline in
  emit_line (if lg_noColor l then plain else ansiInvertWhite +:+ content +:+ ansiReset +:+ newline) plain l.
Definition Section_line (title : string) (l : Logger) : Logger :=
  let content := " " +:+ title +:+ " " in
  let plain := "--- " +:+ content +:+ " ---" +:+ newline in
  emit_line (if lg_noColor l then plain else ansiInvertBlue +:+ content +:+ ansiReset +:+ newline) plain l.

(** ** Sequences of calls *)

Inductive call :=
  | CInfo (ts msg : string) | COK (ts msg : string) | CWarn (ts msg : string) | CError (ts msg : string)
  | CDebug (ts msg : string) | CBanner (ts : string) (dir : BannerDirection) (kind name description : string)
  | CHeader (toolName version : string) | CSection (title : string) | CSetNoColor (v : bool).
Definition exec_call (l : Logger) (c : call) : Logger :=
  match c with
  | CInfo ts m => Info ts m l | COK ts m => OK ts m l | CWarn ts m => Warn ts m l | CError ts m => Error_line ts m l
  | CDebug ts m => Debug_line ts m l | CBanner ts d k n s => Banner ts d k n s l
  | CHeader t v => Header t v l | CSection t => Section_line t l | CSetNoColor v => SetNoColor v l
  end.
Definition exec_calls (cs : list call) (l : Logger) : Logger := fold_left exec_call cs l.
(** The line of a call without colors; nothing for debug lines of a quiet
    logger and for [SetNoColor]. *)
Definition plain_lines (verbose : bool) (c : call) : list string :=
  match c with
  | CInfo ts m => [stamped ts "INFO" m] | COK ts m => [stamped ts " OK " m]
  | CWarn ts m => [stamped ts "WARN" m] | CError ts m => [stamped ts " ERR" m]
  | CDebug ts m => if verbose then [stamped ts "DBUG" m] else []
  | CBanner ts d k n s => lg_out (Banner ts d k n s (mkLogger [] None verbose true))
  | CHeader t v => lg_out (Header t v (mkLogger [] None verbose true))
  | CSection t => lg_out (Section_line t (mkLogger [] None verbose true))
  | CSetNoColor _ => []
  end.

Lemma exec_call_lines l c :
  lg_verbose (exec_call l c) = lg_verbose l ∧
  lg_extra (exec_call l c) = (λ e, e ++ plain_lines (lg_verbose l) c) <$> lg_extra l ∧
  (lg_noColor l = true → lg_out (exec_call l c) = lg_out l ++ plain_lines (lg_verbose l) c) ∧
  length (lg_out (exec_call l c)) = length (lg_out l) + length (plain_lines (lg_verbose l) c).
Proof.
  assert (lg_extra l = (λ e, e ++ []) <$> lg_extra l) as E0 by (destruct (lg_extra l); cbn; by rewrite ?app_nil_r).
  destruct l as [out extra verbose noColor].
  destruct c as [| | | |ts m|ts [] k n s| | |]; cbn; try (destruct verbose; cbn);
    (split_and!; [done|done| |]); try (intros ->); rewrite ?length_app, ?app_nil_r; cbn; done || lia.
Qed.

(** The log file gets the plain line of every call, in order, whatever the
    colors of the terminal are and however they change; a logger without
    colors writes the same lines to its output; and the output has as many
    lines as the file. *)
Theorem log_file_is_plain (cs : list call) (l : Logger) (e : list string) :
  lg_extra l = Some e →
  lg_extra (exec_calls cs l) = Some (e ++ (c ← cs; plain_lines (lg_verbose l) c)) ∧
  length (lg_out (exec_calls cs l)) = length (lg_out l) + length (c ← cs; plain_lines (lg_verbose l) c) ∧
  (lg_noColor l = true → Forall (λ c, c ≠ CSetNoColor false) cs →
   lg_out (exec_calls cs l) = lg_out l ++ (c ← cs; plain_lines (lg_verbose l) c)).
Proof.
  revert l e. induction cs as [|c cs IH]; intros l e He; cbn [exec_calls fold_left].
  { rewrite He. cbn. rewrite !app_nil_r. split_and!; [done|lia|done]. }
  destruct (exec_call_lines l c) as (V & X & O & N). rewrite He in X. cbn in X.
  destruct (IH (exec_call l c) _ X) as (H1 & H2 & H3). unfold exec_calls in *. rewrite V in *. rewrite bind_cons.
  split_and!.
  - by rewrite H1, app_assoc.
  - rewrite H2, N, length_app. lia.
  - intros Hn Hs. apply Forall_cons in Hs as [Hc Hs]. rewrite H3, (O Hn), <- app_assoc; [done| |done].
    destruct c as [| | | |ts m|ts [] k n s| | |v]; cbn; try done; [unfold Debug_line; by destruct (lg_verbose l)|by destruct v].
Qed.
End Lines.

Lemma log_file_is_plain_witness :
  let cs := [CInfo "10:00:00" "a"; CDebug "10:00:01" "b"; CSetNoColor true; CWarn "10:00:02" "c"] in
  lg_extra (@exec_calls sample_external cs (mkLogger [] (Some []) false false)) =
    Some [stamped "10:00:00" "INFO" "a"; stamped "10:00:02" "WARN" "c"].
Proof.
  intros cs. by destruct (@log_file_is_plain sample_external cs (mkLogger [] (Some []) false false) [] eq_refl) as [-> _].
Defined.

(** A description is cut between bytes, also inside a character. *)
Example cut_in_a_character :
  shortened "aaaaaaaaaaaaaaaaaaaaaaaaaaaaaaaaaaaaaaaaaaaaaaéééé" =
  "aaaaaaaaaaaaaaaaaaaaaaaaaaaaaaaaaaaaaaaaaaaaaa" +:+ String "195" "...".
Proof. vm_compute. reflexivity. Qed.

(** ** Telemetry settings *)

Inductive DetailLevel := DetailBasic | DetailDebug.
Definition InitDetailLevel (env : gmap string string) : DetailLevel :=
  if bool_decide (Getenv env "OTEL_DETAIL_LEVEL" = "debug") then DetailDebug else DetailBasic.
Definition IsDetailDebug (l : DetailLevel) : bool := match l with DetailDebug => true | DetailBasic => false end.
(** Without an endpoint [initTracer] and [initMeter] export nothing. *)
Definition traces_exported (env : gmap string string) : bool :=
  negb (bool_decide (Getenv env "OTEL_EXPORTER_OTLP_ENDPOINT" = "") &&
        bool_decide (Getenv env "OTEL_EXPORTER_OTLP_TRACES_ENDPOINT" = "")).
Definition metrics_exported (env : gmap string string) : bool :=
  negb (bool_decide (Getenv env "OTEL_EXPORTER_OTLP_METRICS_ENDPOINT" = "")).
Definition parseExtraEndpoints (envVal : string) : list string :=
  if bool_decide (envVal = "") then [] else
  ep ← Split envVal ","%char;
  let ep := TrimSpace ep in if bool_decide (ep = "") then [] else [ep].

Lemma parseExtraEndpoints_spec envVal ep :
  ep ∈ parseExtraEndpoints envVal ↔ ep ≠ "" ∧ ∃ part, part ∈ Split envVal ","%char ∧ ep = TrimSpace part.
Proof.
  unfold parseExtraEndpoints. case_bool_decide as E.
  - subst. split; [by intros ?%elem_of_nil|]. intros (Hn & part & Hp & ->). cbn in Hp.
    apply list_elem_of_singleton in Hp as ->. by destruct Hn.
  - rewrite list_elem_of_bind. split.
    + intros (part & H & Hp). case_bool_decide as Et; [by apply elem_of_nil in H|].
      apply list_elem_of_singleton in H as ->. split; [done|]. by exists part.
    + intros (Hn & part & Hp & ->). exists part. rewrite bool_decide_false by done. split; [by left|done].
Qed.
(** The file that [init] writes for Weave switches the exporter on. *)
Lemma weave_exports (env : gmap string string) entity project :
  project ≠ "" → TrimSpace project = project → file_value entity → file_value project →
  has_byte nul (Getenv env "WANDB_API_KEY") = false →
  Forall (λ k, Getenv env k = "") ["OTEL_EXPORTER_OTLP_ENDPOINT"; "OTEL_EXPORTER_OTLP_HEADERS"; "OTEL_RESOURCE_ATTRIBUTES"] →
  traces_exported (apply_text env (raw (weave_text entity project))) = true.
Proof.
  intros. unfold traces_exported. rewrite apply_weave by done.
  assert (∀ k v (e : gmap string string), Getenv (<[k := v]> e) k = v) as G by (intros; unfold Getenv; by rewrite lookup_insert_eq).
  assert (∀ k k' v (e : gmap string string), k' ≠ k → Getenv (<[k' := v]> e) k = Getenv e k) as G'
    by (intros; unfold Getenv; by rewrite lookup_insert_ne).
  by rewrite !(G' "OTEL_EXPORTER_OTLP_ENDPOINT"), G by done.
Qed.
