(* ===== verification/Telemetry.v ===== *)
(** * Telemetry

    Models [platform/sanitize.go] with [strings.ToValidUTF8], the counters of
    [platform/metrics.go], [platform/policy_metrics.go] and
    [platform/mcp_metrics.go], the spans of [session/provider_telemetry.go] and
    [session/span_event_store.go], the exporters of [cmd/telemetry.go], and
    the preparation of a command in [cmd/root.go].  What is sent is a record:
    a span or a measurement with its attributes.  The OpenTelemetry SDK
    (resources, exporters) is a parameter. *)
From S2P Require Import Prelude GoStrings GoPath GoTime DMail Provider Prog World Files Events EventStore Cutover ConfigFile Maintenance Report MCP CommandLine Console.

#[local] Open Scope nat_scope.

(** ** [unicode/utf8] and [strings.ToValidUTF8] *)

Definition between (lo hi : Z) (c : ascii) : bool := ((lo <=? byte_val c) && (byte_val c <=? hi))%Z.
Definition continuation : ascii → bool := between 128 191.
(** The width of the rune that the text begins with; 0 for none. *)
Definition rune_width (s : bytes) : nat :=
  match s with
  | [] => 0
  | a :: r =>
      if between 0 127 a then 1
      else if between 194 223 a then
        match r with b :: _ => if continuation b then 2 else 0 | _ => 0 end
      else if between 224 239 a then
        match r with
        | b :: c :: _ =>
            if between (if (byte_val a =? 224)%Z then 160 else 128) (if (byte_val a =? 237)%Z then 159 else 191) b &&
               continuation c then 3 else 0
        | _ => 0
        end
      else if between 240 244 a then
        match r with
        | b :: c :: d :: _ =>
            if between (if (byte_val a =? 240)%Z then 144 else 128) (if (byte_val a =? 244)%Z then 143 else 191) b &&
               continuation c && continuation d then 4 else 0
        | _ => 0
        end
      else 0
  end.
(** [keep] bytes belong to a rune; [invalid] is whether the byte before was
    not part of one. *)
Fixpoint to_valid (replacement : bytes) (invalid : bool) (keep : nat) (s : bytes) : bytes :=
  match s with
  | [] => []
  | c :: r =>
      match keep with
      | S k => c :: to_valid replacement false k r
      | O =>
          match rune_width s with
          | O => (if invalid then [] else replacement) ++ to_valid replacement true 0 r
          | S k => c :: to_valid replacement false k r
          end
      end
  end.
Definition ToValidUTF8 (s replacement : string) : string := str (to_valid (raw replacement) false 0 (raw s)).
(** [utf8.Valid] *)
Fixpoint utf8_loop (keep : nat) (s : bytes) : bool :=
  match s with
  | [] => keep =? 0
  | c :: r =>
      match keep with
      | S k => utf8_loop k r
      | O => match rune_width s with O => false | S k => utf8_loop k r end
      end
  end.
Definition utf8_Valid (s : string) : bool := utf8_loop 0 (raw s).

Definition SanitizeUTF8 (s : string) : string :=
  ToValidUTF8 s (String "239" (String "191" (String "189" ""))).

Example sanitized :
  SanitizeUTF8 ("a" +:+ String "255" (String "254" "b") +:+ String "195" "") =
  "a" +:+ String "239" (String "191" (String "189" "b")) +:+ String "239" (String "191" (String "189" "")).
Proof. reflexivity. Qed.

Lemma rune_width_le s : rune_width s ≤ length s.
Proof.
  destruct s as [|a [|b [|c [|d s]]]]; cbn [rune_width length];
    repeat (match goal with |- context [if ?x then _ else _] => destruct x end); lia.
Qed.
Lemma rune_width_app s t : rune_width s ≠ 0 → rune_width (s ++ t) = rune_width s.
Proof.
  destruct s as [|a [|b [|c [|d s]]]]; cbn [rune_width app]; [done|..];
    repeat (match goal with |- context [if ?x then _ else _] => destruct x end; try done).
Qed.
Lemma rune_width_take s k : rune_width s = S k → rune_width (take (S k) s) = S k.
Proof.
  destruct s as [|a [|b [|c [|d s]]]]; cbn [rune_width]; [done|..];
    repeat (match goal with |- context [if ?x then _ else _] => destruct x eqn:? end; try done);
    intros [= <-]; cbn [take rune_width]; by repeat match goal with H : ?x = _ |- context [?x] => rewrite H end.
Qed.

Lemma to_valid_keep rep b k s :
  k ≤ length s → to_valid rep b k s = take k s ++ to_valid rep (match k with O => b | _ => false end) 0 (drop k s).
Proof.
  revert b s. induction k as [|k IH]; intros b [|c s]; cbn [length]; intros Hk; try (lia || done).
  cbn [to_valid take drop app]. rewrite IH by lia. do 2 f_equal. by destruct k.
Qed.
Lemma utf8_keep k s t : length s = k → utf8_loop k (s ++ t) = utf8_loop 0 t.
Proof. revert k. induction s as [|c s IH]; intros [|k]; try done. intros [= Hk]. cbn. by apply IH. Qed.
Lemma utf8_rune s t k : rune_width s = S k → length s = S k → utf8_loop 0 (s ++ t) = utf8_loop 0 t.
Proof.
  intros Hw Hl. destruct s as [|c s]; [done|]. pose proof (rune_width_app (c :: s) t ltac:(by rewrite Hw)) as E. rewrite Hw in E.
  change ((c :: s) ++ t) with (c :: (s ++ t)) in *. cbn [utf8_loop]. rewrite E. apply utf8_keep. by injection Hl.
Qed.
Lemma to_valid_utf8 rep : utf8_loop 0 rep = true → (∀ t, utf8_loop 0 (rep ++ t) = utf8_loop 0 t) →
  ∀ s b, utf8_loop 0 (to_valid rep b 0 s) = true.
Proof.
  intros Hr Ha s. induction s as [s IH] using (induction_ltof1 _ (@length ascii)). unfold ltof in IH.
  intros b. destruct s as [|c s]; [done|]. cbn [to_valid]. destruct (rune_width (c :: s)) as [|k] eqn:Ew.
  - destruct b; cbn [app]; [|rewrite Ha]; apply IH; cbn; lia.
  - pose proof (rune_width_le (c :: s)) as Hl. rewrite Ew in Hl. cbn [length] in Hl.
    rewrite to_valid_keep by lia. rewrite app_comm_cons.
    change (c :: take k s) with (take (S k) (c :: s)).
    rewrite (utf8_rune _ _ k); [apply IH; rewrite length_drop; cbn; lia|by apply rune_width_take|].
    rewrite length_take. cbn [length]. lia.
Qed.
Lemma to_valid_id rep k s : utf8_loop k s = true → ∀ b, to_valid rep b k s = s.
Proof.
  revert k. induction s as [|c s IH]; intros k; [done|]. cbn [utf8_loop to_valid]. destruct k as [|k].
  - destruct (rune_width (c :: s)); [done|]. intros H b. by rewrite IH.
  - intros H b. by rewrite IH.
Qed.

(** A sanitized text is valid UTF-8, and a text that is valid stays as it
    is; so sanitizing twice is sanitizing once. *)
Theorem SanitizeUTF8_valid (s : string) :
  utf8_Valid (SanitizeUTF8 s) = true ∧ (utf8_Valid s = true → SanitizeUTF8 s = s) ∧
  SanitizeUTF8 (SanitizeUTF8 s) = SanitizeUTF8 s.
Proof.
  assert (∀ s, utf8_Valid (SanitizeUTF8 s) = true) as HV.
  { intros t. unfold utf8_Valid, SanitizeUTF8, ToValidUTF8. autorewrite with go_rw. by apply to_valid_utf8. }
  assert (∀ s, utf8_Valid s = true → SanitizeUTF8 s = s) as HI.
  { intros t Ht. unfold SanitizeUTF8, ToValidUTF8. rewrite to_valid_id by done. by autorewrite with go_rw. }
  split_and!; [apply HV|apply HI|apply HI, HV].
Qed.

(** ** Attributes, spans and measurements *)

Inductive attr_value := AText (s : string) | AInt (n : Z).
Abbreviation attribute := (string * attr_value)%type.
Definition attr_String (key v : string) : attribute := (key, AText v).
Definition attr_Int (key : string) (n : Z) : attribute := (key, AInt n).
(** [int64(afterSeqNr)] of a [uint64] *)
Definition attr_Int64 (key : string) (n : Z) : attribute := (key, AInt (i64 n)).

(** A measurement: the instrument, what is added, its attributes. *)
Inductive amount := Count (n : Z) | Duration_s (d : float64).
Record measurement := mkMeasurement { me_instrument : string; me_amount : amount; me_attrs : list attribute }.

(** The meter makes the instrument or fails. *)
Definition counted_by (made : string → bool) (name : string) (attrs : list attribute) : list measurement :=
  if made name then [mkMeasurement name (Count 1) attrs] else [].
Definition RecordDelivery (made : string → bool) (status kind : string) : list measurement :=
  counted_by made "phonewave.delivery.total" [attr_String "status" status; attr_String "kind" (SanitizeUTF8 kind)].
Definition OTelPolicyMetrics_Record (made : string → bool) (eventType status : string) : list measurement :=
  counted_by made "phonewave.policy.event.total"
    [attr_String "event_type" (SanitizeUTF8 eventType); attr_String "status" status].
Definition RecordMCPInvocation (made : string → bool) (toolName status : string) (duration : Duration) : list measurement :=
  let attrs := [attr_String "tool.name" (SanitizeUTF8 toolName); attr_String "result.status" (SanitizeUTF8 status)] in
  counted_by made "mcp.tool.invocations" attrs ++
  (if made "mcp.tool.duration" then [mkMeasurement "mcp.tool.duration" (Duration_s (Seconds duration)) attrs] else []).

(** ** [provider_telemetry.go] *)

Definition providerStateSpanAttrs (snapshot : ProviderStateSnapshot) : list attribute :=
  let state := if bool_decide (ps_State snapshot = "") then ProviderStateActive else ps_State snapshot in
  [attr_String MetadataProviderState (SanitizeUTF8 state);
   attr_Int MetadataProviderRetryBudget (ps_RetryBudget snapshot)] ++
  (if nonempty (ps_Reason snapshot) then [attr_String MetadataProviderReason (SanitizeUTF8 (ps_Reason snapshot))] else []) ++
  (if negb (IsZero (ps_ResumeAt snapshot))
   then [attr_String MetadataProviderResumeAt (SanitizeUTF8 (format_rfc3339 (ps_ResumeAt snapshot)))] else []) ++
  (if nonempty (ps_ResumeCondition snapshot)
   then [attr_String MetadataProviderResumeWhen (SanitizeUTF8 (ps_ResumeCondition snapshot))] else []).

(** A span that has ended. *)
Record Span := mkSpan { sp_name : string; sp_attrs : list attribute; sp_error : option error }.
Definition recordRetryCycleTelemetry (successes : Z) (snapshot : ProviderStateSnapshot) : Span :=
  mkSpan "daemon.retry_cycle" (attr_Int "retry.success.count" successes :: providerStateSpanAttrs snapshot) None.

(** The value of a text attribute. *)
Definition text_of_attr (a : attribute) : option string := match snd a with AText s => Some s | AInt _ => None end.
Definition attr_text (v : attr_value) : string := match v with AText s => s | AInt n => Itoa n end.
Definition well_spelled (attrs : list attribute) : Prop := Forall (λ a, ∀ s, text_of_attr a = Some s → utf8_Valid s = true) attrs.

Lemma ascii_valid s : (∀ c, between 0 127 c = false → has_byte c s = false) → utf8_Valid s = true.
Proof.
  unfold utf8_Valid. induction s as [|c s IH]; [done|]. intros H.
  change (raw (String c s)) with (c :: raw s). cbn [utf8_loop rune_width]. destruct (between 0 127 c) eqn:Ec.
  - apply IH. intros d Hd. specialize (H d Hd). cbn in H. by apply orb_false_iff in H as [_ H].
  - specialize (H c Ec). cbn in H. by rewrite bool_decide_true in H.
Qed.
Lemma rfc3339_valid t : utf8_Valid (format_rfc3339 t) = true.
Proof.
  apply ascii_valid. intros c Hc. apply format_no_byte.
  destruct c as [[] [] [] [] [] [] [] []]; by vm_compute in Hc |- *.
Qed.

(** The span of a retry cycle says what [ApplyMetadata] puts in the metadata
    of a D-Mail: for valid texts and a state in normal form the attributes,
    printed, are its entries, the budget as a number. *)
Theorem span_says_metadata (snapshot : ProviderStateSnapshot) (meta : gmap string string) :
  utf8_Valid (ps_State snapshot) = true → utf8_Valid (ps_Reason snapshot) = true →
  utf8_Valid (ps_ResumeCondition snapshot) = true → NormalizeProviderState (ps_State snapshot) = ps_State snapshot →
  ApplyMetadata snapshot meta =
  list_to_map ((λ a, (fst a, attr_text (snd a))) <$> providerStateSpanAttrs snapshot) ∪ meta ∧
  well_spelled (sp_attrs (recordRetryCycleTelemetry 0 snapshot)).
Proof.
  intros V1 V2 V3 Hn. pose proof (rfc3339_valid (ps_ResumeAt snapshot)) as V4. split.
  - unfold ApplyMetadata, providerStateSpanAttrs. rewrite Hn.
    assert (utf8_Valid ProviderStateActive = true) as V0 by reflexivity.
    rewrite (proj1 (proj2 (SanitizeUTF8_valid _))) by (by destruct (bool_decide _)).
    rewrite !(proj1 (proj2 (SanitizeUTF8_valid _))) by done.
    generalize (if bool_decide (ps_State snapshot = "") then ProviderStateActive else ps_State snapshot) as st. intros st.
    apply map_eq. intros k. unfold set_if.
    destruct (nonempty (ps_Reason snapshot)), (negb (IsZero (ps_ResumeAt snapshot))), (nonempty (ps_ResumeCondition snapshot));
      cbn -[lookup insert union]; rewrite <- ?insert_union_l, ?(left_id_L ∅ (∪));
      repeat match goal with |- context [<[?a := _]> _ !! k] => destruct (decide (a = k)) as [<-|]; simplify_map_eq end; done.
  - apply Forall_cons. split; [done|]. unfold providerStateSpanAttrs.
    repeat (apply Forall_app; split); try case_match; repeat constructor; intros s [= <-]; apply SanitizeUTF8_valid.
Qed.

(** ** [span_event_store.go] *)

Section SpanStore.
Context `{External} `{JSON}.
Variables (level : DetailLevel) (dir : string) (date : Event → string).

(** The span of a failed operation. *)
Definition failed_span (name : string) (before : list attribute) (err : error) : Span :=
  mkSpan name (before ++ [attr_String "error.stage" name]) (Some err).
Definition load_attrs (events : list Event) (res : LoadResult) : list attribute :=
  [attr_Int "event.count.out" (Z.of_nat (length events))] ++
  (if IsDetailDebug level
   then [attr_Int "event.file.count" (Z.of_nat (lr_FileCount res));
         attr_Int "event.corrupt_line.count" (Z.of_nat (lr_CorruptLineCount res))]
   else []).

Definition Span_Append (events : list Event) : program (result Z * Span) :=
  let start := [attr_Int "event.count.in" (Z.of_nat (length events))] in
  r ← Append dir date events;
  mret (r, match r with
           | Err err => failed_span "eventsource.append" start err
           | Ok written =>
               mkSpan "eventsource.append"
                 (start ++ (if IsDetailDebug level then [attr_Int "event.append.bytes" written] else [])) None
           end).
Definition Span_LoadAll : program (result (list Event * LoadResult) * Span) :=
  r ← LoadAll dir;
  mret (r, match r with
           | Err err => failed_span "eventsource.load_all" [] err
           | Ok (events, res) => mkSpan "eventsource.load_all" (load_attrs events res) None
           end).
Definition Span_LoadSince (after : Time) : program (result (list Event * LoadResult) * Span) :=
  r ← LoadSince dir after;
  mret (r, match r with
           | Err err => failed_span "eventsource.load_since" [] err
           | Ok (events, res) => mkSpan "eventsource.load_since" (load_attrs events res) None
           end).
Definition Span_LoadAfterSeqNr (afterSeqNr : Z) : program (result (list Event * LoadResult) * Span) :=
  let start := [attr_Int64 "event.after_seq_nr" afterSeqNr] in
  r ← LoadAfterSeqNr dir afterSeqNr;
  mret (r, match r with
           | Err err => failed_span "eventsource.load_after_seq_nr" start err
           | Ok (events, _) =>
               mkSpan "eventsource.load_after_seq_nr"
                 (start ++ [attr_Int "event.count.out" (Z.of_nat (length events))]) None
           end).
Definition Span_LatestSeqNr : program (result Z * Span) :=
  r ← store_LatestSeqNr dir;
  mret (r, match r with
           | Err err => failed_span "eventsource.latest_seq_nr" [] err
           | Ok seqNr => mkSpan "eventsource.latest_seq_nr" [attr_Int64 "event.latest_seq_nr" seqNr] None
           end).

(** The store that the program uses behaves as the one it wraps: each
    operation returns what the file store returns and leaves the same world,
    whatever fails, and its span records an error exactly when the operation
    fails, and only valid text. *)
Definition transparent {A} (p : program (result A)) (q : program (result A * Span)) : Prop :=
  ∀ i w, let '((r, s), w') := run i q w in
    run i p w = (r, w') ∧ (sp_error s = match r with Err err => Some err | Ok _ => None end) ∧ well_spelled (sp_attrs s).

Lemma transparent_of {A} (p : program (result A)) (f : result A → Span) :
  (∀ r, sp_error (f r) = match r with Err err => Some err | Ok _ => None end ∧ well_spelled (sp_attrs (f r))) →
  transparent p (r ← p; mret (r, f r)).
Proof. intros Hf i w. rewrite run_mbind. destruct (run i p w) as [r w']. cbn [run mret prog_mret]. split; [done|]. apply Hf. Qed.

Lemma spelled_ints (l : list attribute) : Forall (λ a, text_of_attr a = None) l → well_spelled l.
Proof. intros H1. eapply Forall_impl; [exact H1|]. by intros a -> s. Qed.
Lemma spelled_app l l' : well_spelled l → well_spelled l' → well_spelled (l ++ l').
Proof. intros. by apply Forall_app. Qed.
Lemma spelled_stage k v : utf8_Valid v = true → well_spelled [attr_String k v].
Proof. intros Hv. repeat constructor. by intros s [= <-]. Qed.
Lemma spelled_load events res : well_spelled (load_attrs events res).
Proof. apply spelled_ints. unfold load_attrs. destruct (IsDetailDebug level); by repeat constructor. Qed.

Theorem span_store_transparent (events : list Event) (after : Time) (afterSeqNr : Z) :
  transparent (Append dir date events) (Span_Append events) ∧
  transparent (LoadAll dir) Span_LoadAll ∧
  transparent (LoadSince dir after) (Span_LoadSince after) ∧
  transparent (LoadAfterSeqNr dir afterSeqNr) (Span_LoadAfterSeqNr afterSeqNr) ∧
  transparent (store_LatestSeqNr dir) Span_LatestSeqNr.
Proof.
  split_and!; refine (transparent_of _ _ _); intros r; (split; [by repeat case_match|]).
  - destruct r; cbn [sp_attrs failed_span]; apply spelled_app; try (by apply spelled_stage); apply spelled_ints;
      destruct (IsDetailDebug level); by repeat constructor.
  - destruct r as [[]|]; [apply spelled_load|by apply spelled_stage].
  - destruct r as [[]|]; [apply spelled_load|by apply spelled_stage].
  - destruct r as [[]|]; cbn [sp_attrs failed_span]; apply spelled_app; try (by apply spelled_stage); apply spelled_ints; by repeat constructor.
  - destruct r; [apply spelled_ints; by repeat constructor|by apply spelled_stage].
Qed.
End SpanStore.

(** ** [cmd/telemetry.go] *)

(** The OpenTelemetry SDK.  [Merge] may return no resource, and an error with
    or without one; an exporter is made for an endpoint, or for the variables
    of the environment. *)
Class OTel := {
  resource : Type;
  exporter : Type;
  resource_Default : resource;
  NewWithAttributes : list (string * string) → resource;
  ServiceName : string → string * string;
  ServiceVersion : string → string * string;
  Merge : resource → resource → option resource * option error;
  NewTraceExporter : environ → option string → result exporter;
  NewMetricExporter : string → result exporter }.

Section Exporters.
Context `{OTel}.

(** The merged resource, and what is printed to standard error. *)
Definition mergeResource (base extra : resource) : resource * list string :=
  let '(merged, err) := Merge base extra in
  (default base merged, match err with Some e => ["otel resource merge warning: " +:+ err_msg e] | None => [] end).
Definition service_resource (serviceName ver : string) : resource * list string :=
  mergeResource resource_Default (NewWithAttributes [ServiceName serviceName; ServiceVersion ver]).

(** Nothing is exported, or batches go to the exporters. *)
Inductive provider := Noop | Exporting (to : list exporter) (res : resource).

Definition wandb_resource (env : environ) (base : resource) : resource * list string :=
  let entity := Getenv env "WANDB_ENTITY" in
  if bool_decide (entity = "") then (base, [])
  else mergeResource base (NewWithAttributes
         [("wandb.entity", SanitizeUTF8 entity); ("wandb.project", SanitizeUTF8 (Getenv env "WANDB_PROJECT"))]).
Definition extra_exporters (env : environ) : list exporter :=
  ep ← parseExtraEndpoints (Getenv env "OTEL_EXPORTER_OTLP_EXTRA_ENDPOINTS");
  match NewTraceExporter env (Some ep) with Ok extra => [extra] | Err _ => [] end.
Definition initTracer (env : environ) (serviceName ver : string) : provider * list string :=
  if negb (traces_exported env) then (Noop, []) else
  match NewTraceExporter env None with
  | Err _ => (Noop, [])
  | Ok exp =>
      let '(res, w1) := service_resource serviceName ver in
      let '(res, w2) := wandb_resource env res in
      (Exporting (exp :: extra_exporters env) res, w1 ++ w2)
  end.
Definition initMeter (env : environ) (serviceName ver : string) : provider * list string :=
  if negb (metrics_exported env) then (Noop, []) else
  match NewMetricExporter (Getenv env "OTEL_EXPORTER_OTLP_METRICS_ENDPOINT") with
  | Err _ => (Noop, [])
  | Ok exp => let '(res, w) := service_resource serviceName ver in (Exporting [exp] res, w)
  end.

(** ** [root.go]: what precedes every command *)

(** What a command starts with: the environment, the logger, the providers,
    the level of detail, and what was printed besides the log. *)
Record prepared := mkPrepared {
  pr_env : environ; pr_logger : Logger; pr_tracer : provider; pr_meter : provider;
  pr_detail : DetailLevel; pr_stderr : list string }.

(** The values of the persistent flags. *)
Record flag_values := mkFlagValues { fv_noColor : bool; fv_verbose : bool; fv_quiet : bool; fv_output : string; fv_config : string }.

Definition color_env (f : flag_values) (env : environ) : environ :=
  if fv_noColor f then match Setenv "NO_COLOR" "1" env with Ok env' => env' | Err _ => env end else env.
(** With [--quiet] the lines of the logger are discarded. *)
Definition first_lines (f : flag_values) (env : environ) (terminal : bool) (version name : string) : Logger :=
  let logger := NewLogger env (terminal && negb (fv_quiet f)) (fv_verbose f) in
  if bool_decide (fv_output f = "json") then logger else Section_line name (Header "phonewave" version logger).
Definition pre_run (f : flag_values) (env : environ) (terminal : bool) (version name : string) : program prepared :=
  let env := color_env f env in
  let logger := first_lines f env terminal version name in
  migErr ← MigrateConfigIfNeeded (projectRoot (fv_config f));
  env ← applyOtelEnv (configBase (fv_config f)) env;
  let '(tracer, w1) := initTracer env "phonewave" version in
  let '(meter, w2) := initMeter env "phonewave" version in
  mret (mkPrepared env logger tracer meter (InitDetailLevel env)
          (match migErr with Some e => ["warning: config migration: " +:+ err_msg e] | None => [] end ++ w1 ++ w2)).

Lemma color_env_eq f env : color_env f env = if fv_noColor f then <["NO_COLOR" := "1"]> env else env.
Proof. reflexivity. Qed.
Lemma color_env_no_color f env : fv_noColor f = true → Getenv (color_env f env) "NO_COLOR" = "1".
Proof. intros E. rewrite color_env_eq, E. unfold Getenv. by rewrite lookup_insert_eq. Qed.

(** Before a command runs, whatever fails: the environment keeps every
    variable that is set, but for [NO_COLOR] with [--no-color], which leaves
    the log without colors; with [-o json] the logger has written nothing;
    the files are those after the migration of the configuration; and
    nothing is exported when no endpoint is set, in the environment or the
    file. *)
Theorem pre_run_prepares (f : flag_values) (env : environ) (terminal : bool) (version name : string) (i : nat) (w : World) :
  let '(p, w') := run i (pre_run f env terminal version name) w in
  w_fs w' = w_fs (snd (run i (MigrateConfigIfNeeded (projectRoot (fv_config f))) w)) ∧
  (∀ k, k ≠ "NO_COLOR" → Getenv env k ≠ "" → Getenv (pr_env p) k = Getenv env k) ∧
  (fv_noColor f = true → lg_noColor (pr_logger p) = true ∧ Getenv (pr_env p) "NO_COLOR" = "1") ∧
  (fv_output f = "json" → lg_out (pr_logger p) = []) ∧
  (traces_exported (pr_env p) = false → pr_tracer p = Noop) ∧
  (metrics_exported (pr_env p) = false → pr_meter p = Noop).
Proof.
  unfold pre_run. rewrite run_mbind. destruct (run i (MigrateConfigIfNeeded _) w) as [migErr v] eqn:Em. cbn [snd].
  unfold applyOtelEnv. rewrite !run_mbind, run_atom.
  set (path := otel_path _). pose proof (same_fs_ReadFile path v) as Hf. unfold same_fs in Hf.
  destruct (os_ReadFile path v) as [r v']. cbn [fst snd run mret prog_mret] in *.
  set (e1 := match r with Ok data => apply_text (color_env f env) data | Err _ => color_env f env end).
  assert (∀ k, Getenv (color_env f env) k ≠ "" → Getenv e1 k = Getenv (color_env f env) k) as Hk.
  { intros k Hk. subst e1. destruct r; [by apply apply_text_keeps|done]. }
  destruct (initTracer e1 "phonewave" version) as [tr w1] eqn:Et, (initMeter e1 "phonewave" version) as [mt w2] eqn:Ez.
  cbn [run mret prog_mret pr_env pr_logger pr_tracer pr_meter]. split_and!.
  - by rewrite Hf.
  - intros k Hn Hs. assert (Getenv (color_env f env) k = Getenv env k) as E.
    { rewrite color_env_eq. destruct (fv_noColor f); [|done]. unfold Getenv. by rewrite lookup_insert_ne. }
    rewrite <- E. apply Hk. by rewrite E.
  - intros E. pose proof (color_env_no_color f env E) as En. split; [|by rewrite Hk, En by by rewrite En].
    unfold first_lines, NewLogger. rewrite En. by case_bool_decide.
  - intros E. unfold first_lines. by rewrite bool_decide_true.
  - intros E. unfold initTracer in Et. rewrite E in Et. by injection Et.
  - intros E. unfold initMeter in Ez. rewrite E in Ez. by injection Ez.
Qed.
End Exporters.
