(* ===== verification/Commands.v ===== *)
(** * The reading commands

    Models [cmd/status.go], [cmd/version.go] and [cmd/mcp.go]: what they print,
    from the arguments and the values of their flags.  The JSON encoders are
    parameters. *)
From S2P Require Import Prelude GoStrings GoPath GoTime DMail Router Prog World DeliverSafety SetupSafety Setup Files EventStore StateDirs ConfigFile Cutover Wiring WiringSafety Startup Skills Status Report Unified MCP Maintenance.

#[local] Open Scope nat_scope.

(** ** [status.go] *)

Section StatusCommand.
Context `{External} `{MC : Machine} `{PR : Processes} `{YL : YAML}.
Variables (cwd config : string) (json_report : StatusReport → result string).

(** What is printed to standard output, or the error. *)
Definition status_cmd (output : string) (args : list string) : prog Host (result string) :=
  b ← on_world (resolveBaseDir cwd config args);
  match b with
  | Err err => mret (Err err)
  | Ok base =>
      l ← on_world (LoadConfig (path_Join [base; StateDir; ConfigFile]));
      match l with
      | Err err => mret (Err (mkErr ("load config: " +:+ err_msg err +:+ " (run 'phonewave init' first)") (err_chain err)))
      | Ok cfg =>
          status ← Status cfg (path_Join [base; StateDir]);
          mret (if bool_decide (output = "json")
                then match json_report status with
                     | Err err => Err (errorf_w "marshal status: " err)
                     | Ok data => Ok (data +:+ newline)
                     end
                else Ok (FormatText status))
      end
  end.

End StatusCommand.

(** ** [version.go] *)

Record version_info := mkVersion { vi_Version : string; vi_Commit : string; vi_Date : string; vi_Go : string; vi_OS : string; vi_Arch : string }.
Definition version_map (v : version_info) : gmap string string :=
  {[ "version" := vi_Version v; "commit" := vi_Commit v; "date" := vi_Date v; "go" := vi_Go v; "os" := vi_OS v; "arch" := vi_Arch v ]}.
Definition version_cmd (encode_map : gmap string string → result string) (jsonFlag : bool) (v : version_info) : result string :=
  if jsonFlag then encode_map (version_map v)
  else Ok ("phonewave v" +:+ TrimPrefix (vi_Version v) "v" +:+ " (commit: " +:+ vi_Commit v +:+ ", date: " +:+ vi_Date v +:+
           ", go: " +:+ vi_Go v +:+ ")" +:+ newline).

(** ** [mcp.go] *)

(** The error of [os.Getwd], or what the server writes and returns. *)
Definition mcp_cmd `{YAML} `{JSONSyntax} `{JSONText} (ModTime : string → option Time) (wd : result string)
    (cancelled : nat → option error) (input : bytes) (after : option error) : prog Host (bytes * option error) :=
  match wd with
  | Err err => mret ([], Some err)
  | Ok cwd => Serve ModTime cancelled (path_Join [cwd; StateDir; ConfigFile]) input after
  end.

(** * What [phonewave status] reports *)

Section StatusTheorem.
Context `{External} `{MC : Machine} `{PR : Processes} `{YL : YAMLLaws}.

Lemma runs_all {W A} i (p : prog W A) (Q : A → W → Prop) w : (∀ a v, Q a v) → runs i p Q w.
Proof. intros HQ. unfold runs. destruct (run i p w). apply HQ. Qed.

(** The counts of a status are those of the configuration, whatever fails. *)
Lemma Status_counts i cfg stateDir h :
  runs i (Status cfg stateDir) (λ r _,
    sr_OutboxCount r = length (CollectOutboxDirs cfg) ∧ sr_RouteCount r = length (cfg_Routes cfg) ∧
    sr_RepoCount r = length (cfg_Repositories cfg)) h.
Proof.
  unfold Status. do 3 (apply runs_bind, runs_all; intros ? ?). apply runs_bind, runs_all. intros [opened pending] ?.
  do 3 (apply runs_bind, runs_all; intros ? ?). apply runs_ret. cbn. by rewrite count_outboxes_length.
Qed.

Lemma does_on_world {A} i (p : program A) fs x fs' (Q : A → Host → Prop) h :
  does (env := w_env (host_world h)) p fs x fs' → w_fs (host_world h) = fs →
  (∀ h', w_fs (host_world h') = fs' → w_env (host_world h') = w_env (host_world h) → Q x h') → runs i (on_world p) Q h.
Proof.
  intros Hp Hf HQ. assert (runs i (lift p) (λ a s, a = x ∧ w_fs (st_world s) = fs' ∧ w_env (st_world s) = w_env (host_world h)) (h_store h)) as Hl.
  { apply runs_lift. eapply does_runs; [exact Hp|by split|]. by intros v [F E]. }
  destruct (run_on_store i (lift p) h) as (E1 & E2 & _). unfold runs, on_world in *. rewrite E1.
  destruct Hl as (-> & HF & HE). apply HQ; unfold host_world at 1; by rewrite E2.
Qed.

Lemma resolve_does env (He : no_faults env) cwd config root fs :
  IsAbs root = true → clean root → fs !! root = Some NDir →
  does (env := env) (resolveBaseDir cwd config [root]) fs (Ok root) fs.
Proof.
  intros Hr Hc Hd i w [Hf Hw]. unfold resolveBaseDir. rewrite run_mbind, run_atom. unfold Abs. rewrite Hr. cbn [fst snd].
  rewrite run_mbind, run_atom, Hc. unfold os_StatDir, guarded, fault, lookup_path. cbn [bump w_fs]. cbn [w_env]. rewrite Hw, He. cbn. rewrite Hc, Hf, Hd.
  by split.
Qed.

(**  [phonewave status] reports what [init], [add], [remove] and [sync]
    left.  Without failures, for a project directory whose files hold a
    configuration, the command prints the text of a report, or its JSON, that
    counts the outboxes, routes and repositories of exactly this
    configuration; where the file is missing it prints nothing, and fails
    with the advice to run [init]. *)
Theorem status_reports_config (i : nat) (cwd config root output : string) (json_report : StatusReport → result string)
    (c : Config) (h : Host) :
  let w := host_world h in let path := DefaultConfigPath root in
  IsAbs root = true → clean root → no_faults (w_env w) → w_fs w !! root = Some NDir →
  (holds_config path c (w_fs w) →
   runs i (status_cmd cwd config json_report output [root]) (λ r _, ∃ s,
     r = (if bool_decide (output = "json")
          then match json_report s with Err err => Err (errorf_w "marshal status: " err) | Ok data => Ok (data +:+ newline) end
          else Ok (FormatText s)) ∧
     sr_OutboxCount s = length (CollectOutboxDirs c) ∧ sr_RouteCount s = length (cfg_Routes c) ∧
     sr_RepoCount s = length (cfg_Repositories c)) h) ∧
  (w_fs w !! path = None →
   runs i (status_cmd cwd config json_report output [root]) (λ r h',
     (∃ e, r = Err e ∧ HasPrefix (err_msg e) "load config: " = true ∧
           HasSuffix (err_msg e) " (run 'phonewave init' first)" = true) ∧ w_fs (host_world h') = w_fs w) h).
Proof.
  intros w path Hr Hc He Hd. unfold status_cmd. split; intros Hf; apply runs_bind;
    (eapply does_on_world; [by apply resolve_does|done|]); intros h1 F1 E1; cbn beta iota; apply runs_bind.
  - destruct Hf as (Hfs & Hcd & Hst & Hfit). fold w in E1. rewrite <- E1 in He.
    eapply does_on_world.
    + exact (Load_stored He path (newPath_clean root) c (w_fs w) (fit_rooted _ _ Hfit) (proj2 (proj2 Hfit)) Hst).
    + exact F1.
    + intros h2 F2 E2. cbn beta iota. rewrite (fit_settled _ _ Hfit). apply runs_bind. eapply runs_mono; [|apply Status_counts].
      intros s h3 Hs. apply runs_ret. exists s. by split.
  - fold w in E1. rewrite <- E1 in He. eapply does_on_world; [|exact F1|].
    + unfold LoadConfig. eapply does_bind; [apply (ReadFile_does He)|]. change (path_Join [root; StateDir; ConfigFile]) with path.
      unfold path in *. rewrite (newPath_clean root), Hf. apply does_ret.
    + intros h2 F2 E2. apply runs_ret. split; [|done]. eexists. split; [done|]. cbn [err_msg]. split; [apply prefix_refl_app|].
  rewrite app_str_assoc. apply HasSuffix_app.
Qed.
End StatusTheorem.

Lemma status_reports_config_witness :
  let h := mkHost (mkStore project_world 1) (λ _, 0) ∅ [] [] in
  fst (run 0 (status_cmd (MC := sample_machine) (PR := sample_processes) (YL := sample_YAML)
    "/" "" (λ s, Ok (Itoa (Z.of_nat (sr_RepoCount s)))) "json" ["/p"]) h) = Ok ("0" +:+ newline).
Proof.
  intros h.
  destruct (status_reports_config (MC := sample_machine) (PR := sample_processes) (H0 := sample_YAML)
    (YL := sample_YAMLLaws) 0 "/" "" "/p" "json" (λ s, Ok (Itoa (Z.of_nat (sr_RepoCount s)))) empty_config h) as [HS _];
    [reflexivity|reflexivity|intros n; reflexivity|reflexivity|].
  destruct (HS project_holds) as (s & -> & _ & _ & ->). reflexivity.
Defined.
