(* ===== verification/Printed.v ===== *)
(** * What the diagnosis prints

    Models the text output of [cmd/doctor.go], [FormatDoctorJSON] of
    [session/doctor.go], and [PrintInitResult] of [session/init_dirs.go].  A
    text is the list of what was printed, one entry for each call.  The text
    of a JSON value is left to the encoder. *)
From S2P Require Import Prelude GoStrings GoPath GoTime Prog World Setup Files StateDirs Status Doctor Unified CommandLine Console Telemetry.

#[local] Open Scope nat_scope.

(** ** Padding of [fmt] *)

(** [utf8.RuneCountInString]; [skip] bytes belong to a rune. *)
Fixpoint rune_count (skip : nat) (s : bytes) : nat :=
  match s with
  | [] => 0
  | _ :: r => match skip with O => S (rune_count (pred (rune_width s)) r) | S k => rune_count k r end
  end.
(** [%-ns] *)
Definition pad_right (n : nat) (s : string) : string :=
  s +:+ String.concat "" (replicate (n - rune_count 0 (raw s)) " ").

Example padded : pad_right 4 ("f" +:+ String "195" (String "188" "r")) = "f" +:+ String "195" (String "188" "r") +:+ " ".
Proof. reflexivity. Qed.

(** ** [cmd/doctor.go] *)

Section Text.
Variable logger : Logger.

Definition check_lines (name label color message hint : string) : list string :=
  ("  [" +:+ Colorize (pad_right 4 label) color logger +:+ "] " +:+ pad_right 16 name +:+ " " +:+ message +:+ newline) ::
  (if bool_decide (hint = "") then [] else ["         " +:+ pad_right 16 "" +:+ " hint: " +:+ hint +:+ newline]).
Definition doctor_line (c : DoctorCheck) : list string :=
  check_lines (if bool_decide (dc_Name c = "") then "-" else dc_Name c)
    (StatusLabel (dc_Status c)) (StatusColor (dc_Status c)) (dc_Message c) (dc_Hint c).
Definition count_parts (fails warns : nat) : string :=
  Join ((if 0 <? fails then [Itoa (Z.of_nat fails) +:+ " error(s)"] else []) ++
        (if 0 <? warns then [Itoa (Z.of_nat warns) +:+ " warning(s)"] else [])) ", " +:+ "." +:+ newline.
Definition all_passed : string := "All checks passed." +:+ newline.
Definition is_warn (c : DoctorCheck) : bool := bool_decide (dc_Status c = CheckWarn).

(** The text of [phonewave doctor], and its error. *)
Definition doctor_text (report : DoctorReport) : list string * option error :=
  let daemon := dr_DaemonStatus report in
  let fails := length (List.filter is_fail (dr_Checks report)) in
  let warns := length (List.filter is_warn (dr_Checks report)) in
  (["phonewave doctor — ecosystem health check" +:+ newline; newline] ++
   (c ← dr_Checks report; doctor_line c) ++
   check_lines "daemon" "OK" (StatusColor CheckOK)
     (if ds_Running daemon then "running (PID " +:+ Itoa (ds_PID daemon) +:+ ")" else "not running") "" ++
   [newline; if dr_Healthy report then all_passed else count_parts fails warns],
   if dr_Healthy report then None else Some silent_issues).
(** Without a configuration. *)
Definition config_missing : list string := check_lines "config" "FAIL" (StatusColor CheckFail) "Run 'phonewave init' first" "".

Definition unified_line (c : UnifiedCheck) : list string :=
  check_lines (uc_Name c) (uc_Status c) (StatusColorFromLabel (uc_Status c)) (uc_Message c) (uc_Hint c).
Definition section_text (sec : ToolSection) : list string :=
  ("  [" +:+ ts_Tool sec +:+ (if bool_decide (ts_Path sec = "") then "" else " " +:+ ts_Path sec) +:+ "]" +:+ newline) ::
  (if bool_decide (ts_Error sec = "") then (c ← ts_Checks sec; unified_line c) ++ [newline]
   else check_lines "exec" "FAIL" (StatusColorFromLabel "FAIL") (ts_Error sec) "").
Definition warned (c : UnifiedCheck) : bool := bool_decide (uc_Status c = "WARN").
Definition totalWarns (r : UnifiedDoctorReport) : nat :=
  sum_list (map (λ s, if bool_decide (ts_Error s = "") then length (List.filter warned (ts_Checks s)) else 0) (ud_Sections r)) +
  length (List.filter warned (ud_CrossTool r)).
Definition cross_text (cs : list UnifiedCheck) : list string :=
  if length cs =? 0 then [] else ["  [cross-tool]" +:+ newline] ++ (c ← cs; unified_line c) ++ [newline].
Definition unified_text (report : UnifiedDoctorReport) : list string :=
  ["phonewave doctor --all — TAP ecosystem health check" +:+ newline; newline] ++
  (s ← ud_Sections report; section_text s) ++ cross_text (ud_CrossTool report) ++
  [if ud_Healthy report then all_passed else count_parts (totalFails report) (totalWarns report)].
End Text.

(** ** [FormatDoctorJSON] *)

Definition json_strings (l : list string) : json := JArr (JStr <$> l).
(** A member that [omitempty] leaves out. *)
Definition unless (empty : bool) (key : string) (v : json) : list (string * json) := if empty then [] else [(key, v)].
Definition doctorCheckJSON (c : DoctorCheck) : json :=
  JObj ([("name", JStr (dc_Name c)); ("status", JStr (StatusLabel (dc_Status c))); ("message", JStr (dc_Message c))] ++
        unless (bool_decide (dc_Hint c = "")) "hint" (JStr (dc_Hint c))).
Definition endpoint_JSON (e : EndpointHealth) : json :=
  JObj ([("repo", JStr (eh_Repo e)); ("dir", JStr (eh_Dir e))] ++
        unless (length (eh_Produces e) =? 0) "produces" (json_strings (eh_Produces e)) ++
        unless (length (eh_Consumes e) =? 0) "consumes" (json_strings (eh_Consumes e)) ++ [("ok", JBool (eh_OK e))]).
Definition daemon_JSON (d : DaemonHealthStatus) : json :=
  JObj ([("checked", JBool (ds_Checked d)); ("running", JBool (ds_Running d))] ++
        unless (bool_decide (ds_PID d = 0%Z)) "pid" (JNum (Itoa (ds_PID d)))).
(** The value that is marshalled; no checks are a nil slice. *)
Definition FormatDoctorJSON (report : DoctorReport) : json :=
  JObj ([("healthy", JBool (dr_Healthy report));
         ("checks", if length (dr_Checks report) =? 0 then JNull else JArr (doctorCheckJSON <$> dr_Checks report))] ++
        unless (length (dr_Endpoints report) =? 0) "endpoints" (JArr (endpoint_JSON <$> dr_Endpoints report)) ++
        [("daemon_status", daemon_JSON (dr_DaemonStatus report))]).

(** ** [PrintInitResult] *)

Definition init_entry_line (e : InitEntry) : string :=
  match ie_Action e with
  | InitCreated => "  + " +:+ ie_Path e +:+ newline
  | InitSkipped => "  - " +:+ ie_Path e +:+ " (already exists)" +:+ newline
  | InitUpdated => "  ~ " +:+ ie_Path e +:+ newline
  | InitWarning => "  ! " +:+ ie_Detail e +:+ newline
  end.
Definition PrintInitResult (stateDir : string) (entries : list InitEntry) : list string :=
  (newline +:+ "Initialized " +:+ stateDir +:+ "/" +:+ newline) :: (init_entry_line <$> entries).
Definition Warnings (entries : list InitEntry) : list string :=
  e ← entries; match ie_Action e with InitWarning => [ie_Detail e] | _ => [] end.

(** * The text agrees with the verdict *)

Definition fail_line (l : string) : bool := HasPrefix l "  [FAIL] ".
Lemma check_lines_fail logger name label color message hint :
  lg_noColor logger = true → label ∈ ["OK"; "FAIL"; "WARN"; "SKIP"; "FIX"] →
  length (List.filter fail_line (check_lines logger name label color message hint)) = if bool_decide (label = "FAIL") then 1 else 0.
Proof.
  intros Hc Hl. unfold check_lines, Colorize. rewrite Hc.
  assert (∀ h, List.filter fail_line (if bool_decide (h = "") then [] else ["         " +:+ pad_right 16 "" +:+ " hint: " +:+ h +:+ newline]) = []) as Hh.
  { intros h. by case_bool_decide. }
  cbn [List.filter]. rewrite Hh. generalize (pad_right 16 name +:+ " " +:+ message +:+ newline) as t. intros t. rewrite !elem_of_cons, elem_of_nil in Hl.
  assert (fail_line ("  [" +:+ pad_right 4 "FAIL" +:+ "] " +:+ t) = true) as Hf by apply (prefix_refl_app "  [FAIL] " t).
  destruct Hl as [->|[->|[->|[->|[->|[]]]]]]; try reflexivity. by rewrite Hf.
Qed.
Lemma filter_bind_length {A} (P : string → bool) (Q : A → bool) (f : A → list string) l :
  (∀ a, length (List.filter P (f a)) = if Q a then 1 else 0) →
  length (List.filter P (a ← l; f a)) = length (List.filter Q l).
Proof.
  intros Hf. induction l as [|a l IH]; [done|]. rewrite bind_cons, List.filter_app, length_app, IH, Hf. cbn [List.filter].
  by destruct (Q a).
Qed.
Lemma doctor_line_fail logger c :
  lg_noColor logger = true → length (List.filter fail_line (doctor_line logger c)) = if is_fail c then 1 else 0.
Proof.
  intros Hc. unfold doctor_line. rewrite check_lines_fail; [|done|].
  - unfold is_fail. by destruct (dc_Status c).
  - destruct (dc_Status c); by repeat (left + right).
Qed.

Lemma count_parts_fails fails warns : 0 < fails → ∃ rest, count_parts fails warns = Itoa (Z.of_nat fails) +:+ " error(s)" +:+ rest.
Proof.
  intros Hf. unfold count_parts. replace (0 <? fails) with true by (symmetry; by apply Nat.ltb_lt). destruct (0 <? warns); cbn [app Join String.concat].
  - eexists. by rewrite <- !app_str_assoc.
  - eexists. by rewrite <- !app_str_assoc.
Qed.
Lemma count_parts_not_passed fails warns : 0 < fails → count_parts fails warns ≠ all_passed.
Proof.
  intros Hf E. assert (has_byte "A" (count_parts fails warns) = false) as H; [|rewrite E in H; by vm_compute in H].
  unfold count_parts. replace (0 <? fails) with true by (symmetry; by apply Nat.ltb_lt).
  destruct (0 <? warns); cbn [app Join String.concat]; by rewrite !has_byte_app, !Itoa_no_byte.
Qed.

Lemma no_fail_line n s : fail_line (Itoa n +:+ s) = false.
Proof.
  pose proof (Itoa_nonempty n) as Hn. pose proof (Itoa_no_byte " " n eq_refl) as Hb.
  destruct (Itoa n) as [|c t]; [done|]. cbn in Hb. apply orb_false_iff in Hb as [Hb _]. apply bool_decide_eq_false in Hb.
  rewrite app_str_cons. unfold fail_line, HasPrefix. cbn [String.prefix]. by destruct (ascii_dec " " c).
Qed.

(**  the text of [phonewave doctor] agrees with its verdict.  For every
    report that the doctor makes, printed without colors: the command returns
    no error exactly when no line of the text is marked as failed, and
    exactly then its last line says that all checks passed; otherwise the
    last line begins with the number of lines marked as failed. *)
Theorem doctor_text_verdict (logger : Logger) (report : DoctorReport) :
  lg_noColor logger = true → sound report →
  let '(lines, err) := doctor_text logger report in
  let marked := length (List.filter fail_line lines) in
  (err = None ↔ marked = 0) ∧ (err = None ↔ last lines = Some all_passed) ∧
  (err ≠ None → ∃ rest, last lines = Some (Itoa (Z.of_nat marked) +:+ " error(s)" +:+ rest)).
Proof.
  intros Hc Hs. unfold doctor_text. cbv zeta.
  set (fails := length (List.filter is_fail (dr_Checks report))).
  set (final := if dr_Healthy report then _ else count_parts _ _).
  set (dline := check_lines logger "daemon" _ _ _ _).
  assert (dr_Healthy report = (fails =? 0)) as Hh.
  { unfold sound in Hs. rewrite Hs. subst fails. clear. induction (dr_Checks report) as [|c l IH]; [done|]. cbn. by destruct (is_fail c). }
  assert (fails ≠ 0 → ∃ rest, final = Itoa (Z.of_nat fails) +:+ " error(s)" +:+ rest) as Hparts.
  { intros E. subst final. replace (dr_Healthy report) with false by (rewrite Hh; symmetry; by apply Nat.eqb_neq).
    apply count_parts_fails. lia. }
  assert (fail_line final = false) as Hf.
  { destruct (decide (fails = 0)) as [E|E]; [subst final; by rewrite Hh, E|].
    destruct (Hparts E) as [rest ->]. apply no_fail_line. }
  assert (length (List.filter fail_line dline) = 0) as Hd by (subst dline; by rewrite check_lines_fail by (done || by left)).
  rewrite !List.filter_app, !length_app, (filter_bind_length _ is_fail) by (intros; by apply doctor_line_fail). fold fails.
  rewrite Hd. cbn [List.filter length]. rewrite Hf. cbn [length]. rewrite !app_assoc, last_app. cbn [last].
  change (fail_line newline) with false. change (fail_line ("phonewave doctor — ecosystem health check" +:+ newline)) with false.
  cbn [length].
  replace (0 + (fails + (0 + 0))) with fails by lia. subst final. rewrite Hh in *. destruct (Nat.eqb_spec fails 0) as [E|E]; split_and!; try done.
  - split; [done|]. intros [= Ep]. by destruct (count_parts_not_passed fails (length (List.filter is_warn (dr_Checks report)))); [lia|].
  - intros _. destruct (Hparts E) as [rest ->]. by exists rest.
Qed.

Lemma doctor_text_verdict_witness :
  let report := AddWarn "skills" "none" (AddError "endpoint" "missing" (mkDoctor true [] [] (mkDaemonStatus true false 0))) in
  last (fst (doctor_text (mkLogger [] None false true) report)) = Some ("1 error(s), 1 warning(s)." +:+ newline) ∧
  snd (doctor_text (mkLogger [] None false true) report) ≠ None.
Proof.
  intros report. pose proof (doctor_text_verdict (mkLogger [] None false true) report eq_refl eq_refl) as HV.
  split; [vm_compute; reflexivity|]. destruct (doctor_text _ report) as [lines err] eqn:E. cbn [snd].
  intros ->. destruct HV as [[HV _] _]. specialize (HV eq_refl). assert (lines = fst (doctor_text (mkLogger [] None false true) report)) as El by (by rewrite E).
  rewrite El in HV. vm_compute in HV. discriminate.
Defined.

(** * The JSON of a report, as another doctor reads it *)

Lemma decode_doctor_check (c : DoctorCheck) (cur : UnifiedCheck) :
  uc_Hint cur = "" → decode_struct check_field (doctorCheckJSON c) cur = (unified_check c, true).
Proof.
  intros Hc. unfold doctorCheckJSON, unless, decode_struct, decode_members. case_bool_decide as E; cbn [app fold_left fst snd];
    (change (check_field "name" (JStr (dc_Name c)) cur) with (mkCheck (dc_Name c) (uc_Status cur) (uc_Message cur) (uc_Hint cur), true));
    cbn; unfold unified_check; by rewrite ?Hc, ?E.
Qed.
Lemma decode_doctor_checks (cs : list DoctorCheck) :
  decode_checks (if length cs =? 0 then JNull else JArr (doctorCheckJSON <$> cs)) nil_slice =
  (if length cs =? 0 then nil_slice else mkSlice (map unified_check cs) (length cs) false, true).
Proof.
  destruct cs as [|c cs]; [done|]. cbn [length Nat.eqb]. unfold decode_checks, decode_slice. cbn [fmap list_fmap].
  assert (∀ l i done, length done = i →
    decode_items (decode_struct check_field) zero_check (doctorCheckJSON <$> l) i done true = (done ++ map unified_check l, true)) as HI.
  { induction l as [|d l IH]; intros i l0 Hi; cbn [fmap list_fmap decode_items map]; [by rewrite app_nil_r|].
    rewrite lookup_ge_None_2 by lia. cbn [default]. rewrite decode_doctor_check by done.
    replace (i <? length l0) with false by (symmetry; apply Nat.ltb_ge; lia). cbn [andb].
    rewrite IH by (rewrite length_app; cbn; lia). by rewrite <- app_assoc. }
  pose proof (HI (c :: cs) 0 [] eq_refl) as E. cbn [fmap list_fmap app] in E. change (sl_array nil_slice) with (@nil UnifiedCheck).
  rewrite E. cbn [length]. by rewrite length_fmap.
Qed.

(**  the JSON of [phonewave doctor -o json] is understood by the doctor of
    all tools.  Where a tool prints this JSON, its checks come out with the
    names, statuses, messages and hints of the report, in order, and nothing
    else: the state of the daemon, which the text shows as a check, is not
    among them.  A report without checks is not understood. *)
Theorem doctor_json_understood `{JX : JSONSyntax} (report : DoctorReport) (out : bytes) :
  json_ast out = Some (FormatDoctorJSON report) →
  parse_output out = if length (dr_Checks report) =? 0 then None else Some (map unified_check (dr_Checks report)).
Proof.
  intros Ho.
  assert (∀ w, decode_struct wrapped_field (FormatDoctorJSON report) w =
    decode_checks (if length (dr_Checks report) =? 0 then JNull else JArr (doctorCheckJSON <$> dr_Checks report)) w) as HW.
  { intros w. unfold FormatDoctorJSON, unless, decode_struct, decode_members.
    destruct (length (dr_Endpoints report) =? 0); cbn [app fold_left fst snd wrapped_field];
      change (wrapped_field "healthy" (JBool (dr_Healthy report)) w) with (w, true); cbn [fst snd andb];
      (match goal with |- context [wrapped_field "checks" ?v w] => change (wrapped_field "checks" v w) with (decode_checks v w) end);
      by destruct (decode_checks _ w) as [s []]. }
  assert (format1 out = if length (dr_Checks report) =? 0 then None else Some (map unified_check (dr_Checks report))) as E1.
  { unfold format1, Unmarshal. rewrite Ho, HW, decode_doctor_checks.
    destruct (dr_Checks report) as [|c cs]; [done|]. cbn [length Nat.eqb sl_nil]. unfold items. cbn [sl_len sl_array].
    by rewrite firstn_all2 by (rewrite length_map; cbn; lia). }
  unfold parse_output. rewrite E1. destruct (length (dr_Checks report) =? 0); [|done].
  replace (format2 out) with (@None (list UnifiedCheck)) by (unfold format2, Unmarshal; by rewrite Ho).
  destruct (format3 out) as [cs|] eqn:E3; [|done]. apply format3_shadowed in E3 as [? E3]. by rewrite E1 in E3.
Qed.

Lemma doctor_json_understood_witness :
  let report := AddError "endpoint" "missing" (mkDoctor true [] [] (mkDaemonStatus true true 4711)) in
  @parse_output {| json_ast := λ _, Some (FormatDoctorJSON report) |} [] = Some [mkCheck "endpoint" "FAIL" "missing" ""].
Proof. intros report. exact (@doctor_json_understood {| json_ast := λ _, Some (FormatDoctorJSON report) |} report [] eq_refl). Defined.

(** Each directory of a new state directory is printed as made or as found,
    and there are no warnings. *)
Lemma ensured_printed stateDir mailDirs extraDirs i w :
  let entries := fst (fst (run i (EnsureStateDir stateDir mailDirs extraDirs) w)) in
  Warnings entries = [] ∧ length (PrintInitResult (Base stateDir) entries) = S (length entries).
Proof.
  cbv zeta. split; [|unfold PrintInitResult; cbn; by rewrite length_fmap].
  unfold EnsureStateDir. rewrite run_mbind.
  assert (∀ ds es v, Warnings es = [] →
    match fst (run i (for_range ds es (ensure_dir stateDir)) v) with inl es' => Warnings es' = [] | inr (es', _) => Warnings es' = [] end) as HF.
  { induction ds as [|d ds IH]; intros es v He; [exact He|]. cbn [for_range]. rewrite run_bind. unfold ensure_dir at 1.
    rewrite run_mbind, run_atom. destruct (dirExists d v) as [existed v1]. cbn [fst snd]. rewrite run_mbind, run_atom.
    destruct (os_MkdirAll d v1) as [[u|e] v2]; cbn [fst snd run mret prog_mret]; [|exact He]. apply IH.
    unfold Warnings in *. rewrite bind_app, He. by destruct existed. }
  specialize (HF (state_dirs stateDir mailDirs extraDirs) [] w eq_refl).
  destruct (run i (for_range _ _ _) w) as [[es|[es e]] v]; exact HF.
Qed.
