(* ===== verification/QueueSafety.v ===== *)
(** * The error queue as a lease-based work queue

    Histories of queue operations, with failures of any of their statements:
    names stay unique, entries keep their data, a claim is exclusive for the
    length of the lease, and an entry is handed out only below the retry
    limit. *)
From S2P Require Import Prelude GoStrings GoTime DMail Prog World ErrorQueue.

Inductive queue_op :=
  | QEnqueue (name : string) (data : bytes) (meta : ErrorMetadata)
  | QClaim (claimer : string) (maxRetries : Z)
  | QIncrement (name msg : string)
  | QResolve (name : string).

(** The operation, and the entries it hands out. *)
Definition exec (op : queue_op) (w : World) : list ErrorEntry * World :=
  match op with
  | QEnqueue n d m => ([], snd (Enqueue n d m w))
  | QClaim c k => let '(r, w') := ClaimPendingRetries c k w in
                  (match r with Ok es => es | Err _ => [] end, w')
  | QIncrement n m => ([], snd (IncrementRetry n m w))
  | QResolve n => ([], snd (MarkResolved n w))
  end.

Fixpoint exec_all (ops : list queue_op) (w : World) : list (list ErrorEntry) * World :=
  match ops with
  | [] => ([], w)
  | op :: r => let '(es, w1) := exec op w in let '(ess, w2) := exec_all r w1 in (es :: ess, w2)
  end.

(** ** What one operation does to the table *)

(** The effect of a committed operation at a clock reading. *)
Definition commit (op : queue_op) (now : Z) (rows : list ErrorRow) : list ErrorRow :=
  match op with
  | QEnqueue n d m => insert_ignore (mkErrorRow n d (em_SourceOutbox m) (em_Kind m) (em_OriginalName m)
                                       (em_Error m) (em_Attempts m) false "" None) rows
  | QClaim c k => claim_row c k now <$> rows
  | QIncrement n m => on_name n (incr_row m) rows
  | QResolve n => on_name n resolve_row rows
  end.

Definition handed_out (op : queue_op) (rows : list ErrorRow) : list ErrorEntry :=
  match op with QClaim c _ => to_entry <$> List.filter (held_by c) rows | _ => [] end.

Lemma tick_only_queue w w' : tick_only w w' → w_queue w' = w_queue w ∧ w_env w' = w_env w.
Proof. unfold tick_only. intros ->. by destruct w. Qed.

(** One statement in a transaction. *)
Lemma stmt_atomic label prefix f w :
  let w' := snd (queue_tx label (guarded prefix (λ w, (Ok tt, set_queue (f (w_queue w)) w))) w) in
  w_env w' = w_env w ∧ (w_queue w' = w_queue w ∨ w_queue w' = f (w_queue w)).
Proof.
  cbv zeta. unfold queue_tx. match goal with |- context [sql_tx ?x ?y ?z ?b w] =>
    destruct (sql_tx_cases x y z b w) as [(e & w' & -> & Ht)|(a & w2 & w3 & w' & -> & H2 & H3 & H4)] end;
    cbn [snd].
  - apply tick_only_queue in Ht as [-> ->]. by split; [|left].
  - match type of H3 with guarded ?p ?m w2 = _ =>
      destruct (guarded_cases p m w2) as [[e E]|E] end; rewrite E in H3; simplify_eq.
    apply tick_only_queue in H4 as [-> ->]. apply tick_only_queue in H2 as [E2 E3].
    cbn. rewrite E2, E3. by split; [|right].
Qed.

Lemma claim_atomic c k w :
  let '(r, w') := ClaimPendingRetries c k w in
  w_env w' = w_env w ∧
  match r with
  | Err _ => w_queue w' = w_queue w
  | Ok es => ∃ n, w_queue w' = claim_row c k (env_now (w_env w) n / Second) <$> w_queue w ∧
                  es = to_entry <$> List.filter (held_by c) (w_queue w')
  end.
Proof.
  unfold ClaimPendingRetries, queue_tx. match goal with |- context [sql_tx ?x ?y ?z ?b w] =>
    destruct (sql_tx_cases x y z b w) as [(e & w' & -> & Ht)|(es & w2 & w3 & w' & -> & H2 & H3 & H4)] end.
  - by apply tick_only_queue in Ht as [-> ->].
  - apply tick_only_queue in H4 as [Eq Ee]. rewrite Eq, Ee. apply tick_only_queue in H2 as [E2 E3].
    unfold Now in H3.
    repeat (match type of H3 with guarded ?p ?m ?x = _ =>
      destruct (guarded_cases p m x) as [[e E']|E'] end; rewrite E' in H3; [done|]; clear E').
    simplify_eq. split; [done|]. exists (w_tick w2). split; [|done]. cbn [bump set_tick set_queue w_queue w_env].
    by rewrite E2, E3.
Qed.

(** Every operation is all or nothing. *)
Lemma exec_atomic op w :
  w_env (snd (exec op w)) = w_env w ∧
  ((w_queue (snd (exec op w)) = w_queue w ∧ fst (exec op w) = []) ∨
   ∃ n, let rows := commit op (env_now (w_env w) n / Second) (w_queue w) in
        w_queue (snd (exec op w)) = rows ∧ fst (exec op w) = handed_out op rows).
Proof.
  destruct op as [n d m|c k|n m|n]; cbn [exec fst snd commit handed_out].
  - destruct (stmt_atomic ("enqueue " +:+ n) ("error queue store: enqueue " +:+ n +:+ ": ")
      (insert_ignore (mkErrorRow n d (em_SourceOutbox m) (em_Kind m) (em_OriginalName m)
                        (em_Error m) (em_Attempts m) false "" None)) w) as [HE [HQ|HQ]];
      (split; [exact HE|]); [left; by split|right; exists 0; by split].
  - pose proof (claim_atomic c k w) as HC. destruct (ClaimPendingRetries c k w) as [[es|e] w'];
      cbn [fst snd]; destruct HC as [HE HC]; (split; [done|]); [right|by left].
    destruct HC as (n & E & ->). exists n. by rewrite E.
  - destruct (stmt_atomic ("increment " +:+ n) ("error queue store: increment retry " +:+ n +:+ ": ")
      (on_name n (incr_row m)) w) as [HE [HQ|HQ]];
      (split; [exact HE|]); [left; by split|right; exists 0; by split].
  - destruct (stmt_atomic ("resolved " +:+ n) ("error queue store: mark resolved " +:+ n +:+ ": ")
      (on_name n resolve_row) w) as [HE [HQ|HQ]];
      (split; [exact HE|]); [left; by split|right; exists 0; by split].
Qed.

(** An invariant of the table that every committed operation keeps holds
    after any history, and what it says of the entries handed out holds of
    every batch. *)
Lemma exec_all_invariant (I : list ErrorRow → Prop) (ok : queue_op → Prop) (P : list ErrorEntry → Prop) (env : Env) :
  P [] →
  (∀ op n rows, ok op → I rows →
     let rows' := commit op (env_now env n / Second) rows in I rows' ∧ P (handed_out op rows')) →
  ∀ ops w, w_env w = env → Forall ok ops → I (w_queue w) →
    I (w_queue (snd (exec_all ops w))) ∧ Forall P (fst (exec_all ops w)).
Proof.
  intros HP HI ops. induction ops as [|op ops IH]; intros w Hw Hok Hi; [done|].
  apply Forall_cons in Hok as [Hop Hops]. cbn [exec_all].
  pose proof (exec_atomic op w) as [Ee Ha]. destruct (exec op w) as [es w1]. cbn [fst snd] in *.
  specialize (IH w1). destruct (exec_all ops w1) as [ess w2]. cbn [fst snd] in *.
  assert (I (w_queue w1) ∧ P es) as [Hi1 Hes].
  { destruct Ha as [[-> ->]|(n & -> & ->)]; [done|]. rewrite Hw. by apply HI. }
  destruct IH as [? ?]; [congruence|done|done|]. split; [done|by constructor].
Qed.

(** ** Names *)

Definition names (rows : list ErrorRow) : list string := er_name <$> rows.

Lemma commit_names op now rows : NoDup (names rows) → NoDup (names (commit op now rows)).
Proof.
  assert (∀ f, (∀ r, er_name (f r) = er_name r) → names (f <$> rows) = names rows) as Hmap.
  { intros f Hf. unfold names. rewrite <- list_fmap_compose. apply list_fmap_ext. intros i r _. apply Hf. }
  intros HN. destruct op as [n d m|c k|n m|n]; cbn [commit].
  - unfold insert_ignore. destruct (existsb _ rows) eqn:E; [done|]. unfold names. rewrite fmap_app.
    apply NoDup_app. split_and!; [done| |apply NoDup_singleton].
    intros x (r & -> & Hr)%list_elem_of_fmap Hx%list_elem_of_singleton. apply not_true_iff_false in E. apply E, existsb_exists.
    exists r. rewrite <- list_elem_of_In. split; [done|]. by apply bool_decide_eq_true.
  - rewrite Hmap; [done|]. intros r. unfold claim_row. by case_match.
  - unfold on_name. rewrite Hmap; [done|]. intros r. by case_bool_decide.
  - unfold on_name. rewrite Hmap; [done|]. intros r. by case_bool_decide.
Qed.

(** ** Leases *)

(** An operation of somebody else that leaves the named entries alone. *)
Definition others_op (me : string) (mine : list string) (op : queue_op) : Prop :=
  match op with
  | QEnqueue _ _ _ => True
  | QClaim c _ => c ≠ me
  | QIncrement n _ | QResolve n => n ∉ mine
  end.

(** The named rows are there and leased to the claimer since [T] or later. *)
Definition leased (me : string) (T : Z) (mine : list string) (rows : list ErrorRow) : Prop :=
  (∀ n, n ∈ mine → n ∈ names rows) ∧
  ∀ r, r ∈ rows → er_name r ∈ mine → er_claimed_by r = me ∧ ∃ t, er_claimed_at r = Some t ∧ (T ≤ t)%Z.

Lemma leased_map me T mine f rows :
  (∀ r, er_name (f r) = er_name r) → (∀ r, er_name r ∈ mine → er_claimed_by r = me →
     (∃ t, er_claimed_at r = Some t ∧ (T ≤ t)%Z) → f r = r) →
  leased me T mine rows → leased me T mine (f <$> rows).
Proof.
  intros Hn Hf [HN HL]. split.
  - intros n (r & -> & Hr)%HN%list_elem_of_fmap. apply list_elem_of_fmap. exists (f r).
    split; [by rewrite Hn|]. apply list_elem_of_fmap. by exists r.
  - intros r (r0 & -> & Hr0)%list_elem_of_fmap. rewrite Hn. intros Hm.
    destruct (HL r0 Hr0 Hm) as [Hc Ht]. rewrite Hf by done. done.
Qed.

Lemma leased_commit me T mine op now rows :
  me ≠ "" → (now ≤ T + lease)%Z → others_op me mine op →
  leased me T mine rows → leased me T mine (commit op now rows).
Proof.
  intros Hme Hnow Hop HL. destruct op as [n d m|c k|n m|n]; cbn [commit others_op] in *.
  - unfold insert_ignore. destruct (existsb _ rows) eqn:E; [done|]. destruct HL as [HN HL]. split.
    + intros x Hx%HN. unfold names in *. rewrite fmap_app. apply elem_of_app. by left.
    + intros r [Hr| ->%list_elem_of_singleton]%elem_of_app Hm; [by apply HL|]. cbn in Hm.
      apply HN in Hm. apply list_elem_of_fmap in Hm as (r & Er & Hr).
      apply not_true_iff_false in E. destruct E. apply existsb_exists. exists r.
      rewrite <- list_elem_of_In. split; [done|]. by apply bool_decide_eq_true.
  - apply leased_map; [| |done].
    + intros r. unfold claim_row. by case_match.
    + intros r _ Hc (t & Ht & HT). unfold claim_row, claimable, expired. rewrite Hc, Ht.
      rewrite bool_decide_eq_false_2 by done. replace (t <? now - lease)%Z with false by (symmetry; lia).
      by rewrite andb_false_r.
  - apply leased_map; [| |done].
    + intros r. by case_bool_decide.
    + intros r Hm _ _. case_bool_decide; [|done]. by subst n.
  - apply leased_map; [| |done].
    + intros r. by case_bool_decide.
    + intros r Hm _ _. case_bool_decide; [|done]. by subst n.
Qed.

(** A batch that shares no entry with the given names. *)
Definition disjoint_from (mine : list string) (es : list ErrorEntry) : Prop :=
  ∀ e, e ∈ es → ee_Name e ∉ mine.

Lemma leased_handed_out me T mine op rows :
  leased me T mine rows → others_op me mine op → disjoint_from mine (handed_out op rows).
Proof.
  intros [_ HL] Hop e He. destruct op as [n d m|c k|n m|n]; cbn [handed_out] in He; try by apply elem_of_nil in He.
  apply list_elem_of_fmap in He as (r & -> & Hr). rewrite elem_of_bfilter in Hr.
  destruct Hr as [Hr [Hc%bool_decide_eq_true _]%andb_true_iff]. intros Hm.
  destruct (HL r Hr Hm) as [Hc' _]. cbn in Hop. congruence.
Qed.

(** A successful claim by someone who held nothing leases what it returns. *)
Lemma claim_leases me k w es w1 T :
  NoDup (names (w_queue w)) → (∀ r, r ∈ w_queue w → held_by me r = false) →
  (∀ n, (T ≤ env_now (w_env w) n / Second)%Z) →
  ClaimPendingRetries me k w = (Ok es, w1) →
  leased me T (ee_Name <$> es) (w_queue w1).
Proof.
  intros HN Hfree Hclock E. pose proof (claim_atomic me k w) as HC. rewrite E in HC.
  destruct HC as (_ & n & Eq & ->). set (now := (env_now (w_env w) n / Second)%Z) in *.
  assert (NoDup (names (w_queue w1))) as HN1 by (rewrite Eq; by apply (commit_names (QClaim me k) now)).
  assert (∀ x, x ∈ ee_Name <$> (to_entry <$> List.filter (held_by me) (w_queue w1)) →
            ∃ r, r ∈ w_queue w1 ∧ er_name r = x ∧ held_by me r = true) as Hmine.
  { intros x (e & -> & (r & -> & Hr)%list_elem_of_fmap)%list_elem_of_fmap.
    rewrite elem_of_bfilter in Hr. exists r. by destruct Hr. }
  split.
  - intros x (r & Hr & <- & _)%Hmine. apply list_elem_of_fmap. by exists r.
  - intros r Hr (r' & Hr' & En & Hh)%Hmine.
    assert (r = r') as <-.
    { apply list_elem_of_lookup in Hr as [i Hi]. apply list_elem_of_lookup in Hr' as [j Hj].
      assert (i = j) as <-; [|congruence].
      eapply (NoDup_lookup (names (w_queue w1)) i j (er_name r)); [done|..];
        unfold names; rewrite list_lookup_fmap; [by rewrite Hi|by rewrite Hj, <- En]. }
    rewrite Eq in Hr. apply list_elem_of_fmap in Hr as (r0 & -> & Hr0). specialize (Hfree r0 Hr0).
    unfold claim_row in *. destruct (claimable k now r0); [|congruence]. cbn. split; [done|].
    exists now. split; [done|]. apply Hclock.
Qed.

(** C23: a claim is exclusive for the length of the lease.  Suppose a claimer
    that holds nothing claims entries, and that for the next five minutes of
    clock readings any other operations follow, each of which may fail at any
    statement: other processes enqueue, claim, and report on entries that are
    not among the claimed ones.  Then no other claim is handed any of the
    claimed entries; and every unclaimed entry below the claimer's retry
    limit was among them. *)
Theorem claims_are_exclusive (me : string) (k T : Z) (w w1 : World) (es : list ErrorEntry) (ops : list queue_op) :
  me ≠ "" →
  NoDup (names (w_queue w)) →
  (∀ r, r ∈ w_queue w → held_by me r = false) →
  (∀ n, T ≤ env_now (w_env w) n / Second ≤ T + lease)%Z →
  ClaimPendingRetries me k w = (Ok es, w1) →
  Forall (others_op me (ee_Name <$> es)) ops →
  Forall (disjoint_from (ee_Name <$> es)) (fst (exec_all ops w1)) ∧
  (∀ r, r ∈ w_queue w → pending k r = true → er_claimed_by r = "" → to_entry r ∈ es).
Proof.
  intros Hme HN Hfree Hclock E Hops. split.
  - eapply (exec_all_invariant (leased me T (ee_Name <$> es)) (others_op me (ee_Name <$> es))
      (disjoint_from (ee_Name <$> es)) (w_env w1)); [by intros e ?%elem_of_nil| |done|done|].
    + intros op n rows Hop HL. assert (leased me T (ee_Name <$> es) (commit op (env_now (w_env w1) n / Second) rows)) as HL'.
      { apply leased_commit; [done| |done|done]. pose proof (claim_atomic me k w) as HC. rewrite E in HC.
        destruct HC as [-> _]. apply Hclock. }
      split; [done|]. by eapply leased_handed_out.
    + eapply claim_leases; [done|done|apply Hclock|done].
  - intros r Hr Hp Hc. pose proof (claim_atomic me k w) as HC. rewrite E in HC.
    destruct HC as (_ & n & Eq & ->). set (now := (env_now (w_env w) n / Second)%Z) in *.
    apply list_elem_of_fmap. exists (set_claim me (Some now) r). split; [done|].
    rewrite elem_of_bfilter, Eq. unfold pending in Hp. split.
    + apply list_elem_of_fmap. exists r. split; [|done]. unfold claim_row, claimable.
      rewrite Hp, Hc. done.
    + apply andb_true_iff in Hp as [Hp _]. unfold held_by. cbn. rewrite bool_decide_eq_true_2 by done. done.
Qed.

Definition queue_env : Env := mkEnv (λ _, None) (λ n, (Z.of_nat (n mod 60) * Second)%Z) (λ _, 0%Z) (λ _, "x") (λ _, 0).
Definition queue_world : World :=
  mkWorld ∅ ∅ [] [] [] [mkErrorRow "a" [] "/o" "report" "a.md" "boom" 1 false "" None;
                      mkErrorRow "b" [] "/o" "report" "b.md" "boom" 9 false "daemon-2" (Some 0%Z)]
    [] None None no_state [] [] 0 queue_env.

Lemma claims_are_exclusive_witness :
  let '(r, w1) := ClaimPendingRetries "daemon-1" 10 queue_world in
  r = Ok [mkEntry "a" [] "/o" "report" "a.md" "boom" 1] ∧
  Forall (disjoint_from ["a"])
    (fst (exec_all [QClaim "daemon-2" 10; QIncrement "b" "again"; QClaim "daemon-3" 10] w1)).
Proof.
  assert (∃ w1, ClaimPendingRetries "daemon-1" 10 queue_world =
            (Ok [mkEntry "a" [] "/o" "report" "a.md" "boom" 1], w1)) as [w1 E].
  { eexists. vm_compute. reflexivity. }
  rewrite E. split; [done|].
  apply (claims_are_exclusive "daemon-1" 10 0 queue_world w1 [mkEntry "a" [] "/o" "report" "a.md" "boom" 1]).
  - done.
  - vm_compute. rewrite !NoDup_cons. split_and!; [|by apply not_elem_of_nil|by apply NoDup_nil].
    rewrite list_elem_of_singleton. done.
  - intros r. cbn. rewrite !elem_of_cons. intros [->|[->|?%elem_of_nil]]; done.
  - intros n. cbn [queue_world w_env queue_env env_now]. rewrite Z.div_mul by done. unfold lease.
    pose proof (Nat.mod_upper_bound n 60). lia.
  - exact E.
  - repeat constructor; cbn; [done| |done]. rewrite list_elem_of_singleton. done.
Defined.

(** ** Retry limit *)

(** Operations of a system with one retry limit and real claimers. *)
Definition limit_op (ops : list queue_op) (k : Z) (op : queue_op) : Prop :=
  op ∈ ops ∧ match op with QClaim c k' => c ≠ "" ∧ k' = k | _ => True end.

(** A row was enqueued by one of the operations, its count has not gone below
    the one it was filed with, and while somebody holds it it is below the
    limit. *)
Definition row_history (ops : list queue_op) (k : Z) (r : ErrorRow) : Prop :=
  (∃ meta, QEnqueue (er_name r) (er_data r) meta ∈ ops ∧ er_source_outbox r = em_SourceOutbox meta ∧
     er_original_name r = em_OriginalName meta ∧ (em_Attempts meta ≤ er_retry_count r)%Z) ∧
  (er_resolved r = false → er_claimed_by r ≠ "" → (er_retry_count r < k)%Z).

Lemma row_history_commit ops k op now rows :
  limit_op ops k op → Forall (row_history ops k) rows → Forall (row_history ops k) (commit op now rows).
Proof.
  intros [Hin Hop] HF. destruct op as [n d m|c k'|n m|n]; cbn [commit].
  - unfold insert_ignore. destruct (existsb _ rows); [done|]. apply Forall_app. split; [done|].
    apply Forall_singleton. split; [|done]. exists m. split_and!; [done..|]. cbn. lia.
  - apply Forall_fmap. eapply Forall_impl; [exact HF|]. intros r [He Hh]. cbn. unfold claim_row.
    destruct (claimable k' now r) eqn:E; [|done]. split; [exact He|]. cbn. intros _ _. destruct Hop as [_ ->].
    unfold claimable in E. lia.
  - apply Forall_fmap. eapply Forall_impl; [exact HF|]. intros r [(meta & Hm & ? & ? & ?) Hh]. cbn.
    case_bool_decide; [|split; [by exists meta|done]]. split; [|done].
    exists meta. split_and!; [done..|]. cbn. lia.
  - apply Forall_fmap. eapply Forall_impl; [exact HF|]. intros r [He Hh]. cbn.
    case_bool_decide; [|done]. split; [exact He|done].
Qed.

(** C24: what the queue hands out.  In any history of queue operations from an
    empty table, with failures at any statement and one retry limit, every
    entry a claimer gets was enqueued earlier in that history under the same
    name with the same data, outbox and file name, has a retry count at least
    the one it was filed with, and below the limit: an exhausted entry is
    never retried again. *)
Theorem claimed_entries_below_limit (k : Z) (ops : list queue_op) (w : World) :
  w_queue w = [] →
  Forall (λ op, match op with QClaim c k' => c ≠ "" ∧ k' = k | _ => True end) ops →
  Forall (Forall (λ e, (ee_RetryCount e < k)%Z ∧
    ∃ meta, QEnqueue (ee_Name e) (ee_Data e) meta ∈ ops ∧ ee_SourceOutbox e = em_SourceOutbox meta ∧
      ee_OriginalName e = em_OriginalName meta ∧ (em_Attempts meta ≤ ee_RetryCount e)%Z))
    (fst (exec_all ops w)).
Proof.
  intros Hw Hops. eapply (exec_all_invariant (Forall (row_history ops k)) (limit_op ops k) _ (w_env w)).
  - done.
  - intros op n rows Hop HI. set (rows' := commit _ _ _).
    assert (Forall (row_history ops k) rows') as HI' by by apply row_history_commit. split; [done|].
    destruct Hop as [_ Hc]. destruct op as [| c k' | |]; cbn [handed_out]; try done. destruct Hc as [Hc _].
    apply Forall_fmap, Forall_forall. intros r Hr. rewrite elem_of_bfilter in Hr.
    destruct Hr as [Hr [Hh%bool_decide_eq_true Hn%negb_true_iff]%andb_true_iff].
    destruct (Forall_forall (row_history ops k) rows') as [HF _]. destruct (HF HI' r Hr) as [(meta & ? & ? & ? & ?) Hl].
    split; [apply Hl; congruence|]. by exists meta.
  - done.
  - apply Forall_forall. intros op Hop. split; [done|]. by apply (proj1 (Forall_forall _ _) Hops).
  - rewrite Hw. constructor.
Qed.

Lemma claimed_entries_below_limit_witness :
  let ops := [QEnqueue "a" [] (mkMeta "/o" "report" "a.md" 1 "boom" 0); QClaim "daemon-1" 2;
              QIncrement "a" "again"; QClaim "daemon-1" 2] in
  let w := set_queue [] queue_world in
  (length <$> fst (exec_all ops w)) = [0; 1; 0; 0] ∧
  Forall (Forall (λ e, (ee_RetryCount e < 2)%Z)) (fst (exec_all ops w)).
Proof.
  intros ops w. split; [vm_compute; reflexivity|].
  assert (Forall (λ op, match op with QClaim c k' => c ≠ "" ∧ k' = 2%Z | _ => True end) ops) as Hops
    by (by repeat constructor).
  pose proof (claimed_entries_below_limit 2 ops w eq_refl Hops) as HF.
  eapply Forall_impl; [exact HF|]. intros es Hes. eapply Forall_impl; [exact Hes|]. by intros e [? _].
Defined.
