(* ===== verification/Findings.v ===== *)
(** * Behaviours of the pipeline that its callers do not expect

    Executable scenarios, each run on the definitions of the other files:
    they show where the hypotheses of the safety theorem are needed and what
    the daemon reports in corner cases. *)
From S2P Require Import Prelude GoStrings GoPath GoTime Sha256 Bloom Provider Breaker DMail Improvement Prog World DeliveryStore ErrorQueue Deliver Safety DeliverSafety Daemon DaemonSafety.

(** ** One clock reading for two failures *)

(** Two outboxes, each with a file of the same name that is not a D-Mail. *)
Definition bad_a : bytes := raw "first".
Definition bad_b : bytes := raw "second".

Definition stuck_clock_env : Env := mkEnv (λ _, None) (λ _, 0%Z) (λ _, 0%Z) (λ _, "7") (λ _, 0).

Definition collision_world : World :=
  mkWorld {["/a/outbox" := NDir; "/a/outbox/x.md" := NFile bad_a;
            "/b/outbox" := NDir; "/b/outbox/x.md" := NFile bad_b]}
    ∅ [] [] [] [] [] None None no_state [] [] 0 stuck_clock_env.

Definition collision_tasks : config unit :=
  (task_prog (H := sample_external) sample_daemon <$> [TScan "/a/outbox"; TScan "/b/outbox"], collision_world).

(**  the name of an error queue entry is not unique.  Two failures of
    files with one name and one kind, filed at the same clock reading from
    different outboxes, get one queue name; [Enqueue] ignores the second
    entry and reports success, and the scan then removes the second file.  In
    the final world no file and no queue entry holds its content, and it was
    never delivered. *)
Theorem queue_name_collision_loses_dmail :
  ∃ c, rtc pool_step collision_tasks c ∧
    w_fs (snd collision_tasks) !! "/b/outbox/x.md" = Some (NFile bad_b) ∧
    w_fs (snd c) !! "/b/outbox/x.md" = None ∧
    er_data <$> w_queue (snd c) = [bad_a] ∧
    w_trace (snd c) = [ERemoved "/b/outbox/x.md"; ERemoved "/a/outbox/x.md"].
Proof.
  exists (sched collision_tasks (replicate 12 0 ++ replicate 12 1)). split; [apply sched_reachable|].
  split_and!; vm_compute; reflexivity.
Qed.

(** ** A delivery that reaches no inbox *)

(** The route's only inbox does not exist. *)
Definition gone_routes : list ResolvedRoute :=
  [mkRoute "specification" "/r/.siren/outbox" ["/gone/inbox"]].

Definition gone_daemon : Daemon :=
  mkDaemon gone_routes ["/r/.siren/outbox"] "/r/.phonewave" false (60 * Second) 10 0
    true true true true true 42.

Definition queued_row : ErrorRow :=
  mkErrorRow "2026-01-01T000000.000000000-specification-spec.md" sample_dmail "/r/.siren/outbox"
    "specification" "spec.md" "boom" 1 false "" None.

Definition retry_world : World :=
  set_queue [queued_row] (sample_world [] no_fault_env).

(**  [DeliverData] reports success when every write of its flush failed,
    and the retry loop believes it.  With the inbox directory missing, a
    retry of a queued D-Mail counts as one success, marks the entry resolved
    and emits the retry event, although nothing was delivered anywhere: the
    D-Mail is then only in the staged table, with one of its three flush
    attempts used. *)
Theorem retry_resolves_undelivered :
  let '(successes, w) := run 0 (retryPending (H := sample_external) gone_daemon) retry_world in
  successes = 1 ∧ er_resolved <$> w_queue w = [true] ∧
  w_trace w = [] ∧ w_dedup w = [] ∧
  w_events w = [EmitRetry "spec.md" "specification"] ∧
  (λ r, (sr_path r, sr_target r, sr_flushed r, sr_retry r)) <$> w_staged w =
    [(sample_path, "/gone/inbox/spec.md", false, 1%Z)].
Proof. vm_compute. split_and!; reflexivity. Qed.

(**  the watcher reports such a delivery as completed too: it records a
    success with the breaker and emits the delivery event while the D-Mail
    has reached no inbox (the source stays in the outbox). *)
Theorem event_reports_undelivered :
  let '(_, w) := run 0 (handleEvent (H := sample_external) gone_daemon (mkFsEvent sample_path true false))
                   (sample_world [(sample_path, sample_dmail)] no_fault_env) in
  w_events w = [EmitDelivery sample_path "specification"] ∧
  w_trace w = [] ∧ w_fs w !! sample_path = Some (NFile sample_dmail) ∧ w_queue w = [].
Proof. vm_compute. split_and!; reflexivity. Qed.

(** ** Two readings of MaxRetries *)

(** A daemon whose only queued D-Mail has no route, so that its retries fail. *)
Definition retry_daemon (maxRetries : Z) : Daemon :=
  mkDaemon [] [] "/r/.phonewave" false (60 * Second) maxRetries 0 true true true true true 42.

Definition breaker_world : World :=
  set_cb (Some NewCircuitBreaker) (set_queue [queued_row] (sample_world [] no_fault_env)).

Definition breaker_after (maxRetries : Z) : option circuitState * list Z :=
  let w := snd (run 0 (retry_cycle (H := sample_external) (retry_daemon maxRetries)
                         [mkPass false 0 0 WakeTimer] (NewRetryBackoff (60 * Second) (600 * Second))) breaker_world) in
  (cb_state <$> w_cb w, er_retry_count <$> w_queue w).

(**  the retry cycle reads [MaxRetries] in two ways.  [retryPending] takes
    a non-positive value as 10, and retries the entry (its count goes to 2 in
    both runs); the check that trips the breaker passes the raw value to
    [PendingCount], which then counts nothing.  So a cycle with no success
    opens the breaker when [MaxRetries] is 10 and leaves it closed when it is
    0. *)
Theorem zero_max_retries_never_trips :
  breaker_after 10 = (Some circuitOpen, [2%Z]) ∧ breaker_after 0 = (Some circuitClosed, [2%Z]) ∧
  max_retries (retry_daemon 0) = max_retries (retry_daemon 10).
Proof. vm_compute. split_and!; reflexivity. Qed.
